(** * heydwiki-backend: request validation, error normalisation, auth gate
    and controllers, embedded from the TypeScript sources.

  Layout (one module per source file):
  - [Js]            the parts of the JavaScript runtime the code relies on:
                    UTF-16 strings, [trim], [startsWith], [slice], [<] on
                    strings, JSON values;
  - [AppErr]        utils/app-error.ts;
  - [Validators]    utils/validators.ts;
  - the later modules follow the middleware and the controllers. *)

From Stdlib Require Import ZArith NArith List String Ascii Bool Lia SpecFloat.
From Stdlib Require Import DecimalString.
From stdpp Require Import base decidable option list numbers countable gmap.

Set Warnings "-register-all,-at-level-200-changed".

Local Open Scope N_scope.
Local Open Scope list_scope.

(* ===================================================================== *)
(** ** The JavaScript runtime                                             *)
(* ===================================================================== *)

Module Js.

(** A JavaScript string is a sequence of UTF-16 code units. *)
Definition codeunit := N.
Definition jsstring := list N.

(** Code units of an ASCII literal of the source text. *)
Definition str (s : string) : jsstring :=
  List.map N_of_ascii (list_ascii_of_string s).

(** [a < b] on strings: lexicographic order on the code units
    (ECMA-262, IsLessThan on two strings). *)
Fixpoint str_ltb (a b : jsstring) : bool :=
  match a, b with
  | _, [] => false
  | [], _ :: _ => true
  | x :: a', y :: b' =>
      if x <? y then true
      else if y <? x then false
      else str_ltb a' b'
  end.

(** WhiteSpace and LineTerminator code points, the ones
    [String.prototype.trim] strips (all of them are single code units). *)
Definition isWhiteSpace (c : codeunit) : bool :=
  (c =? 9) || (c =? 10) || (c =? 11) || (c =? 12) || (c =? 13)
  || (c =? 32) || (c =? 160) || (c =? 5760)
  || ((8192 <=? c) && (c <=? 8202))
  || (c =? 8232) || (c =? 8233) || (c =? 8239) || (c =? 8287)
  || (c =? 12288) || (c =? 65279).

Fixpoint trimStart (s : jsstring) : jsstring :=
  match s with
  | c :: s' => if isWhiteSpace c then trimStart s' else s
  | [] => []
  end.

Definition trimEnd (s : jsstring) : jsstring :=
  rev (trimStart (rev s)).

Definition trim (s : jsstring) : jsstring := trimEnd (trimStart s).

(** [s.length] *)
Definition str_length (s : jsstring) : N := N.of_nat (List.length s).

(** [s.startsWith(p)] *)
Fixpoint startsWith (s p : jsstring) : bool :=
  match p, s with
  | [], _ => true
  | _ :: _, [] => false
  | x :: p', y :: s' => (x =? y) && startsWith s' p'
  end.

(** [s.slice(n)] for [0 <= n] *)
Definition slice (s : jsstring) (n : nat) : jsstring := drop n s.

(** ToBoolean on a string: only the empty string is falsy. *)
Definition truthy_str (s : jsstring) : bool :=
  match s with [] => false | _ :: _ => true end.

(** A value that may be [undefined] or [null] (TypeScript's
    [T | null | undefined]). *)
Inductive nullish (A : Type) : Type :=
| undefined : nullish A
| null : nullish A
| val : A -> nullish A.
Arguments undefined {A}.
Arguments null {A}.
Arguments val {A} _.

(** [a ?? b] *)
Definition coalesce {A} (a : nullish A) (b : nullish A) : nullish A :=
  match a with
  | val _ => a
  | _ => b
  end.

(** [Boolean(s)] on a string, [!s] is its negation. *)
Definition isEmpty (s : jsstring) : bool := negb (truthy_str s).

(** Decimal digits of a non-negative integer, as in a template literal
    [`${n}`] with an integral [n]. *)
Definition N_to_str (n : N) : jsstring :=
  str (NilEmpty.string_of_uint (N.to_uint n)).

(** *** Numbers

    A JavaScript number is an IEEE 754 binary64 value.  The operations are
    the ones of the Standard Library's specification of binary floating
    point, at precision 53 and maximal exponent 1024. *)
Definition prec : Z := 53.
Definition emax : Z := 1024.
Definition number := spec_float.
Definition NaN : number := S754_nan.

(** The double nearest to an integer (exact below 2^53). *)
Definition ofZ (z : Z) : number := binary_normalize prec emax z 0 false.

Definition num_sub : number -> number -> number := SFsub prec emax.
Definition num_mul : number -> number -> number := SFmul prec emax.
Definition num_div : number -> number -> number := SFdiv prec emax.
Definition num_ltb : number -> number -> bool := SFltb.
Definition num_leb : number -> number -> bool := SFleb.

(** [Number.isInteger(x)]: finite with no fractional part. *)
Definition isInteger (x : number) : bool :=
  match x with
  | S754_zero _ => true
  | S754_finite _ m e =>
      if (0 <=? e)%Z then true
      else (Z.pos m mod 2 ^ (- e) =? 0)%Z
  | S754_infinity _ | S754_nan => false
  end.

(** The integer an integral number stands for. *)
Definition intValue (x : number) : option Z :=
  match x with
  | S754_zero _ => Some 0%Z
  | S754_finite s m e =>
      if (0 <=? e)%Z then Some (cond_Zopp s (Z.pos m * 2 ^ e))%Z
      else if (Z.pos m mod 2 ^ (- e) =? 0)%Z
           then Some (cond_Zopp s (Z.pos m / 2 ^ (- e)))%Z
           else None
  | S754_infinity _ | S754_nan => None
  end.

(** [Math.ceil(x)] *)
Definition Math_ceil (x : number) : number :=
  match x with
  | S754_finite s m e =>
      if (0 <=? e)%Z then x
      else
        let c := (- ((- cond_Zopp s (Z.pos m)) / 2 ^ (- e)))%Z in
        if (c =? 0)%Z then S754_zero s else ofZ c
  | _ => x
  end.

(** ToBoolean on a number: [0], [-0] and [NaN] are falsy. *)
Definition truthy_num (x : number) : bool :=
  match x with
  | S754_zero _ | S754_nan => false
  | _ => true
  end.

(** *** JSON values, as [express.json()] (JSON.parse) builds them.
    An object keeps its members in source order; a later duplicate key
    overrides an earlier one. *)
Inductive Json : Type :=
| JNull : Json
| JBool : bool -> Json
| JNumber : number -> Json
| JString : jsstring -> Json
| JArray : list Json -> Json
| JObject : list (jsstring * Json) -> Json.

(** A value of type [unknown] read from a request: [None] is [undefined]. *)
Definition unknown := option Json.

(** [v !== undefined] *)
Definition isDefined (v : unknown) : bool :=
  match v with Some _ => true | None => false end.

(** Member lookup in the member list of an object. *)
Fixpoint getMember (members : list (jsstring * Json)) (k : jsstring) : unknown :=
  match members with
  | [] => None
  | (k', v) :: rest =>
      match getMember rest k with
      | Some v' => Some v'
      | None => if decide (k' = k) then Some v else None
      end
  end.

(** [o.k] / [o[k]] on a parsed body or query; a non-object has none of the
    properties the handlers read. *)
Definition prop (o : Json) (k : string) : unknown :=
  match o with
  | JObject members => getMember members (str k)
  | _ => None
  end.

(** [Boolean(v)] *)
Definition toBoolean (v : unknown) : bool :=
  match v with
  | None | Some JNull => false
  | Some (JBool b) => b
  | Some (JNumber n) => truthy_num n
  | Some (JString s) => truthy_str s
  | Some (JArray _) | Some (JObject _) => true
  end.

(** [new URL(...)] objects: the fields the code reads. *)
Record URL := mkURL { protocol : jsstring; href : jsstring }.

(** The payload [jwt.verify] decodes: the claims the code reads. *)
Record JwtPayload := mkJwtPayload { sub : unknown; email : unknown }.

(** The platform and library functions the sources call and do not define. *)
Class Host := {
  (** [String.prototype.toLowerCase] *)
  toLowerCase : jsstring -> jsstring;
  (** [new URL(value)]; [None] when the constructor throws *)
  newURL : jsstring -> option URL;
  (** [Number(value)] on a defined value, where the conversion returns
      (see [conversionThrows] for the values on which it throws) *)
  toNumber : Json -> number;
  (** [sanitizeHtml(input, options)] with the options of [sanitizeRichHtml] *)
  sanitizeHtml : jsstring -> jsstring;
  (** [jwt.verify(token, secret)]: the decoded payload, or the message of
      the error it throws (malformed, badly signed or expired token) *)
  jwt_verify : jsstring -> jsstring -> (jsstring + JwtPayload)%type;
  (** [String(Object.prototype[key])] for a name [Object.prototype] has a
      member of ([constructor], [toString], [__proto__] and the like): the
      text of the function or object found there; [None] for any other
      name *)
  inheritedText : jsstring -> option jsstring
}.

(** [Number(value)] *)
Definition Number_ `{Host} (v : unknown) : number :=
  match v with
  | None => NaN
  | Some j => toNumber j
  end.

(** Where [Number(value)] and [String(value)] throw a TypeError instead of
    returning.  To convert an object, [valueOf] and [toString] are called, if
    they are functions, until one returns a primitive.  A member of a parsed
    body is never a function, and the [valueOf] an object inherits returns
    the object itself: so an object with a member [toString] of its own has
    no primitive value, and an array that has such an object among its
    entries, however deep, has none either, since its text is made of the
    texts of its entries.  Every other value converts. *)
Fixpoint conversionThrows (j : Json) : bool :=
  match j with
  | JObject members => isDefined (getMember members (str "toString"))
  | JArray entries => existsb conversionThrows entries
  | _ => false
  end.

(** [Number(value)] returns: the value is [undefined] or converts. *)
Definition converts (v : unknown) : Prop :=
  match v with
  | None => True
  | Some j => conversionThrows j = false
  end.

End Js.

Export Js.

(* ===================================================================== *)
(** ** utils/app-error.ts                                                 *)
(* ===================================================================== *)

Module AppErr.

(** [class AppError extends Error] *)
Record AppError := mkAppError {
  statusCode : Z;
  code : jsstring;
  message : jsstring;
  details : unknown
}.

(** [new AppError(statusCode, code, message)] *)
Definition newAppError (status : Z) (c : string) (msg : jsstring) : AppError :=
  mkAppError status (str c) msg None.

(** A computation that returns or throws an [AppError]. *)
Inductive throws (A : Type) : Type :=
| Ok : A -> throws A
| Throw : AppError -> throws A.
Arguments Ok {A} _.
Arguments Throw {A} _.

Definition bind {A B} (m : throws A) (k : A -> throws B) : throws B :=
  match m with
  | Ok a => k a
  | Throw e => Throw e
  end.

Definition isThrow {A} (m : throws A) : bool :=
  match m with Throw _ => true | Ok _ => false end.

(** The machine-readable code a computation throws, if it throws. *)
Definition thrownCode {A} (m : throws A) : option jsstring :=
  match m with Throw e => Some (code e) | Ok _ => None end.

Definition BAD_REQUEST {A} (msg : jsstring) : throws A :=
  Throw (newAppError 400 "BAD_REQUEST" msg).

End AppErr.

Export AppErr.

Notation "'let*' x ':=' m 'in' k" := (bind m (fun x => k))
  (at level 10, x name, m at level 100, k at level 200).

(* ===================================================================== *)
(** ** utils/validators.ts                                                *)
(* ===================================================================== *)

Module Validators.

Section WithHost.
Context `{Host}.

Definition URL_PROTOCOLS : gset jsstring := {[ str "http:"; str "https:" ]}.

Definition isDigit (c : codeunit) : bool := (48 <=? c) && (c <=? 57).

(** [MONTH_PATTERN.test(s)] for [/^\d{4}-(0[1-9]|1[0-2])$/] *)
Definition MONTH_PATTERN_test (s : jsstring) : bool :=
  match s with
  | [y1; y2; y3; y4; dash; m1; m2] =>
      isDigit y1 && isDigit y2 && isDigit y3 && isDigit y4
      && (dash =? 45)
      && (((m1 =? 48) && (49 <=? m2) && (m2 <=? 57))
          || ((m1 =? 49) && (48 <=? m2) && (m2 <=? 50)))
  | _ => false
  end.

Definition isValidHttpUrl (value : jsstring) : bool :=
  match newURL value with
  | Some url => bool_decide (protocol url ∈ URL_PROTOCOLS)
  | None => false
  end.

(** [{ label, url }] *)
Record ExternalLinkInput := mkLink { label : jsstring; url : jsstring }.

Definition validateRequiredString (value : unknown) (fieldName : jsstring)
  : throws jsstring :=
  match value with
  | Some (JString s) =>
      if isEmpty (trim s)
      then BAD_REQUEST (fieldName ++ str " is required")
      else Ok (trim s)
  | _ => BAD_REQUEST (fieldName ++ str " is required")
  end.

Definition validateOptionalString (value : unknown) (fieldName : jsstring)
  : throws (option jsstring) :=
  match value with
  | None => Ok None
  | Some (JString s) =>
      let trimmed := trim s in
      if isEmpty trimmed
      then BAD_REQUEST (fieldName ++ str " cannot be empty")
      else Ok (Some trimmed)
  | Some _ => BAD_REQUEST (fieldName ++ str " must be a string")
  end.

(** The predicate handed to [value.find] in [validateImageLinks]. *)
Definition isInvalidImageLink (entry : Json) : bool :=
  match entry with
  | JString s => negb (isValidHttpUrl s)
  | _ => true
  end.

(** [value.find(...)] yields [undefined] exactly when no entry satisfies the
    predicate: an array built by [JSON.parse] has no [undefined] entry. *)
Definition validateImageLinks (value : unknown) (fieldName : jsstring)
  : throws (list Json) :=
  match value with
  | Some (JArray entries) =>
      match List.find isInvalidImageLink entries with
      | Some invalid =>
          BAD_REQUEST (fieldName ++ str " must only contain valid http/https URLs")
      | None => Ok entries
      end
  | _ => BAD_REQUEST (fieldName ++ str " must be an array of URLs")
  end.

Definition validateOptionalImageLinks (value : unknown) (fieldName : jsstring)
  : throws (option (list Json)) :=
  match value with
  | None => Ok None
  | Some _ => let* l := validateImageLinks value fieldName in Ok (Some l)
  end.

Definition isValidYear (value : number) : bool :=
  isInteger value && num_leb (ofZ 1900) value && num_leb value (ofZ 2100).

Definition validateRequiredYear (value : unknown) (fieldName : jsstring)
  : throws number :=
  let year := Number_ value in
  if negb (isValidYear year)
  then BAD_REQUEST (fieldName ++ str " must be an integer between 1900 and 2100")
  else Ok year.

Definition validateOptionalYear (value : unknown) (fieldName : jsstring)
  : throws (option number) :=
  match value with
  | None => Ok None
  | Some _ => let* y := validateRequiredYear value fieldName in Ok (Some y)
  end.

Definition validateRequiredStringWithMaxLength
  (value : unknown) (fieldName : jsstring) (maxLength : N) : throws jsstring :=
  let* validated := validateRequiredString value fieldName in
  if maxLength <? str_length validated
  then BAD_REQUEST (fieldName ++ str " must be " ++ N_to_str maxLength
                      ++ str " characters or fewer")
  else Ok validated.

Definition validateOptionalStringWithMaxLength
  (value : unknown) (fieldName : jsstring) (maxLength : N)
  : throws (option jsstring) :=
  let* validated := validateOptionalString value fieldName in
  match validated with
  | Some v =>
      if maxLength <? str_length v
      then BAD_REQUEST (fieldName ++ str " must be " ++ N_to_str maxLength
                          ++ str " characters or fewer")
      else Ok validated
  | None => Ok validated
  end.

Definition validateRequiredHtmlField
  (value : unknown) (fieldName : jsstring) (maxLength : N) : throws jsstring :=
  match value with
  | Some (JString s) =>
      if maxLength <? str_length s
      then BAD_REQUEST (fieldName ++ str " must be " ++ N_to_str maxLength
                          ++ str " characters or fewer")
      else Ok s
  | _ => BAD_REQUEST (fieldName ++ str " must be a string")
  end.

Definition validateOptionalHtmlField
  (value : unknown) (fieldName : jsstring) (maxLength : N)
  : throws (option jsstring) :=
  match value with
  | None => Ok None
  | Some _ =>
      let* s := validateRequiredHtmlField value fieldName maxLength in
      Ok (Some s)
  end.

(** The loop shared, up to the length bound, by [validateTags] and
    [validateHighlights]: [deduped] and [seen] are the two accumulators of
    the source. *)
Fixpoint dedupeEntries (maxLength : N) (fieldName : jsstring)
  (entries : list Json) (deduped : list jsstring) (seen : gset jsstring)
  : throws (list jsstring) :=
  match entries with
  | [] => Ok deduped
  | JString entry :: rest =>
      let normalized := trim entry in
      if isEmpty normalized || (maxLength <? str_length normalized)
      then BAD_REQUEST (fieldName ++ str " entries must be between 1 and "
                          ++ N_to_str maxLength ++ str " characters")
      else
        let dedupeKey := toLowerCase normalized in
        if bool_decide (dedupeKey ∈ seen)
        then dedupeEntries maxLength fieldName rest deduped seen
        else dedupeEntries maxLength fieldName rest
               (deduped ++ [normalized]) ({[dedupeKey]} ∪ seen)
  | _ :: _ => BAD_REQUEST (fieldName ++ str " must contain only strings")
  end.

Definition validateTags (value : unknown) (fieldName : jsstring)
  : throws (list jsstring) :=
  match value with
  | Some (JArray entries) => dedupeEntries 40 fieldName entries [] ∅
  | _ => BAD_REQUEST (fieldName ++ str " must be an array of strings")
  end.

Definition validateRequiredTags := validateTags.

Definition validateOptionalTags (value : unknown) (fieldName : jsstring)
  : throws (option (list jsstring)) :=
  match value with
  | None => Ok None
  | Some _ => let* l := validateTags value fieldName in Ok (Some l)
  end.

Definition validateHighlights (value : unknown) (fieldName : jsstring)
  : throws (list jsstring) :=
  match value with
  | Some (JArray entries) => dedupeEntries 200 fieldName entries [] ∅
  | _ => BAD_REQUEST (fieldName ++ str " must be an array of strings")
  end.

Definition validateOptionalHighlights (value : unknown) (fieldName : jsstring)
  : throws (option (list jsstring)) :=
  match value with
  | None => Ok None
  | Some _ => let* l := validateHighlights value fieldName in Ok (Some l)
  end.

Definition validateTechTags := validateTags.

Definition validateOptionalTechTags (value : unknown) (fieldName : jsstring)
  : throws (option (list jsstring)) :=
  match value with
  | None => Ok None
  | Some _ => let* l := validateTechTags value fieldName in Ok (Some l)
  end.

(** The check on [rawUrl] in [validateExternalLinks]; the predicate of
    [validateImageLinks] is its negation on array entries. *)
Definition urlCheck (rawUrl : unknown) : bool :=
  match rawUrl with
  | Some (JString s) => isValidHttpUrl s
  | _ => false
  end.

Fixpoint validateExternalLinks_loop (fieldName : jsstring)
  (items : list Json) (deduped : list ExternalLinkInput)
  (seenUrls : gset jsstring) : throws (list ExternalLinkInput) :=
  match items with
  | [] => Ok deduped
  | JObject members :: rest =>
      let rawLabel := getMember members (str "label") in
      let rawUrl := getMember members (str "url") in
      match rawLabel with
      | Some (JString rawLabel) =>
          if isEmpty (trim rawLabel)
          then BAD_REQUEST (fieldName ++ str ".label is required")
          else
            let label := trim rawLabel in
            if 40 <? str_length label
            then BAD_REQUEST (fieldName ++ str ".label must be 40 characters or fewer")
            else
              match rawUrl with
              | Some (JString rawUrl) =>
                  if negb (isValidHttpUrl rawUrl)
                  then BAD_REQUEST (fieldName ++ str ".url must be a valid http/https URL")
                  else
                    let normalizedUrl := trim rawUrl in
                    let dedupeKey := toLowerCase normalizedUrl in
                    if bool_decide (dedupeKey ∈ seenUrls)
                    then validateExternalLinks_loop fieldName rest deduped seenUrls
                    else validateExternalLinks_loop fieldName rest
                           (deduped ++ [mkLink label normalizedUrl])
                           ({[dedupeKey]} ∪ seenUrls)
              | _ => BAD_REQUEST (fieldName ++ str ".url must be a valid http/https URL")
              end
      | _ => BAD_REQUEST (fieldName ++ str ".label is required")
      end
  | _ :: _ => BAD_REQUEST (fieldName ++ str " items must be objects")
  end.

Definition validateExternalLinks (value : unknown) (fieldName : jsstring)
  : throws (list ExternalLinkInput) :=
  match value with
  | Some (JArray items) => validateExternalLinks_loop fieldName items [] ∅
  | _ => BAD_REQUEST (fieldName ++ str " must be an array")
  end.

Definition validateOptionalExternalLinks (value : unknown) (fieldName : jsstring)
  : throws (option (list ExternalLinkInput)) :=
  match value with
  | None => Ok None
  | Some _ => let* l := validateExternalLinks value fieldName in Ok (Some l)
  end.

Definition validateRequiredMonthString (value : unknown) (fieldName : jsstring)
  : throws jsstring :=
  match value with
  | Some (JString s) =>
      if MONTH_PATTERN_test s then Ok s
      else BAD_REQUEST (fieldName ++ str " must use YYYY-MM format")
  | _ => BAD_REQUEST (fieldName ++ str " must use YYYY-MM format")
  end.

Definition validateOptionalMonthString (value : unknown) (fieldName : jsstring)
  : throws (option jsstring) :=
  match value with
  | None => Ok None
  | Some _ => let* s := validateRequiredMonthString value fieldName in Ok (Some s)
  end.

(** ToBoolean on a [string | null | undefined]. *)
Definition truthy_nullish (v : nullish jsstring) : bool :=
  match v with
  | val s => truthy_str s
  | _ => false
  end.

(** [endMonth && endMonth < startMonth] *)
Definition endsBefore (endMonth : nullish jsstring) (startMonth : jsstring) : bool :=
  match endMonth with
  | val e => truthy_str e && str_ltb e startMonth
  | _ => false
  end.

Definition validateExperienceChronology
  (startMonth : jsstring) (endMonth : nullish jsstring) (isCurrent : bool)
  : throws unit :=
  if isCurrent && truthy_nullish endMonth
  then BAD_REQUEST (str "endMonth must be null when isCurrent is true")
  else if endsBefore endMonth startMonth
  then BAD_REQUEST (str "endMonth cannot be earlier than startMonth")
  else Ok tt.

(** [{ page, limit, skip }] *)
Record Pagination := mkPagination { page : number; limit : number; skip : number }.

Definition parsePagination (query : Json) : throws Pagination :=
  let pageRaw := prop query "page" in
  let limitRaw := prop query "limit" in
  let page := match pageRaw with None => ofZ 1 | Some _ => Number_ pageRaw end in
  let limit := match limitRaw with None => ofZ 10 | Some _ => Number_ limitRaw end in
  if negb (isInteger page) || num_ltb page (ofZ 1)
  then BAD_REQUEST (str "page must be an integer >= 1")
  else if negb (isInteger limit) || num_ltb limit (ofZ 1) || num_ltb (ofZ 100) limit
  then BAD_REQUEST (str "limit must be an integer between 1 and 100")
  else Ok (mkPagination page limit (num_mul (num_sub page (ofZ 1)) limit)).

Definition parseSearch (value : unknown) : throws (option jsstring) :=
  match value with
  | None => Ok None
  | Some (JString s) =>
      let normalized := trim s in
      Ok (if truthy_str normalized then Some normalized else None)
  | Some _ => BAD_REQUEST (str "search must be a string")
  end.

(** [fields.join(", ")] *)
Fixpoint join (sep : jsstring) (fields : list jsstring) : jsstring :=
  match fields with
  | [] => []
  | [f] => f
  | f :: rest => f ++ sep ++ join sep rest
  end.

Definition requireAtLeastOneField (payload : Json) (fields : list string)
  : throws unit :=
  let hasAtLeastOne :=
    existsb (fun field => isDefined (prop payload field)) fields in
  if negb hasAtLeastOne
  then BAD_REQUEST (str "At least one of these fields is required: "
                      ++ join (str ", ") (List.map str fields))
  else Ok tt.

End WithHost.

End Validators.

Export Validators.

(* ===================================================================== *)
(** ** Express plumbing: thrown values, requests, responses               *)
(* ===================================================================== *)

Module Express.

(** What a handler can throw or hand to [next(error)], by the tests the
    error handler applies to it: its class, and for a value of another
    class its [type] property and, for an [Error], its message. *)
Inductive thrown : Type :=
| ThrownAppError (e : AppError)
| ThrownPrismaKnown (code : jsstring) (meta : unknown)
| ThrownError (type : unknown) (message : jsstring)
| ThrownValue (type : unknown).

(** [{ error: { code, message, details } }]; [details: undefined] is left out
    of the serialised body. *)
Record ErrorEnvelope := mkEnvelope {
  error_code : jsstring;
  error_message : jsstring;
  error_details : unknown
}.

(** [res.status(s).json(b)] / [res.status(s).send()] *)
Record Response (A : Type) := mkResponse { status : Z; body : A }.
Arguments mkResponse {A} _ _.
Arguments status {A} _.
Arguments body {A} _.

(** [process.env], the variables the sources read. *)
Record Env := mkEnv {
  NODE_ENV : option jsstring;
  JWT_SECRET : option jsstring;
  JWT_EXPIRES_IN : option jsstring;
  SUPABASE_URL : option jsstring;
  SUPABASE_SERVICE_ROLE_KEY : option jsstring;
  SUPABASE_STORAGE_BUCKET : option jsstring
}.

(** A handler wrapped by [asyncHandler]: it sends a response, or its
    rejection goes to [next]. *)
Definition outcome (A : Type) : Type := (thrown + Response A)%type.

Definition fromThrows {A} (m : throws A) : (thrown + A)%type :=
  match m with
  | Ok a => inr a
  | Throw e => inl (ThrownAppError e)
  end.

End Express.

Export Express.

(* ===================================================================== *)
(** ** middleware/error.ts                                                *)
(* ===================================================================== *)

Module ErrorMiddleware.

Definition normalizePrismaError (code : jsstring) (meta : unknown) : AppError :=
  if decide (code = str "P2002")
  then mkAppError 409 (str "CONFLICT") (str "Resource already exists") meta
  else if decide (code = str "P2003")
  then mkAppError 400 (str "BAD_REQUEST") (str "Invalid relation reference") meta
  else if decide (code = str "P2025")
  then mkAppError 404 (str "NOT_FOUND") (str "Resource not found") meta
  else mkAppError 500 (str "INTERNAL_ERROR") (str "Database request failed") meta.

(** [maybeBodyParserError.type === "entity.too.large"] *)
Definition isEntityTooLarge (error : thrown) : bool :=
  match error with
  | ThrownError (Some (JString ty)) _ | ThrownValue (Some (JString ty)) =>
      bool_decide (ty = str "entity.too.large")
  | _ => false
  end.

Definition errorHandler (env : Env) (error : thrown) : Response ErrorEnvelope :=
  if isEntityTooLarge error
  then mkResponse 400
         (mkEnvelope (str "BAD_REQUEST")
            (str "Upload payload too large. Max 10 images, 5MB each.") None)
  else
    match error with
    | ThrownAppError e =>
        mkResponse (statusCode e) (mkEnvelope (code e) (message e) (details e))
    | ThrownPrismaKnown c meta =>
        let normalized := normalizePrismaError c meta in
        mkResponse (statusCode normalized)
          (mkEnvelope (code normalized) (message normalized) (details normalized))
    | ThrownError _ _ | ThrownValue _ =>
        let message :=
          match error with
          | ThrownError _ m => m
          | _ => str "Unknown error"
          end in
        mkResponse 500
          (mkEnvelope (str "INTERNAL_ERROR") (str "Internal server error")
             (if decide (NODE_ENV env = Some (str "production"))
              then None
              else Some (JString message)))
    end.

(** The status and error code the client sees: the handler's response, or
    the envelope the terminal error handler makes of what went to [next]. *)
Definition finish {A} (env : Env) (r : outcome A) : Z * option jsstring :=
  match r with
  | inr resp => (status resp, None)
  | inl err =>
      let resp := errorHandler env err in
      (status resp, Some (error_code (body resp)))
  end.

End ErrorMiddleware.

Export ErrorMiddleware.

(* ===================================================================== *)
(** ** utils/jwt.ts and middleware/auth.ts                                *)
(* ===================================================================== *)

Module Auth.

Section WithHost.
Context `{Host}.

Record AccessTokenPayload := mkAccess { userId : jsstring; email_ : jsstring }.

Record JwtConfig := mkJwtConfig { secret : jsstring; expiresIn : jsstring }.

(** A computation that returns or throws a plain [Error] with a message. *)
Definition orError (A : Type) : Type := (jsstring + A)%type.

Definition getJwtConfig (env : Env) : orError JwtConfig :=
  let expiresIn :=
    match JWT_EXPIRES_IN env with
    | Some e => if truthy_str e then e else str "7d"
    | None => str "7d"
    end in
  match JWT_SECRET env with
  | Some secret =>
      if truthy_str secret then inr (mkJwtConfig secret expiresIn)
      else inl (str "JWT_SECRET is not configured")
  | None => inl (str "JWT_SECRET is not configured")
  end.

Definition verifyAccessToken (env : Env) (token : jsstring)
  : orError AccessTokenPayload :=
  match getJwtConfig env with
  | inl msg => inl msg
  | inr cfg =>
      match jwt_verify token (secret cfg) with
      | inl msg => inl msg
      | inr decoded =>
          match sub decoded, email decoded with
          | Some (JString userId), Some (JString email) =>
              inr (mkAccess userId email)
          | _, _ => inl (str "Invalid token payload")
          end
      end
  end.

(** What [requireAuth] does with the request: [next(error)], or
    [req.auth = ...; next()]. *)
Inductive authStep : Type :=
| NextError (e : AppError)
| NextWithAuth (auth : AccessTokenPayload).

Definition UNAUTHORIZED (msg : string) : authStep :=
  NextError (newAppError 401 "UNAUTHORIZED" (str msg)).

(** [authHeader] is [req.headers.authorization]: a string or [undefined]. *)
Definition requireAuth (env : Env) (authHeader : option jsstring) : authStep :=
  match authHeader with
  | None => UNAUTHORIZED "Missing or invalid Authorization header"
  | Some authHeader =>
      if negb (truthy_str authHeader) || negb (startsWith authHeader (str "Bearer "))
      then UNAUTHORIZED "Missing or invalid Authorization header"
      else
        let token := trim (slice authHeader (List.length (str "Bearer "))) in
        if isEmpty token
        then UNAUTHORIZED "Missing access token"
        else
          match verifyAccessToken env token with
          | inr payload => NextWithAuth (mkAccess (userId payload) (email_ payload))
          | inl _ => UNAUTHORIZED "Invalid or expired token"
          end
  end.

End WithHost.

End Auth.

Export Auth.

(* ===================================================================== *)
(** ** The relational store behind the ORM client                         *)
(* ===================================================================== *)

Module Store.

(** Rows of the [Experience] table (timestamps left out). *)
Record Experience := mkExperience {
  exp_id : jsstring;
  company : jsstring;
  role : jsstring;
  employmentType : option jsstring;
  location : option jsstring;
  startMonth : jsstring;
  endMonth : option jsstring;
  isCurrent : bool;
  summaryHtml : jsstring;
  highlights : list jsstring;
  techTags : list jsstring;
  links : list ExternalLinkInput;
  sortOrder : number
}.

Record Category := mkCategory {
  cat_id : jsstring;
  cat_name : jsstring;
  cat_description : option jsstring
}.

Record Blog := mkBlog {
  blog_id : jsstring;
  blog_title : jsstring;
  blog_description : jsstring;
  blog_images : list jsstring;
  categoryId : jsstring
}.

(** Tables are keyed by the primary key [id]. *)
Record Db := mkDb {
  experiences : gmap jsstring Experience;
  categories : gmap jsstring Category;
  blogs : gmap jsstring Blog
}.

(** The calls a handler makes on the ORM client, in order. *)
Inductive OrmCall : Type :=
| ExperienceCreate | ExperienceFindUnique (id : jsstring)
| ExperienceUpdate (id : jsstring)
| CategoryFindUnique (id : jsstring) | CategoryDelete (id : jsstring).

(** What a handler leaves behind: the response or the value handed to
    [next], the store, and the ORM calls it made. *)
Record Run (A : Type) := mkRun {
  result : outcome A;
  store : Db;
  calls : list OrmCall
}.
Arguments mkRun {A} _ _ _.
Arguments result {A} _.
Arguments store {A} _.
Arguments calls {A} _.

(** [data] of [prisma.experience.create]: an [undefined] member is left to
    the column default, [NULL] for the two optional texts. *)
Record ExperienceCreateInput := mkCreateInput {
  c_company : jsstring;
  c_role : jsstring;
  c_employmentType : nullish jsstring;
  c_location : nullish jsstring;
  c_startMonth : jsstring;
  c_endMonth : option jsstring;
  c_isCurrent : bool;
  c_summaryHtml : jsstring;
  c_highlights : list jsstring;
  c_techTags : list jsstring;
  c_links : list ExternalLinkInput;
  c_sortOrder : number
}.

(** [data] of [prisma.experience.update]: [None] is a member that is not
    in the object, and the column keeps its value. *)
Record ExperienceUpdateInput := mkUpdateInput {
  u_company : option jsstring;
  u_role : option jsstring;
  u_employmentType : option (option jsstring);
  u_location : option (option jsstring);
  u_startMonth : option jsstring;
  u_endMonth : option (option jsstring);
  u_isCurrent : option bool;
  u_summaryHtml : option jsstring;
  u_highlights : option (list jsstring);
  u_techTags : option (list jsstring);
  u_links : option (list ExternalLinkInput);
  u_sortOrder : option number
}.

Definition toColumn {A} (v : nullish A) : option A :=
  match v with val a => Some a | _ => None end.

(** [prisma.experience.create({ data })] with the identifier the store
    generates for the row; a primary-key clash is error P2002. *)
Definition experience_create (newId : jsstring) (data : ExperienceCreateInput)
  (db : Db) : (thrown + Experience * Db)%type :=
  match experiences db !! newId with
  | Some _ => inl (ThrownPrismaKnown (str "P2002") None)
  | None =>
      let row :=
        mkExperience newId (c_company data) (c_role data)
          (toColumn (c_employmentType data)) (toColumn (c_location data))
          (c_startMonth data) (c_endMonth data) (c_isCurrent data)
          (c_summaryHtml data) (c_highlights data) (c_techTags data)
          (c_links data) (c_sortOrder data) in
      inr (row, mkDb (<[newId := row]> (experiences db)) (categories db) (blogs db))
  end.

Definition experience_findUnique (id : jsstring) (db : Db) : option Experience :=
  experiences db !! id.

Definition applyUpdate (row : Experience) (data : ExperienceUpdateInput)
  : Experience :=
  mkExperience (exp_id row)
    (default (company row) (u_company data))
    (default (role row) (u_role data))
    (default (employmentType row) (u_employmentType data))
    (default (location row) (u_location data))
    (default (startMonth row) (u_startMonth data))
    (default (endMonth row) (u_endMonth data))
    (default (isCurrent row) (u_isCurrent data))
    (default (summaryHtml row) (u_summaryHtml data))
    (default (highlights row) (u_highlights data))
    (default (techTags row) (u_techTags data))
    (default (links row) (u_links data))
    (default (sortOrder row) (u_sortOrder data)).

(** [prisma.experience.update({ where: { id }, data })]; a missing row is
    error P2025. *)
Definition experience_update (id : jsstring) (data : ExperienceUpdateInput)
  (db : Db) : (thrown + Experience * Db)%type :=
  match experiences db !! id with
  | None => inl (ThrownPrismaKnown (str "P2025") None)
  | Some row =>
      let row' := applyUpdate row data in
      inr (row', mkDb (<[id := row']> (experiences db)) (categories db) (blogs db))
  end.

(** [_count.blogs] of a category *)
Definition countBlogs (id : jsstring) (db : Db) : N :=
  N.of_nat (size (filter (fun kv => categoryId (snd kv) = id) (blogs db))).

(** [prisma.category.findUnique({ where: { id }, include: { _count } })] *)
Definition category_findUnique (id : jsstring) (db : Db) : option (Category * N) :=
  match categories db !! id with
  | Some c => Some (c, countBlogs id db)
  | None => None
  end.

(** [prisma.category.delete({ where: { id } })]: P2025 for a missing row,
    P2003 when a blog still refers to it (ON DELETE RESTRICT). *)
Definition category_delete (id : jsstring) (db : Db) : (thrown + Db)%type :=
  match categories db !! id with
  | None => inl (ThrownPrismaKnown (str "P2025") None)
  | Some _ =>
      if 0 <? countBlogs id db
      then inl (ThrownPrismaKnown (str "P2003") None)
      else inr (mkDb (experiences db) (delete id (categories db)) (blogs db))
  end.

End Store.

Export Store.

(* ===================================================================== *)
(** ** utils/html.ts                                                      *)
(* ===================================================================== *)

Module Html.

Definition sanitizeRichHtml `{Host} (input : jsstring) : jsstring :=
  sanitizeHtml input.

End Html.

Export Html.

(* ===================================================================== *)
(** ** controllers/experience.controller.ts                               *)
(* ===================================================================== *)

Module ExperienceController.

Section WithHost.
Context `{Host}.

Definition validateSortOrder (value : unknown) (fieldName : jsstring)
  : throws number :=
  let parsed := Number_ value in
  if negb (isInteger parsed) || num_ltb parsed (ofZ 0)
     || num_ltb (ofZ 10000) parsed
  then BAD_REQUEST (fieldName ++ str " must be an integer between 0 and 10000")
  else Ok parsed.

Definition validateOptionalSortOrder (value : unknown) (fieldName : jsstring)
  : throws (option number) :=
  match value with
  | None => Ok None
  | Some _ => let* n := validateSortOrder value fieldName in Ok (Some n)
  end.

(** [v === null ? null : validate(v)] with an optional validator *)
Definition nullOr {A} (v : unknown) (validate : unknown -> throws (option A))
  : throws (nullish A) :=
  match v with
  | Some JNull => Ok null
  | _ =>
      let* r := validate v in
      Ok (match r with Some a => val a | None => undefined end)
  end.

(** [v ?? []] *)
Definition orEmptyArray (v : unknown) : unknown :=
  match v with
  | None | Some JNull => Some (JArray [])
  | Some _ => v
  end.

(** [isCurrent ? null : endMonth ?? null] *)
Definition endMonthToStore (isCurrent : bool) (endMonth : nullish jsstring)
  : option jsstring :=
  if isCurrent then None else toColumn endMonth.

(** The validation part of [createExperience], up to the [data] object. *)
Definition createExperienceData (body : Json) : throws ExperienceCreateInput :=
  let* company :=
    validateRequiredStringWithMaxLength (prop body "company") (str "company") 120 in
  let* role :=
    validateRequiredStringWithMaxLength (prop body "role") (str "role") 120 in
  let* employmentType :=
    nullOr (prop body "employmentType")
      (fun v => validateOptionalStringWithMaxLength v (str "employmentType") 80) in
  let* location :=
    nullOr (prop body "location")
      (fun v => validateOptionalStringWithMaxLength v (str "location") 120) in
  let* startMonth :=
    validateRequiredMonthString (prop body "startMonth") (str "startMonth") in
  let* endMonth :=
    nullOr (prop body "endMonth")
      (fun v => validateOptionalMonthString v (str "endMonth")) in
  let isCurrent :=
    match prop body "isCurrent" with
    | None => false
    | Some _ => toBoolean (prop body "isCurrent")
    end in
  let* summaryHtml :=
    validateRequiredHtmlField (prop body "summaryHtml") (str "summaryHtml") 50000 in
  let* highlights :=
    validateHighlights (orEmptyArray (prop body "highlights")) (str "highlights") in
  let* techTags :=
    validateTechTags (orEmptyArray (prop body "techTags")) (str "techTags") in
  let* links :=
    validateExternalLinks (orEmptyArray (prop body "links")) (str "links") in
  let* sortOrder :=
    match prop body "sortOrder" with
    | None => Ok (ofZ 0)
    | Some _ => validateSortOrder (prop body "sortOrder") (str "sortOrder")
    end in
  let* _ := validateExperienceChronology startMonth endMonth isCurrent in
  Ok (mkCreateInput company role employmentType location startMonth
        (endMonthToStore isCurrent endMonth) isCurrent
        (sanitizeRichHtml summaryHtml) highlights techTags links sortOrder).

(** [createExperience]; [newId] is the identifier the store gives the row. *)
Definition createExperience (newId : jsstring) (body : Json) (db : Db)
  : Run Experience :=
  match createExperienceData body with
  | Throw e => mkRun (inl (ThrownAppError e)) db []
  | Ok data =>
      match experience_create newId data db with
      | inl err => mkRun (inl err) db [ExperienceCreate]
      | inr (created, db') =>
          mkRun (inr (mkResponse 201 created)) db' [ExperienceCreate]
      end
  end.

Definition experienceFields : list string :=
  ["company"; "role"; "employmentType"; "location"; "startMonth"; "endMonth";
   "isCurrent"; "summaryHtml"; "highlights"; "techTags"; "links";
   "sortOrder"]%string.

(** [nextIsCurrent ? null : endMonth ?? existing.endMonth] *)
Definition nextEndMonthOf (nextIsCurrent : bool) (endMonth : nullish jsstring)
  (existing : Experience) : option jsstring :=
  if nextIsCurrent then None
  else match endMonth with
       | val e => Some e
       | _ => Store.endMonth existing
       end.

Definition ofColumn {A} (c : option A) : nullish A :=
  match c with Some a => val a | None => null end.

Definition definedNullish {A} (v : nullish A) : option (option A) :=
  match v with
  | undefined => None
  | null => Some None
  | val a => Some (Some a)
  end.

(** The validation part of [updateExperience] after the row was found, up
    to the [data] object. *)
Definition updateExperienceData (body : Json) (existing : Experience)
  : throws ExperienceUpdateInput :=
  let* company :=
    validateOptionalStringWithMaxLength (prop body "company") (str "company") 120 in
  let* role :=
    validateOptionalStringWithMaxLength (prop body "role") (str "role") 120 in
  let* employmentType :=
    nullOr (prop body "employmentType")
      (fun v => validateOptionalStringWithMaxLength v (str "employmentType") 80) in
  let* location :=
    nullOr (prop body "location")
      (fun v => validateOptionalStringWithMaxLength v (str "location") 120) in
  let* startMonth :=
    validateOptionalMonthString (prop body "startMonth") (str "startMonth") in
  let* endMonth :=
    nullOr (prop body "endMonth")
      (fun v => validateOptionalMonthString v (str "endMonth")) in
  let isCurrent :=
    match prop body "isCurrent" with
    | None => None
    | Some _ => Some (toBoolean (prop body "isCurrent"))
    end in
  let* summaryHtml :=
    validateOptionalHtmlField (prop body "summaryHtml") (str "summaryHtml") 50000 in
  let* highlights :=
    validateOptionalHighlights (prop body "highlights") (str "highlights") in
  let* techTags :=
    validateOptionalTechTags (prop body "techTags") (str "techTags") in
  let* links :=
    validateOptionalExternalLinks (prop body "links") (str "links") in
  let* sortOrder :=
    validateOptionalSortOrder (prop body "sortOrder") (str "sortOrder") in
  let nextStartMonth := default (Store.startMonth existing) startMonth in
  let nextIsCurrent := default (Store.isCurrent existing) isCurrent in
  let nextEndMonth := nextEndMonthOf nextIsCurrent endMonth existing in
  let* _ :=
    validateExperienceChronology nextStartMonth (ofColumn nextEndMonth)
      nextIsCurrent in
  Ok (mkUpdateInput company role
        (definedNullish employmentType) (definedNullish location)
        startMonth
        (if isDefined (prop body "endMonth") then Some nextEndMonth else None)
        isCurrent
        (option_map sanitizeRichHtml summaryHtml)
        highlights techTags links sortOrder).

Definition updateExperience (id : jsstring) (body : Json) (db : Db)
  : Run Experience :=
  match requireAtLeastOneField body experienceFields with
  | Throw e => mkRun (inl (ThrownAppError e)) db []
  | Ok _ =>
      match experience_findUnique id db with
      | None =>
          mkRun (inl (ThrownAppError
                        (newAppError 404 "NOT_FOUND" (str "Experience not found"))))
            db [ExperienceFindUnique id]
      | Some existing =>
          match updateExperienceData body existing with
          | Throw e =>
              mkRun (inl (ThrownAppError e)) db [ExperienceFindUnique id]
          | Ok data =>
              match experience_update id data db with
              | inl err =>
                  mkRun (inl err) db [ExperienceFindUnique id; ExperienceUpdate id]
              | inr (updated, db') =>
                  mkRun (inr (mkResponse 200 updated)) db'
                    [ExperienceFindUnique id; ExperienceUpdate id]
              end
          end
      end
  end.

End WithHost.

End ExperienceController.

Export ExperienceController.

(* ===================================================================== *)
(** ** controllers/category.controller.ts                                 *)
(* ===================================================================== *)

Module CategoryController.

(** [deleteCategory]; a 204 response has no body. *)
Definition deleteCategory (id : jsstring) (db : Db) : Run unit :=
  match category_findUnique id db with
  | None =>
      mkRun (inl (ThrownAppError
                    (newAppError 404 "NOT_FOUND" (str "Category not found"))))
        db [CategoryFindUnique id]
  | Some (category, count_blogs) =>
      if 0 <? count_blogs
      then
        mkRun (inl (ThrownAppError
                      (newAppError 409 "CONFLICT"
                         (str "Cannot delete category with existing blogs"))))
          db [CategoryFindUnique id]
      else
        match category_delete id db with
        | inl err => mkRun (inl err) db [CategoryFindUnique id; CategoryDelete id]
        | inr db' =>
            mkRun (inr (mkResponse 204 tt)) db'
              [CategoryFindUnique id; CategoryDelete id]
        end
  end.

End CategoryController.

Export CategoryController.

(* ===================================================================== *)
(** ** lib/supabase.ts, routes/upload.routes.ts,
       controllers/upload.controller.ts                                   *)
(* ===================================================================== *)

Module Upload.

(** [s.includes(sub)] *)
Fixpoint includes (s sub : jsstring) : bool :=
  startsWith s sub ||
  match s with
  | [] => false
  | _ :: s' => includes s' sub
  end.

Definition orDefault (v : option jsstring) (d : jsstring) : jsstring :=
  match v with
  | Some s => if truthy_str s then s else d
  | None => d
  end.

Record StorageConfig := mkStorageConfig {
  cfg_url : jsstring; serviceRoleKey : jsstring; bucket : jsstring
}.

Definition getStorageConfig (env : Env) : orError StorageConfig :=
  let bucket := orDefault (SUPABASE_STORAGE_BUCKET env) (str "images") in
  let url := orDefault (SUPABASE_URL env) [] in
  let key := orDefault (SUPABASE_SERVICE_ROLE_KEY env) [] in
  if isEmpty url then inl (str "SUPABASE_URL is not configured")
  else if isEmpty key then inl (str "SUPABASE_SERVICE_ROLE_KEY is not configured")
  else if includes url (str "YOUR_PROJECT_ID") || includes url (str "example.com")
  then inl (str "SUPABASE_URL is still a placeholder value")
  else if includes key (str "YOUR_SUPABASE_SERVICE_ROLE_KEY")
  then inl (str "SUPABASE_SERVICE_ROLE_KEY is still a placeholder value")
  else inr (mkStorageConfig url key bucket).

(** A file as multer's memory storage hands it over ([file_size] is its
    [size]). *)
Record UploadedFile := mkFile {
  originalname : jsstring;
  mimetype : jsstring;
  file_size : N;
  buffer : option (list N)
}.

(** The object-storage service and the identifier source: the message of
    the error [createClient(url, key)] throws, if it throws, the error
    message of an upload if it fails, the public URL of a path, and the
    value of the i-th [randomUUID()] of the request. *)
Record Storage := mkStorage {
  createClient : jsstring -> jsstring -> option jsstring;
  storage_upload : jsstring -> jsstring -> list N -> jsstring -> option jsstring;
  storage_getPublicUrl : jsstring -> jsstring -> jsstring;
  randomUUID : nat -> jsstring
}.

(** The calls made on the storage service, in order. *)
Inductive StorageCall : Type :=
| CallUpload (bucket path : jsstring)
| CallGetPublicUrl (bucket path : jsstring).

Definition MAX_FILES : N := 10.
Definition MAX_SIZE_BYTES : N := 5 * 1024 * 1024.
Definition MAX_FILES_PER_REQUEST : N := 10.
Definition MAX_FILE_SIZE_BYTES : N := 5 * 1024 * 1024.

Definition ALLOWED_MIME_TYPES : list jsstring :=
  [str "image/jpeg"; str "image/png"; str "image/webp"; str "image/gif"].

Definition MIME_EXTENSIONS : list (jsstring * jsstring) :=
  [(str "image/jpeg", str "jpg"); (str "image/png", str "png");
   (str "image/webp", str "webp"); (str "image/gif", str "gif")].

(** [MIME_EXTENSIONS[mimetype] || "bin"], as the text it gives in the object
    path.  [MIME_EXTENSIONS] is a plain object: for a name it has no member
    of, the lookup goes on to [Object.prototype], and what it finds there
    for [constructor], [toString] and the like is a function or an object,
    which is truthy. *)
Definition mimeExtension `{Host} (mimetype : jsstring) : jsstring :=
  match List.find (fun kv => bool_decide (fst kv = mimetype)) MIME_EXTENSIONS with
  | Some (_, ext) => ext
  | None =>
      match inheritedText mimetype with
      | Some text => text
      | None => str "bin"
      end
  end.

(** The [fileFilter] given to multer: the error it calls back with. *)
Definition fileFilter (file : UploadedFile) : option AppError :=
  if bool_decide (mimetype file ∈ ALLOWED_MIME_TYPES) then None
  else Some (newAppError 400 "BAD_REQUEST"
               (str "Only JPG, PNG, WEBP, and GIF are allowed")).

(** How [upload.array("files", MAX_FILES)] calls back: without error and
    with [req.files] set, with a [MulterError], or with another error (the
    one of [fileFilter], or a stream error). *)
Inductive MulterOutcome : Type :=
| MulterAccepted (files : list UploadedFile)
| MulterFailed (code message : jsstring)
| MulterOtherError (e : thrown).

Definition uploadMiddleware (m : MulterOutcome)
  : (thrown + list UploadedFile)%type :=
  match m with
  | MulterFailed c msg =>
      if decide (c = str "LIMIT_FILE_SIZE")
      then inl (ThrownAppError
                  (newAppError 400 "BAD_REQUEST" (str "Each image must be 5MB or smaller")))
      else if decide (c = str "LIMIT_FILE_COUNT")
      then inl (ThrownAppError
                  (newAppError 400 "BAD_REQUEST"
                     (str "You can upload up to 10 images at once")))
      else inl (ThrownAppError (newAppError 400 "BAD_REQUEST" msg))
  | MulterOtherError e => inl e
  | MulterAccepted files => inr files
  end.

Section WithHost.
Context `{Host}.

Definition isSafeChar (c : codeunit) : bool :=
  ((97 <=? c) && (c <=? 122)) || ((48 <=? c) && (c <=? 57))
  || (c =? 46) || (c =? 95) || (c =? 45).

(** [.replace(/-+/g, "-")] *)
Fixpoint collapseDashes (s : jsstring) : jsstring :=
  match s with
  | 45 :: ((45 :: _) as s') => collapseDashes s'
  | c :: s' => c :: collapseDashes s'
  | [] => []
  end.

Definition sanitizeFileName (name : jsstring) : jsstring :=
  let trimmed := toLowerCase (trim name) in
  let safe :=
    collapseDashes (List.map (fun c => if isSafeChar c then c else 45) trimmed) in
  if truthy_str safe then safe else str "file".

(** [s.split(".").pop()]: what follows the last dot. *)
Fixpoint afterLastDot (s : jsstring) : jsstring :=
  match s with
  | [] => []
  | c :: s' =>
      if (c =? 46) && negb (includes s' (str ".")) then s'
      else if includes s (str ".") then afterLastDot s'
      else s
  end.

(** [s.replace(/\.[^.]+$/, "")]: drop a last dot that is followed by at
    least one character. *)
Fixpoint dropExtension (s : jsstring) : jsstring :=
  match s with
  | [] => []
  | c :: s' =>
      if (c =? 46) && negb (includes s' (str ".")) && truthy_str s' then []
      else c :: dropExtension s'
  end.

Definition parseUploadFolder (value : unknown) : throws jsstring :=
  let* folder := validateRequiredString value (str "folder") in
  if bool_decide (folder ∈ [str "projects"; str "blogs"])
  then Ok folder
  else BAD_REQUEST (str "folder must be either projects or blogs").

Definition objectPathOf (folder uuid : jsstring) (file : UploadedFile) : jsstring :=
  let safeName := sanitizeFileName (originalname file) in
  let extension :=
    if includes safeName (str ".")
    then (if truthy_str (afterLastDot safeName) then afterLastDot safeName
          else mimeExtension (mimetype file))
    else mimeExtension (mimetype file) in
  folder ++ str "/" ++ uuid ++ str "-" ++ dropExtension safeName
    ++ str "." ++ extension.

(** The [for (const file of files)] loop: [i] counts the files handled so
    far, [links] and the trace of storage calls are accumulated. *)
Fixpoint uploadLoop (storage : Storage) (bucket folder : jsstring)
  (files : list UploadedFile) (i : nat) (links : list jsstring)
  (trace : list StorageCall)
  : (thrown + list jsstring) * list StorageCall :=
  match files with
  | [] => (inr links, trace)
  | file :: rest =>
      match buffer file with
      | None | Some [] =>
          (inl (ThrownAppError
                  (newAppError 400 "BAD_REQUEST" (str "Uploaded file is empty"))),
           trace)
      | Some bytes =>
          if MAX_FILE_SIZE_BYTES <? file_size file
          then (inl (ThrownAppError
                       (newAppError 400 "BAD_REQUEST"
                          (str "Each image must be 5MB or smaller"))),
                trace)
          else
            let objectPath := objectPathOf folder (randomUUID storage i) file in
            let trace1 := trace ++ [CallUpload bucket objectPath] in
            match storage_upload storage bucket objectPath bytes (mimetype file) with
            | Some errorMessage =>
                (inl (ThrownAppError
                        (mkAppError 500 (str "INTERNAL_ERROR")
                           (str "Failed to upload image")
                           (Some (JString errorMessage)))),
                 trace1)
            | None =>
                let publicUrl := storage_getPublicUrl storage bucket objectPath in
                let trace2 := trace1 ++ [CallGetPublicUrl bucket objectPath] in
                if isEmpty publicUrl
                then (inl (ThrownAppError
                             (newAppError 500 "INTERNAL_ERROR"
                                (str "Failed to resolve uploaded image URL"))),
                      trace2)
                else uploadLoop storage bucket folder rest (S i)
                       (links ++ [publicUrl]) trace2
            end
      end
  end.

(** [uploadImages]; [files] is [req.files]. *)
Definition uploadImages (env : Env) (storage : Storage) (body : Json)
  (files : option (list UploadedFile))
  : outcome (list jsstring) * list StorageCall :=
  match parseUploadFolder (prop body "folder") with
  | Throw e => (inl (ThrownAppError e), [])
  | Ok folder =>
      let files := default [] files in
      let n := N.of_nat (List.length files) in
      if (n <? 1) || (MAX_FILES_PER_REQUEST <? n)
      then (inl (ThrownAppError
                   (newAppError 400 "BAD_REQUEST" (str "Upload between 1 and 10 images"))),
            [])
      else
        match getStorageConfig env with
        | inl msg => (inl (ThrownError None msg), [])
        | inr cfg =>
            match createClient storage (cfg_url cfg) (serviceRoleKey cfg) with
            | Some msg => (inl (ThrownError None msg), [])
            | None =>
                match uploadLoop storage (bucket cfg) folder files 0 [] [] with
                | (inl err, trace) => (inl err, trace)
                | (inr links, trace) => (inr (mkResponse 200 links), trace)
                end
            end
        end
  end.

(** [uploadRouter.post("/", requireAuth, uploadMiddleware, uploadImages)]
    behind the auth gate: the controller runs only when the middleware
    calls [next()] without an error. *)
Definition uploadPipeline (env : Env) (storage : Storage) (body : Json)
  (m : MulterOutcome) : outcome (list jsstring) * list StorageCall :=
  match uploadMiddleware m with
  | inl err => (inl err, [])
  | inr files => uploadImages env storage body (Some files)
  end.

End WithHost.

End Upload.

Export Upload.

(* ===================================================================== *)
(** ** listProjects (project.controller.ts), listBlogs (blog.controller.ts) *)
(* ===================================================================== *)

Module Listing.

(** [meta] of a list response *)
Record PaginationMeta := mkMeta {
  meta_page : number;
  meta_limit : number;
  total : number;
  totalPages : number
}.

Record ListResponse (Row : Type) := mkList { data : list Row; meta : PaginationMeta }.
Arguments mkList {Row} _ _.
Arguments data {Row} _.
Arguments meta {Row} _.

(** [Math.ceil(total / limit) || 1] *)
Definition totalPagesOf (total limit : number) : number :=
  let pages := Math_ceil (num_div total limit) in
  if truthy_num pages then pages else ofZ 1.

(** The two queries of the [prisma.$transaction([count, findMany])] batch,
    for a [where] filter of type [W]: the count is a row count, and the
    page is asked for with [skip] and [take]. *)
Record Queries (W Row : Type) := mkQueries {
  count : W -> N;
  findMany : W -> number -> number -> list Row
}.
Arguments mkQueries {W Row} _ _.
Arguments count {W Row} _ _.
Arguments findMany {W Row} _ _ _ _.

Section WithHost.
Context `{Host}.

Definition listProjects {Row} (q : Queries (option jsstring) Row) (query : Json)
  : outcome (ListResponse Row) :=
  fromThrows (
    let* p := parsePagination query in
    let* search := parseSearch (prop query "search") in
    let where_ := search in
    let total := ofZ (Z.of_N (count q where_)) in
    let data := findMany q where_ (skip p) (limit p) in
    Ok (mkResponse 200
          (mkList data
             (mkMeta (page p) (limit p) total (totalPagesOf total (limit p)))))).

(** [where] of [listBlogs]: the title filter and the category filter. *)
Definition listBlogs {Row}
  (q : Queries (option jsstring * option jsstring) Row) (query : Json)
  : outcome (ListResponse Row) :=
  fromThrows (
    let* p := parsePagination query in
    let* search := parseSearch (prop query "search") in
    let* categoryId :=
      match prop query "categoryId" with
      | None => Ok None
      | Some _ =>
          let* c := validateRequiredString (prop query "categoryId") (str "categoryId") in
          Ok (Some c)
      end in
    let where_ := (search, categoryId) in
    let total := ofZ (Z.of_N (count q where_)) in
    let data := findMany q where_ (skip p) (limit p) in
    Ok (mkResponse 200
          (mkList data
             (mkMeta (page p) (limit p) total (totalPagesOf total (limit p)))))).

End WithHost.

End Listing.

Export Listing.

(* ===================================================================== *)
(** ** The other tables and the queries made on them                      *)
(* ===================================================================== *)

Module Tables.

(** Rows of the [Project] table (timestamps left out). *)
Record Project := mkProject {
  proj_id : jsstring;
  proj_title : jsstring;
  proj_description : jsstring;
  proj_year : number;
  proj_tags : list jsstring;
  proj_client : option jsstring;
  proj_duration : option jsstring;
  overviewHtml : jsstring;
  challengeHtml : jsstring;
  solutionHtml : jsstring;
  proj_links : list ExternalLinkInput;
  proj_images : list jsstring
}.

(** Rows of the [User] table. *)
Record User := mkUser {
  user_id : jsstring;
  user_email : jsstring;
  passwordHash : jsstring
}.

(** The [Project] table, keyed by [id]. *)
Abbreviation Projects := (gmap jsstring Project).

(** The [User] table, keyed by the unique column [email]. *)
Abbreviation Users := (gmap jsstring User).

(** A query on the ORM client: the model and the operation. *)
Inductive Model : Type :=
| ProjectModel | ExperienceModel | CategoryModel | BlogModel | UserModel.

Inductive Operation : Type :=
| Create
| FindUnique (key : jsstring)
| Update (key : jsstring)
| Delete (key : jsstring)
| Upsert (key : jsstring).

Definition Query : Type := Model * Operation.

(** What a handler leaves behind, for a store of type [S]: the response or
    the value handed to [next], the store, and the queries made, in
    order. *)
Record Ran (S A : Type) := mkRan {
  answer : outcome A;
  final : S;
  queries : list Query
}.
Arguments mkRan {S A} _ _ _.
Arguments answer {S A} _.
Arguments final {S A} _.
Arguments queries {S A} _.

(** [throw new AppError(404, "NOT_FOUND", message)] *)
Definition NOT_FOUND (msg : string) : thrown :=
  ThrownAppError (newAppError 404 "NOT_FOUND" (str msg)).

(** The strings of an array whose entries are all strings, as the image
    validators leave it. *)
Definition stringsOf (entries : list Json) : list jsstring :=
  omap (fun e => match e with JString s => Some s | _ => None end) entries.

(** [data] of [prisma.project.create]: an [undefined] member is left to
    the column default, [NULL] for the two optional texts. *)
Record ProjectCreateInput := mkProjectCreate {
  pc_title : jsstring;
  pc_description : jsstring;
  pc_year : number;
  pc_tags : list jsstring;
  pc_client : nullish jsstring;
  pc_duration : nullish jsstring;
  pc_overviewHtml : jsstring;
  pc_challengeHtml : jsstring;
  pc_solutionHtml : jsstring;
  pc_links : list ExternalLinkInput;
  pc_images : list jsstring
}.

(** [data] of [prisma.project.update]: [None] is a member that is not in
    the object, and the column keeps its value. *)
Record ProjectUpdateInput := mkProjectUpdate {
  pu_title : option jsstring;
  pu_description : option jsstring;
  pu_year : option number;
  pu_tags : option (list jsstring);
  pu_links : option (list ExternalLinkInput);
  pu_client : option (option jsstring);
  pu_duration : option (option jsstring);
  pu_overviewHtml : option jsstring;
  pu_challengeHtml : option jsstring;
  pu_solutionHtml : option jsstring;
  pu_images : option (list jsstring)
}.

(** [prisma.project.create({ data })] with the identifier the store
    generates for the row; a primary-key clash is error P2002. *)
Definition project_create (newId : jsstring) (data : ProjectCreateInput)
  (projects : Projects) : (thrown + Project * Projects)%type :=
  match projects !! newId with
  | Some _ => inl (ThrownPrismaKnown (str "P2002") None)
  | None =>
      let row :=
        mkProject newId (pc_title data) (pc_description data) (pc_year data)
          (pc_tags data) (toColumn (pc_client data)) (toColumn (pc_duration data))
          (pc_overviewHtml data) (pc_challengeHtml data) (pc_solutionHtml data)
          (pc_links data) (pc_images data) in
      inr (row, <[newId := row]> projects)
  end.

Definition applyProjectUpdate (row : Project) (data : ProjectUpdateInput)
  : Project :=
  mkProject (proj_id row)
    (default (proj_title row) (pu_title data))
    (default (proj_description row) (pu_description data))
    (default (proj_year row) (pu_year data))
    (default (proj_tags row) (pu_tags data))
    (default (proj_client row) (pu_client data))
    (default (proj_duration row) (pu_duration data))
    (default (overviewHtml row) (pu_overviewHtml data))
    (default (challengeHtml row) (pu_challengeHtml data))
    (default (solutionHtml row) (pu_solutionHtml data))
    (default (proj_links row) (pu_links data))
    (default (proj_images row) (pu_images data)).

(** [prisma.project.update({ where: { id }, data })]; a missing row is
    error P2025. *)
Definition project_update (id : jsstring) (data : ProjectUpdateInput)
  (projects : Projects) : (thrown + Project * Projects)%type :=
  match projects !! id with
  | None => inl (ThrownPrismaKnown (str "P2025") None)
  | Some row =>
      let row' := applyProjectUpdate row data in
      inr (row', <[id := row']> projects)
  end.

(** [prisma.project.delete({ where: { id } })]; a missing row is error
    P2025. *)
Definition project_delete (id : jsstring) (projects : Projects)
  : (thrown + Projects)%type :=
  match projects !! id with
  | None => inl (ThrownPrismaKnown (str "P2025") None)
  | Some _ => inr (delete id projects)
  end.

(** [prisma.experience.delete({ where: { id } })] *)
Definition experience_delete (id : jsstring) (db : Db) : (thrown + Db)%type :=
  match experiences db !! id with
  | None => inl (ThrownPrismaKnown (str "P2025") None)
  | Some _ => inr (mkDb (delete id (experiences db)) (categories db) (blogs db))
  end.

(** Whether a category other than [id] has the name [name]: the unique
    index [Category_name_key]. *)
Definition nameTaken (name : jsstring) (id : option jsstring) (db : Db) : bool :=
  bool_decide
    (map_Exists (fun k c => cat_name c = name /\ Some k <> id) (categories db)).

(** [prisma.category.create({ data })]: error P2002 for a clash on the
    primary key or on the unique name. *)
Definition category_create (newId name : jsstring) (description : option jsstring)
  (db : Db) : (thrown + Category * Db)%type :=
  match categories db !! newId with
  | Some _ => inl (ThrownPrismaKnown (str "P2002") None)
  | None =>
      if nameTaken name None db
      then inl (ThrownPrismaKnown (str "P2002") None)
      else
        let row := mkCategory newId name description in
        inr (row, mkDb (experiences db) (<[newId := row]> (categories db)) (blogs db))
  end.

(** [prisma.category.update({ where: { id }, data })]: P2025 for a missing
    row, P2002 when [data] has a name and it is the name of another
    category. *)
Definition category_update (id : jsstring) (name : option jsstring)
  (description : option (option jsstring)) (db : Db)
  : (thrown + Category * Db)%type :=
  match categories db !! id with
  | None => inl (ThrownPrismaKnown (str "P2025") None)
  | Some row =>
      let row' :=
        mkCategory (cat_id row) (default (cat_name row) name)
          (default (cat_description row) description) in
      if match name with
         | Some n => nameTaken n (Some id) db
         | None => false
         end
      then inl (ThrownPrismaKnown (str "P2002") None)
      else inr (row', mkDb (experiences db) (<[id := row']> (categories db)) (blogs db))
  end.

(** A blog with [include: { category: { select: { id, name } } }]. *)
Record BlogView := mkBlogView {
  view_blog : Blog;
  view_category : option (jsstring * jsstring)
}.

Definition viewOf (db : Db) (b : Blog) : BlogView :=
  mkBlogView b
    (match categories db !! categoryId b with
     | Some c => Some (cat_id c, cat_name c)
     | None => None
     end).

(** [prisma.blog.create({ data, include })]: P2002 for a clash on the
    primary key, P2003 when the category does not exist (the foreign key
    [Blog_categoryId_fkey]). *)
Definition blog_create (newId title description : jsstring)
  (images : list jsstring) (category : jsstring) (db : Db)
  : (thrown + BlogView * Db)%type :=
  match blogs db !! newId with
  | Some _ => inl (ThrownPrismaKnown (str "P2002") None)
  | None =>
      match categories db !! category with
      | None => inl (ThrownPrismaKnown (str "P2003") None)
      | Some _ =>
          let row := mkBlog newId title description images category in
          inr (viewOf db row,
               mkDb (experiences db) (categories db) (<[newId := row]> (blogs db)))
      end
  end.

(** [prisma.blog.update({ where: { id }, data, include })]: P2025 for a
    missing row, P2003 when [data] has a category and it does not exist. *)
Definition blog_update (id : jsstring) (title description : option jsstring)
  (images : option (list jsstring)) (category : option jsstring) (db : Db)
  : (thrown + BlogView * Db)%type :=
  match blogs db !! id with
  | None => inl (ThrownPrismaKnown (str "P2025") None)
  | Some row =>
      let row' :=
        mkBlog (blog_id row) (default (blog_title row) title)
          (default (blog_description row) description)
          (default (blog_images row) images)
          (default (categoryId row) category) in
      let updated :=
        inr (viewOf db row',
             mkDb (experiences db) (categories db) (<[id := row']> (blogs db))) in
      match category with
      | None => updated
      | Some c =>
          match categories db !! c with
          | None => inl (ThrownPrismaKnown (str "P2003") None)
          | Some _ => updated
          end
      end
  end.

(** [prisma.blog.delete({ where: { id } })] *)
Definition blog_delete (id : jsstring) (db : Db) : (thrown + Db)%type :=
  match blogs db !! id with
  | None => inl (ThrownPrismaKnown (str "P2025") None)
  | Some _ => inr (mkDb (experiences db) (categories db) (delete id (blogs db)))
  end.

(** [prisma.user.upsert({ where: { email }, update: { passwordHash },
    create: { email, passwordHash } })], with the identifier the store
    generates for a new row. *)
Definition user_upsert (newId email hash : jsstring) (users : Users) : Users :=
  match users !! email with
  | Some user => <[email := mkUser (user_id user) (user_email user) hash]> users
  | None => <[email := mkUser newId email hash]> users
  end.

End Tables.

Export Tables.

(* ===================================================================== *)
(** ** controllers/project.controller.ts                                  *)
(* ===================================================================== *)

Module ProjectController.

Section WithHost.
Context `{Host}.

(** The validation part of [createProject], up to the [data] object. *)
Definition createProjectData (body : Json) : throws ProjectCreateInput :=
  let* title :=
    validateRequiredStringWithMaxLength (prop body "title") (str "title") 160 in
  let* description :=
    validateRequiredHtmlField (prop body "description") (str "description") 50000 in
  let* year := validateRequiredYear (prop body "year") (str "year") in
  let* tags := validateRequiredTags (prop body "tags") (str "tags") in
  let* client :=
    nullOr (prop body "client")
      (fun v => validateOptionalStringWithMaxLength v (str "client") 120) in
  let* duration :=
    nullOr (prop body "duration")
      (fun v => validateOptionalStringWithMaxLength v (str "duration") 120) in
  let* overviewHtml :=
    validateRequiredHtmlField (prop body "overviewHtml") (str "overviewHtml") 50000 in
  let* challengeHtml :=
    validateRequiredHtmlField (prop body "challengeHtml") (str "challengeHtml") 50000 in
  let* solutionHtml :=
    validateRequiredHtmlField (prop body "solutionHtml") (str "solutionHtml") 50000 in
  let* links :=
    match prop body "links" with
    | None => Ok []
    | Some _ => validateExternalLinks (prop body "links") (str "links")
    end in
  let* images := validateImageLinks (prop body "images") (str "images") in
  Ok (mkProjectCreate title (sanitizeRichHtml description) year tags
        client duration
        (sanitizeRichHtml overviewHtml) (sanitizeRichHtml challengeHtml)
        (sanitizeRichHtml solutionHtml) links (stringsOf images)).

(** [createProject]; [newId] is the identifier the store gives the row. *)
Definition createProject (newId : jsstring) (body : Json) (projects : Projects)
  : Ran Projects Project :=
  match createProjectData body with
  | Throw e => mkRan (inl (ThrownAppError e)) projects []
  | Ok data =>
      match project_create newId data projects with
      | inl err => mkRan (inl err) projects [(ProjectModel, Create)]
      | inr (project, projects') =>
          mkRan (inr (mkResponse 201 project)) projects' [(ProjectModel, Create)]
      end
  end.

Definition getProjectById (id : jsstring) (projects : Projects)
  : Ran Projects Project :=
  match projects !! id with
  | None =>
      mkRan (inl (NOT_FOUND "Project not found")) projects
        [(ProjectModel, FindUnique id)]
  | Some project =>
      mkRan (inr (mkResponse 200 project)) projects [(ProjectModel, FindUnique id)]
  end.

Definition projectFields : list string :=
  ["title"; "description"; "year"; "images"; "tags"; "links"; "client";
   "duration"; "overviewHtml"; "challengeHtml"; "solutionHtml"]%string.

(** The validation part of [updateProject], up to the [data] object. *)
Definition updateProjectData (body : Json) : throws ProjectUpdateInput :=
  let* _ := requireAtLeastOneField body projectFields in
  let* title :=
    validateOptionalStringWithMaxLength (prop body "title") (str "title") 160 in
  let* description :=
    validateOptionalHtmlField (prop body "description") (str "description") 50000 in
  let* year := validateOptionalYear (prop body "year") (str "year") in
  let* tags := validateOptionalTags (prop body "tags") (str "tags") in
  let* links := validateOptionalExternalLinks (prop body "links") (str "links") in
  let* client :=
    nullOr (prop body "client")
      (fun v => validateOptionalStringWithMaxLength v (str "client") 120) in
  let* duration :=
    nullOr (prop body "duration")
      (fun v => validateOptionalStringWithMaxLength v (str "duration") 120) in
  let* overviewHtml :=
    validateOptionalHtmlField (prop body "overviewHtml") (str "overviewHtml") 50000 in
  let* challengeHtml :=
    validateOptionalHtmlField (prop body "challengeHtml") (str "challengeHtml") 50000 in
  let* solutionHtml :=
    validateOptionalHtmlField (prop body "solutionHtml") (str "solutionHtml") 50000 in
  let* images := validateOptionalImageLinks (prop body "images") (str "images") in
  Ok (mkProjectUpdate title (option_map sanitizeRichHtml description) year tags
        links (definedNullish client) (definedNullish duration)
        (option_map sanitizeRichHtml overviewHtml)
        (option_map sanitizeRichHtml challengeHtml)
        (option_map sanitizeRichHtml solutionHtml)
        (option_map stringsOf images)).

Definition updateProject (id : jsstring) (body : Json) (projects : Projects)
  : Ran Projects Project :=
  match updateProjectData body with
  | Throw e => mkRan (inl (ThrownAppError e)) projects []
  | Ok data =>
      match projects !! id with
      | None =>
          mkRan (inl (NOT_FOUND "Project not found")) projects
            [(ProjectModel, FindUnique id)]
      | Some _ =>
          match project_update id data projects with
          | inl err =>
              mkRan (inl err) projects
                [(ProjectModel, FindUnique id); (ProjectModel, Update id)]
          | inr (updated, projects') =>
              mkRan (inr (mkResponse 200 updated)) projects'
                [(ProjectModel, FindUnique id); (ProjectModel, Update id)]
          end
      end
  end.

(** [deleteProject]; a 204 response has no body. *)
Definition deleteProject (id : jsstring) (projects : Projects)
  : Ran Projects unit :=
  match projects !! id with
  | None =>
      mkRan (inl (NOT_FOUND "Project not found")) projects
        [(ProjectModel, FindUnique id)]
  | Some _ =>
      match project_delete id projects with
      | inl err =>
          mkRan (inl err) projects
            [(ProjectModel, FindUnique id); (ProjectModel, Delete id)]
      | inr projects' =>
          mkRan (inr (mkResponse 204 tt)) projects'
            [(ProjectModel, FindUnique id); (ProjectModel, Delete id)]
      end
  end.

End WithHost.

End ProjectController.

Export ProjectController.

(* ===================================================================== *)
(** ** controllers/experience.controller.ts: reading and deleting         *)
(* ===================================================================== *)

Module ExperienceReads.

Definition getExperienceById (id : jsstring) (db : Db) : Ran Db Experience :=
  match experience_findUnique id db with
  | None =>
      mkRan (inl (NOT_FOUND "Experience not found")) db
        [(ExperienceModel, FindUnique id)]
  | Some experience =>
      mkRan (inr (mkResponse 200 experience)) db [(ExperienceModel, FindUnique id)]
  end.

Definition deleteExperience (id : jsstring) (db : Db) : Ran Db unit :=
  match experience_findUnique id db with
  | None =>
      mkRan (inl (NOT_FOUND "Experience not found")) db
        [(ExperienceModel, FindUnique id)]
  | Some _ =>
      match experience_delete id db with
      | inl err =>
          mkRan (inl err) db
            [(ExperienceModel, FindUnique id); (ExperienceModel, Delete id)]
      | inr db' =>
          mkRan (inr (mkResponse 204 tt)) db'
            [(ExperienceModel, FindUnique id); (ExperienceModel, Delete id)]
      end
  end.

End ExperienceReads.

Export ExperienceReads.

(* ===================================================================== *)
(** ** controllers/category.controller.ts: creating, reading, updating    *)
(* ===================================================================== *)

Module CategoryWrites.

(** [createCategory]; [newId] is the identifier the store gives the row. *)
Definition createCategory (newId : jsstring) (body : Json) (db : Db)
  : Ran Db Category :=
  match (let* name := validateRequiredString (prop body "name") (str "name") in
         let* description :=
           validateOptionalString (prop body "description") (str "description") in
         Ok (name, description)) with
  | Throw e => mkRan (inl (ThrownAppError e)) db []
  | Ok (name, description) =>
      match category_create newId name description db with
      | inl err => mkRan (inl err) db [(CategoryModel, Create)]
      | inr (category, db') =>
          mkRan (inr (mkResponse 201 category)) db' [(CategoryModel, Create)]
      end
  end.

(** [getCategoryById]: the category with its blog count. *)
Definition getCategoryById (id : jsstring) (db : Db) : Ran Db (Category * N) :=
  match category_findUnique id db with
  | None =>
      mkRan (inl (NOT_FOUND "Category not found")) db
        [(CategoryModel, FindUnique id)]
  | Some category =>
      mkRan (inr (mkResponse 200 category)) db [(CategoryModel, FindUnique id)]
  end.

(** [v === null] *)
Definition isNull (v : unknown) : bool :=
  match v with Some JNull => true | _ => false end.

(** [v !== undefined] on a [T | null | undefined] *)
Definition isDefinedNullish {A} (v : nullish A) : bool :=
  match v with undefined => false | _ => true end.

(** The validation part of [updateCategory]: the name, and the description
    member of [data] if there is one. *)
Definition updateCategoryData (body : Json)
  : throws (option jsstring * option (option jsstring)) :=
  let* _ := requireAtLeastOneField body ["name"; "description"]%string in
  let* name := validateOptionalString (prop body "name") (str "name") in
  let* description :=
    nullOr (prop body "description")
      (fun v => validateOptionalString v (str "description")) in
  Ok (name,
      if isDefinedNullish description
         || isNull (prop body "description")
      then Some (toColumn description)
      else None).

Definition updateCategory (id : jsstring) (body : Json) (db : Db)
  : Ran Db Category :=
  match updateCategoryData body with
  | Throw e => mkRan (inl (ThrownAppError e)) db []
  | Ok (name, description) =>
      match categories db !! id with
      | None =>
          mkRan (inl (NOT_FOUND "Category not found")) db
            [(CategoryModel, FindUnique id)]
      | Some _ =>
          match category_update id name description db with
          | inl err =>
              mkRan (inl err) db
                [(CategoryModel, FindUnique id); (CategoryModel, Update id)]
          | inr (updated, db') =>
              mkRan (inr (mkResponse 200 updated)) db'
                [(CategoryModel, FindUnique id); (CategoryModel, Update id)]
          end
      end
  end.

End CategoryWrites.

Export CategoryWrites.

(* ===================================================================== *)
(** ** controllers/blog.controller.ts                                     *)
(* ===================================================================== *)

Module BlogController.

Section WithHost.
Context `{Host}.

(** [ensureCategoryExists]: the error it throws, if it throws. *)
Definition ensureCategoryExists (categoryId : jsstring) (db : Db) : option AppError :=
  match categories db !! categoryId with
  | Some _ => None
  | None => Some (newAppError 400 "BAD_REQUEST" (str "Invalid categoryId"))
  end.

(** [createBlog]; [newId] is the identifier the store gives the row. *)
Definition createBlog (newId : jsstring) (body : Json) (db : Db)
  : Ran Db BlogView :=
  match (let* title := validateRequiredString (prop body "title") (str "title") in
         let* description :=
           validateRequiredString (prop body "description") (str "description") in
         let* images := validateImageLinks (prop body "images") (str "images") in
         let* categoryId :=
           validateRequiredString (prop body "categoryId") (str "categoryId") in
         Ok (title, description, images, categoryId)) with
  | Throw e => mkRan (inl (ThrownAppError e)) db []
  | Ok (title, description, images, categoryId) =>
      match ensureCategoryExists categoryId db with
      | Some e =>
          mkRan (inl (ThrownAppError e)) db [(CategoryModel, FindUnique categoryId)]
      | None =>
          match blog_create newId title description (stringsOf images) categoryId db with
          | inl err =>
              mkRan (inl err) db
                [(CategoryModel, FindUnique categoryId); (BlogModel, Create)]
          | inr (blog, db') =>
              mkRan (inr (mkResponse 201 blog)) db'
                [(CategoryModel, FindUnique categoryId); (BlogModel, Create)]
          end
      end
  end.

Definition getBlogById (id : jsstring) (db : Db) : Ran Db BlogView :=
  match blogs db !! id with
  | None =>
      mkRan (inl (NOT_FOUND "Blog not found")) db [(BlogModel, FindUnique id)]
  | Some blog =>
      mkRan (inr (mkResponse 200 (viewOf db blog))) db [(BlogModel, FindUnique id)]
  end.

(** The validation part of [updateBlog]. *)
Definition updateBlogData (body : Json)
  : throws (option jsstring * option jsstring * option (list Json) * option jsstring) :=
  let* _ :=
    requireAtLeastOneField body ["title"; "description"; "images"; "categoryId"]%string in
  let* title := validateOptionalString (prop body "title") (str "title") in
  let* description :=
    validateOptionalString (prop body "description") (str "description") in
  let* images := validateOptionalImageLinks (prop body "images") (str "images") in
  let* categoryId :=
    validateOptionalString (prop body "categoryId") (str "categoryId") in
  Ok (title, description, images, categoryId).

Definition updateBlog (id : jsstring) (body : Json) (db : Db) : Ran Db BlogView :=
  match updateBlogData body with
  | Throw e => mkRan (inl (ThrownAppError e)) db []
  | Ok (title, description, images, categoryId) =>
      match blogs db !! id with
      | None =>
          mkRan (inl (NOT_FOUND "Blog not found")) db [(BlogModel, FindUnique id)]
      | Some _ =>
          let checked :=
            match categoryId with
            | Some c => [(CategoryModel, FindUnique c)]
            | None => []
            end in
          match
            match categoryId with
            | Some c => ensureCategoryExists c db
            | None => None
            end
          with
          | Some e =>
              mkRan (inl (ThrownAppError e)) db
                ((BlogModel, FindUnique id) :: checked)
          | None =>
              match blog_update id title description
                      (option_map stringsOf images) categoryId db with
              | inl err =>
                  mkRan (inl err) db
                    ((BlogModel, FindUnique id) :: checked ++ [(BlogModel, Update id)])
              | inr (updated, db') =>
                  mkRan (inr (mkResponse 200 updated)) db'
                    ((BlogModel, FindUnique id) :: checked ++ [(BlogModel, Update id)])
              end
          end
      end
  end.

(** [deleteBlog]; a 204 response has no body. *)
Definition deleteBlog (id : jsstring) (db : Db) : Ran Db unit :=
  match blogs db !! id with
  | None =>
      mkRan (inl (NOT_FOUND "Blog not found")) db [(BlogModel, FindUnique id)]
  | Some _ =>
      match blog_delete id db with
      | inl err =>
          mkRan (inl err) db [(BlogModel, FindUnique id); (BlogModel, Delete id)]
      | inr db' =>
          mkRan (inr (mkResponse 204 tt)) db'
            [(BlogModel, FindUnique id); (BlogModel, Delete id)]
      end
  end.

End WithHost.

End BlogController.

Export BlogController.

(* ===================================================================== *)
(** ** utils/jwt.ts (signing), utils/seed-user.ts,
       controllers/auth.controller.ts                                     *)
(* ===================================================================== *)

Module Login.

(** [SignOptions], the members [signAccessToken] sets. *)
Record SignOptions := mkSignOptions {
  opt_expiresIn : jsstring;
  subject : jsstring;
  algorithm : jsstring
}.

(** The library functions of the login path that the sources call and do
    not define: [jwt.sign(payload, secret, options)] for a payload
    [{ email }], which returns the token or throws an error with a
    message, and the two functions of utils/password.ts, which is not among
    the sources. *)
Class Credentials := {
  jwt_sign : jsstring -> jsstring -> SignOptions -> orError jsstring;
  hashPassword : jsstring -> jsstring;
  comparePassword : jsstring -> jsstring -> bool
}.

(** [process.env], the variables utils/seed-user.ts reads. *)
Record SeedEnv := mkSeedEnv {
  SEED_ADMIN_EMAIL : option jsstring;
  SEED_ADMIN_PASSWORD : option jsstring
}.

Section WithHost.
Context `{Host} `{Credentials}.

Definition assertJwtConfiguration (env : Env) : orError unit :=
  match getJwtConfig env with
  | inl msg => inl msg
  | inr _ => inr tt
  end.

Definition signAccessToken (env : Env) (payload : AccessTokenPayload)
  : orError jsstring :=
  match getJwtConfig env with
  | inl msg => inl msg
  | inr cfg =>
      let options :=
        mkSignOptions (expiresIn cfg) (userId payload) (str "HS256") in
      jwt_sign (email_ payload) (secret cfg) options
  end.

Definition DEFAULT_SEED_EMAIL : jsstring := str "dwikis17@gmail.com".
Definition DEFAULT_SEED_PASSWORD : jsstring := str "Password1!".

Definition normalizeEmail (email : jsstring) : jsstring :=
  toLowerCase (trim email).

Definition resolveSeedCredentials (env : SeedEnv) : orError (jsstring * jsstring) :=
  let rawEmail := orDefault (SEED_ADMIN_EMAIL env) DEFAULT_SEED_EMAIL in
  let rawPassword := orDefault (SEED_ADMIN_PASSWORD env) DEFAULT_SEED_PASSWORD in
  let email := normalizeEmail rawEmail in
  let password := trim rawPassword in
  if isEmpty email then inl (str "SEED_ADMIN_EMAIL is required")
  else if isEmpty password then inl (str "SEED_ADMIN_PASSWORD is required")
  else inr (email, password).

(** [upsertSeedAdminUser]; [newId] is the identifier the store gives a new
    row. *)
Definition upsertSeedAdminUser (env : SeedEnv) (newId : jsstring) (users : Users)
  : orError Users :=
  match resolveSeedCredentials env with
  | inl msg => inl msg
  | inr (email, password) =>
      let passwordHash := hashPassword password in
      inr (user_upsert newId email passwordHash users)
  end.

(** [{ token, user: { id, email } }] *)
Record LoginResponse := mkLoginResponse {
  token : jsstring;
  login_id : jsstring;
  login_email : jsstring
}.

Definition INVALID_CREDENTIALS : thrown :=
  ThrownAppError (newAppError 401 "UNAUTHORIZED" (str "Invalid email or password")).

Definition login (env : Env) (body : Json) (users : Users)
  : Ran Users LoginResponse :=
  match (let* email := validateRequiredString (prop body "email") (str "email") in
         let email := toLowerCase email in
         let* password :=
           validateRequiredString (prop body "password") (str "password") in
         Ok (email, password)) with
  | Throw e => mkRan (inl (ThrownAppError e)) users []
  | Ok (email, password) =>
      match users !! email with
      | None => mkRan (inl INVALID_CREDENTIALS) users [(UserModel, FindUnique email)]
      | Some user =>
          let isValidPassword := comparePassword password (passwordHash user) in
          if negb isValidPassword
          then mkRan (inl INVALID_CREDENTIALS) users [(UserModel, FindUnique email)]
          else
            match signAccessToken env (mkAccess (user_id user) (user_email user)) with
            | inl msg =>
                mkRan (inl (ThrownError None msg)) users
                  [(UserModel, FindUnique email)]
            | inr token =>
                mkRan (inr (mkResponse 200
                              (mkLoginResponse token (user_id user) (user_email user))))
                  users [(UserModel, FindUnique email)]
            end
      end
  end.

End WithHost.

End Login.

Export Login.

(* ===================================================================== *)
(** ** Vocabulary of the specification                                    *)
(* ===================================================================== *)

Module Spec.

(** A computation throws an [AppError] with status 400 and code
    [BAD_REQUEST]. *)
Definition throwsBadRequest {A} (m : throws A) : Prop :=
  exists msg, m = BAD_REQUEST msg.

Definition digitVal (c : codeunit) : Z := Z.of_N c - 48.

(** The month a [YYYY-MM] string names, counted in months. *)
Definition monthOrdinal (s : jsstring) : Z :=
  match s with
  | [y1; y2; y3; y4; _; m1; m2] =>
      (1000 * digitVal y1 + 100 * digitVal y2 + 10 * digitVal y3 + digitVal y4) * 12
      + (10 * digitVal m1 + digitVal m2)
  | _ => 0
  end.

(** An end month that is [null] or in [YYYY-MM] format. *)
Definition nullOrMonth (e : nullish jsstring) : Prop :=
  match e with
  | null => True
  | val m => MONTH_PATTERN_test m = true
  | undefined => False
  end.

(** Keep the first element of every class of [key], in order: what
    "deduplicated by [key], first-seen order preserved" means. *)
Fixpoint firstSeen {A K} `{EqDecision K} (key : A -> K) (l : list A) : list A :=
  match l with
  | [] => []
  | x :: rest => x :: filter (fun y => key y <> key x) (firstSeen key rest)
  end.

(** The trimmed text of a string entry. *)
Definition trimmedEntry (entry : Json) : jsstring :=
  match entry with JString s => trim s | _ => [] end.

(** An entry that is not a string, is empty after trimming, or is longer
    than the bound after trimming. *)
Definition badEntry (maxLength : N) (entry : Json) : Prop :=
  match entry with
  | JString s => trim s = [] \/ maxLength < str_length (trim s)
  | _ => True
  end.

(** A string that parses as an absolute URL with scheme http or https. *)
Definition isHttpUrl `{Host} (v : unknown) : Prop :=
  exists s u, v = Some (JString s) /\ newURL s = Some u
              /\ (protocol u = str "http:" \/ protocol u = str "https:").

(** The message the error handler reports for an error that is neither an
    [AppError] nor a known ORM error. *)
Definition underlyingMessage (error : thrown) : jsstring :=
  match error with
  | ThrownError _ m => m
  | _ => str "Unknown error"
  end.

(** Neither an [AppError] nor a known ORM error. *)
Definition unrecognized (error : thrown) : Prop :=
  match error with
  | ThrownError _ _ | ThrownValue _ => True
  | _ => False
  end.

(** A response with this status and error code. *)
Definition envelopeIs (r : Response ErrorEnvelope) (s : Z) (c : string) : Prop :=
  status r = s /\ error_code (body r) = str c.

(** The access token of an Authorization header: what follows the
    ["Bearer "] prefix, trimmed. *)
Definition tokenOf (authHeader : jsstring) : jsstring :=
  trim (slice authHeader 7).

(** A multer instance that enforces [limits.files]: given more file parts
    than [MAX_FILES] it calls back with a [MulterError], unless the file
    filter rejected one of the parts first. *)
Definition enforcesFileLimit (multer : list UploadedFile -> MulterOutcome) : Prop :=
  forall parts,
    MAX_FILES < N.of_nat (List.length parts) ->
    (exists c msg, multer parts = MulterFailed c msg)
    \/ (exists f e, f ∈ parts /\ fileFilter f = Some e
                    /\ multer parts = MulterOtherError (ThrownAppError e)).

(** The invariant of the data model on an [Experience] row: a current
    position has no end month. *)
Definition currentHasNoEnd (row : Experience) : Prop :=
  ~ (isCurrent row = true /\ endMonth row <> None).

(** A number that is a binary64 value: its mantissa and exponent are in
    canonical form. *)
Definition wellFormed (x : number) : Prop := valid_binary prec emax x = true.

(** The value of a finite number, scaled by 2^1074 to an integer. *)
Definition scaled (x : number) : Z :=
  match x with
  | S754_finite s m e => cond_Zopp s (Z.pos m * 2 ^ (e + 1074))%Z
  | _ => 0%Z
  end.

Definition isFinite (x : number) : bool :=
  match x with
  | S754_zero _ | S754_finite _ _ _ => true
  | _ => false
  end.

(** Number of binary digits of a positive integer. *)
Definition bits (z : Z) : Z := (Z.log2 z + 1)%Z.

(** The numbers [parsePagination] checks: the default, or the coercion of
    the query member. *)
Definition coercedPage `{Host} (query : Json) : number :=
  match prop query "page" with
  | None => ofZ 1
  | Some _ => Number_ (prop query "page")
  end.

Definition coercedLimit `{Host} (query : Json) : number :=
  match prop query "limit" with
  | None => ofZ 10
  | Some _ => Number_ (prop query "limit")
  end.

(** The position of a remainder [rho] of a division by [l] with respect to
    one half. *)
Definition remainderLocation (rho l : Z) : SpecFloat.location :=
  if (rho =? 0)%Z then loc_Exact else loc_Inexact (2 * rho ?= l)%Z.

(** The ceiling of [m * 2^e] for a positive mantissa. *)
Definition ceilOf (m e : Z) : Z :=
  if (0 <=? e)%Z then (m * 2 ^ e)%Z else (- ((- m) / 2 ^ (- e)))%Z.

(** The ceiling of [t / l]: the least number of pages of [l] rows that hold
    [t] rows. *)
Definition ceilDiv (t l : Z) : Z := ((t + l - 1) / l)%Z.

(** What a list response reports: an integral total [t], the page size [l]
    between 1 and 100, and as number of pages 1 for an empty result and the
    ceiling of [t / l] otherwise. *)
Definition pagesOf (m : PaginationMeta) : Prop :=
  exists t l : Z,
    intValue (total m) = Some t /\ (0 <= t)%Z
    /\ intValue (meta_limit m) = Some l /\ (1 <= l <= 100)%Z
    /\ intValue (totalPages m) = Some (if (t =? 0)%Z then 1%Z else ceilDiv t l)
    /\ (1 <= (if (t =? 0)%Z then 1 else ceilDiv t l))%Z.

End Spec.

Export Spec.

(* ===================================================================== *)
(** ** Vocabulary of the properties of the other handlers                *)
(* ===================================================================== *)

Module Notions.

(** A string with no white space at either end. *)
Definition trimmed (s : jsstring) : Prop :=
  (forall c, head s = Some c -> isWhiteSpace c = false)
  /\ (forall c, last s = Some c -> isWhiteSpace c = false).

(** A string of white space only. *)
Definition blank (s : jsstring) : Prop := Forall (fun c => isWhiteSpace c = true) s.

(** What a thrown [AppError] is when it is a plain 400: status 400, code
    [BAD_REQUEST], no details. *)
Definition onlyBadRequest {A} (m : throws A) : Prop :=
  forall e, m = Throw e -> exists msg, e = newAppError 400 "BAD_REQUEST" msg.

(** The link an item of a links array stands for: its label and its url,
    both trimmed. *)
Definition linkOf (item : Json) : ExternalLinkInput :=
  match item with
  | JObject members =>
      match getMember members (str "label"), getMember members (str "url") with
      | Some (JString l), Some (JString u) => mkLink (trim l) (trim u)
      | _, _ => mkLink [] []
      end
  | _ => mkLink [] []
  end.

(** An item of a links array that is not an object, has no label of 1 to
    40 characters after trimming, or has no http(s) url. *)
Definition badLink `{Host} (item : Json) : Prop :=
  match item with
  | JObject members =>
      match getMember members (str "label") with
      | Some (JString l) => trim l = [] \/ 40 < str_length (trim l)
      | _ => True
      end
      \/ urlCheck (getMember members (str "url")) = false
  | _ => True
  end.

(** The key links are deduplicated by. *)
Definition linkKey `{Host} (l : ExternalLinkInput) : jsstring := toLowerCase (url l).

(** The decimal digit of [n] at position [k], units at position 0, as a
    code unit. *)
Definition digitAt (n k : N) : codeunit := 48 + (n / 10 ^ k) mod 10.

(** The text [YYYY-MM] of month [m] of year [y], both zero-padded. *)
Definition formatMonth (y m : N) : jsstring :=
  [digitAt y 3; digitAt y 2; digitAt y 1; digitAt y 0; 45;
   digitAt m 1; digitAt m 0].

(** A string made of the characters a stored file name may have: lower
    case letters, digits, dot, underscore and dash. *)
Definition safeName (s : jsstring) : Prop :=
  Forall (fun c => isSafeChar c = true) s.

(** The object paths of the files of a request: the i-th file handled gets
    the i-th identifier. *)
Fixpoint objectPaths `{Host} (storage : Storage) (folder : jsstring)
  (files : list UploadedFile) (i : nat) : list jsstring :=
  match files with
  | [] => []
  | file :: rest =>
      objectPathOf folder (randomUUID storage i) file
      :: objectPaths storage folder rest (S i)
  end.

(** The storage calls for one object: the upload, then the lookup of its
    public URL. *)
Definition callsFor (bucket path : jsstring) : list StorageCall :=
  [CallUpload bucket path; CallGetPublicUrl bucket path].

(** A file the per-file checks of [uploadImages] let through. *)
Definition uploadable (file : UploadedFile) : Prop :=
  (exists b bytes, buffer file = Some (b :: bytes))
  /\ file_size file <= MAX_FILE_SIZE_BYTES.


(** A property of every row of the [Experience] table. *)
Definition everyExperience (P : Experience -> Prop) (db : Db) : Prop :=
  forall id row, experiences db !! id = Some row -> P row.

(** A property of every row of the [Project] table. *)
Definition everyProject (P : Project -> Prop) (projects : Projects) : Prop :=
  forall id row, projects !! id = Some row -> P row.

(** Text that came out of the HTML sanitizer. *)
Definition sanitized `{Host} (html : jsstring) : Prop :=
  exists raw, html = sanitizeRichHtml raw.

Definition sanitizedProject `{Host} (row : Project) : Prop :=
  sanitized (proj_description row) /\ sanitized (overviewHtml row)
  /\ sanitized (challengeHtml row) /\ sanitized (solutionHtml row).

(** A text of 1 to [n] code units with no white space at either end. *)
Definition boundedText (n : N) (s : jsstring) : Prop :=
  s <> [] /\ str_length s <= n /\ trimmed s.

(** The constraints of the data model on the fields of a [Project] row. *)
Definition projectValid `{Host} (row : Project) : Prop :=
  boundedText 160 (proj_title row)
  /\ (exists y, (1900 <= y <= 2100)%Z /\ proj_year row = ofZ y)
  /\ Forall (boundedText 40) (proj_tags row)
  /\ NoDup (List.map toLowerCase (proj_tags row))
  /\ (forall c, proj_client row = Some c -> boundedText 120 c)
  /\ (forall d, proj_duration row = Some d -> boundedText 120 d)
  /\ Forall (fun l => boundedText 40 (label l)) (proj_links row)
  /\ NoDup (List.map linkKey (proj_links row))
  /\ Forall (fun u => isHttpUrl (Some (JString u))) (proj_images row).

(** Every blog belongs to a category of the store. *)
Definition refIntegrity (db : Db) : Prop :=
  forall k b, blogs db !! k = Some b -> is_Some (categories db !! categoryId b).

(** No two categories have the same name. *)
Definition uniqueNames (db : Db) : Prop :=
  forall k1 k2 c1 c2,
    categories db !! k1 = Some c1 -> categories db !! k2 = Some c2 ->
    cat_name c1 = cat_name c2 -> k1 = k2.

(** A request that does not answer with a response leaves the store as it
    was. *)
Definition keepsOnFailure {S A} (r : Ran S A) (before : S) : Prop :=
  forall e, answer r = inl e -> final r = before.

End Notions.

Export Notions.

(* ===================================================================== *)
(** ** A reference host, to run the embedding on concrete requests        *)
(* ===================================================================== *)

Module Reference.

Definition asciiLower (c : codeunit) : codeunit :=
  if (65 <=? c) && (c <=? 90) then c + 32 else c.

(** [toLowerCase] on ASCII text. *)
Definition refToLowerCase (s : jsstring) : jsstring := List.map asciiLower s.

Definition isSchemeChar (c : codeunit) : bool :=
  ((97 <=? asciiLower c) && (asciiLower c <=? 122))
  || ((48 <=? c) && (c <=? 57)) || (c =? 43) || (c =? 45) || (c =? 46).

(** The scheme of an absolute URL, with its colon. *)
Fixpoint schemeOf (s acc : jsstring) : option jsstring :=
  match s with
  | [] => None
  | c :: s' =>
      if c =? 58 then (if truthy_str acc then Some (acc ++ [58]) else None)
      else if isSchemeChar c then schemeOf s' (acc ++ [asciiLower c])
      else None
  end.

(** A URL parser that only looks for the scheme. *)
Definition refNewURL (s : jsstring) : option URL :=
  match schemeOf s [] with
  | Some p => Some (mkURL p s)
  | None => None
  end.

Fixpoint digitsValue (s : jsstring) (acc : Z) : option Z :=
  match s with
  | [] => Some acc
  | c :: s' =>
      if (48 <=? c) && (c <=? 57)
      then digitsValue s' (10 * acc + (Z.of_N c - 48))%Z
      else None
  end.

(** [Number] on numbers and on strings of decimal digits. *)
Definition refToNumber (j : Json) : number :=
  match j with
  | JNumber n => n
  | JString (c :: s) =>
      match digitsValue (c :: s) 0 with
      | Some z => ofZ z
      | None => NaN
      end
  | _ => NaN
  end.

(** A verifier that accepts one token for one secret. *)
Definition refJwtVerify (token secret : jsstring) : (jsstring + JwtPayload)%type :=
  if bool_decide (token = str "header.payload.signature")
     && bool_decide (secret = str "test-jwt-secret")
  then inr (mkJwtPayload (Some (JString (str "user-1")))
              (Some (JString (str "dwikis17@gmail.com"))))
  else inl (str "invalid token").

(** The members of [Object.prototype] and their texts, as V8 prints
    them. *)
Definition refInheritedText (key : jsstring) : option jsstring :=
  if bool_decide (key = str "constructor")
  then Some (str "function Object() { [native code] }")
  else if bool_decide (key = str "__proto__")
  then Some (str "[object Object]")
  else if bool_decide
            (key ∈ [str "__defineGetter__"; str "__defineSetter__";
                    str "hasOwnProperty"; str "__lookupGetter__";
                    str "__lookupSetter__"; str "isPrototypeOf";
                    str "propertyIsEnumerable"; str "toString"; str "valueOf";
                    str "toLocaleString"])
  then Some (str "function " ++ key ++ str "() { [native code] }")
  else None.

Definition refHost : Host :=
  {| toLowerCase := refToLowerCase;
     newURL := refNewURL;
     toNumber := refToNumber;
     sanitizeHtml := fun s => s;
     jwt_verify := refJwtVerify;
     inheritedText := refInheritedText |}.

(** Multer's handling of the file parts of a request, one after the
    other: the files limit, the file filter, the size limit. *)
Fixpoint refMulter_loop (parts accepted : list UploadedFile) : MulterOutcome :=
  match parts with
  | [] => MulterAccepted accepted
  | f :: rest =>
      if MAX_FILES <=? N.of_nat (List.length accepted)
      then MulterFailed (str "LIMIT_FILE_COUNT") (str "Too many files")
      else
        match fileFilter f with
        | Some e => MulterOtherError (ThrownAppError e)
        | None =>
            if MAX_SIZE_BYTES <? file_size f
            then MulterFailed (str "LIMIT_FILE_SIZE") (str "File too large")
            else refMulter_loop rest (accepted ++ [f])
        end
  end.

Definition refMulter (parts : list UploadedFile) : MulterOutcome :=
  refMulter_loop parts [].

Definition refFile : UploadedFile :=
  mkFile (str "test.jpg") (str "image/jpeg") 3 (Some [97; 98; 99]).

Definition refStorage : Storage :=
  mkStorage (fun _ _ => None) (fun _ _ _ _ => None)
    (fun bucket path => str "https://abc.supabase.co/" ++ bucket ++ str "/" ++ path)
    (fun i => str "uuid").

(** A past position, as the test suite stores it. *)
Definition refRow : Experience :=
  mkExperience (str "exp-1") (str "Acme") (str "Engineer") None None
    (str "2023-01") (Some (str "2023-12")) false (str "<p>x</p>") [] [] []
    (ofZ 0).

Definition refDb : Db := mkDb {[ str "exp-1" := refRow ]} ∅ ∅.

(** A store of 25 projects and no blog; the rows themselves are left out. *)
Definition refProjects : Queries (option jsstring) unit :=
  mkQueries (fun _ => 25%N) (fun _ _ _ => []).

Definition refBlogs : Queries (option jsstring * option jsstring) unit :=
  mkQueries (fun _ => 0%N) (fun _ _ _ => []).

(** A development environment with the secrets of the test suite. *)
Definition refEnv : Env :=
  mkEnv None (Some (str "test-jwt-secret")) (Some (str "7d"))
    (Some (str "https://abc.supabase.co")) (Some (str "service-role-key")) None.

End Reference.

Export Reference.

(* ===================================================================== *)
(** ** Reference values for the login path and the other tables           *)
(* ===================================================================== *)

Module Samples.

(** A signer that issues the one token [refJwtVerify] accepts, for the one
    user and secret it accepts it for. *)
Definition refJwtSign (email secret : jsstring) (options : SignOptions)
  : orError jsstring :=
  if bool_decide (email = str "dwikis17@gmail.com")
     && bool_decide (subject options = str "user-1")
     && bool_decide (secret = str "test-jwt-secret")
  then inr (str "header.payload.signature")
  else inl (str "cannot sign").

(** A password library that keeps the password in the hash. *)
Definition refHashPassword (password : jsstring) : jsstring :=
  str "hash:" ++ password.

Definition refComparePassword (password hash : jsstring) : bool :=
  bool_decide (hash = refHashPassword password).

Definition refCredentials : Credentials :=
  {| jwt_sign := refJwtSign;
     hashPassword := refHashPassword;
     comparePassword := refComparePassword |}.

(** The seed environment of the test suite. *)
Definition refSeedEnv : SeedEnv :=
  mkSeedEnv (Some (str "  DWIKIS17@GMAIL.COM ")) (Some (str "Password1!")).

(** A valid project body, and one whose year is out of range. *)
Definition refProjectBody : Json :=
  JObject
    [(str "title", JString (str " Portfolio "));
     (str "description", JString (str "<p>site</p>"));
     (str "year", JNumber (ofZ 2024));
     (str "tags", JArray [JString (str "Swift"); JString (str "swift")]);
     (str "overviewHtml", JString (str "<p>o</p>"));
     (str "challengeHtml", JString (str "<p>c</p>"));
     (str "solutionHtml", JString (str "<p>s</p>"));
     (str "images", JArray [JString (str "https://example.com/a.png")])].

Definition refCategory : Category :=
  mkCategory (str "cat-1") (str "Development") (Some (str "Posts about code")).

Definition refBlog : Blog :=
  mkBlog (str "b1") (str "Post") (str "text") [] (str "cat-1").

(** A store with one experience, one category and one blog in it. *)
Definition refCatalog : Db :=
  mkDb {[ str "exp-1" := refRow ]} {[ str "cat-1" := refCategory ]}
    {[ str "b1" := refBlog ]}.

End Samples.

Export Samples.

(* ===================================================================== *)
(** * Properties                                                          *)
(* ===================================================================== *)

Ltac bool_to_prop :=
  repeat match goal with
  | H : _ && _ = true |- _ => apply andb_true_iff in H; destruct H
  | H : _ || _ = true |- _ => apply orb_true_iff in H; destruct H
  | H : (_ <=? _) = true |- _ => apply N.leb_le in H
  | H : (_ =? _) = true |- _ => apply N.eqb_eq in H
  | H : (_ <? _) = true |- _ => apply N.ltb_lt in H
  | H : (_ <? _) = false |- _ => apply N.ltb_ge in H
  | H : isDigit _ = true |- _ => unfold isDigit in H
  end.

(** ** Chronology of an experience *)

(** On two strings in [YYYY-MM] format the order of [<] is the order of the
    months they name. *)
Lemma str_ltb_month (e s : jsstring) :
  MONTH_PATTERN_test e = true -> MONTH_PATTERN_test s = true ->
  str_ltb e s = true <-> (monthOrdinal e < monthOrdinal s)%Z.
Proof.
  intros He Hs.
  do 8 (destruct e as [|? e]; try discriminate He).
  do 8 (destruct s as [|? s]; try discriminate Hs).
  unfold MONTH_PATTERN_test in He, Hs.
  cbn [str_ltb monthOrdinal]. unfold digitVal.
  bool_to_prop; subst;
  repeat match goal with
  | |- context [if ?a <? ?b then _ else _] =>
      let E := fresh in destruct (a <? b) eqn:E; bool_to_prop
  end; split; intros; try discriminate; try reflexivity; try lia.
Qed.

Lemma month_truthy (m : jsstring) :
  MONTH_PATTERN_test m = true -> truthy_str m = true.
Proof. destruct m; [discriminate | reflexivity]. Qed.

(** C2. For a start month [s] in YYYY-MM format, an end month [e] that is
    null or in YYYY-MM format and any [isCurrent],
    [validateExperienceChronology] throws BAD_REQUEST exactly when
    [isCurrent] holds with a non-null [e], or [e] is non-null and names a
    month before [s]; otherwise it returns.  Start 2024-05 with end 2023-01
    throws. *)
Theorem validateExperienceChronology_throws_iff
  (s : jsstring) (e : nullish jsstring) (isCurrent : bool) :
  MONTH_PATTERN_test s = true ->
  nullOrMonth e ->
  (throwsBadRequest (validateExperienceChronology s e isCurrent)
   <-> (isCurrent = true /\ e <> null)
       \/ (exists m, e = val m /\ (monthOrdinal m < monthOrdinal s)%Z))
  /\ (validateExperienceChronology s e isCurrent = Ok tt
      \/ throwsBadRequest (validateExperienceChronology s e isCurrent))
  /\ throwsBadRequest
       (validateExperienceChronology (str "2024-05") (val (str "2023-01")) false).
Proof.
  intros Hs He.
  split; [| split].
  - unfold validateExperienceChronology, endsBefore, truthy_nullish.
    destruct e as [| | m]; cbn in He; [contradiction | |].
    + rewrite andb_false_r. split.
      * intros [msg Hm]; discriminate Hm.
      * intros [[_ Hn] | [m [Hm _]]]; [congruence | discriminate Hm].
    + rewrite (month_truthy m He). rewrite andb_true_r. cbn [andb].
      destruct isCurrent.
      * split; [intros _; left; split; [reflexivity | discriminate] |].
        intros _. eexists; reflexivity.
      * destruct (str_ltb m s) eqn:Hlt.
        -- split; [| intros _; eexists; reflexivity].
           intros _. right. exists m. split; [reflexivity |].
           apply (str_ltb_month m s He Hs), Hlt.
        -- split; [intros [msg Hm]; discriminate Hm |].
           intros [[Hc _] | [m' [Hm Hord]]]; [discriminate Hc |].
           injection Hm as <-.
           apply (str_ltb_month m s He Hs) in Hord. congruence.
  - unfold validateExperienceChronology.
    destruct (isCurrent && truthy_nullish e);
      [right; eexists; reflexivity |].
    destruct (endsBefore e s); [right; eexists; reflexivity | left; reflexivity].
  - eexists. reflexivity.
Qed.

Lemma validateExperienceChronology_throws_iff_witness :
  throwsBadRequest
    (validateExperienceChronology (str "2023-01") (val (str "2024-06")) true)
  /\ validateExperienceChronology (str "2023-01") (val (str "2024-06")) false
     = Ok tt.
Proof.
  pose proof (validateExperienceChronology_throws_iff
                (str "2023-01") (val (str "2024-06")) true
                eq_refl eq_refl) as [Hiff _].
  split.
  - apply Hiff. left. split; [reflexivity | discriminate].
  - reflexivity.
Defined.

(** ** Tag and highlight lists *)

Lemma isEmpty_nil (s : jsstring) : isEmpty s = true <-> s = [].
Proof. destruct s; cbn; split; congruence. Qed.

Lemma badEntry_dec (maxLength : N) (entry : Json) :
  {badEntry maxLength entry} + {~ badEntry maxLength entry}.
Proof.
  destruct entry as [| b | n | l | a | o]; cbn; try (left; exact I).
  destruct (decide (trim l = [])); [left; left; assumption |].
  destruct (decide (maxLength < str_length (trim l))); [left; right; assumption |].
  right; intros [?|?]; contradiction.
Qed.

Lemma filter_all {A} (P : A -> Prop) `{forall x, Decision (P x)} (l : list A) :
  (forall x, P x) -> filter P l = l.
Proof.
  intros HP. induction l as [|x l IH]; [reflexivity |].
  rewrite filter_cons_True by apply HP. f_equal. exact IH.
Qed.

Section Dedupe.
Context `{Host}.

(** A bad entry makes the loop throw, whatever was accumulated. *)
Lemma dedupeEntries_bad maxLength fieldName entries :
  forall deduped seen,
  Exists (badEntry maxLength) entries ->
  throwsBadRequest (dedupeEntries maxLength fieldName entries deduped seen).
Proof.
  induction entries as [|entry rest IH]; intros deduped seen Hex.
  - inversion Hex.
  - destruct (badEntry_dec maxLength entry) as [Hbad | Hgood].
    + destruct entry as [| b | n | l | a | o]; cbn; try (eexists; reflexivity).
      destruct Hbad as [Hnil | Hlong].
      * rewrite Hnil. cbn. eexists; reflexivity.
      * apply N.ltb_lt in Hlong. rewrite Hlong, orb_true_r. eexists; reflexivity.
    + inversion Hex as [? ? Hb | ? ? Hrest]; subst; [contradiction |].
      destruct entry as [| b | n | l | a | o]; cbn in Hgood |- *;
        try (exfalso; apply Hgood; exact I).
      destruct (isEmpty (trim l) || (maxLength <? str_length (trim l)));
        [eexists; reflexivity |].
      destruct (bool_decide _); apply IH; assumption.
Qed.

(** Without a bad entry the loop appends to [deduped] the first-seen
    entries whose key is not in [seen]. *)
Lemma dedupeEntries_good maxLength fieldName entries :
  forall deduped seen,
  Forall (fun e => ~ badEntry maxLength e) entries ->
  dedupeEntries maxLength fieldName entries deduped seen
  = Ok (deduped ++ filter (fun y => toLowerCase y ∉ seen)
                     (firstSeen toLowerCase (List.map trimmedEntry entries))).
Proof.
  induction entries as [|entry rest IH]; intros deduped seen Hall.
  - cbn. rewrite app_nil_r. reflexivity.
  - inversion Hall as [| ? ? Hgood Hrest]; subst.
    destruct entry as [| b | n0 | l | a | o]; cbn in Hgood;
      try (exfalso; apply Hgood; exact I).
    cbn [dedupeEntries List.map trimmedEntry firstSeen].
    assert (isEmpty (trim l) || (maxLength <? str_length (trim l)) = false) as ->.
    { apply orb_false_iff. split.
      - destruct (isEmpty (trim l)) eqn:E; [| reflexivity].
        apply isEmpty_nil in E. exfalso. apply Hgood. left. exact E.
      - apply N.ltb_ge. apply N.le_ngt. intros Hlt. apply Hgood. right. exact Hlt. }
    set (n := trim l). set (k := toLowerCase n).
    rewrite filter_cons.
    destruct (bool_decide (k ∈ seen)) eqn:Hin.
    + apply bool_decide_eq_true in Hin.
      rewrite decide_False by (intros Hn; apply Hn, Hin).
      rewrite IH by assumption. f_equal. f_equal.
      rewrite list_filter_filter. apply list_filter_iff.
      intros y. split; [| intros [Hy _]; exact Hy].
      intros Hy. split; [exact Hy |].
      intros Heq. apply Hy. rewrite Heq. exact Hin.
    + apply bool_decide_eq_false in Hin.
      rewrite decide_True by exact Hin.
      rewrite IH by assumption. rewrite <- app_assoc. cbn. do 3 f_equal.
      rewrite list_filter_filter. apply list_filter_iff.
      intros y. rewrite elem_of_union, elem_of_singleton. tauto.
Qed.

Lemma dedupeEntries_spec maxLength fieldName entries :
  (throwsBadRequest (dedupeEntries maxLength fieldName entries [] ∅)
   <-> Exists (badEntry maxLength) entries)
  /\ (~ Exists (badEntry maxLength) entries ->
      dedupeEntries maxLength fieldName entries [] ∅
      = Ok (firstSeen toLowerCase (List.map trimmedEntry entries))).
Proof.
  assert (Hgood : ~ Exists (badEntry maxLength) entries ->
      dedupeEntries maxLength fieldName entries [] ∅
      = Ok (firstSeen toLowerCase (List.map trimmedEntry entries))).
  { intros Hno. apply Forall_Exists_neg in Hno.
    rewrite dedupeEntries_good by exact Hno. cbn [app]. f_equal.
    apply filter_all. intros y. apply not_elem_of_empty. }
  split; [| exact Hgood].
  split; [| apply dedupeEntries_bad].
  intros [msg Hthrow].
  destruct (List.Exists_dec (badEntry maxLength) entries (badEntry_dec maxLength))
    as [Hex | Hno]; [exact Hex |].
  rewrite (Hgood Hno) in Hthrow. discriminate Hthrow.
Qed.

End Dedupe.

(** What [firstSeen] keeps: a subsequence of the input, with pairwise
    different keys, that has every key of the input, each by its first
    occurrence. *)
Section FirstSeen.
Context {A K : Type} `{EqDecision K} (key : A -> K).

Lemma firstSeen_sublist (l : list A) : sublist (firstSeen key l) l.
Proof.
  induction l as [|x l IH]; cbn [firstSeen]; [constructor |].
  apply sublist_skip. etransitivity; [apply sublist_filter | exact IH].
Qed.

Lemma firstSeen_NoDup (l : list A) : NoDup (List.map key (firstSeen key l)).
Proof.
  induction l as [|x l IH]; cbn [firstSeen List.map]; [constructor |].
  constructor.
  - intros Hin. apply list_elem_of_In, in_map_iff in Hin.
    destruct Hin as [y [Hk Hy]]. apply list_elem_of_In, list_elem_of_filter in Hy.
    destruct Hy as [Hne _]. contradiction.
  - eapply sublist_NoDup; [exact IH |].
    apply (fmap_sublist key), sublist_filter.
Qed.

Lemma firstSeen_covers (l : list A) (x : A) :
  x ∈ l -> key x ∈ List.map key (firstSeen key l).
Proof.
  induction l as [|a l IH]; intros Hin; [inversion Hin |].
  cbn [firstSeen List.map].
  destruct (decide (key x = key a)) as [-> | Hne]; [left |].
  apply elem_of_cons in Hin. destruct Hin as [-> | Hin]; [contradiction |].
  right. specialize (IH Hin).
  apply list_elem_of_In, in_map_iff in IH. destruct IH as [y [Hk Hy]].
  apply list_elem_of_In, in_map_iff. exists y. split; [exact Hk |].
  apply list_elem_of_In, list_elem_of_filter. split; [congruence |].
  apply list_elem_of_In. exact Hy.
Qed.

Lemma firstSeen_first (l : list A) (x : A) :
  x ∈ firstSeen key l ->
  exists l1 l2, l = l1 ++ x :: l2 /\ Forall (fun y => key y <> key x) l1.
Proof.
  induction l as [|a l IH]; intros Hin; [inversion Hin |].
  cbn [firstSeen] in Hin. apply elem_of_cons in Hin.
  destruct Hin as [-> | Hin].
  - exists [], l. split; [reflexivity | constructor].
  - apply list_elem_of_filter in Hin. destruct Hin as [Hne Hin].
    destruct (IH Hin) as [l1 [l2 [-> Hall]]].
    exists (a :: l1), l2. split; [reflexivity |].
    constructor; [congruence | exact Hall].
Qed.

End FirstSeen.

(** C3. For every input array, [validateTags] (and [validateHighlights]
    with bound 200 instead of 40) throws BAD_REQUEST exactly when some entry
    is not a string, is empty after trimming or is longer than the bound
    after trimming; otherwise it returns the trimmed entries deduplicated
    case-insensitively, first-seen order preserved.  ["Swift","swift"]
    gives ["Swift"], and ["", "x".repeat(41)] throws. *)
Theorem validateTags_validateHighlights_spec `{Host}
  (entries : list Json) (fieldName : jsstring) :
  ((throwsBadRequest (validateTags (Some (JArray entries)) fieldName)
    <-> Exists (badEntry 40) entries)
   /\ (~ Exists (badEntry 40) entries ->
       validateTags (Some (JArray entries)) fieldName
       = Ok (firstSeen toLowerCase (List.map trimmedEntry entries))))
  /\ ((throwsBadRequest (validateHighlights (Some (JArray entries)) fieldName)
       <-> Exists (badEntry 200) entries)
      /\ (~ Exists (badEntry 200) entries ->
          validateHighlights (Some (JArray entries)) fieldName
          = Ok (firstSeen toLowerCase (List.map trimmedEntry entries))))
  /\ (toLowerCase (str "Swift") = toLowerCase (str "swift") ->
      validateTags (Some (JArray [JString (str "Swift"); JString (str "swift")]))
        fieldName
      = Ok [str "Swift"])
  /\ throwsBadRequest
       (validateTags
          (Some (JArray [JString (str ""); JString (List.repeat 120 41)]))
          fieldName).
Proof.
  split; [apply dedupeEntries_spec |].
  split; [apply dedupeEntries_spec |].
  split.
  - intros Hlower.
    pose proof (dedupeEntries_spec 40 fieldName
                  [JString (str "Swift"); JString (str "swift")]) as [_ Hok].
    unfold validateTags. rewrite Hok.
    + cbn [List.map trimmedEntry firstSeen].
      change (trim (str "Swift")) with (str "Swift").
      change (trim (str "swift")) with (str "swift").
      rewrite filter_nil, filter_cons_False; [reflexivity |].
      intros Hne. apply Hne. symmetry. exact Hlower.
    + intros Hex. apply Exists_cons in Hex. destruct Hex as [Hbad | Hex].
      { vm_compute in Hbad. destruct Hbad as [Hbad | Hbad]; discriminate Hbad. }
      apply Exists_cons in Hex. destruct Hex as [Hbad | Hex].
      { vm_compute in Hbad. destruct Hbad as [Hbad | Hbad]; discriminate Hbad. }
      inversion Hex.
  - eexists. reflexivity.
Qed.

Lemma validateTags_validateHighlights_spec_witness :
  validateTags (H := refHost)
    (Some (JArray [JString (str "Swift"); JString (str "swift")])) (str "tags")
  = Ok [str "Swift"].
Proof.
  pose proof (validateTags_validateHighlights_spec (H := refHost)
                [] (str "tags")) as [_ [_ [Hswift _]]].
  apply Hswift. reflexivity.
Defined.

(** ** URL checks *)

Section Urls.
Context `{Host}.

Lemma isValidHttpUrl_iff (s : jsstring) :
  isValidHttpUrl s = true
  <-> exists u, newURL s = Some u
                /\ (protocol u = str "http:" \/ protocol u = str "https:").
Proof.
  unfold isValidHttpUrl, URL_PROTOCOLS.
  destruct (newURL s) as [u|].
  - rewrite bool_decide_eq_true, elem_of_union, !elem_of_singleton.
    split.
    + intros Hp. exists u. split; [reflexivity | exact Hp].
    + intros [u' [Hu Hp]]. injection Hu as <-. exact Hp.
  - split; [discriminate |]. intros [u [Hu _]]. discriminate Hu.
Qed.

Lemma urlCheck_iff (v : unknown) : urlCheck v = true <-> isHttpUrl v.
Proof.
  unfold isHttpUrl.
  destruct v as [[| b | n | s | a | o] |]; cbn [urlCheck];
    try (split; [discriminate | intros [s' [u [Hv _]]]; discriminate Hv]).
  rewrite isValidHttpUrl_iff. split.
  - intros [u Hu]. exists s, u. split; [reflexivity | exact Hu].
  - intros [s' [u [Hv Hu]]]. injection Hv as <-. exists u. exact Hu.
Qed.

Lemma isInvalidImageLink_urlCheck (entry : Json) :
  isInvalidImageLink entry = negb (urlCheck (Some entry)).
Proof. destruct entry; reflexivity. Qed.

Lemma validateImageLinks_ok (entries : list Json) (fieldName : jsstring) :
  Forall (fun e => urlCheck (Some e) = true) entries ->
  validateImageLinks (Some (JArray entries)) fieldName = Ok entries.
Proof.
  intros Hall. unfold validateImageLinks.
  destruct (List.find isInvalidImageLink entries) as [bad|] eqn:Hfind;
    [| reflexivity].
  apply find_some in Hfind. destruct Hfind as [Hin Hbad].
  rewrite List.Forall_forall in Hall. specialize (Hall bad Hin).
  rewrite isInvalidImageLink_urlCheck, Hall in Hbad. discriminate Hbad.
Qed.

Lemma validateImageLinks_throws (entries : list Json) (fieldName : jsstring) :
  Exists (fun e => urlCheck (Some e) = false) entries ->
  throwsBadRequest (validateImageLinks (Some (JArray entries)) fieldName).
Proof.
  intros Hex. unfold validateImageLinks.
  destruct (List.find isInvalidImageLink entries) as [bad|] eqn:Hfind;
    [eexists; reflexivity |].
  apply List.Exists_exists in Hex. destruct Hex as [e [Hin He]].
  pose proof (find_none _ _ Hfind e Hin) as Hgood.
  rewrite isInvalidImageLink_urlCheck, He in Hgood. discriminate Hgood.
Qed.


Lemma urlCheck_false_iff (v : unknown) : urlCheck v = false <-> ~ isHttpUrl v.
Proof.
  rewrite <- urlCheck_iff. destruct (urlCheck v); split; congruence.
Qed.

Lemma validateImageLinks_spec (entries : list Json) (fieldName : jsstring) :
  (validateImageLinks (Some (JArray entries)) fieldName = Ok entries
   <-> Forall (fun e => isHttpUrl (Some e)) entries)
  /\ (throwsBadRequest (validateImageLinks (Some (JArray entries)) fieldName)
      <-> Exists (fun e => ~ isHttpUrl (Some e)) entries).
Proof.
  assert (Hok : Forall (fun e => isHttpUrl (Some e)) entries ->
                validateImageLinks (Some (JArray entries)) fieldName = Ok entries).
  { intros Hall. apply validateImageLinks_ok.
    eapply List.Forall_impl; [| exact Hall].
    intros e He. apply urlCheck_iff, He. }
  assert (Hthrow : Exists (fun e => ~ isHttpUrl (Some e)) entries ->
                   throwsBadRequest
                     (validateImageLinks (Some (JArray entries)) fieldName)).
  { intros Hex. apply validateImageLinks_throws.
    eapply List.Exists_impl; [| exact Hex].
    intros e He. apply urlCheck_false_iff, He. }
  assert (Hdec : forall e : Json, {isHttpUrl (Some e)} + {~ isHttpUrl (Some e)}).
  { intros e. destruct (urlCheck (Some e)) eqn:E.
    - left. apply urlCheck_iff, E.
    - right. apply urlCheck_false_iff, E. }
  split; split; try assumption.
  - intros Heq.
    destruct (List.Forall_Exists_dec _ Hdec entries) as [Hall | Hex];
      [exact Hall |].
    destruct (Hthrow Hex) as [msg Hmsg]. rewrite Hmsg in Heq. discriminate Heq.
  - intros [msg Hmsg].
    destruct (List.Forall_Exists_dec _ Hdec entries) as [Hall | Hex];
      [| exact Hex].
    rewrite (Hok Hall) in Hmsg. discriminate Hmsg.
Qed.

End Urls.



(** ** The terminal error handler *)

Lemma normalizePrismaError_details (c : jsstring) (meta : unknown) :
  details (normalizePrismaError c meta) = meta.
Proof.
  unfold normalizePrismaError. repeat case_decide; reflexivity.
Qed.

(** C5, as amended.  The handler makes one envelope of every caught error:
    for a known ORM error, 409 CONFLICT on P2002, 400 BAD_REQUEST on P2003,
    404 NOT_FOUND on P2025 and 500 INTERNAL_ERROR on any other code, with
    the error's meta as details; for an [AppError], its status, code,
    message and details as they are; for an error of another class whose
    [type] is "entity.too.large", 400 BAD_REQUEST; for any other error,
    500 INTERNAL_ERROR with the underlying message as details unless
    NODE_ENV is "production", when there are no details. *)
Theorem errorHandler_envelope (env : Env) :
  (forall c meta,
     let r := errorHandler env (ThrownPrismaKnown c meta) in
     (c = str "P2002" -> envelopeIs r 409 "CONFLICT")
     /\ (c = str "P2003" -> envelopeIs r 400 "BAD_REQUEST")
     /\ (c = str "P2025" -> envelopeIs r 404 "NOT_FOUND")
     /\ (c <> str "P2002" -> c <> str "P2003" -> c <> str "P2025" ->
         envelopeIs r 500 "INTERNAL_ERROR")
     /\ error_details (body r) = meta)
  /\ (forall e,
        errorHandler env (ThrownAppError e)
        = mkResponse (statusCode e) (mkEnvelope (code e) (message e) (details e)))
  /\ (forall error,
        unrecognized error -> isEntityTooLarge error = true ->
        envelopeIs (errorHandler env error) 400 "BAD_REQUEST")
  /\ (forall error,
        unrecognized error -> isEntityTooLarge error = false ->
        envelopeIs (errorHandler env error) 500 "INTERNAL_ERROR"
        /\ (NODE_ENV env = Some (str "production") ->
            error_details (body (errorHandler env error)) = None)
        /\ (NODE_ENV env <> Some (str "production") ->
            error_details (body (errorHandler env error))
            = Some (JString (underlyingMessage error)))).
Proof.
  split; [| split; [| split]].
  - intros c meta r. subst r. unfold errorHandler. cbn [isEntityTooLarge].
    cbv zeta. rewrite normalizePrismaError_details.
    unfold normalizePrismaError, envelopeIs.
    repeat split; intros; repeat case_decide; subst; cbn;
      try reflexivity; try congruence;
      match goal with Hd : str _ = str _ |- _ => discriminate Hd end.
  - intros e. reflexivity.
  - intros error _ Hlarge. unfold errorHandler. rewrite Hlarge.
    split; reflexivity.
  - intros error Hun Hlarge. unfold errorHandler. rewrite Hlarge.
    destruct error as [e | c meta | ty m | ty]; cbn in Hun; try contradiction;
      cbn; (split; [split; reflexivity |]);
      split; intros Henv; case_decide; congruence.
Qed.

Lemma errorHandler_envelope_witness :
  envelopeIs (errorHandler refEnv (ThrownPrismaKnown (str "P2002") None))
    409 "CONFLICT"
  /\ error_details
       (body (errorHandler refEnv (ThrownError None (str "boom"))))
     = Some (JString (str "boom")).
Proof.
  pose proof (errorHandler_envelope refEnv) as [Hprisma [_ [_ Hother]]].
  split.
  - apply (Hprisma (str "P2002") None). reflexivity.
  - apply (Hother (ThrownError None (str "boom")) I eq_refl). discriminate.
Defined.

(** C5 as stated fails: the error body-parser raises for an oversized
    request is neither an ORM error nor an [AppError], and it is answered
    with 400 BAD_REQUEST, not 500 INTERNAL_ERROR. *)
Lemma errorHandler_payload_too_large_is_400 :
  let error :=
    ThrownError (Some (JString (str "entity.too.large")))
      (str "request entity too large") in
  unrecognized error
  /\ envelopeIs (errorHandler refEnv error) 400 "BAD_REQUEST"
  /\ ~ envelopeIs (errorHandler refEnv error) 500 "INTERNAL_ERROR".
Proof.
  split; [exact I |]. split; [split; reflexivity |].
  intros [Hstatus _]. discriminate Hstatus.
Qed.

(** ** The auth gate *)

(** Verification succeeds exactly when a secret is configured, the library
    accepts the token for it, and the decoded subject and email claim are
    strings, which become [userId] and [email]. *)
Lemma verifyAccessToken_ok_iff `{Host} (env : Env) (token : jsstring)
  (payload : AccessTokenPayload) :
  verifyAccessToken env token = inr payload
  <-> exists secret decoded,
        JWT_SECRET env = Some secret /\ secret <> []
        /\ jwt_verify token secret = inr decoded
        /\ sub decoded = Some (JString (userId payload))
        /\ email decoded = Some (JString (email_ payload)).
Proof.
  unfold verifyAccessToken, getJwtConfig.
  split.
  - destruct (JWT_SECRET env) as [secret |]; [| discriminate].
    destruct secret as [| c secret]; [discriminate |]. cbn.
    destruct (jwt_verify token (c :: secret)) as [msg | decoded] eqn:Hv;
      [discriminate |].
    destruct (sub decoded) as [[| b | n | u | a | o] |] eqn:Hsub; try discriminate.
    destruct (email decoded) as [[| b | n | m | a | o] |] eqn:Hemail;
      try discriminate.
    intros Heq. injection Heq as <-.
    exists (c :: secret), decoded. cbn. repeat split; try assumption.
    discriminate.
  - intros [secret [decoded [Hs [Hne [Hv [Hsub Hemail]]]]]].
    rewrite Hs. destruct secret as [| c secret]; [contradiction |]. cbn.
    rewrite Hv, Hsub, Hemail. destruct payload; reflexivity.
Qed.

(** C8. [requireAuth] hands [next] a 401 UNAUTHORIZED [AppError] exactly
    when the Authorization header is missing, does not start with
    ["Bearer "], has an empty token after the prefix, or the token fails
    verification; otherwise it attaches the [userId] and [email] of the
    verified token to the request and calls [next()]. *)
Theorem requireAuth_rejects_iff `{Host} (env : Env) (authHeader : option jsstring) :
  (forall e, requireAuth env authHeader = NextError e ->
             statusCode e = 401%Z /\ code e = str "UNAUTHORIZED")
  /\ ((exists e, requireAuth env authHeader = NextError e)
      <-> authHeader = None
          \/ exists h, authHeader = Some h
                /\ (startsWith h (str "Bearer ") = false
                    \/ tokenOf h = []
                    \/ exists msg, verifyAccessToken env (tokenOf h) = inl msg))
  /\ (forall h payload,
        authHeader = Some h ->
        startsWith h (str "Bearer ") = true ->
        tokenOf h <> [] ->
        verifyAccessToken env (tokenOf h) = inr payload ->
        requireAuth env authHeader = NextWithAuth payload).
Proof.
  unfold requireAuth, tokenOf, UNAUTHORIZED.
  change (List.length (str "Bearer ")) with 7%nat.
  destruct authHeader as [h |].
  2:{ split; [intros e He; injection He as <-; split; reflexivity |].
      split; [| intros h payload Hh; discriminate Hh].
      split; [intros _; left; reflexivity | intros _; eexists; reflexivity]. }
  assert (Hprefix : startsWith h (str "Bearer ") = true -> truthy_str h = true).
  { destruct h; [discriminate | reflexivity]. }
  destruct (startsWith h (str "Bearer ")) eqn:Hstart.
  2:{ rewrite orb_true_r.
      split; [intros e He; injection He as <-; split; reflexivity |].
      split; [| intros h' payload Hh Hs; injection Hh as <-; congruence].
      split; [| intros _; eexists; reflexivity].
      intros _. right. exists h. split; [reflexivity | left; exact Hstart]. }
  rewrite (Hprefix eq_refl). cbn [negb orb].
  destruct (trim (slice h 7)) as [| c token] eqn:Htoken.
  { cbn [isEmpty truthy_str negb].
    split; [intros e He; injection He as <-; split; reflexivity |].
    split.
    - split; [| intros _; eexists; reflexivity].
      intros _. right. exists h. split; [reflexivity |].
      right; left. exact Htoken.
    - intros h' payload Hh _ Hne. injection Hh as <-.
      rewrite Htoken in Hne. contradiction. }
  cbn [isEmpty truthy_str negb].
  destruct (verifyAccessToken env (c :: token)) as [msg | payload] eqn:Hverify.
  - split; [intros e He; injection He as <-; split; reflexivity |].
    split.
    + split; [| intros _; eexists; reflexivity].
      intros _. right. exists h. split; [reflexivity |].
      right; right. exists msg. rewrite Htoken. exact Hverify.
    + intros h' payload Hh _ _ Hok. injection Hh as <-.
      rewrite Htoken, Hverify in Hok. discriminate Hok.
  - split; [intros e He; discriminate He |].
    split.
    + split; [intros [e He]; discriminate He |].
      intros [Hnone | [h' [Hh [Hs | [Hempty | [msg Hmsg]]]]]].
      * discriminate Hnone.
      * injection Hh as <-. congruence.
      * injection Hh as <-. rewrite Htoken in Hempty. discriminate Hempty.
      * injection Hh as <-. rewrite Htoken, Hverify in Hmsg. discriminate Hmsg.
    + intros h' payload' Hh _ _ Hok. injection Hh as <-.
      rewrite Htoken, Hverify in Hok. injection Hok as <-.
      destruct payload; reflexivity.
Qed.

Lemma requireAuth_rejects_iff_witness :
  requireAuth (H := refHost) refEnv (Some (str "Bearer header.payload.signature"))
  = NextWithAuth (mkAccess (str "user-1") (str "dwikis17@gmail.com")).
Proof.
  pose proof (requireAuth_rejects_iff (H := refHost) refEnv
                (Some (str "Bearer header.payload.signature"))) as [_ [_ Hok]].
  apply (Hok (str "Bearer header.payload.signature")).
  - reflexivity.
  - reflexivity.
  - discriminate.
  - reflexivity.
Defined.

(** ** Deleting a category *)

(** A category has a dependent blog exactly when its blog count is positive. *)
Lemma countBlogs_pos_iff (id : jsstring) (db : Db) :
  0 < countBlogs id db
  <-> exists k b, blogs db !! k = Some b /\ categoryId b = id.
Proof.
  unfold countBlogs.
  set (m := filter (fun kv : jsstring * Blog => categoryId (snd kv) = id) (blogs db)).
  split.
  - intros Hpos.
    destruct (decide (m = ∅)) as [Hempty | Hne].
    { rewrite Hempty, map_size_empty in Hpos. cbn in Hpos. lia. }
    apply map_choose in Hne. destruct Hne as [k [b Hkb]].
    apply map_lookup_filter_Some in Hkb. destruct Hkb as [Hkb Hcat].
    exists k, b. split; assumption.
  - intros [k [b [Hkb Hcat]]].
    assert (Hin : m !! k = Some b).
    { apply map_lookup_filter_Some. split; assumption. }
    destruct (decide (size m = 0%nat)) as [Hz | Hnz].
    + apply map_size_empty_iff in Hz. rewrite Hz in Hin.
      rewrite lookup_empty in Hin. discriminate Hin.
    + lia.
Qed.

(** C6. [deleteCategory] answers 404 NOT_FOUND when the category does not
    exist, and 409 CONFLICT when it exists with at least one dependent
    blog; in both cases the store is unchanged and the delete call is not
    made.  Only when it exists with no dependent blog is the row deleted,
    with answer 204. *)
Theorem deleteCategory_guards_delete (env : Env) (id : jsstring) (db : Db) :
  let r := deleteCategory id db in
  (categories db !! id = None ->
     finish env (result r) = (404%Z, Some (str "NOT_FOUND"))
     /\ store r = db /\ CategoryDelete id ∉ calls r)
  /\ (is_Some (categories db !! id) -> 0 < countBlogs id db ->
      finish env (result r) = (409%Z, Some (str "CONFLICT"))
      /\ store r = db /\ CategoryDelete id ∉ calls r)
  /\ (is_Some (categories db !! id) -> countBlogs id db = 0 ->
      finish env (result r) = (204%Z, None)
      /\ calls r = [CategoryFindUnique id; CategoryDelete id]
      /\ categories (store r) = delete id (categories db)
      /\ blogs (store r) = blogs db
      /\ experiences (store r) = experiences db)
  /\ (CategoryDelete id ∈ calls r ->
      is_Some (categories db !! id) /\ countBlogs id db = 0).
Proof.
  unfold deleteCategory, category_findUnique, category_delete. cbv zeta.
  destruct (categories db !! id) as [c |] eqn:Hc.
  2:{ split.
      { intros _. split; [reflexivity |]. split; [reflexivity |].
        apply not_elem_of_cons. split; [discriminate | apply not_elem_of_nil]. }
      split; [intros [x Hx]; discriminate Hx |].
      split; [intros [x Hx]; discriminate Hx |].
      intros Hin. apply elem_of_cons in Hin. destruct Hin as [Hin | Hin];
        [discriminate Hin | inversion Hin]. }
  destruct (0 <? countBlogs id db) eqn:Hcount.
  - apply N.ltb_lt in Hcount.
    split; [intros Hn; discriminate Hn |].
    split; [intros _ _; repeat split; try reflexivity;
            apply not_elem_of_cons; split;
            [discriminate | apply not_elem_of_nil] |].
    split; [intros _ Hz; lia |].
    intros Hin. apply elem_of_cons in Hin. destruct Hin as [Hin | Hin];
      [discriminate Hin | inversion Hin].
  - apply N.ltb_ge in Hcount.
    split; [intros Hn; discriminate Hn |].
    split; [intros _ Hpos; lia |].
    split; [intros _ _; repeat split; reflexivity |].
    intros _. split; [eexists; reflexivity | lia].
Qed.

Lemma deleteCategory_guards_delete_witness :
  let db :=
    mkDb ∅ {[ str "cat-1" := mkCategory (str "cat-1") (str "Development") None ]}
      {[ str "b1" := mkBlog (str "b1") (str "Post") (str "text") [] (str "cat-1") ]} in
  finish refEnv (result (deleteCategory (str "cat-1") db))
  = (409%Z, Some (str "CONFLICT"))
  /\ store (deleteCategory (str "cat-1") db) = db.
Proof.
  intros db.
  pose proof (deleteCategory_guards_delete refEnv (str "cat-1") db)
    as [_ [Hconflict _]].
  assert (Hsome : is_Some (categories db !! str "cat-1")).
  { eexists. apply lookup_singleton_eq. }
  assert (Hpos : 0 < countBlogs (str "cat-1") db).
  { apply countBlogs_pos_iff. eexists _, _. split;
      [apply lookup_singleton_eq | reflexivity]. }
  destruct (Hconflict Hsome Hpos) as [Hfin [Hstore _]].
  split; assumption.
Defined.

(** ** Uploads *)

Lemma refMulter_loop_limit (parts accepted : list UploadedFile) :
  N.of_nat (List.length accepted) <= MAX_FILES ->
  MAX_FILES < N.of_nat (List.length accepted + List.length parts) ->
  (exists c msg, refMulter_loop parts accepted = MulterFailed c msg)
  \/ (exists f e, f ∈ parts /\ fileFilter f = Some e
                  /\ refMulter_loop parts accepted
                     = MulterOtherError (ThrownAppError e)).
Proof.
  revert accepted. induction parts as [| f rest IH]; intros accepted Hacc Hlen.
  - cbn [List.length] in Hlen. rewrite Nat.add_0_r in Hlen. lia.
  - cbn [refMulter_loop].
    destruct (MAX_FILES <=? N.of_nat (List.length accepted)) eqn:Hfull;
      [left; eexists _, _; reflexivity |].
    apply N.leb_gt in Hfull.
    destruct (fileFilter f) as [e |] eqn:Hfilter.
    { right. exists f, e. split; [left | split; [exact Hfilter | reflexivity]]. }
    destruct (MAX_SIZE_BYTES <? file_size f);
      [left; eexists _, _; reflexivity |].
    destruct (IH (accepted ++ [f])) as [Hfail | [f' [e [Hin [Hf Hout]]]]].
    + rewrite length_app. cbn [List.length]. lia.
    + rewrite length_app. cbn [List.length] in Hlen |- *. lia.
    + left. exact Hfail.
    + right. exists f', e. split; [right; exact Hin | split; assumption].
Qed.

Lemma refMulter_enforcesFileLimit : enforcesFileLimit refMulter.
Proof.
  intros parts Hlen. apply refMulter_loop_limit.
  - unfold MAX_FILES. cbn. lia.
  - exact Hlen.
Qed.

Section UploadGuards.
Context `{Host}.

Lemma fileFilter_error (f : UploadedFile) (e : AppError) :
  fileFilter f = Some e -> statusCode e = 400%Z /\ code e = str "BAD_REQUEST".
Proof.
  unfold fileFilter. destruct (bool_decide _); [discriminate |].
  intros Heq. injection Heq as <-. split; reflexivity.
Qed.

Lemma parseUploadFolder_throws (v : unknown) (e : AppError) :
  parseUploadFolder v = Throw e ->
  statusCode e = 400%Z /\ code e = str "BAD_REQUEST".
Proof.
  unfold parseUploadFolder, validateRequiredString.
  destruct v as [[| b | n | s | a | o] |]; cbn;
    try (intros Heq; injection Heq as <-; split; reflexivity).
  destruct (isEmpty (trim s)); cbn;
    [intros Heq; injection Heq as <-; split; reflexivity |].
  destruct (bool_decide _); [discriminate |].
  intros Heq; injection Heq as <-; split; reflexivity.
Qed.

(** The controller's count check comes before any storage call. *)
Lemma uploadImages_count_check (env : Env) (storage : Storage) (body : Json)
  (files : list UploadedFile) :
  MAX_FILES_PER_REQUEST < N.of_nat (List.length files) ->
  finish env (fst (uploadImages env storage body (Some files)))
  = (400%Z, Some (str "BAD_REQUEST"))
  /\ snd (uploadImages env storage body (Some files)) = [].
Proof.
  intros Hlen. unfold uploadImages.
  destruct (parseUploadFolder (prop body "folder")) as [folder | e] eqn:Hfolder.
  - change (default [] (Some files)) with files. cbv zeta.
    apply N.ltb_lt in Hlen. rewrite Hlen, orb_true_r.
    split; reflexivity.
  - apply parseUploadFolder_throws in Hfolder. destruct Hfolder as [Hs Hc].
    split; [| reflexivity]. cbn. rewrite Hs, Hc. reflexivity.
Qed.

(** A storage call is made only for a request of one to ten files. *)
Lemma uploadImages_storage_only_within_limit (env : Env) (storage : Storage)
  (body : Json) (files : list UploadedFile) :
  snd (uploadImages env storage body (Some files)) <> [] ->
  1 <= N.of_nat (List.length files) <= MAX_FILES_PER_REQUEST.
Proof.
  intros Htrace. unfold uploadImages in Htrace.
  destruct (parseUploadFolder (prop body "folder")); [| contradiction].
  change (default [] (Some files)) with files in Htrace. cbv zeta in Htrace.
  destruct (N.of_nat (List.length files) <? 1) eqn:Hlow;
    [contradiction |].
  destruct (MAX_FILES_PER_REQUEST <? N.of_nat (List.length files)) eqn:Hhigh;
    [contradiction |].
  apply N.ltb_ge in Hlow, Hhigh. split; assumption.
Qed.

(** C7. An upload request with more than ten files is answered with
    BAD_REQUEST and no storage call is made: the controller's count check
    throws before the per-file loop, a [MulterError] of the middleware never
    reaches the controller, and so the pipeline behind a multer instance
    that enforces its files limit rejects every such request before any
    storage call. *)
Theorem upload_over_limit_makes_no_storage_call
  (env : Env) (storage : Storage) (body : Json) :
  (forall files,
     MAX_FILES_PER_REQUEST < N.of_nat (List.length files) ->
     finish env (fst (uploadImages env storage body (Some files)))
     = (400%Z, Some (str "BAD_REQUEST"))
     /\ snd (uploadImages env storage body (Some files)) = []
     /\ finish env (fst (uploadPipeline env storage body (MulterAccepted files)))
        = (400%Z, Some (str "BAD_REQUEST"))
     /\ snd (uploadPipeline env storage body (MulterAccepted files)) = [])
  /\ (forall c msg,
        finish env (fst (uploadPipeline env storage body (MulterFailed c msg)))
        = (400%Z, Some (str "BAD_REQUEST"))
        /\ snd (uploadPipeline env storage body (MulterFailed c msg)) = [])
  /\ (forall multer parts,
        enforcesFileLimit multer ->
        MAX_FILES < N.of_nat (List.length parts) ->
        finish env (fst (uploadPipeline env storage body (multer parts)))
        = (400%Z, Some (str "BAD_REQUEST"))
        /\ snd (uploadPipeline env storage body (multer parts)) = []).
Proof.
  assert (Hfailed : forall c msg,
        finish env (fst (uploadPipeline env storage body (MulterFailed c msg)))
        = (400%Z, Some (str "BAD_REQUEST"))
        /\ snd (uploadPipeline env storage body (MulterFailed c msg)) = []).
  { intros c msg. unfold uploadPipeline, uploadMiddleware.
    repeat case_decide; split; reflexivity. }
  split; [| split; [exact Hfailed |]].
  - intros files Hlen.
    destruct (uploadImages_count_check env storage body files Hlen) as [Hf Ht].
    repeat split; assumption.
  - intros multer parts Hlimit Hlen.
    destruct (Hlimit parts Hlen) as [[c [msg Hm]] | [f [e [_ [Hf Hm]]]]];
      rewrite Hm.
    + apply Hfailed.
    + apply fileFilter_error in Hf. destruct Hf as [Hs Hc].
      unfold uploadPipeline, uploadMiddleware. cbn. rewrite Hs, Hc.
      split; reflexivity.
Qed.

End UploadGuards.

Lemma upload_over_limit_makes_no_storage_call_witness :
  let body := JObject [(str "folder", JString (str "projects"))] in
  let parts := List.repeat refFile 11 in
  finish refEnv
    (fst (uploadPipeline (H := refHost) refEnv refStorage body (refMulter parts)))
  = (400%Z, Some (str "BAD_REQUEST"))
  /\ snd (uploadPipeline (H := refHost) refEnv refStorage body (refMulter parts))
     = [].
Proof.
  intros body parts.
  pose proof (upload_over_limit_makes_no_storage_call (H := refHost)
                refEnv refStorage body) as [_ [_ Hpipe]].
  apply (Hpipe refMulter parts refMulter_enforcesFileLimit).
  reflexivity.
Defined.

(** ** Experiences: a current position has no end month *)

Ltac step_bind :=
  match goal with
  | H : context [bind ?m _] |- _ =>
      let E := fresh "E" in destruct m eqn:E; cbn [bind] in H; try discriminate H
  end.

Section Experience.
Context `{Host}.

Lemma createExperienceData_fields (body : Json) (data : ExperienceCreateInput) :
  createExperienceData body = Ok data ->
  c_isCurrent data = true -> c_endMonth data = None.
Proof.
  unfold createExperienceData. intros Hok.
  repeat step_bind.
  injection Hok as <-. cbn.
  intros ->. reflexivity.
Qed.

Lemma createExperience_invariant (newId : jsstring) (body : Json) (db : Db)
  (resp : Response Experience) :
  result (createExperience newId body db) = inr resp ->
  currentHasNoEnd (Express.body resp)
  /\ experiences (store (createExperience newId body db)) !! newId
     = Some (Express.body resp).
Proof.
  unfold createExperience.
  destruct (createExperienceData body) as [data | e] eqn:Hdata; [| discriminate].
  unfold experience_create.
  destruct (experiences db !! newId); [discriminate |].
  cbn. intros Heq. injection Heq as <-. cbn.
  split; [| apply lookup_insert_eq].
  intros [Hcur Hend]. cbn in Hcur, Hend.
  apply Hend. eapply createExperienceData_fields; eassumption.
Qed.

Lemma updateExperienceData_fields (body : Json) (existing : Experience)
  (data : ExperienceUpdateInput) :
  updateExperienceData body existing = Ok data ->
  let nextIsCurrent :=
    default (Store.isCurrent existing) (u_isCurrent data) in
  u_isCurrent data
  = match prop body "isCurrent" with
    | None => None
    | Some _ => Some (toBoolean (prop body "isCurrent"))
    end
  /\ (prop body "endMonth" = None -> u_endMonth data = None)
  /\ (prop body "endMonth" <> None -> nextIsCurrent = true ->
      u_endMonth data = Some None).
Proof.
  unfold updateExperienceData. intros Hok.
  repeat step_bind.
  injection Hok as <-. cbn.
  split; [reflexivity |]. split.
  - intros ->. reflexivity.
  - intros Hdef Hcur. destruct (prop body "endMonth"); [| contradiction].
    cbn. unfold nextEndMonthOf. rewrite Hcur. reflexivity.
Qed.



Lemma updateExperience_row (id : jsstring) (body : Json) (db : Db)
  (resp : Response Experience) :
  result (updateExperience id body db) = inr resp ->
  exists existing data,
    experiences db !! id = Some existing
    /\ updateExperienceData body existing = Ok data
    /\ Express.body resp = applyUpdate existing data
    /\ experiences (store (updateExperience id body db)) !! id
       = Some (Express.body resp).
Proof.
  unfold updateExperience, experience_findUnique, experience_update.
  destruct (requireAtLeastOneField body experienceFields); [| discriminate].
  destruct (experiences db !! id) as [existing |] eqn:Hrow; [| discriminate].
  destruct (updateExperienceData body existing) as [data | e] eqn:Hdata;
    [| discriminate].
  cbn. intros Heq. injection Heq as <-.
  exists existing, data. cbn.
  split; [reflexivity |]. split; [exact Hdata |]. split; [reflexivity |].
  apply lookup_insert_eq.
Qed.

(** The row an update leaves breaks the invariant exactly when the body has
    no [endMonth] member, the row had an end month, and the row is current
    after the update. *)
Lemma updateExperience_breaks_invariant_iff (id : jsstring) (body : Json)
  (db : Db) (resp : Response Experience) :
  result (updateExperience id body db) = inr resp ->
  (~ currentHasNoEnd (Express.body resp)
   <-> prop body "endMonth" = None
       /\ (exists existing, experiences db !! id = Some existing
                            /\ endMonth existing <> None)
       /\ isCurrent (Express.body resp) = true).
Proof.
  intros Hres.
  destruct (updateExperience_row id body db resp Hres)
    as [existing [data [Hrow [Hdata [Hbody _]]]]].
  destruct (updateExperienceData_fields body existing data Hdata)
    as [_ [Hundef Hdef]].
  rewrite Hbody. unfold currentHasNoEnd, applyUpdate. cbn.
  destruct (default (isCurrent existing) (u_isCurrent data)) eqn:Hcur.
  - destruct (prop body "endMonth") as [j |] eqn:Hend.
    + rewrite (Hdef ltac:(discriminate) eq_refl). cbn.
      split; [intros Hn; exfalso; apply Hn; intros [_ Hne]; contradiction |].
      intros [Hnone _]. discriminate Hnone.
    + rewrite (Hundef eq_refl). cbn. split.
      * intros Hn. split; [reflexivity |]. split; [| reflexivity].
        exists existing. split; [exact Hrow |].
        intros Hnone. apply Hn. intros [_ Hne]. contradiction.
      * intros [_ [[existing' [Hrow' Hne]] _]] Hinv.
        rewrite Hrow in Hrow'. injection Hrow' as <-.
        apply Hinv. split; [reflexivity | exact Hne].
  - split; [intros Hn; exfalso; apply Hn; intros [Hc _]; discriminate Hc |].
    intros [_ [_ Hc]]. discriminate Hc.
Qed.

End Experience.

(** C1, at the input where the code departs from it.  The stored row is a
    past position with end month 2023-12; the request body is
    [{ "isCurrent": true }].  [updateExperience] answers 200 and the row it
    persists has [isCurrent = true] together with the end month 2023-12. *)
Theorem updateExperience_current_keeps_endMonth :
  let body := JObject [(str "isCurrent", JBool true)] in
  let r := updateExperience (H := refHost) (str "exp-1") body refDb in
  exists row,
    result r = inr (mkResponse 200 row)
    /\ experiences (store r) !! str "exp-1" = Some row
    /\ isCurrent row = true
    /\ endMonth row = Some (str "2023-12")
    /\ ~ currentHasNoEnd row.
Proof.
  eexists. split; [vm_compute; reflexivity |].
  split; [vm_compute; reflexivity |].
  split; [reflexivity |]. split; [reflexivity |].
  intros Hinv. apply Hinv. split; [reflexivity | discriminate].
Qed.

(** ** Binary64 arithmetic on integers *)

Section Binary64.
Local Open Scope Z_scope.

Lemma digits2_pos_bounds (p : positive) :
  2 ^ (Z.pos (digits2_pos p) - 1) <= Z.pos p < 2 ^ Z.pos (digits2_pos p).
Proof.
  induction p as [p IH | p IH |]; cbn [digits2_pos].
  - rewrite Pos2Z.inj_succ.
    replace (Z.succ (Z.pos (digits2_pos p)) - 1) with (Z.pos (digits2_pos p)) by lia.
    rewrite Z.pow_succ_r by lia.
    assert (Hp : 2 ^ Z.pos (digits2_pos p) = 2 * 2 ^ (Z.pos (digits2_pos p) - 1)).
    { rewrite <- Z.pow_succ_r by lia. f_equal. lia. }
    lia.
  - rewrite Pos2Z.inj_succ.
    replace (Z.succ (Z.pos (digits2_pos p)) - 1) with (Z.pos (digits2_pos p)) by lia.
    rewrite Z.pow_succ_r by lia.
    assert (Hp : 2 ^ Z.pos (digits2_pos p) = 2 * 2 ^ (Z.pos (digits2_pos p) - 1)).
    { rewrite <- Z.pow_succ_r by lia. f_equal. lia. }
    lia.
  - cbn. lia.
Qed.

Lemma digits2_pos_unique (p : positive) (n : Z) :
  2 ^ (n - 1) <= Z.pos p < 2 ^ n -> Z.pos (digits2_pos p) = n.
Proof.
  intros [Hlo Hhi]. pose proof (digits2_pos_bounds p) as [Dlo Dhi].
  assert (0 < n).
  { destruct (Z_lt_le_dec 0 n); [assumption |].
    assert (2 ^ n <= 2 ^ 0) by (destruct (Z.eq_dec n 0); [subst; lia |
      rewrite Z.pow_neg_r by lia; cbn; lia]).
    cbn in *. lia. }
  destruct (Z.lt_trichotomy (Z.pos (digits2_pos p)) n) as [Hlt | [Heq | Hgt]];
    [| exact Heq |].
  - assert (2 ^ Z.pos (digits2_pos p) <= 2 ^ (n - 1))
      by (apply Z.pow_le_mono_r; lia). lia.
  - assert (2 ^ n <= 2 ^ (Z.pos (digits2_pos p) - 1))
      by (apply Z.pow_le_mono_r; lia). lia.
Qed.

(** The mantissa of a well-formed finite number has at most 53 bits, and
    exactly 53 above the smallest exponent. *)
Lemma wellFormed_finite (s : bool) (m : positive) (e : Z) :
  wellFormed (S754_finite s m e) ->
  Z.pos (digits2_pos m) <= 53 /\ -1074 <= e <= 971
  /\ (-1074 < e -> Z.pos (digits2_pos m) = 53).
Proof.
  unfold wellFormed, valid_binary, bounded, canonical_mantissa, fexp, SpecFloat.emin,
    prec, emax.
  intros Hv. apply andb_true_iff in Hv. destruct Hv as [Hc He].
  apply Z.eqb_eq in Hc. apply Z.leb_le in He. lia.
Qed.

Lemma scaled_pos_lt (m1 m2 : positive) (e1 e2 : Z) :
  wellFormed (S754_finite false m1 e1) -> wellFormed (S754_finite false m2 e2) ->
  e1 < e2 ->
  Z.pos m1 * 2 ^ (e1 + 1074) < Z.pos m2 * 2 ^ (e2 + 1074).
Proof.
  intros H1 H2 Hlt.
  apply wellFormed_finite in H1, H2.
  destruct H1 as [Hd1 [He1 _]]. destruct H2 as [_ [He2 Hd2]].
  specialize (Hd2 ltac:(lia)).
  pose proof (digits2_pos_bounds m1) as [_ Hm1].
  pose proof (digits2_pos_bounds m2) as [Hm2 _].
  rewrite Hd2 in Hm2. change (2 ^ (53 - 1)) with (2 ^ 52) in Hm2.
  assert (Hm1' : Z.pos m1 < 2 ^ 53).
  { eapply Z.lt_le_trans; [exact Hm1 |]. apply Z.pow_le_mono_r; lia. }
  assert (Hp1 : 0 < 2 ^ (e1 + 1074)) by (apply Z.pow_pos_nonneg; lia).
  assert (Hstep : 2 * 2 ^ (e1 + 1074) <= 2 ^ (e2 + 1074)).
  { rewrite <- Z.pow_succ_r by lia. apply Z.pow_le_mono_r; lia. }
  change (2 ^ 53) with (2 * 2 ^ 52) in Hm1'.
  nia.
Qed.

Lemma SFcompare_scaled (x y : number) :
  wellFormed x -> wellFormed y -> isFinite x = true -> isFinite y = true ->
  SFcompare x y = Some (scaled x ?= scaled y).
Proof.
  intros Hx Hy Fx Fy.
  destruct x as [sx | sx | | sx mx ex]; try discriminate Fx;
  destruct y as [sy | sy | | sy my ey]; try discriminate Fy;
  cbn [SFcompare scaled].
  - reflexivity.
  - assert (0 < Z.pos my * 2 ^ (ey + 1074)).
    { apply wellFormed_finite in Hy.
      apply Z.mul_pos_pos; [lia | apply Z.pow_pos_nonneg; lia]. }
    destruct sy; cbn [cond_Zopp]; f_equal; symmetry;
      [apply Z.compare_gt_iff | apply Z.compare_lt_iff]; lia.
  - assert (0 < Z.pos mx * 2 ^ (ex + 1074)).
    { apply wellFormed_finite in Hx.
      apply Z.mul_pos_pos; [lia | apply Z.pow_pos_nonneg; lia]. }
    destruct sx; cbn [cond_Zopp]; f_equal; symmetry;
      [apply Z.compare_lt_iff | apply Z.compare_gt_iff]; lia.
  - assert (Hpx : 0 < Z.pos mx * 2 ^ (ex + 1074)).
    { apply wellFormed_finite in Hx.
      apply Z.mul_pos_pos; [lia | apply Z.pow_pos_nonneg; lia]. }
    assert (Hpy : 0 < Z.pos my * 2 ^ (ey + 1074)).
    { apply wellFormed_finite in Hy.
      apply Z.mul_pos_pos; [lia | apply Z.pow_pos_nonneg; lia]. }
    assert (Hx' : wellFormed (S754_finite false mx ex)) by exact Hx.
    assert (Hy' : wellFormed (S754_finite false my ey)) by exact Hy.
    assert (Heq : ex = ey ->
                  (Z.pos mx * 2 ^ (ex + 1074) ?= Z.pos my * 2 ^ (ey + 1074))
                  = Pos.compare_cont Eq mx my).
    { intros ->. rewrite !(Z.mul_comm (Z.pos _)).
      rewrite <- Zmult_compare_compat_l by
        (apply Z.lt_gt, Z.pow_pos_nonneg; apply wellFormed_finite in Hy; lia).
      reflexivity. }
    destruct sx, sy; cbn [cond_Zopp]; f_equal; symmetry.
    + destruct (Z.compare_spec ex ey) as [He | He | He].
      * rewrite Z.compare_opp. rewrite <- (Heq He).
        rewrite (Z.compare_antisym (Z.pos mx * _)). reflexivity.
      * apply Z.compare_gt_iff.
        pose proof (scaled_pos_lt mx my ex ey Hx' Hy' He). lia.
      * apply Z.compare_lt_iff.
        pose proof (scaled_pos_lt my mx ey ex Hy' Hx' He). lia.
    + apply Z.compare_lt_iff. lia.
    + apply Z.compare_gt_iff. lia.
    + destruct (Z.compare_spec ex ey) as [He | He | He].
      * apply Heq, He.
      * apply Z.compare_lt_iff. apply scaled_pos_lt; assumption.
      * apply Z.compare_gt_iff. apply scaled_pos_lt; assumption.
Qed.

Lemma intValue_scaled (x : number) (z : Z) :
  wellFormed x -> intValue x = Some z ->
  isFinite x = true /\ scaled x = z * 2 ^ 1074.
Proof.
  intros Hx Hz.
  destruct x as [s | s | | s m e]; try discriminate Hz.
  - injection Hz as <-. split; reflexivity.
  - apply wellFormed_finite in Hx. destruct Hx as [_ [He _]].
    split; [reflexivity |]. cbn [intValue scaled] in *.
    destruct (0 <=? e) eqn:Hsign.
    + apply Z.leb_le in Hsign. injection Hz as <-.
      rewrite Z.pow_add_r by lia. destruct s; cbn [cond_Zopp]; lia.
    + apply Z.leb_gt in Hsign.
      destruct (Z.pos m mod 2 ^ (- e) =? 0) eqn:Hmod; [| discriminate Hz].
      apply Z.eqb_eq in Hmod. injection Hz as <-.
      assert (Hp : 0 < 2 ^ (- e)) by (apply Z.pow_pos_nonneg; lia).
      assert (Hm : Z.pos m = 2 ^ (- e) * (Z.pos m / 2 ^ (- e))).
      { apply Z.div_exact; [lia | exact Hmod]. }
      assert (Hpow : 2 ^ 1074 = 2 ^ (- e) * 2 ^ (e + 1074)).
      { rewrite <- Z.pow_add_r by lia. f_equal. lia. }
      rewrite Hpow. rewrite Hm at 1.
      destruct s; cbn [cond_Zopp]; lia.
Qed.

(** On well-formed integral numbers [<] is the order of the integers. *)
Lemma num_ltb_int (x y : number) (zx zy : Z) :
  wellFormed x -> wellFormed y ->
  intValue x = Some zx -> intValue y = Some zy ->
  num_ltb x y = (zx <? zy).
Proof.
  intros Hx Hy Hzx Hzy.
  destruct (intValue_scaled x zx Hx Hzx) as [Fx Sx].
  destruct (intValue_scaled y zy Hy Hzy) as [Fy Sy].
  unfold num_ltb, SFltb. rewrite (SFcompare_scaled x y Hx Hy Fx Fy), Sx, Sy.
  rewrite !(Z.mul_comm _ (2 ^ 1074)).
  rewrite <- Zmult_compare_compat_l by (apply Z.lt_gt, Z.pow_pos_nonneg; lia).
  unfold Z.ltb. reflexivity.
Qed.

Lemma isInteger_intValue (x : number) :
  isInteger x = true <-> exists z, intValue x = Some z.
Proof.
  destruct x as [s | s | | s m e]; cbn [isInteger intValue].
  - split; [eexists; reflexivity | reflexivity].
  - split; [discriminate | intros [z Hz]; discriminate Hz].
  - split; [discriminate | intros [z Hz]; discriminate Hz].
  - destruct (0 <=? e); [split; [eexists; reflexivity | reflexivity] |].
    destruct (Z.pos m mod 2 ^ (- e) =? 0);
      [split; [eexists; reflexivity | reflexivity] |].
    split; [discriminate | intros [z Hz]; discriminate Hz].
Qed.

Lemma Zdigits2_bits (z : Z) : 0 < z -> Zdigits2 z = bits z.
Proof.
  intros Hz. destruct z as [| p | p]; try lia. cbn [Zdigits2]. unfold bits.
  apply digits2_pos_unique.
  replace (Z.log2 (Z.pos p) + 1 - 1) with (Z.log2 (Z.pos p)) by lia.
  rewrite (Z.add_1_r (Z.log2 _)). apply Z.log2_spec. lia.
Qed.

Lemma bits_bounds (z : Z) : 0 < z -> 2 ^ (bits z - 1) <= z < 2 ^ bits z.
Proof.
  intros Hz. unfold bits.
  replace (Z.log2 z + 1 - 1) with (Z.log2 z) by lia.
  rewrite (Z.add_1_r (Z.log2 _)). apply Z.log2_spec. exact Hz.
Qed.

Lemma bits_pos (z : Z) : 0 < z -> 1 <= bits z.
Proof. intros Hz. unfold bits. pose proof (Z.log2_nonneg z). lia. Qed.

Lemma bits_unique (z n : Z) : 2 ^ (n - 1) <= z < 2 ^ n -> 0 < z -> bits z = n.
Proof.
  intros Hb Hz. destruct z as [| p | p]; try lia.
  rewrite <- (Zdigits2_bits (Z.pos p)) by lia. cbn [Zdigits2].
  apply digits2_pos_unique. exact Hb.
Qed.

Lemma bits_mul_pow2 (z k : Z) : 0 < z -> 0 <= k -> bits (z * 2 ^ k) = bits z + k.
Proof.
  intros Hz Hk. unfold bits. rewrite Z.log2_mul_pow2 by lia. lia.
Qed.

Lemma bits_le_53 (z : Z) : 0 < z -> z < 2 ^ 53 -> bits z <= 53.
Proof.
  intros Hz Hlt. pose proof (bits_bounds z Hz) as [Hlo _].
  destruct (Z_le_gt_dec (bits z) 53) as [Hle | Hgt]; [exact Hle |].
  assert (2 ^ 53 <= 2 ^ (bits z - 1)) by (apply Z.pow_le_mono_r; lia). lia.
Qed.

Lemma shr_1_double (z : Z) :
  shr_1 (Build_shr_record (2 * z) false false) = Build_shr_record z false false.
Proof. destruct z; reflexivity. Qed.

Lemma iter_shr_exact (p : positive) :
  forall z : Z,
  SpecFloat.iter_pos shr_1 p (Build_shr_record (z * 2 ^ Z.pos p) false false)
  = Build_shr_record z false false.
Proof.
  induction p as [p IH | p IH |]; intros z; cbn [SpecFloat.iter_pos].
  - assert (Hp : 2 ^ Z.pos p~1 = 2 * (2 ^ Z.pos p * 2 ^ Z.pos p)).
    { rewrite <- Z.pow_add_r, <- Z.pow_succ_r by lia. f_equal. lia. }
    replace (z * 2 ^ Z.pos p~1) with (2 * ((z * 2 ^ Z.pos p) * 2 ^ Z.pos p))
      by (rewrite Hp; ring).
    rewrite shr_1_double, IH, IH. reflexivity.
  - assert (Hp : 2 ^ Z.pos p~0 = 2 ^ Z.pos p * 2 ^ Z.pos p).
    { rewrite <- Z.pow_add_r by lia. f_equal. lia. }
    replace (z * 2 ^ Z.pos p~0) with ((z * 2 ^ Z.pos p) * 2 ^ Z.pos p)
      by (rewrite Hp; ring).
    rewrite IH, IH. reflexivity.
  - rewrite Z.pow_1_r, Z.mul_comm. apply shr_1_double.
Qed.

Lemma fexp_eq (k : Z) : fexp prec emax k = Z.max (k - 53) (-1074).
Proof. reflexivity. Qed.

(** Rounding a mantissa whose dropped bits are all zero is exact. *)
Lemma binary_round_aux_exact (s : bool) (v k ex n : Z) :
  0 < v -> 0 <= n <= k ->
  n = fexp prec emax (bits v + k + ex) - ex ->
  ex + n <= 971 ->
  binary_round_aux prec emax s (v * 2 ^ k) ex loc_Exact
  = S754_finite s (Z.to_pos (v * 2 ^ (k - n))) (ex + n).
Proof.
  intros Hv Hn Hshift Hmax.
  assert (Hpos : forall j, 0 <= j -> 0 < v * 2 ^ j).
  { intros j Hj. apply Z.mul_pos_pos; [exact Hv | apply Z.pow_pos_nonneg; lia]. }
  assert (Hsplit : v * 2 ^ k = (v * 2 ^ (k - n)) * 2 ^ n).
  { rewrite <- Z.mul_assoc, <- Z.pow_add_r by lia. do 2 f_equal. lia. }
  unfold binary_round_aux.
  assert (Hfirst : shr_fexp prec emax (v * 2 ^ k) ex loc_Exact
                   = (Build_shr_record (v * 2 ^ (k - n)) false false, ex + n)).
  { unfold shr_fexp. rewrite Zdigits2_bits, bits_mul_pow2 by (try apply Hpos; lia).
    rewrite <- Hshift. cbn [shr_record_of_loc]. unfold shr.
    destruct n as [| p | p]; [| | lia].
    - rewrite Z.sub_0_r, Z.add_0_r. reflexivity.
    - rewrite Hsplit, iter_shr_exact. reflexivity. }
  rewrite Hfirst. cbn [shr_m loc_of_shr_record round_nearest_even].
  assert (Hsecond : shr_fexp prec emax (v * 2 ^ (k - n)) (ex + n) loc_Exact
                    = (Build_shr_record (v * 2 ^ (k - n)) false false, ex + n)).
  { unfold shr_fexp. rewrite Zdigits2_bits, bits_mul_pow2 by (try apply Hpos; lia).
    replace (bits v + (k - n) + (ex + n)) with (bits v + k + ex) by lia.
    replace (fexp prec emax (bits v + k + ex) - (ex + n)) with 0 by lia.
    reflexivity. }
  rewrite Hsecond. cbn [shr_m].
  specialize (Hpos (k - n) ltac:(lia)).
  destruct (v * 2 ^ (k - n)) as [| m | m] eqn:Hm; try lia.
  change (emax - prec) with 971. cbn [Z.to_pos].
  apply Z.leb_le in Hmax. rewrite Hmax. reflexivity.
Qed.

Lemma pos_iter_xO (v d : positive) :
  Z.pos (Pos.iter xO v d) = Z.pos v * 2 ^ Z.pos d.
Proof.
  induction d as [| d IH] using Pos.peano_ind.
  - cbn. lia.
  - rewrite Pos.iter_succ, Pos2Z.inj_xO, IH, Pos2Z.inj_succ, Z.pow_succ_r by lia.
    ring.
Qed.

Lemma shl_align_fst (mx : positive) (ex ex' : Z) :
  ex' <= ex -> Z.pos (fst (shl_align mx ex ex')) = Z.pos mx * 2 ^ (ex - ex').
Proof.
  intros Hle. unfold shl_align.
  destruct (ex' - ex) as [| d | d] eqn:Hd; try lia.
  - replace (ex - ex') with 0 by lia. cbn [fst]. lia.
  - cbn [fst]. rewrite pos_iter_xO. f_equal. f_equal. lia.
Qed.

Lemma shl_align_snd (mx : positive) (ex ex' : Z) :
  ex' <= ex -> snd (shl_align mx ex ex') = ex'.
Proof.
  intros Hle. unfold shl_align.
  destruct (ex' - ex) as [| d | d] eqn:Hd; try lia; cbn [snd]; lia.
Qed.


(** The double of a positive integer below 2^53: the integer, shifted to a
    53-bit mantissa. *)
Lemma ofZ_pos (z : Z) :
  0 < z < 2 ^ 53 ->
  ofZ z = S754_finite false (Z.to_pos (z * 2 ^ (53 - bits z))) (bits z - 53).
Proof.
  intros [Hz Hlt].
  pose proof (bits_pos z Hz) as Hb1. pose proof (bits_le_53 z Hz Hlt) as Hb53.
  destruct z as [| v | v]; try lia.
  unfold ofZ, binary_normalize, binary_round.
  change (Z.pos (digits2_pos v)) with (Zdigits2 (Z.pos v)).
  rewrite Zdigits2_bits, Z.add_0_r by lia.
  assert (Hfexp : fexp prec emax (bits (Z.pos v)) = bits (Z.pos v) - 53).
  { rewrite fexp_eq. lia. }
  rewrite Hfexp.
  destruct (shl_align v 0 (bits (Z.pos v) - 53)) as [mz ez] eqn:Halign.
  assert (Hmz : Z.pos mz = Z.pos v * 2 ^ (53 - bits (Z.pos v))).
  { pose proof (shl_align_fst v 0 (bits (Z.pos v) - 53) ltac:(lia)) as Hf.
    rewrite Halign in Hf. cbn [fst] in Hf. rewrite Hf. f_equal. f_equal. lia. }
  assert (Hez : ez = bits (Z.pos v) - 53).
  { pose proof (shl_align_snd v 0 (bits (Z.pos v) - 53) ltac:(lia)) as Hs.
    rewrite Halign in Hs. exact Hs. }
  rewrite Hmz, Hez.
  rewrite (binary_round_aux_exact false (Z.pos v) (53 - bits (Z.pos v))
             (bits (Z.pos v) - 53) 0); try lia.
  - rewrite Z.sub_0_r, Z.add_0_r. reflexivity.
  - rewrite fexp_eq. lia.
Qed.

Lemma intValue_ofZ (z : Z) :
  0 <= z < 2 ^ 53 -> intValue (ofZ z) = Some z /\ wellFormed (ofZ z).
Proof.
  intros [Hz Hlt].
  destruct (Z.eq_dec z 0) as [-> | Hne]; [split; reflexivity |].
  assert (Hpos : 0 < z) by lia.
  pose proof (bits_pos z Hpos) as Hb1. pose proof (bits_le_53 z Hpos Hlt) as Hb53.
  rewrite ofZ_pos by lia.
  assert (Hm : 0 < z * 2 ^ (53 - bits z)).
  { apply Z.mul_pos_pos; [exact Hpos | apply Z.pow_pos_nonneg; lia]. }
  split.
  - cbn [intValue]. rewrite Z2Pos.id by exact Hm.
    destruct (0 <=? bits z - 53) eqn:Hsign.
    + apply Z.leb_le in Hsign. replace (bits z) with 53 by lia.
      cbn. f_equal. lia.
    + replace (- (bits z - 53)) with (53 - bits z) by lia.
      rewrite Z.mod_mul by (apply Z.pow_nonzero; lia).
      cbn [Z.eqb cond_Zopp].
      rewrite Z.div_mul by (apply Z.pow_nonzero; lia). reflexivity.
  - unfold wellFormed, valid_binary, bounded, canonical_mantissa.
    change (Z.pos (digits2_pos (Z.to_pos (z * 2 ^ (53 - bits z)))))
      with (Zdigits2 (Z.pos (Z.to_pos (z * 2 ^ (53 - bits z))))).
    rewrite Z2Pos.id by exact Hm.
    rewrite Zdigits2_bits, bits_mul_pow2 by lia.
    apply andb_true_iff. split.
    + apply Z.eqb_eq. rewrite fexp_eq. lia.
    + apply Z.leb_le. change (emax - prec) with 971. lia.
Qed.

(** A well-formed number with a positive integer value below 2^53 is the
    double of that integer. *)
Lemma int_canonical (x : number) (z : Z) :
  wellFormed x -> intValue x = Some z -> 0 < z < 2 ^ 53 -> x = ofZ z.
Proof.
  intros Hx Hint [Hz Hlt].
  destruct x as [s | s | | s m e]; try discriminate Hint.
  { injection Hint as <-. lia. }
  pose proof (wellFormed_finite s m e Hx) as [Hd [He Hnorm]].
  pose proof (digits2_pos_bounds m) as Hm.
  change (Z.pos (digits2_pos m)) with (Zdigits2 (Z.pos m)) in Hd, Hnorm, Hm.
  rewrite Zdigits2_bits in Hd, Hnorm, Hm by lia.
  pose proof (bits_pos z Hz) as Hb1. pose proof (bits_le_53 z Hz Hlt) as Hb53.
  rewrite ofZ_pos by lia.
  cbn [intValue] in Hint.
  destruct (0 <=? e) eqn:Hsign.
  - apply Z.leb_le in Hsign. injection Hint as Hval.
    assert (s = false) as ->.
    { destruct s; [| reflexivity]. cbn [cond_Zopp] in Hval.
      assert (0 < Z.pos m * 2 ^ e)
        by (apply Z.mul_pos_pos; [lia | apply Z.pow_pos_nonneg; lia]). lia. }
    cbn [cond_Zopp] in Hval.
    specialize (Hnorm ltac:(lia)). rewrite Hnorm in Hm.
    change (2 ^ (53 - 1)) with (2 ^ 52) in Hm.
    assert (e = 0).
    { destruct (Z.eq_dec e 0) as [| Hne]; [assumption |].
      assert (2 ^ 1 <= 2 ^ e) by (apply Z.pow_le_mono_r; lia).
      change (2 ^ 1) with 2 in *. change (2 ^ 53) with (2 * 2 ^ 52) in Hlt. nia. }
    subst e. rewrite Z.pow_0_r, Z.mul_1_r in Hval. subst z.
    rewrite Hnorm. replace (53 - 53) with 0 by lia.
    rewrite Z.pow_0_r, Z.mul_1_r. reflexivity.
  - apply Z.leb_gt in Hsign.
    destruct (Z.pos m mod 2 ^ (- e) =? 0) eqn:Hmod; [| discriminate Hint].
    apply Z.eqb_eq in Hmod. injection Hint as Hval.
    assert (Hp : 0 < 2 ^ (- e)) by (apply Z.pow_pos_nonneg; lia).
    assert (Hmz : Z.pos m = 2 ^ (- e) * (Z.pos m / 2 ^ (- e))).
    { apply Z.div_exact; [lia | exact Hmod]. }
    assert (s = false) as ->.
    { destruct s; [| reflexivity]. cbn [cond_Zopp] in Hval.
      assert (0 <= Z.pos m / 2 ^ (- e)) by (apply Z.div_pos; lia). lia. }
    cbn [cond_Zopp] in Hval. rewrite Hval in Hmz.
    assert (Hbits : bits (Z.pos m) = bits z + - e).
    { rewrite Hmz, Z.mul_comm. apply bits_mul_pow2; lia. }
    assert (-1074 < e).
    { destruct (Z.eq_dec e (-1074)) as [-> | Hne]; [| lia].
      exfalso. lia. }
    specialize (Hnorm ltac:(lia)).
    assert (e = bits z - 53) by lia. subst e.
    f_equal. apply Pos2Z.inj. rewrite Z2Pos.id.
    + rewrite Hmz. replace (- (bits z - 53)) with (53 - bits z) by lia. ring.
    + apply Z.mul_pos_pos; [lia | apply Z.pow_pos_nonneg; lia].
Qed.




End Binary64.

(** ** Pagination *)

Local Open Scope Z_scope.

Section Pagination.
Context `{Host}.

Lemma parsePagination_unfold (query : Json) :
  parsePagination query
  = let page := coercedPage query in
    let limit := coercedLimit query in
    if negb (isInteger page) || num_ltb page (ofZ 1)
    then BAD_REQUEST (str "page must be an integer >= 1")
    else if negb (isInteger limit) || num_ltb limit (ofZ 1)
            || num_ltb (ofZ 100) limit
    then BAD_REQUEST (str "limit must be an integer between 1 and 100")
    else Ok (mkPagination page limit (num_mul (num_sub page (ofZ 1)) limit)).
Proof. reflexivity. Qed.

(** The page check passes exactly on the integers from 1. *)
Lemma page_check_iff (x : number) :
  wellFormed x ->
  negb (isInteger x) || num_ltb x (ofZ 1) = false
  <-> exists p, intValue x = Some p /\ 1 <= p.
Proof.
  intros Hx. rewrite orb_false_iff, negb_false_iff, isInteger_intValue.
  split.
  - intros [[p Hp] Hlt]. exists p. split; [exact Hp |].
    rewrite (num_ltb_int x (ofZ 1) p 1 Hx) in Hlt;
      [| reflexivity | exact Hp | reflexivity].
    apply Z.ltb_ge in Hlt. exact Hlt.
  - intros [p [Hp Hle]]. split; [exists p; exact Hp |].
    rewrite (num_ltb_int x (ofZ 1) p 1 Hx);
      [| reflexivity | exact Hp | reflexivity].
    apply Z.ltb_ge. exact Hle.
Qed.

(** The limit check passes exactly on the integers from 1 to 100. *)
Lemma limit_check_iff (x : number) :
  wellFormed x ->
  negb (isInteger x) || num_ltb x (ofZ 1) || num_ltb (ofZ 100) x = false
  <-> exists l, intValue x = Some l /\ 1 <= l <= 100.
Proof.
  intros Hx. rewrite orb_false_iff, (page_check_iff x Hx).
  split.
  - intros [[l [Hl Hle]] Hgt]. exists l. split; [exact Hl |].
    rewrite (num_ltb_int (ofZ 100) x 100 l) in Hgt;
      [| reflexivity | exact Hx | reflexivity | exact Hl].
    apply Z.ltb_ge in Hgt. lia.
  - intros [l [Hl Hle]]. split; [exists l; split; [exact Hl | lia] |].
    rewrite (num_ltb_int (ofZ 100) x 100 l);
      [| reflexivity | exact Hx | reflexivity | exact Hl].
    apply Z.ltb_ge. lia.
Qed.

(** What a returned pagination is made of. *)
Lemma parsePagination_ok (query : Json) (r : Pagination) :
  wellFormed (coercedPage query) -> wellFormed (coercedLimit query) ->
  parsePagination query = Ok r ->
  r = mkPagination (coercedPage query) (coercedLimit query)
        (num_mul (num_sub (coercedPage query) (ofZ 1)) (coercedLimit query))
  /\ (exists p, intValue (coercedPage query) = Some p /\ 1 <= p)
  /\ (exists l, intValue (coercedLimit query) = Some l /\ 1 <= l <= 100).
Proof.
  intros Hpage Hlimit. rewrite parsePagination_unfold. cbv zeta. intros Hr.
  destruct (negb (isInteger (coercedPage query))
            || num_ltb (coercedPage query) (ofZ 1)) eqn:Hp; [discriminate Hr |].
  destruct (negb (isInteger (coercedLimit query))
            || num_ltb (coercedLimit query) (ofZ 1)
            || num_ltb (ofZ 100) (coercedLimit query)) eqn:Hl;
    [discriminate Hr |].
  injection Hr as <-. split; [reflexivity |].
  split; [apply (page_check_iff _ Hpage), Hp
         | apply (limit_check_iff _ Hlimit), Hl].
Qed.


End Pagination.



(** Beyond 2^53 the skip is the rounded product: page 2^53 + 2 with limit 1
    gives skip 2^53, one less than the exact product. *)
Lemma skip_is_rounded_beyond_2_53 :
  num_mul (num_sub (ofZ 9007199254740994) (ofZ 1)) (ofZ 1)
  = ofZ 9007199254740992
  /\ intValue (ofZ 9007199254740994) = Some 9007199254740994
  /\ intValue (ofZ 9007199254740992) = Some 9007199254740992.
Proof. repeat split; reflexivity. Qed.


(** ** Division and ceiling: the number of pages *)

Lemma loc_of_shr_record_of_loc (m : Z) (l : SpecFloat.location) :
  loc_of_shr_record (shr_record_of_loc m l) = l.
Proof. destruct l as [| []]; reflexivity. Qed.

(** The quotient of the doubles of two integers, before rounding: the
    integer quotient of [t * 2^n] by [l], the exponent [- n] and the position
    of the remainder, for [n = 53 - bits t + bits l]. *)
Lemma num_div_ofZ (t l : Z) :
  0 < t < 2 ^ 53 -> 0 < l < 2 ^ 52 ->
  let n := 53 - bits t + bits l in
  num_div (ofZ t) (ofZ l)
  = binary_round_aux prec emax false ((t * 2 ^ n) / l) (- n)
      (remainderLocation ((t * 2 ^ n) mod l) l).
Proof.
  intros [Ht Htlt] [Hl Hllt] n.
  assert (Hbt := bits_pos t Ht). assert (Hbt53 := bits_le_53 t Ht Htlt).
  assert (Hbl := bits_pos l Hl).
  assert (Hbl52 : bits l <= 52).
  { pose proof (bits_bounds l Hl) as [Hlo _].
    destruct (Z_le_gt_dec (bits l) 52) as [Hle | Hgt]; [exact Hle |].
    assert (2 ^ 52 <= 2 ^ (bits l - 1)) by (apply Z.pow_le_mono_r; lia). lia. }
  rewrite (ofZ_pos t), (ofZ_pos l) by lia.
  assert (Hmt : 0 < t * 2 ^ (53 - bits t))
    by (apply Z.mul_pos_pos; [lia | apply Z.pow_pos_nonneg; lia]).
  assert (Hml : 0 < l * 2 ^ (53 - bits l))
    by (apply Z.mul_pos_pos; [lia | apply Z.pow_pos_nonneg; lia]).
  unfold num_div, SFdiv, SFdiv_core_binary. cbn [xorb].
  rewrite !Z2Pos.id by assumption.
  rewrite !Zdigits2_bits, !bits_mul_pow2 by lia.
  replace (bits t + (53 - bits t) + (bits t - 53)
           - (bits l + (53 - bits l) + (bits l - 53)))
    with (bits t - bits l) by lia.
  replace (bits t - 53 - (bits l - 53)) with (bits t - bits l) by lia.
  assert (Hfexp : fexp prec emax (bits t - bits l) = bits t - bits l - 53)
    by (rewrite fexp_eq; lia).
  rewrite Hfexp, Z.min_l by lia.
  replace (bits t - bits l - (bits t - bits l - 53)) with 53 by lia.
  cbv iota. rewrite Z.shiftl_mul_pow2 by lia.
  set (G := 2 ^ (53 - bits l)).
  assert (HG : 0 < G) by (apply Z.pow_pos_nonneg; lia).
  assert (Hnum : t * 2 ^ (53 - bits t) * 2 ^ 53 = (t * 2 ^ n) * G).
  { unfold G, n. rewrite <- !Z.mul_assoc, <- !Z.pow_add_r by lia.
    do 2 f_equal. lia. }
  rewrite Hnum. unfold Z.div_eucl at 1. fold (Z.div_eucl (t * 2 ^ n * G) (l * G)).
  pose proof (Z.div_eucl_eq (t * 2 ^ n * G) (l * G)) as Hde.
  rewrite (surjective_pairing (Z.div_eucl (t * 2 ^ n * G) (l * G))).
  change (fst (Z.div_eucl (t * 2 ^ n * G) (l * G)))
    with ((t * 2 ^ n * G) / (l * G)).
  change (snd (Z.div_eucl (t * 2 ^ n * G) (l * G)))
    with ((t * 2 ^ n * G) mod (l * G)).
  rewrite Z.div_mul_cancel_r by lia.
  rewrite Z.mul_mod_distr_r by lia.
  replace (bits t - bits l - 53) with (- n) by (unfold n; lia).
  f_equal.
  unfold new_location, remainderLocation.
  assert (Heven : Z.even (l * G) = true).
  { unfold G. replace (53 - bits l) with (Z.succ (52 - bits l)) by lia.
    rewrite Z.pow_succ_r by lia.
    rewrite Z.even_mul, Z.even_mul. cbn. rewrite orb_true_r. reflexivity. }
  rewrite Heven. unfold new_location_even.
  set (rho := (t * 2 ^ n) mod l).
  destruct (rho =? 0) eqn:Hrho.
  - apply Z.eqb_eq in Hrho. rewrite Hrho. reflexivity.
  - apply Z.eqb_neq in Hrho.
    assert (Hne : (rho * G =? 0) = false) by (apply Z.eqb_neq; lia).
    rewrite Hne. f_equal.
    replace (2 * (rho * G)) with (G * (2 * rho)) by ring.
    rewrite (Z.mul_comm l G).
    symmetry. apply Zmult_compare_compat_l. lia.
Qed.

Lemma intValue_ceil_finite (m e : Z) :
  0 < m <= 2 ^ 53 -> -1074 <= e <= 1 ->
  intValue (Math_ceil (S754_finite false (Z.to_pos m) e)) = Some (ceilOf m e).
Proof.
  intros [Hm Hle] He. unfold ceilOf. cbn [Math_ceil].
  destruct (0 <=? e) eqn:Hsign.
  - cbn [intValue]. rewrite Hsign. cbn [cond_Zopp].
    rewrite Z2Pos.id by exact Hm. reflexivity.
  - apply Z.leb_gt in Hsign. cbn [cond_Zopp]. rewrite Z2Pos.id by exact Hm.
    assert (Hk : 2 <= 2 ^ (- e)).
    { change 2 with (2 ^ 1) at 1. apply Z.pow_le_mono_r; lia. }
    set (K := 2 ^ (- e)) in *.
    assert (Hq : - m = K * (- m / K) + (- m) mod K) by (apply Z.div_mod; lia).
    pose proof (Z.mod_pos_bound (- m) K ltac:(lia)) as Hr.
    assert (Hc1 : 1 <= - (- m / K)) by nia.
    assert (Hc2 : - (- m / K) < 2 ^ 53).
    { change (2 ^ 53) with 9007199254740992 in *. nia. }
    destruct (- (- m / K) =? 0) eqn:Hz; [apply Z.eqb_eq in Hz; lia |].
    apply intValue_ofZ. lia.
Qed.

Lemma shr_1_m (m : Z) (r s : bool) :
  0 <= m -> shr_m (shr_1 (Build_shr_record m r s)) = m / 2.
Proof.
  intros Hm. destruct m as [| [p | p |] | p]; try lia; cbn [shr_1 shr_m];
    try reflexivity.
  - apply Z.div_unique with (r := 1); lia.
  - apply Z.div_unique with (r := 0); lia.
Qed.

(** Rounding is to the mantissa or to the next one. *)
Lemma round_nearest_even_range (m : Z) (l : SpecFloat.location) :
  (round_nearest_even m l = m \/ round_nearest_even m l = m + 1)
  /\ (l = loc_Exact -> round_nearest_even m l = m)
  /\ (l = loc_Inexact Gt -> round_nearest_even m l = m + 1).
Proof.
  destruct l as [| []]; cbn [round_nearest_even];
    repeat split; try discriminate; auto.
  destruct (Z.even m); auto.
Qed.

(** The second normalisation of [binary_round_aux]: a mantissa of 53 bits is
    kept, 2^53 becomes 2^52 with the next exponent. *)
Lemma renormalise (m e : Z) :
  2 ^ 52 <= m <= 2 ^ 53 -> -1074 <= e <= 900 ->
  (let '(mrs, e') := shr_fexp prec emax m e loc_Exact in
   match shr_m mrs with
   | Z0 => S754_zero false
   | Z.pos p =>
       if e' <=? emax - prec then S754_finite false p e' else S754_infinity false
   | Z.neg _ => S754_nan
   end)
  = if m =? 2 ^ 53 then S754_finite false (Z.to_pos (2 ^ 52)) (e + 1)
    else S754_finite false (Z.to_pos m) e.
Proof.
  intros [Hlo Hhi] He. unfold shr_fexp.
  rewrite Zdigits2_bits by (change (2 ^ 52) with 4503599627370496 in Hlo; lia).
  destruct (m =? 2 ^ 53) eqn:Heq.
  - apply Z.eqb_eq in Heq. subst m.
    change (bits (2 ^ 53)) with 54. rewrite fexp_eq.
    replace (Z.max (54 + e - 53) (-1074) - e) with 1 by lia.
    cbn [shr_record_of_loc shr]. cbn [SpecFloat.iter_pos].
    change (2 ^ 53) with (2 * 2 ^ 52). rewrite shr_1_double. cbn [shr_m].
    change (2 ^ 52) with 4503599627370496. cbn [Z.to_pos].
    change (emax - prec) with 971.
    assert (Hle : (e + 1 <=? 971) = true) by (apply Z.leb_le; lia).
    rewrite Hle. reflexivity.
  - apply Z.eqb_neq in Heq.
    assert (Hb : bits m = 53).
    { apply bits_unique; [| change (2 ^ 52) with 4503599627370496 in Hlo; lia].
      change (53 - 1) with 52. lia. }
    rewrite Hb, fexp_eq.
    replace (Z.max (53 + e - 53) (-1074) - e) with 0 by lia.
    cbn [shr_record_of_loc shr shr_m].
    destruct m as [| p | p]; try (change (2 ^ 52) with 4503599627370496 in Hlo; lia).
    change (emax - prec) with 971.
    assert (Hle : (e <=? 971) = true) by (apply Z.leb_le; lia).
    rewrite Hle. reflexivity.
Qed.

Lemma shr_m_of_loc (m : Z) (l : SpecFloat.location) :
  shr_m (shr_record_of_loc m l) = m.
Proof. destruct l as [| []]; reflexivity. Qed.

(** [binary_round_aux] on a quotient of 53 or 54 bits: one bit is dropped
    from a 54-bit quotient, the mantissa is rounded to nearest even, and
    2^53 is renormalised. *)
Lemma binary_round_aux_quotient (q e : Z) (loc : SpecFloat.location) :
  2 ^ 52 <= q < 2 ^ 54 -> -1074 <= e <= 800 ->
  binary_round_aux prec emax false q e loc
  = let mrs :=
      if q <? 2 ^ 53 then shr_record_of_loc q loc
      else shr_1 (shr_record_of_loc q loc) in
    let e0 := if q <? 2 ^ 53 then e else e + 1 in
    let m0 := round_nearest_even (shr_m mrs) (loc_of_shr_record mrs) in
    if m0 =? 2 ^ 53 then S754_finite false (Z.to_pos (2 ^ 52)) (e0 + 1)
    else S754_finite false (Z.to_pos m0) e0.
Proof.
  intros [Hlo Hhi] He.
  assert (Hq : 0 < q) by (change (2 ^ 52) with 4503599627370496 in Hlo; lia).
  unfold binary_round_aux.
  assert (Hfirst : shr_fexp prec emax q e loc
                   = (if q <? 2 ^ 53 then shr_record_of_loc q loc
                      else shr_1 (shr_record_of_loc q loc),
                      if q <? 2 ^ 53 then e else e + 1)).
  { unfold shr_fexp. rewrite Zdigits2_bits by exact Hq.
    destruct (q <? 2 ^ 53) eqn:Hcase.
    - apply Z.ltb_lt in Hcase.
      assert (Hb : bits q = 53).
      { apply bits_unique; [| exact Hq]. change (53 - 1) with 52. lia. }
      rewrite Hb, fexp_eq.
      replace (Z.max (53 + e - 53) (-1074) - e) with 0 by lia. reflexivity.
    - apply Z.ltb_ge in Hcase.
      assert (Hb : bits q = 54).
      { apply bits_unique; [| exact Hq]. change (54 - 1) with 53. lia. }
      rewrite Hb, fexp_eq.
      replace (Z.max (54 + e - 53) (-1074) - e) with 1 by lia. reflexivity. }
  rewrite Hfirst. cbv zeta.
  set (mrs := if q <? 2 ^ 53 then shr_record_of_loc q loc
              else shr_1 (shr_record_of_loc q loc)).
  set (e0 := if q <? 2 ^ 53 then e else e + 1).
  assert (Hm : 2 ^ 52 <= shr_m mrs < 2 ^ 53).
  { unfold mrs. destruct (q <? 2 ^ 53) eqn:Hcase.
    - apply Z.ltb_lt in Hcase. rewrite shr_m_of_loc. lia.
    - apply Z.ltb_ge in Hcase.
      destruct (shr_record_of_loc q loc) as [m r s] eqn:Hrec.
      assert (m = q) as -> by (rewrite <- (shr_m_of_loc q loc), Hrec; reflexivity).
      rewrite shr_1_m by lia.
      change (2 ^ 54) with (2 * 2 ^ 53) in Hhi.
      change (2 ^ 53) with (2 * 2 ^ 52) in Hcase.
      split; [apply Z.div_le_lower_bound; lia | apply Z.div_lt_upper_bound; lia]. }
  pose proof (round_nearest_even_range (shr_m mrs) (loc_of_shr_record mrs))
    as [Hrange _].
  apply renormalise.
  - destruct Hrange as [-> | ->]; lia.
  - unfold e0. destruct (q <? 2 ^ 53); lia.
Qed.

Lemma shr_1_loc (q : Z) (loc : SpecFloat.location) :
  0 < q ->
  loc_of_shr_record (shr_1 (shr_record_of_loc q loc))
  = match Z.odd q, loc with
    | false, loc_Exact => loc_Exact
    | false, loc_Inexact _ => loc_Inexact Lt
    | true, loc_Exact => loc_Inexact Eq
    | true, loc_Inexact _ => loc_Inexact Gt
    end.
Proof.
  intros Hq. destruct q as [| [p | p |] | p]; try lia;
    destruct loc as [| []]; reflexivity.
Qed.

Lemma ceilOf_spec (m e : Z) :
  e <= 0 ->
  (ceilOf m e - 1) * 2 ^ (- e) < m <= ceilOf m e * 2 ^ (- e).
Proof.
  intros He. unfold ceilOf.
  destruct (0 <=? e) eqn:Hsign.
  - apply Z.leb_le in Hsign. replace e with 0 by lia. cbn. lia.
  - assert (Hk : 0 < 2 ^ (- e)) by (apply Z.pow_pos_nonneg; lia).
    set (K := 2 ^ (- e)) in *.
    assert (Hq : - m = K * (- m / K) + (- m) mod K) by (apply Z.div_mod; lia).
    pose proof (Z.mod_pos_bound (- m) K ltac:(lia)) as Hr.
    nia.
Qed.

Lemma ceilOf_unique (m e x : Z) :
  e <= 0 -> (x - 1) * 2 ^ (- e) < m <= x * 2 ^ (- e) -> ceilOf m e = x.
Proof.
  intros He Hx. pose proof (ceilOf_spec m e He) as Hc.
  assert (Hk : 0 < 2 ^ (- e)) by (apply Z.pow_pos_nonneg; lia).
  nia.
Qed.

Lemma ceilOf_renormalised (e : Z) :
  e <= 0 -> ceilOf (2 ^ 52) (e + 1) = ceilOf (2 ^ 53) e.
Proof.
  intros He. destruct (Z.eq_dec e 0) as [-> | Hne]; [reflexivity |].
  apply ceilOf_unique; [lia |].
  pose proof (ceilOf_spec (2 ^ 53) e He) as Hc.
  assert (Hp : 2 ^ (- e) = 2 * 2 ^ (- (e + 1))).
  { rewrite <- Z.pow_succ_r by lia. f_equal. lia. }
  assert (HP : 0 < 2 ^ (- (e + 1))) by (apply Z.pow_pos_nonneg; lia).
  rewrite Hp in Hc.
  set (P := 2 ^ (- (e + 1))) in *. set (X := ceilOf (2 ^ 53) e) in *.
  change (2 ^ 53) with 9007199254740992 in Hc.
  change (2 ^ 52) with 4503599627370496.
  nia.
Qed.

(** The ceiling of a quotient: the integer [x] with [(x-1) * l < t <= x * l]. *)
Lemma ceil_div_unique (t l x : Z) :
  0 < l -> (x - 1) * l < t <= x * l -> (t + l - 1) / l = x.
Proof.
  intros Hl Hx. symmetry. apply Z.div_unique with (r := t + l - 1 - l * x); lia.
Qed.

(** Rounding a 53-bit quotient to nearest keeps the ceiling of the exact
    quotient. *)
Lemma ceil_rounded_53 (t l N q rho m0 x : Z) :
  0 < l -> l <= N ->
  t * N = l * q + rho -> 0 <= rho < l ->
  m0 = q \/ m0 = q + 1 -> (rho = 0 -> m0 = q) ->
  (x - 1) * N < m0 <= x * N ->
  (x - 1) * l < t <= x * l.
Proof.
  intros Hl HN Hdiv Hrho Hm Hexact Hx. split.
  - destruct (Z_lt_le_dec ((x - 1) * l) t) as [Hlt | Hge]; [exact Hlt |].
    exfalso.
    assert (Hq : q <= (x - 1) * N) by nia.
    assert (m0 = q + 1) by lia.
    assert (q = (x - 1) * N) by lia.
    assert (rho = 0) by nia.
    specialize (Hexact ltac:(assumption)). lia.
  - destruct (Z_le_gt_dec t (x * l)) as [Hle | Hgt]; [exact Hle |].
    exfalso.
    assert (Hq : x * N < q) by nia.
    lia.
Qed.

(** The same for a 54-bit quotient, which loses its last bit first. *)
Lemma ceil_rounded_54 (t l K q rho h b m0 x : Z) :
  0 < l -> l < 2 * K ->
  t * (2 * K) = l * q + rho -> 0 <= rho < l ->
  q = 2 * h + b -> 0 <= b <= 1 ->
  m0 = h \/ m0 = h + 1 ->
  (b = 0 -> rho = 0 -> m0 = h) ->
  (b = 1 -> rho <> 0 -> m0 = h + 1) ->
  (x - 1) * K < m0 <= x * K ->
  (x - 1) * l < t <= x * l.
Proof.
  intros Hl HN Hdiv Hrho Hq Hb Hm Hexact Hup Hx. split.
  - destruct (Z_lt_le_dec ((x - 1) * l) t) as [Hlt | Hge]; [exact Hlt |].
    exfalso.
    assert (Hq1 : q <= (x - 1) * (2 * K)) by nia.
    assert (Hh : h <= (x - 1) * K) by lia.
    assert (m0 = h + 1) by lia.
    assert (h = (x - 1) * K) by lia.
    assert (b = 0) by lia.
    assert (rho = 0) by nia.
    specialize (Hexact ltac:(assumption) ltac:(assumption)). lia.
  - destruct (Z_le_gt_dec t (x * l)) as [Hle | Hgt]; [exact Hle |].
    exfalso.
    assert (Hq1 : x * (2 * K) < q) by nia.
    assert (Hh : x * K <= h) by lia.
    assert (h = x * K) by lia.
    assert (m0 = h) by lia.
    assert (b = 1) by lia.
    assert (rho <> 0) by nia.
    specialize (Hup ltac:(assumption) ltac:(assumption)). lia.
Qed.

Lemma remainderLocation_exact (rho l : Z) :
  remainderLocation rho l = loc_Exact <-> rho = 0.
Proof.
  unfold remainderLocation. destruct (rho =? 0) eqn:Hr.
  - apply Z.eqb_eq in Hr. split; [intros _; exact Hr | reflexivity].
  - apply Z.eqb_neq in Hr. split; [discriminate | contradiction].
Qed.

(** The ceiling of the quotient of two doubles of integers is the ceiling of
    the quotient of the integers. *)
Lemma ceil_num_div_ofZ (t l : Z) :
  0 < t < 2 ^ 53 -> 0 < l < 2 ^ 52 ->
  intValue (Math_ceil (num_div (ofZ t) (ofZ l))) = Some ((t + l - 1) / l).
Proof.
  intros [Ht Htlt] [Hl Hllt].
  assert (Hbt := bits_pos t Ht). assert (Hbt53 := bits_le_53 t Ht Htlt).
  assert (Hbl := bits_pos l Hl).
  assert (Hbl53 := bits_le_53 l Hl ltac:(change (2 ^ 52) with 4503599627370496 in Hllt;
                                        change (2 ^ 53) with 9007199254740992; lia)).
  pose proof (bits_bounds t Ht) as [Htlo Hthi].
  pose proof (bits_bounds l Hl) as [Hllo Hlhi].
  rewrite num_div_ofZ by lia. cbv zeta.
  set (n := 53 - bits t + bits l).
  assert (Hn : 1 <= n <= 105) by (unfold n; lia).
  set (N := 2 ^ n).
  assert (HN : N = 2 * 2 ^ (n - 1)).
  { unfold N. rewrite <- Z.pow_succ_r by lia. f_equal. lia. }
  assert (HK : 0 < 2 ^ (n - 1)) by (apply Z.pow_pos_nonneg; lia).
  assert (HlN : l < N).
  { unfold N. eapply Z.lt_le_trans; [exact Hlhi |].
    apply Z.pow_le_mono_r; unfold n; lia. }
  set (q := t * N / l). set (rho := (t * N) mod l).
  assert (Hdiv : t * N = l * q + rho) by (apply Z.div_mod; lia).
  assert (Hrho : 0 <= rho < l) by (apply Z.mod_pos_bound; lia).
  assert (HNsplit : N = 2 ^ (53 - bits t) * 2 ^ bits l).
  { unfold N, n. apply Z.pow_add_r; lia. }
  assert (HA_lo : 2 ^ (bits t - 1) * 2 ^ (53 - bits t) = 2 ^ 52).
  { rewrite <- Z.pow_add_r by lia. f_equal. lia. }
  assert (HA_hi : 2 ^ bits t * 2 ^ (53 - bits t) = 2 ^ 53).
  { rewrite <- Z.pow_add_r by lia. f_equal. lia. }
  assert (HB : 2 ^ bits l = 2 * 2 ^ (bits l - 1)).
  { rewrite <- Z.pow_succ_r by lia. f_equal. lia. }
  assert (HA : 0 < 2 ^ (53 - bits t)) by (apply Z.pow_pos_nonneg; lia).
  assert (HB0 : 0 < 2 ^ (bits l - 1)) by (apply Z.pow_pos_nonneg; lia).
  assert (HtA : 2 ^ 52 <= t * 2 ^ (53 - bits t) < 2 ^ 53).
  { rewrite <- HA_lo, <- HA_hi. split.
    - apply Z.mul_le_mono_nonneg_r; lia.
    - apply Z.mul_lt_mono_pos_r; lia. }
  assert (HtN_lo : 2 ^ 52 * 2 ^ bits l <= t * N).
  { rewrite HNsplit, Z.mul_assoc. apply Z.mul_le_mono_nonneg_r; lia. }
  assert (HtN_hi : t * N < 2 ^ 54 * 2 ^ (bits l - 1)).
  { rewrite HNsplit, Z.mul_assoc, HB.
    change (2 ^ 54) with (2 * 2 ^ 53).
    set (TA := t * 2 ^ (53 - bits t)) in *. set (B1 := 2 ^ (bits l - 1)) in *.
    change (2 ^ 53) with 9007199254740992 in *. nia. }
  assert (Hq : 2 ^ 52 <= q < 2 ^ 54).
  { unfold q. split.
    - apply Z.div_le_lower_bound; [lia |].
      change (2 ^ 52) with 4503599627370496 in *. nia.
    - apply Z.div_lt_upper_bound; [lia |].
      change (2 ^ 54) with 18014398509481984 in *. nia. }
  rewrite binary_round_aux_quotient by lia. cbv zeta.
  set (loc := remainderLocation rho l).
  assert (Hfinish : forall m0 e0 : Z,
            2 ^ 52 <= m0 <= 2 ^ 53 -> e0 <= 0 -> -1074 <= e0 ->
            ceilOf m0 e0 = (t + l - 1) / l ->
            intValue (Math_ceil
                        (if m0 =? 2 ^ 53
                         then S754_finite false (Z.to_pos (2 ^ 52)) (e0 + 1)
                         else S754_finite false (Z.to_pos m0) e0))
            = Some ((t + l - 1) / l)).
  { intros m0 e0 Hm0 He0 He0' Hceil.
    destruct (m0 =? 2 ^ 53) eqn:Hrenorm.
    - apply Z.eqb_eq in Hrenorm. subst m0.
      rewrite intValue_ceil_finite
        by (change (2 ^ 52) with 4503599627370496;
            change (2 ^ 53) with 9007199254740992; lia).
      rewrite ceilOf_renormalised by lia. rewrite Hceil. reflexivity.
    - rewrite intValue_ceil_finite
        by (change (2 ^ 52) with 4503599627370496 in *; lia).
      rewrite Hceil. reflexivity. }
  destruct (q <? 2 ^ 53) eqn:Hcase.
  - apply Z.ltb_lt in Hcase.
    rewrite shr_m_of_loc, loc_of_shr_record_of_loc.
    pose proof (round_nearest_even_range q loc) as [Hrange [Hexact _]].
    set (m0 := round_nearest_even q loc) in *.
    apply Hfinish; [destruct Hrange as [-> | ->]; lia | lia | lia |].
    symmetry. apply ceil_div_unique; [lia |].
    pose proof (ceilOf_spec m0 (- n) ltac:(lia)) as Hx.
    replace (- - n) with n in Hx by lia. fold N in Hx.
    apply (ceil_rounded_53 t l N q rho m0); try assumption; try lia.
    intros Hzero. apply Hexact. apply remainderLocation_exact. exact Hzero.
  - apply Z.ltb_ge in Hcase.
    assert (Hq0 : 0 < q) by (change (2 ^ 53) with 9007199254740992 in Hcase; lia).
    destruct (shr_record_of_loc q loc) as [mq rq sq] eqn:Hrec.
    assert (mq = q) as ->
      by (rewrite <- (shr_m_of_loc q loc), Hrec; reflexivity).
    rewrite shr_1_m by lia. rewrite <- Hrec, shr_1_loc by exact Hq0.
    set (loc1 := match Z.odd q, loc with
                 | false, loc_Exact => loc_Exact
                 | false, loc_Inexact _ => loc_Inexact Lt
                 | true, loc_Exact => loc_Inexact Eq
                 | true, loc_Inexact _ => loc_Inexact Gt
                 end).
    pose proof (round_nearest_even_range (q / 2) loc1) as [Hrange [Hexact Hup]].
    set (m0 := round_nearest_even (q / 2) loc1) in *.
    assert (Hqdiv : q = 2 * (q / 2) + q mod 2) by (apply Z.div_mod; lia).
    pose proof (Z.mod_pos_bound q 2 ltac:(lia)) as Hb.
    assert (Hhalf : 2 ^ 52 <= q / 2 < 2 ^ 53).
    { change (2 ^ 54) with (2 * 2 ^ 53) in Hq.
      change (2 ^ 53) with (2 * 2 ^ 52) in Hcase.
      split; [apply Z.div_le_lower_bound; lia | apply Z.div_lt_upper_bound; lia]. }
    apply Hfinish; [destruct Hrange as [-> | ->]; lia | lia | lia |].
    symmetry. apply ceil_div_unique; [lia |].
    pose proof (ceilOf_spec m0 (- n + 1) ltac:(lia)) as Hx.
    replace (- (- n + 1)) with (n - 1) in Hx by lia.
    apply (ceil_rounded_54 t l (2 ^ (n - 1)) q rho (q / 2) (q mod 2) m0);
      try assumption; try lia.
    + intros Hb0 Hzero. apply Hexact. unfold loc1.
      rewrite Zodd_mod, Hb0. cbn.
      assert (loc = loc_Exact) as -> by (apply remainderLocation_exact; exact Hzero).
      reflexivity.
    + intros Hb1 Hnz. apply Hup. unfold loc1.
      rewrite Zodd_mod, Hb1. cbn.
      destruct loc as [| c] eqn:Hloc; [| reflexivity].
      exfalso. apply Hnz. apply (remainderLocation_exact rho l). exact Hloc.
Qed.

Lemma ceilDiv_spec (t l : Z) :
  0 < l -> (ceilDiv t l - 1) * l < t <= ceilDiv t l * l.
Proof.
  intros Hl. unfold ceilDiv.
  pose proof (Z.div_mod (t + l - 1) l ltac:(lia)) as Hd.
  pose proof (Z.mod_pos_bound (t + l - 1) l Hl) as Hr.
  nia.
Qed.

Lemma intValue_truthy (x : number) (z : Z) :
  intValue x = Some z -> z <> 0 -> truthy_num x = true.
Proof.
  destruct x as [s | s | | s m e]; cbn; intros Hx Hz; try discriminate Hx;
    try reflexivity.
  injection Hx as <-. contradiction.
Qed.

(** [Math.ceil(total / limit) || 1] on a row count and a page size. *)
Lemma totalPagesOf_int (t l : Z) :
  0 <= t < 2 ^ 53 -> 0 < l < 2 ^ 52 ->
  intValue (totalPagesOf (ofZ t) (ofZ l))
  = Some (if t =? 0 then 1 else ceilDiv t l).
Proof.
  intros [Ht Htlt] Hl. unfold totalPagesOf.
  destruct (t =? 0) eqn:Hzero.
  - apply Z.eqb_eq in Hzero. subst t.
    rewrite (ofZ_pos l)
      by (change (2 ^ 52) with 4503599627370496 in Hl;
          change (2 ^ 53) with 9007199254740992; lia).
    reflexivity.
  - apply Z.eqb_neq in Hzero.
    pose proof (ceil_num_div_ofZ t l ltac:(lia) Hl) as Hceil.
    fold (ceilDiv t l) in Hceil.
    pose proof (ceilDiv_spec t l ltac:(lia)) as Hspec.
    rewrite (intValue_truthy _ _ Hceil) by nia.
    exact Hceil.
Qed.

Section Pages.
Context `{Host}.

(** The [meta] of a list response built from a parsed pagination and a row
    count. *)
Lemma meta_pagesOf (query : Json) (p : Pagination) (n : N) :
  wellFormed (coercedPage query) -> wellFormed (coercedLimit query) ->
  parsePagination query = Ok p ->
  Z.of_N n < 2 ^ 53 ->
  pagesOf (mkMeta (page p) (limit p) (ofZ (Z.of_N n))
             (totalPagesOf (ofZ (Z.of_N n)) (limit p))).
Proof.
  intros Hpage Hlimit Hp Hn.
  destruct (parsePagination_ok query p Hpage Hlimit Hp)
    as [Hfields [_ [l [Hlz Hl1]]]].
  assert (Hl : limit p = coercedLimit query) by (rewrite Hfields; reflexivity).
  assert (Hcanon : limit p = ofZ l).
  { rewrite Hl. apply int_canonical; [exact Hlimit | exact Hlz |].
    change (2 ^ 53) with 9007199254740992. lia. }
  set (t := Z.of_N n) in *.
  assert (Ht : 0 <= t) by (unfold t; lia).
  assert (Hl52 : 0 < l < 2 ^ 52)
    by (change (2 ^ 52) with 4503599627370496; lia).
  exists t, l. cbn [total meta_limit totalPages].
  split; [apply intValue_ofZ; lia |]. split; [exact Ht |].
  split; [rewrite Hl; exact Hlz |]. split; [exact Hl1 |].
  rewrite Hcanon. split; [apply totalPagesOf_int; lia |].
  destruct (t =? 0) eqn:Hzero; [lia |].
  apply Z.eqb_neq in Hzero.
  pose proof (ceilDiv_spec t l ltac:(lia)). nia.
Qed.

(** C10. Every successful response of [listProjects] and of [listBlogs]
    reports as [totalPages] the ceiling of total / limit when the total is
    positive, and 1 when it is 0: at least 1 in every case.  The coerced
    page and limit are taken to be binary64 values, and row counts to be
    below 2^53. *)
Theorem list_totalPages {Row : Type}
  (projects : Queries (option jsstring) Row)
  (blogs : Queries (option jsstring * option jsstring) Row)
  (query : Json) :
  wellFormed (coercedPage query) -> wellFormed (coercedLimit query) ->
  (forall w, Z.of_N (count projects w) < 2 ^ 53) ->
  (forall w, Z.of_N (count blogs w) < 2 ^ 53) ->
  (forall resp, listProjects projects query = inr resp ->
                status resp = 200 /\ pagesOf (meta (body resp)))
  /\ (forall resp, listBlogs blogs query = inr resp ->
                   status resp = 200 /\ pagesOf (meta (body resp))).
Proof.
  intros Hpage Hlimit Hcp Hcb. split; intros resp Hresp.
  - unfold listProjects, fromThrows in Hresp.
    destruct (parsePagination query) as [p | e] eqn:Hp; [| discriminate Hresp].
    cbn [bind] in Hresp.
    destruct (parseSearch (prop query "search")) as [search | e];
      [| discriminate Hresp].
    cbn [bind] in Hresp. injection Hresp as <-. cbn [status body meta].
    split; [reflexivity |].
    apply (meta_pagesOf query p _ Hpage Hlimit Hp). apply Hcp.
  - unfold listBlogs, fromThrows in Hresp.
    destruct (parsePagination query) as [p | e] eqn:Hp; [| discriminate Hresp].
    cbn [bind] in Hresp.
    destruct (parseSearch (prop query "search")) as [search | e];
      [| discriminate Hresp].
    cbn [bind] in Hresp.
    destruct (prop query "categoryId") as [c |].
    + destruct (validateRequiredString (Some c) (str "categoryId")) as [cid | e];
        [| discriminate Hresp].
      cbn [bind] in Hresp. injection Hresp as <-. cbn [status body meta].
      split; [reflexivity |].
      apply (meta_pagesOf query p _ Hpage Hlimit Hp). apply Hcb.
    + cbn [bind] in Hresp. injection Hresp as <-. cbn [status body meta].
      split; [reflexivity |].
      apply (meta_pagesOf query p _ Hpage Hlimit Hp). apply Hcb.
Qed.

End Pages.

Lemma list_totalPages_witness :
  (exists resp,
     listProjects (H := refHost) refProjects (JObject []) = inr resp
     /\ pagesOf (meta (body resp))
     /\ intValue (totalPages (meta (body resp))) = Some 3)
  /\ (exists resp,
        listBlogs (H := refHost) refBlogs (JObject []) = inr resp
        /\ pagesOf (meta (body resp))
        /\ intValue (totalPages (meta (body resp))) = Some 1).
Proof.
  pose proof (list_totalPages (H := refHost) refProjects refBlogs (JObject [])
                eq_refl eq_refl (fun _ => eq_refl) (fun _ => eq_refl))
    as [Hprojects Hblogs].
  split.
  - eexists. split; [reflexivity |].
    split; [eapply Hprojects; reflexivity | reflexivity].
  - eexists. split; [reflexivity |].
    split; [eapply Hblogs; reflexivity | reflexivity].
Defined.

(* ===================================================================== *)
(** * Further properties of the validators, the upload and the handlers    *)
(* ===================================================================== *)

(** ** Trimming *)

Section Trimming.
Local Open Scope N_scope.

Lemma trimStart_suffix (s : jsstring) :
  exists p, s = p ++ trimStart s /\ blank p.
Proof.
  induction s as [|c s [p [Hp Hb]]]; [exists []; split; [reflexivity | constructor] |].
  cbn [trimStart]. destruct (isWhiteSpace c) eqn:Hc.
  - exists (c :: p). split; [cbn; f_equal; exact Hp | constructor; assumption].
  - exists []. split; [reflexivity | constructor].
Qed.

Lemma trimStart_head (s : jsstring) (c : codeunit) :
  head (trimStart s) = Some c -> isWhiteSpace c = false.
Proof.
  induction s as [|d s IH]; [discriminate |].
  cbn [trimStart]. destruct (isWhiteSpace d) eqn:Hd; [exact IH |].
  cbn. intros Heq. injection Heq as <-. exact Hd.
Qed.

Lemma trimStart_fixed (s : jsstring) :
  (forall c, head s = Some c -> isWhiteSpace c = false) -> trimStart s = s.
Proof.
  destruct s as [|c s]; [reflexivity |].
  intros Hc. cbn [trimStart]. rewrite (Hc c eq_refl). reflexivity.
Qed.

Lemma trimStart_blank (p s : jsstring) :
  blank p -> trimStart (p ++ s) = trimStart s.
Proof.
  induction 1 as [|c p Hc _ IH]; [reflexivity |].
  cbn [app trimStart]. rewrite Hc. exact IH.
Qed.

Lemma trimStart_app (s t : jsstring) :
  trimStart s <> [] -> trimStart (s ++ t) = trimStart s ++ t.
Proof.
  induction s as [|c s IH]; [intros Hne; contradiction |].
  cbn [app trimStart]. destruct (isWhiteSpace c); [exact IH | reflexivity].
Qed.

Lemma last_rev_head (l : jsstring) : last (rev l) = head l.
Proof. rewrite rev_alt. apply (last_reverse l). Qed.

Lemma blank_rev (p : jsstring) : blank p -> blank (rev p).
Proof. unfold blank. rewrite !List.Forall_forall. intros Hp c Hc. apply Hp, in_rev, Hc. Qed.

Lemma trimEnd_prefix (s : jsstring) :
  exists p, s = trimEnd s ++ p /\ blank p.
Proof.
  unfold trimEnd. destruct (trimStart_suffix (rev s)) as [p [Hp Hb]].
  exists (rev p). split; [| apply blank_rev, Hb].
  rewrite <- rev_app_distr, <- Hp, rev_involutive. reflexivity.
Qed.

Lemma trimEnd_last (s : jsstring) (c : codeunit) :
  last (trimEnd s) = Some c -> isWhiteSpace c = false.
Proof.
  unfold trimEnd. rewrite last_rev_head. apply trimStart_head.
Qed.

Lemma trimEnd_fixed (s : jsstring) :
  (forall c, last s = Some c -> isWhiteSpace c = false) -> trimEnd s = s.
Proof.
  intros Hc. unfold trimEnd. rewrite trimStart_fixed; [apply rev_involutive |].
  intros c Hh. apply Hc. rewrite <- (rev_involutive s), last_rev_head.
  exact Hh.
Qed.

Lemma trimEnd_blank (s p : jsstring) :
  blank p -> trimEnd (s ++ p) = trimEnd s.
Proof.
  intros Hb. unfold trimEnd. rewrite rev_app_distr.
  rewrite trimStart_blank by (apply blank_rev, Hb). reflexivity.
Qed.

(** The head of a string survives [trimEnd] when it is not white space. *)
Lemma trimEnd_head (s : jsstring) (c : codeunit) :
  head s = Some c -> isWhiteSpace c = false -> head (trimEnd s) = Some c.
Proof.
  destruct s as [|d s]; [discriminate |].
  cbn [head]. intros Heq Hc. injection Heq as ->.
  unfold trimEnd. cbn [rev].
  destruct (decide (trimStart (rev s) = [])) as [Hnil | Hne].
  - destruct (trimStart_suffix (rev s)) as [p [Hp Hb]].
    rewrite Hnil, app_nil_r in Hp. rewrite Hp.
    rewrite trimStart_blank by exact Hb.
    cbn [trimStart]. rewrite Hc. reflexivity.
  - rewrite trimStart_app by exact Hne. rewrite rev_app_distr. reflexivity.
Qed.

Lemma trim_trimmed (s : jsstring) : trimmed (trim s).
Proof.
  unfold trim. split; [| apply trimEnd_last].
  intros c Hc.
  destruct (trimStart s) as [|d t] eqn:Ht; [discriminate Hc |].
  assert (Hd : isWhiteSpace d = false).
  { apply (trimStart_head s). rewrite Ht. reflexivity. }
  rewrite (trimEnd_head (d :: t) d eq_refl Hd) in Hc.
  injection Hc as <-. exact Hd.
Qed.

Lemma trim_fixed (s : jsstring) : trimmed s -> trim s = s.
Proof.
  intros [Hh Hl]. unfold trim.
  rewrite (trimStart_fixed s Hh). apply trimEnd_fixed, Hl.
Qed.

Lemma trim_idempotent (s : jsstring) : trim (trim s) = trim s.
Proof. apply trim_fixed, trim_trimmed. Qed.

(** White space around a string does not change what [trim] gives. *)
Lemma trim_padding (p s q : jsstring) :
  blank p -> blank q -> trim (p ++ s ++ q) = trim s.
Proof.
  intros Hp Hq. unfold trim. rewrite trimStart_blank by exact Hp.
  destruct (decide (trimStart s = [])) as [Hnil | Hne].
  - destruct (trimStart_suffix s) as [p' [Hs Hb]].
    rewrite Hnil, app_nil_r in Hs. subst p'.
    assert (Hall : blank (s ++ q)) by (apply Forall_app; split; assumption).
    rewrite <- (app_nil_r (s ++ q)), trimStart_blank by exact Hall.
    rewrite Hnil. reflexivity.
  - rewrite trimStart_app by exact Hne. apply trimEnd_blank, Hq.
Qed.

End Trimming.

(** ** Required and optional strings *)

Section StringValidators.
Local Open Scope N_scope.

Lemma validateRequiredString_ok (value : unknown) (fieldName r : jsstring) :
  validateRequiredString value fieldName = Ok r
  <-> exists s, value = Some (JString s) /\ r = trim s /\ r <> [].
Proof.
  unfold validateRequiredString.
  destruct value as [[| b | n | s | a | o] |];
    try (split; [discriminate | intros [s' [Hv _]]; discriminate Hv]).
  destruct (isEmpty (trim s)) eqn:He.
  - apply isEmpty_nil in He. split; [discriminate |].
    intros [s' [Hv [Hr Hne]]]. injection Hv as <-. congruence.
  - split.
    + intros Heq. injection Heq as <-. exists s.
      split; [reflexivity |]. split; [reflexivity |].
      intros Hnil. apply isEmpty_nil in Hnil. congruence.
    + intros [s' [Hv [Hr _]]]. injection Hv as <-. subst r. reflexivity.
Qed.

Lemma validateOptionalString_ok (value : unknown) (fieldName r : jsstring) :
  validateOptionalString value fieldName = Ok (Some r)
  <-> exists s, value = Some (JString s) /\ r = trim s /\ r <> [].
Proof.
  unfold validateOptionalString.
  destruct value as [[| b | n | s | a | o] |];
    try (split; [discriminate | intros [s' [Hv _]]; discriminate Hv]).
  cbv zeta. destruct (isEmpty (trim s)) eqn:He.
  - apply isEmpty_nil in He. split; [discriminate |].
    intros [s' [Hv [Hr Hne]]]. injection Hv as <-. congruence.
  - split.
    + intros Heq. injection Heq as <-. exists s.
      split; [reflexivity |]. split; [reflexivity |].
      intros Hnil. apply isEmpty_nil in Hnil. congruence.
    + intros [s' [Hv [Hr _]]]. injection Hv as <-. subst r. reflexivity.
Qed.

(** X1.  What [validateRequiredString] returns is the input string trimmed: it
    is not empty, has no white space at either end, validates again to
    itself under any field name, and is what [validateOptionalString]
    returns for the same value. *)
Theorem validateRequiredString_normal_form
  (value : unknown) (fieldName r : jsstring) :
  validateRequiredString value fieldName = Ok r ->
  (exists s, value = Some (JString s) /\ r = trim s)
  /\ r <> [] /\ trimmed r
  /\ (forall fieldName',
        validateRequiredString (Some (JString r)) fieldName' = Ok r)
  /\ validateOptionalString value fieldName = Ok (Some r).
Proof.
  intros Hok. apply validateRequiredString_ok in Hok.
  destruct Hok as [s [Hv [Hr Hne]]].
  split; [exists s; split; assumption |].
  split; [exact Hne |].
  split; [subst r; apply trim_trimmed |].
  split.
  - intros fieldName'. apply validateRequiredString_ok. exists r.
    split; [reflexivity |]. split; [| exact Hne].
    subst r. symmetry. apply trim_idempotent.
  - apply validateOptionalString_ok. exists s. repeat split; assumption.
Qed.

End StringValidators.

Lemma validateRequiredString_normal_form_witness :
  validateRequiredString (Some (JString (str "  Acme Corp "))) (str "company")
  = Ok (str "Acme Corp")
  /\ trimmed (str "Acme Corp")
  /\ validateRequiredString (Some (JString (str "Acme Corp"))) (str "name")
     = Ok (str "Acme Corp").
Proof.
  assert (Hok : validateRequiredString (Some (JString (str "  Acme Corp ")))
                  (str "company") = Ok (str "Acme Corp")) by reflexivity.
  destruct (validateRequiredString_normal_form _ _ _ Hok)
    as [_ [_ [Htrim [Hidem _]]]].
  split; [exact Hok |]. split; [exact Htrim | apply Hidem].
Defined.

Section BoundedStrings.
Local Open Scope N_scope.

Lemma validateRequiredStringWithMaxLength_ok
  (value : unknown) (fieldName : jsstring) (maxLength : N) (r : jsstring) :
  validateRequiredStringWithMaxLength value fieldName maxLength = Ok r
  <-> exists s, value = Some (JString s) /\ r = trim s /\ r <> []
                /\ str_length r <= maxLength.
Proof.
  unfold validateRequiredStringWithMaxLength.
  destruct (validateRequiredString value fieldName) as [v | e] eqn:Hv; cbn [bind].
  - apply validateRequiredString_ok in Hv. destruct Hv as [s [Hs [Hr Hne]]].
    destruct (maxLength <? str_length v) eqn:Hlen.
    + apply N.ltb_lt in Hlen. split; [discriminate |].
      intros [s' [Hs' [Hr' [_ Hle]]]]. rewrite Hs in Hs'. injection Hs' as <-.
      subst. lia.
    + apply N.ltb_ge in Hlen. split.
      * intros Heq. injection Heq as <-. exists s. repeat split; assumption.
      * intros [s' [Hs' [Hr' _]]]. rewrite Hs in Hs'. injection Hs' as <-.
        subst. reflexivity.
  - split; [discriminate |].
    intros [s [Hs [Hr [Hne _]]]].
    assert (Hok : validateRequiredString value fieldName = Ok r).
    { apply validateRequiredString_ok. exists s. repeat split; assumption. }
    rewrite Hok in Hv. discriminate Hv.
Qed.

Lemma validateOptionalStringWithMaxLength_ok
  (value : unknown) (fieldName : jsstring) (maxLength : N) (r : jsstring) :
  validateOptionalStringWithMaxLength value fieldName maxLength = Ok (Some r)
  <-> exists s, value = Some (JString s) /\ r = trim s /\ r <> []
                /\ str_length r <= maxLength.
Proof.
  unfold validateOptionalStringWithMaxLength.
  destruct (validateOptionalString value fieldName) as [[v |] | e] eqn:Hv;
    cbn [bind].
  - apply validateOptionalString_ok in Hv. destruct Hv as [s [Hs [Hr Hne]]].
    destruct (maxLength <? str_length v) eqn:Hlen.
    + apply N.ltb_lt in Hlen. split; [discriminate |].
      intros [s' [Hs' [Hr' [_ Hle]]]]. rewrite Hs in Hs'. injection Hs' as <-.
      subst. lia.
    + apply N.ltb_ge in Hlen. split.
      * intros Heq. injection Heq as <-. exists s. repeat split; assumption.
      * intros [s' [Hs' [Hr' _]]]. rewrite Hs in Hs'. injection Hs' as <-.
        subst. reflexivity.
  - split; [discriminate |].
    intros [s [Hs [Hr [Hne _]]]].
    assert (Hok : validateOptionalString value fieldName = Ok (Some r)).
    { apply validateOptionalString_ok. exists s. repeat split; assumption. }
    rewrite Hok in Hv. discriminate Hv.
  - split; [discriminate |].
    intros [s [Hs [Hr [Hne _]]]].
    assert (Hok : validateOptionalString value fieldName = Ok (Some r)).
    { apply validateOptionalString_ok. exists s. repeat split; assumption. }
    rewrite Hok in Hv. discriminate Hv.
Qed.

Lemma validateOptionalStringWithMaxLength_undefined
  (value : unknown) (fieldName : jsstring) (maxLength : N) :
  validateOptionalStringWithMaxLength value fieldName maxLength = Ok None
  <-> value = None.
Proof.
  unfold validateOptionalStringWithMaxLength, validateOptionalString.
  destruct value as [[| b | n | s | a | o] |]; cbn;
    try (split; discriminate); [| split; reflexivity].
  destruct (isEmpty (trim s)); cbn; [split; discriminate |].
  destruct (maxLength <? str_length (trim s)); split; discriminate.
Qed.

(** X2.  The length bound of the bounded string validators applies to the
    trimmed text.  [validateRequiredStringWithMaxLength] returns [r] exactly
    when the value is a string that trims to a non-empty [r] of at most
    [maxLength] code units; [validateOptionalStringWithMaxLength] returns a
    text under the same condition and returns undefined exactly for an
    undefined value; white space around a string changes neither result. *)
Theorem bounded_string_applies_after_trim
  (fieldName : jsstring) (maxLength : N) :
  (forall value r,
     validateRequiredStringWithMaxLength value fieldName maxLength = Ok r
     <-> exists s, value = Some (JString s) /\ r = trim s /\ r <> []
                   /\ str_length r <= maxLength)
  /\ (forall value r,
        validateOptionalStringWithMaxLength value fieldName maxLength = Ok (Some r)
        <-> exists s, value = Some (JString s) /\ r = trim s /\ r <> []
                      /\ str_length r <= maxLength)
  /\ (forall value,
        validateOptionalStringWithMaxLength value fieldName maxLength = Ok None
        <-> value = None)
  /\ (forall p s q,
        blank p -> blank q ->
        validateRequiredStringWithMaxLength
          (Some (JString (p ++ s ++ q))) fieldName maxLength
        = validateRequiredStringWithMaxLength (Some (JString s)) fieldName maxLength
        /\ validateOptionalStringWithMaxLength
             (Some (JString (p ++ s ++ q))) fieldName maxLength
           = validateOptionalStringWithMaxLength (Some (JString s)) fieldName maxLength).
Proof.
  split; [intros; apply validateRequiredStringWithMaxLength_ok |].
  split; [intros; apply validateOptionalStringWithMaxLength_ok |].
  split; [intros; apply validateOptionalStringWithMaxLength_undefined |].
  intros p s q Hp Hq.
  unfold validateRequiredStringWithMaxLength, validateOptionalStringWithMaxLength,
    validateRequiredString, validateOptionalString.
  cbv zeta. rewrite (trim_padding p s q Hp Hq). split; reflexivity.
Qed.

End BoundedStrings.

Lemma bounded_string_applies_after_trim_witness :
  validateRequiredStringWithMaxLength
    (Some (JString (str "   " ++ str "Acme" ++ str "  "))) (str "company") 4
  = Ok (str "Acme").
Proof.
  pose proof (bounded_string_applies_after_trim (str "company") 4%N)
    as [_ [_ [_ Hpad]]].
  destruct (Hpad (str "   ") (str "Acme") (str "  ")) as [Hreq _].
  - repeat constructor.
  - repeat constructor.
  - rewrite Hreq. reflexivity.
Defined.

(** ** Validation failures are plain 400s *)

Section OnlyBadRequest.
Local Open Scope N_scope.

Lemma onlyBadRequest_Ok {A} (a : A) : onlyBadRequest (Ok a).
Proof. intros e He. discriminate He. Qed.

Lemma onlyBadRequest_BAD_REQUEST {A} (msg : jsstring) :
  onlyBadRequest (BAD_REQUEST (A := A) msg).
Proof. intros e He. injection He as <-. exists msg. reflexivity. Qed.

Lemma onlyBadRequest_bind {A B} (m : throws A) (k : A -> throws B) :
  onlyBadRequest m -> (forall a, onlyBadRequest (k a)) ->
  onlyBadRequest (bind m k).
Proof.
  intros Hm Hk. destruct m as [a | e]; cbn [bind]; [apply Hk |].
  intros e' He'. injection He' as <-. apply Hm. reflexivity.
Qed.

End OnlyBadRequest.

Ltac only_bad_request :=
  repeat first
    [ apply onlyBadRequest_Ok
    | apply onlyBadRequest_BAD_REQUEST
    | apply onlyBadRequest_bind; [| intros ?]
    | match goal with
      | |- onlyBadRequest (match ?x with _ => _ end) => destruct x
      | |- onlyBadRequest (if ?b then _ else _) => destruct b
      end ].

Section ValidatorErrors.
Context `{Host}.
Local Open Scope N_scope.

Lemma dedupeEntries_onlyBadRequest maxLength fieldName entries :
  forall deduped seen,
  onlyBadRequest (dedupeEntries maxLength fieldName entries deduped seen).
Proof.
  induction entries as [| entry rest IH]; intros deduped seen;
    [apply onlyBadRequest_Ok |].
  destruct entry; cbn [dedupeEntries]; try apply onlyBadRequest_BAD_REQUEST.
  cbv zeta.
  destruct (isEmpty _ || _); [apply onlyBadRequest_BAD_REQUEST |].
  destruct (bool_decide _); apply IH.
Qed.

Lemma validateExternalLinks_loop_onlyBadRequest fieldName items :
  forall deduped seenUrls,
  onlyBadRequest (validateExternalLinks_loop fieldName items deduped seenUrls).
Proof.
  induction items as [| item rest IH]; intros deduped seenUrls;
    [apply onlyBadRequest_Ok |].
  destruct item as [| b | n | s | a | members]; cbn [validateExternalLinks_loop];
    try apply onlyBadRequest_BAD_REQUEST.
  cbv zeta.
  destruct (getMember members (str "label")) as [[| b | n | l | a | o] |];
    try apply onlyBadRequest_BAD_REQUEST.
  destruct (isEmpty (trim l)); [apply onlyBadRequest_BAD_REQUEST |].
  destruct (40 <? str_length (trim l)); [apply onlyBadRequest_BAD_REQUEST |].
  destruct (getMember members (str "url")) as [[| b | n | u | a | o] |];
    try apply onlyBadRequest_BAD_REQUEST.
  destruct (negb (isValidHttpUrl u)); [apply onlyBadRequest_BAD_REQUEST |].
  destruct (bool_decide _); apply IH.
Qed.

Lemma validateTags_onlyBadRequest value fieldName :
  onlyBadRequest (validateTags value fieldName).
Proof.
  unfold validateTags.
  destruct value as [[| b | n | s | a | o] |];
    try apply onlyBadRequest_BAD_REQUEST.
  apply dedupeEntries_onlyBadRequest.
Qed.

Lemma validateHighlights_onlyBadRequest value fieldName :
  onlyBadRequest (validateHighlights value fieldName).
Proof.
  unfold validateHighlights.
  destruct value as [[| b | n | s | a | o] |];
    try apply onlyBadRequest_BAD_REQUEST.
  apply dedupeEntries_onlyBadRequest.
Qed.

Lemma validateExternalLinks_onlyBadRequest value fieldName :
  onlyBadRequest (validateExternalLinks value fieldName).
Proof.
  unfold validateExternalLinks.
  destruct value as [[| b | n | s | a | o] |];
    try apply onlyBadRequest_BAD_REQUEST.
  apply validateExternalLinks_loop_onlyBadRequest.
Qed.

Lemma validateRequiredString_onlyBadRequest value fieldName :
  onlyBadRequest (validateRequiredString value fieldName).
Proof. unfold validateRequiredString. only_bad_request. Qed.

Lemma validateOptionalString_onlyBadRequest value fieldName :
  onlyBadRequest (validateOptionalString value fieldName).
Proof. unfold validateOptionalString. only_bad_request. Qed.

Lemma validateImageLinks_onlyBadRequest value fieldName :
  onlyBadRequest (validateImageLinks value fieldName).
Proof. unfold validateImageLinks. only_bad_request. Qed.

Lemma validateRequiredYear_onlyBadRequest value fieldName :
  onlyBadRequest (validateRequiredYear value fieldName).
Proof. unfold validateRequiredYear. only_bad_request. Qed.

Lemma validateRequiredStringWithMaxLength_onlyBadRequest value fieldName n :
  onlyBadRequest (validateRequiredStringWithMaxLength value fieldName n).
Proof.
  unfold validateRequiredStringWithMaxLength.
  apply onlyBadRequest_bind; [apply validateRequiredString_onlyBadRequest |].
  intros a. only_bad_request.
Qed.

Lemma validateOptionalStringWithMaxLength_onlyBadRequest value fieldName n :
  onlyBadRequest (validateOptionalStringWithMaxLength value fieldName n).
Proof.
  unfold validateOptionalStringWithMaxLength.
  apply onlyBadRequest_bind; [apply validateOptionalString_onlyBadRequest |].
  intros a. only_bad_request.
Qed.

Lemma validateRequiredHtmlField_onlyBadRequest value fieldName n :
  onlyBadRequest (validateRequiredHtmlField value fieldName n).
Proof. unfold validateRequiredHtmlField. only_bad_request. Qed.

Lemma validateRequiredMonthString_onlyBadRequest value fieldName :
  onlyBadRequest (validateRequiredMonthString value fieldName).
Proof. unfold validateRequiredMonthString. only_bad_request. Qed.

Lemma optional_onlyBadRequest {A} (value : unknown) (m : throws A) :
  onlyBadRequest m ->
  onlyBadRequest
    (match value with
     | None => Ok None
     | Some _ => let* a := m in Ok (Some a)
     end).
Proof.
  intros Hm. destruct value; [| apply onlyBadRequest_Ok].
  apply onlyBadRequest_bind; [exact Hm | intros a; apply onlyBadRequest_Ok].
Qed.

(** X3.  An error thrown by a validator of utils/validators.ts is an
    [AppError] with status 400, code BAD_REQUEST and no details: whatever
    the value, for the validators that do not convert it to a number; for
    [validateRequiredYear] and [validateOptionalYear], on a value that
    [Number] converts, that is every value but an object with a [toString]
    member of its own and an array that holds one (on these [Number] throws
    a TypeError); for [parsePagination], on a query object whose page and
    limit convert; for [requireAtLeastOneField], on a payload that is not
    null. *)
Theorem validators_throw_only_bad_request
  (value : unknown) (fieldName : jsstring) (maxLength : N) :
  onlyBadRequest (validateRequiredString value fieldName)
  /\ onlyBadRequest (validateOptionalString value fieldName)
  /\ onlyBadRequest (validateImageLinks value fieldName)
  /\ onlyBadRequest (validateOptionalImageLinks value fieldName)
  /\ (converts value -> onlyBadRequest (validateRequiredYear value fieldName))
  /\ (converts value -> onlyBadRequest (validateOptionalYear value fieldName))
  /\ onlyBadRequest (validateRequiredStringWithMaxLength value fieldName maxLength)
  /\ onlyBadRequest (validateOptionalStringWithMaxLength value fieldName maxLength)
  /\ onlyBadRequest (validateRequiredHtmlField value fieldName maxLength)
  /\ onlyBadRequest (validateOptionalHtmlField value fieldName maxLength)
  /\ onlyBadRequest (validateTags value fieldName)
  /\ onlyBadRequest (validateRequiredTags value fieldName)
  /\ onlyBadRequest (validateOptionalTags value fieldName)
  /\ onlyBadRequest (validateHighlights value fieldName)
  /\ onlyBadRequest (validateOptionalHighlights value fieldName)
  /\ onlyBadRequest (validateTechTags value fieldName)
  /\ onlyBadRequest (validateOptionalTechTags value fieldName)
  /\ onlyBadRequest (validateExternalLinks value fieldName)
  /\ onlyBadRequest (validateOptionalExternalLinks value fieldName)
  /\ onlyBadRequest (validateRequiredMonthString value fieldName)
  /\ onlyBadRequest (validateOptionalMonthString value fieldName)
  /\ (forall startMonth endMonth isCurrent,
        onlyBadRequest (validateExperienceChronology startMonth endMonth isCurrent))
  /\ (forall query,
        query <> JNull ->
        converts (prop query "page") -> converts (prop query "limit") ->
        onlyBadRequest (parsePagination query))
  /\ onlyBadRequest (parseSearch value)
  /\ (forall payload fields,
        payload <> JNull -> onlyBadRequest (requireAtLeastOneField payload fields)).
Proof.
  repeat match goal with |- _ /\ _ => split end.
  - apply validateRequiredString_onlyBadRequest.
  - apply validateOptionalString_onlyBadRequest.
  - apply validateImageLinks_onlyBadRequest.
  - apply optional_onlyBadRequest, validateImageLinks_onlyBadRequest.
  - intros _. apply validateRequiredYear_onlyBadRequest.
  - intros _. apply optional_onlyBadRequest, validateRequiredYear_onlyBadRequest.
  - apply validateRequiredStringWithMaxLength_onlyBadRequest.
  - apply validateOptionalStringWithMaxLength_onlyBadRequest.
  - apply validateRequiredHtmlField_onlyBadRequest.
  - apply optional_onlyBadRequest, validateRequiredHtmlField_onlyBadRequest.
  - apply validateTags_onlyBadRequest.
  - apply validateTags_onlyBadRequest.
  - apply optional_onlyBadRequest, validateTags_onlyBadRequest.
  - apply validateHighlights_onlyBadRequest.
  - apply optional_onlyBadRequest, validateHighlights_onlyBadRequest.
  - apply validateTags_onlyBadRequest.
  - apply optional_onlyBadRequest, validateTags_onlyBadRequest.
  - apply validateExternalLinks_onlyBadRequest.
  - apply optional_onlyBadRequest, validateExternalLinks_onlyBadRequest.
  - apply validateRequiredMonthString_onlyBadRequest.
  - apply optional_onlyBadRequest, validateRequiredMonthString_onlyBadRequest.
  - intros. unfold validateExperienceChronology. only_bad_request.
  - intros query _ _ _. unfold parsePagination. cbv zeta. only_bad_request.
  - unfold parseSearch. only_bad_request.
  - intros payload fields _. unfold requireAtLeastOneField. cbv zeta.
    only_bad_request.
Qed.

End ValidatorErrors.

Lemma validators_throw_only_bad_request_witness :
  converts (Some (JArray [JString (str "2024")]))
  /\ ~ converts (Some (JObject [(str "valueOf", JNumber (ofZ 1));
                               (str "toString", JNumber (ofZ 1))]))
  /\ onlyBadRequest
       (validateRequiredYear (H := refHost) (Some (JArray [JString (str "2024")]))
          (str "year"))
  /\ onlyBadRequest
       (parsePagination (H := refHost) (JObject [(str "page", JString (str "0"))])).
Proof.
  split; [reflexivity |]. split; [vm_compute; discriminate |].
  pose proof (validators_throw_only_bad_request (H := refHost)
                (Some (JArray [JString (str "2024")])) (str "year") 0%N) as Hall.
  split.
  - apply Hall. reflexivity.
  - apply Hall; [discriminate | reflexivity | reflexivity].
Defined.

(** ** External links *)

Section Links.
Context `{Host}.
Local Open Scope N_scope.

Lemma badLink_dec (item : Json) : {badLink item} + {~ badLink item}.
Proof.
  destruct item as [| b | n | s | a | members]; cbn [badLink];
    try (left; exact I).
  destruct (getMember members (str "label")) as [[| b | n | l | a | o] |];
    try (left; left; exact I).
  destruct (decide (trim l = [])) as [Hnil | Hne]; [left; left; left; exact Hnil |].
  destruct (decide (40 < str_length (trim l))) as [Hlong | Hshort];
    [left; left; right; exact Hlong |].
  destruct (urlCheck (getMember members (str "url"))) eqn:Hurl.
  - right. intros [[Hn | Hl] | Hu]; [contradiction | contradiction | discriminate Hu].
  - left. right. reflexivity.
Qed.

(** What the loop does with one good item. *)
Lemma validateExternalLinks_loop_good_item fieldName item rest deduped seenUrls :
  ~ badLink item ->
  validateExternalLinks_loop fieldName (item :: rest) deduped seenUrls
  = if bool_decide (linkKey (linkOf item) ∈ seenUrls)
    then validateExternalLinks_loop fieldName rest deduped seenUrls
    else validateExternalLinks_loop fieldName rest (deduped ++ [linkOf item])
           ({[linkKey (linkOf item)]} ∪ seenUrls).
Proof.
  intros Hgood.
  destruct item as [| b | n | s | a | members]; cbn [badLink] in Hgood;
    try (exfalso; apply Hgood; exact I).
  cbn [validateExternalLinks_loop linkOf]. cbv zeta.
  destruct (getMember members (str "label")) as [[| b | n | l | a | o] |];
    try (exfalso; apply Hgood; left; exact I).
  destruct (isEmpty (trim l)) eqn:Hempty.
  { apply isEmpty_nil in Hempty. exfalso. apply Hgood. left; left. exact Hempty. }
  destruct (40 <? str_length (trim l)) eqn:Hlong.
  { apply N.ltb_lt in Hlong. exfalso. apply Hgood. left; right. exact Hlong. }
  destruct (getMember members (str "url")) as [[| b | n | u | a | o] |];
    try (exfalso; apply Hgood; right; reflexivity).
  destruct (isValidHttpUrl u) eqn:Hvalid;
    [| exfalso; apply Hgood; right; cbn; exact Hvalid].
  reflexivity.
Qed.

Lemma validateExternalLinks_loop_bad fieldName items :
  forall deduped seenUrls,
  Exists badLink items ->
  throwsBadRequest (validateExternalLinks_loop fieldName items deduped seenUrls).
Proof.
  induction items as [| item rest IH]; intros deduped seenUrls Hex;
    [inversion Hex |].
  destruct (badLink_dec item) as [Hbad | Hgood].
  - destruct item as [| b | n | s | a | members]; cbn [validateExternalLinks_loop];
      try (eexists; reflexivity).
    cbn [badLink] in Hbad. cbv zeta.
    destruct (getMember members (str "label")) as [[| b | n | l | a | o] |];
      try (eexists; reflexivity).
    destruct (isEmpty (trim l)) eqn:Hempty; [eexists; reflexivity |].
    destruct (40 <? str_length (trim l)) eqn:Hlong; [eexists; reflexivity |].
    destruct Hbad as [[Hnil | Hl] | Hurl].
    + apply isEmpty_nil in Hnil. congruence.
    + apply N.ltb_lt in Hl. congruence.
    + destruct (getMember members (str "url")) as [[| b | n | u | a | o] |];
        try (eexists; reflexivity).
      cbn in Hurl. rewrite Hurl. eexists; reflexivity.
  - rewrite validateExternalLinks_loop_good_item by exact Hgood.
    inversion Hex as [? ? Hb | ? ? Hrest]; subst; [contradiction |].
    destruct (bool_decide _); apply IH; exact Hrest.
Qed.

Lemma validateExternalLinks_loop_good fieldName items :
  forall deduped seenUrls,
  Forall (fun item => ~ badLink item) items ->
  validateExternalLinks_loop fieldName items deduped seenUrls
  = Ok (deduped ++ filter (fun l => linkKey l ∉ seenUrls)
                     (firstSeen linkKey (List.map linkOf items))).
Proof.
  induction items as [| item rest IH]; intros deduped seenUrls Hall.
  - cbn. rewrite app_nil_r. reflexivity.
  - inversion Hall as [| ? ? Hgood Hrest]; subst.
    rewrite validateExternalLinks_loop_good_item by exact Hgood.
    cbn [List.map firstSeen]. rewrite filter_cons.
    destruct (bool_decide (linkKey (linkOf item) ∈ seenUrls)) eqn:Hin.
    + apply bool_decide_eq_true in Hin.
      rewrite decide_False by (intros Hn; apply Hn, Hin).
      rewrite IH by assumption. f_equal. f_equal.
      rewrite list_filter_filter. apply list_filter_iff.
      intros y. split; [| intros [Hy _]; exact Hy].
      intros Hy. split; [exact Hy |].
      intros Heq. apply Hy. rewrite Heq. exact Hin.
    + apply bool_decide_eq_false in Hin.
      rewrite decide_True by exact Hin.
      rewrite IH by assumption. rewrite <- app_assoc. cbn. do 3 f_equal.
      rewrite list_filter_filter. apply list_filter_iff.
      intros y. rewrite elem_of_union, elem_of_singleton. tauto.
Qed.

Lemma validateExternalLinks_spec (items : list Json) (fieldName : jsstring) :
  (throwsBadRequest (validateExternalLinks (Some (JArray items)) fieldName)
   <-> Exists badLink items)
  /\ (~ Exists badLink items ->
      validateExternalLinks (Some (JArray items)) fieldName
      = Ok (firstSeen linkKey (List.map linkOf items))).
Proof.
  assert (Hgood : ~ Exists badLink items ->
      validateExternalLinks (Some (JArray items)) fieldName
      = Ok (firstSeen linkKey (List.map linkOf items))).
  { intros Hno. apply Forall_Exists_neg in Hno. unfold validateExternalLinks.
    rewrite validateExternalLinks_loop_good by exact Hno. cbn [app]. f_equal.
    apply filter_all. intros y. apply not_elem_of_empty. }
  split; [| exact Hgood].
  split; [| apply validateExternalLinks_loop_bad].
  intros [msg Hthrow].
  destruct (List.Exists_dec badLink items badLink_dec) as [Hex | Hno];
    [exact Hex |].
  rewrite (Hgood Hno) in Hthrow. discriminate Hthrow.
Qed.

(** The links of a good item: a label of 1 to 40 characters and a url,
    both trimmed. *)
Lemma linkOf_good (item : Json) :
  ~ badLink item ->
  boundedText 40 (label (linkOf item)) /\ trimmed (url (linkOf item)).
Proof.
  intros Hitem.
  destruct item as [| b | n | s | a | members]; cbn [badLink] in Hitem;
    try (exfalso; apply Hitem; exact I).
  cbn [linkOf].
  destruct (getMember members (str "label")) as [[| b | n | l | a | o] |];
    try (exfalso; apply Hitem; left; exact I).
  destruct (getMember members (str "url")) as [[| b | n | u | a | o] |];
    try (exfalso; apply Hitem; right; reflexivity).
  cbn [label url]. split; [| apply trim_trimmed].
  split; [intros Hnil; apply Hitem; left; left; exact Hnil |].
  split; [apply N.le_ngt; intros Hlt; apply Hitem; left; right; exact Hlt |].
  apply trim_trimmed.
Qed.

(** What the links are that [validateExternalLinks] returns. *)
Lemma validateExternalLinks_ok (value : unknown) (fieldName : jsstring)
  (links : list ExternalLinkInput) :
  validateExternalLinks value fieldName = Ok links ->
  exists items,
    value = Some (JArray items)
    /\ links = firstSeen linkKey (List.map linkOf items)
    /\ NoDup (List.map linkKey links)
    /\ Forall (fun l => boundedText 40 (label l) /\ trimmed (url l)) links.
Proof.
  intros Hok.
  destruct value as [[| b | n | s | items | o] |]; try discriminate Hok.
  exists items. split; [reflexivity |].
  destruct (validateExternalLinks_spec items fieldName) as [Hiff Hgood].
  assert (Hno : ~ Exists badLink items).
  { intros Hex. apply Hiff in Hex. destruct Hex as [msg Hmsg].
    rewrite Hmsg in Hok. discriminate Hok. }
  rewrite (Hgood Hno) in Hok. injection Hok as <-.
  split; [reflexivity |]. split; [apply firstSeen_NoDup |].
  apply Forall_Exists_neg in Hno.
  assert (Hall : Forall (fun l => boundedText 40 (label l) /\ trimmed (url l))
                   (List.map linkOf items)).
  { apply List.Forall_map. eapply List.Forall_impl; [| exact Hno].
    intros item. apply linkOf_good. }
  apply Forall_forall. intros l Hl.
  rewrite Forall_forall in Hall. apply Hall.
  eapply elem_of_sublist; [exact Hl | apply firstSeen_sublist].
Qed.

(** X4.  [validateExternalLinks] on an array throws BAD_REQUEST exactly when
    some item is not an object, has no label of 1 to 40 characters after
    trimming or has no http(s) url.  Otherwise it returns the trimmed links,
    keeping for every lower-cased url the first link that has it: the result
    is a sub-list of the links of the items, in their order, with pairwise
    distinct lower-cased urls, it has a link for the url of every item, and
    its labels are trimmed texts of 1 to 40 code units. *)
Theorem validateExternalLinks_first_seen (items : list Json) (fieldName : jsstring) :
  (throwsBadRequest (validateExternalLinks (Some (JArray items)) fieldName)
   <-> Exists badLink items)
  /\ (~ Exists badLink items ->
      validateExternalLinks (Some (JArray items)) fieldName
      = Ok (firstSeen linkKey (List.map linkOf items)))
  /\ (forall links,
        validateExternalLinks (Some (JArray items)) fieldName = Ok links ->
        NoDup (List.map linkKey links)
        /\ sublist links (List.map linkOf items)
        /\ (forall item, item ∈ items ->
              linkKey (linkOf item) ∈ List.map linkKey links)
        /\ Forall (fun l => boundedText 40 (label l) /\ trimmed (url l)) links).
Proof.
  destruct (validateExternalLinks_spec items fieldName) as [Hiff Hgood].
  split; [exact Hiff |]. split; [exact Hgood |].
  intros links Hok.
  destruct (validateExternalLinks_ok _ _ _ Hok)
    as [items' [Hitems [Hlinks [Hnodup Hall]]]].
  injection Hitems as <-.
  split; [exact Hnodup |].
  split; [rewrite Hlinks; apply firstSeen_sublist |].
  split; [| exact Hall].
  intros item Hin. rewrite Hlinks. apply (firstSeen_covers linkKey).
  apply list_elem_of_In, in_map, list_elem_of_In, Hin.
Qed.

End Links.

Lemma validateExternalLinks_first_seen_witness :
  validateExternalLinks (H := refHost)
    (Some (JArray
       [JObject [(str "label", JString (str " Site ")); (str "url", JString (str "https://example.com"))];
        JObject [(str "label", JString (str "Mirror")); (str "url", JString (str "HTTPS://EXAMPLE.COM"))]]))
    (str "links")
  = Ok [mkLink (str "Site") (str "https://example.com")].
Proof.
  match goal with
  | |- validateExternalLinks (Some (JArray ?items)) ?f = _ =>
      pose proof (validateExternalLinks_first_seen (H := refHost) items f)
        as [_ [Hok _]]
  end.
  rewrite Hok; [reflexivity |].
  intros Hex. apply Exists_cons in Hex. destruct Hex as [Hbad | Hex].
  { vm_compute in Hbad. destruct Hbad as [[Hb | Hb] | Hb]; discriminate Hb. }
  apply Exists_cons in Hex. destruct Hex as [Hbad | Hex].
  { vm_compute in Hbad. destruct Hbad as [[Hb | Hb] | Hb]; discriminate Hb. }
  inversion Hex.
Defined.

(** ** Month strings *)

Section Months.
Local Open Scope N_scope.

Lemma digits_of_year (a b c d : N) :
  a <= 9 -> b <= 9 -> c <= 9 -> d <= 9 ->
  let y := 1000 * a + 100 * b + 10 * c + d in
  y <= 9999
  /\ (y / 10 ^ 3) mod 10 = a /\ (y / 10 ^ 2) mod 10 = b
  /\ (y / 10 ^ 1) mod 10 = c /\ (y / 10 ^ 0) mod 10 = d.
Proof.
  intros Ha Hb Hc Hd y. subst y.
  change (10 ^ 3) with 1000. change (10 ^ 2) with 100.
  change (10 ^ 1) with 10. change (10 ^ 0) with 1.
  set (y := 1000 * a + 100 * b + 10 * c + d).
  assert (H3 : y / 1000 = a).
  { symmetry. apply (N.div_unique y 1000 a (100 * b + 10 * c + d)); subst y; lia. }
  assert (H2 : y / 100 = 10 * a + b).
  { symmetry. apply (N.div_unique y 100 (10 * a + b) (10 * c + d)); subst y; lia. }
  assert (H1 : y / 10 = 100 * a + 10 * b + c).
  { symmetry. apply (N.div_unique y 10 (100 * a + 10 * b + c) d); subst y; lia. }
  rewrite H3, H2, H1, N.div_1_r.
  split; [subst y; lia |].
  split; [apply N.mod_small; lia |].
  split; [symmetry; apply (N.mod_unique _ 10 a b); lia |].
  split; [symmetry; apply (N.mod_unique _ 10 (10 * a + b) c); lia |].
  symmetry. apply (N.mod_unique _ 10 (100 * a + 10 * b + c) d); subst y; lia.
Qed.

Lemma decimal_year (y : N) :
  y <= 9999 ->
  exists a b c d, a <= 9 /\ b <= 9 /\ c <= 9 /\ d <= 9
                  /\ y = 1000 * a + 100 * b + 10 * c + d.
Proof.
  intros Hy.
  pose proof (N.div_mod y 1000 ltac:(discriminate)) as E1.
  pose proof (N.mod_lt y 1000 ltac:(discriminate)) as L1.
  set (a := y / 1000) in *. set (r1 := y mod 1000) in *. clearbody a r1.
  pose proof (N.div_mod r1 100 ltac:(discriminate)) as E2.
  pose proof (N.mod_lt r1 100 ltac:(discriminate)) as L2.
  set (b := r1 / 100) in *. set (r2 := r1 mod 100) in *. clearbody b r2.
  pose proof (N.div_mod r2 10 ltac:(discriminate)) as E3.
  pose proof (N.mod_lt r2 10 ltac:(discriminate)) as L3.
  set (c := r2 / 10) in *. set (d := r2 mod 10) in *. clearbody c d.
  exists a, b, c, d. lia.
Qed.

Lemma digitAt_isDigit (n k : N) : isDigit (digitAt n k) = true.
Proof.
  unfold isDigit, digitAt.
  assert (Hlt : (n / 10 ^ k) mod 10 < 10) by (apply N.mod_lt; discriminate).
  set (x := (n / 10 ^ k) mod 10) in *. clearbody x.
  apply andb_true_iff. split; apply N.leb_le; lia.
Qed.

Lemma formatMonth_matches (y m : N) :
  1 <= m <= 12 -> MONTH_PATTERN_test (formatMonth y m) = true.
Proof.
  intros Hm. unfold formatMonth, MONTH_PATTERN_test.
  rewrite !digitAt_isDigit. cbn [andb].
  change (45 =? 45) with true. cbn [andb].
  assert (Hcases : m = 1 \/ m = 2 \/ m = 3 \/ m = 4 \/ m = 5 \/ m = 6 \/ m = 7
                   \/ m = 8 \/ m = 9 \/ m = 10 \/ m = 11 \/ m = 12) by lia.
  repeat destruct Hcases as [-> | Hcases]; try subst m; reflexivity.
Qed.

Lemma matches_formatMonth (s : jsstring) :
  MONTH_PATTERN_test s = true ->
  exists y m, y <= 9999 /\ 1 <= m <= 12 /\ s = formatMonth y m
              /\ monthOrdinal s = Z.of_N (12 * y + m).
Proof.
  intros Hs.
  destruct s as [| a [| b [| c [| d [| dash [| m1 [| m2 [| ? ?]]]]]]]];
    try discriminate Hs.
  unfold MONTH_PATTERN_test in Hs.
  apply andb_true_iff in Hs. destruct Hs as [Hs Hmonth].
  apply andb_true_iff in Hs. destruct Hs as [Hs Hdash].
  apply N.eqb_eq in Hdash. subst dash.
  bool_to_prop.
  all: destruct (digits_of_year (a - 48) (b - 48) (c - 48) (d - 48))
         as [Hy [Hd3 [Hd2 [Hd1 Hd0]]]]; try lia.
  all: exists (1000 * (a - 48) + 100 * (b - 48) + 10 * (c - 48) + (d - 48)).
  all: exists (10 * (m1 - 48) + (m2 - 48)).
  all: split; [assumption |]; split; [lia |].
  all: unfold formatMonth, digitAt; rewrite Hd3, Hd2, Hd1, Hd0.
  all: split; [| cbn [monthOrdinal]; unfold digitVal; lia].
  all: subst m1.
  all: change (10 ^ 1) with 10; change (10 ^ 0) with 1; rewrite N.div_1_r.
  all: assert (Hm2 : 10 * (48 - 48) + (m2 - 48) = m2 - 48
                     /\ 10 * (49 - 48) + (m2 - 48) = 10 + (m2 - 48)) by lia;
       destruct Hm2 as [Hz Ht]; rewrite ?Hz, ?Ht.
  - rewrite (N.div_small (m2 - 48) 10) by lia.
    rewrite (N.mod_small (m2 - 48) 10) by lia.
    change (0 mod 10) with 0. repeat f_equal; lia.
  - replace ((10 + (m2 - 48)) / 10) with 1
      by (apply (N.div_unique _ 10 1 (m2 - 48)); lia).
    replace ((10 + (m2 - 48)) mod 10) with (m2 - 48)
      by (apply (N.mod_unique _ 10 1 (m2 - 48)); lia).
    change (1 mod 10) with 1. repeat f_equal; lia.
Qed.

(** X5.  [MONTH_PATTERN] accepts exactly the texts YYYY-MM of a year from 0 to
    9999 and a month from 1 to 12, both zero-padded, and the month ordinal of
    such a text is 12 * year + month.  [validateRequiredMonthString] returns
    [r] exactly when the value is the string [r] and [r] is such a text (it
    does not trim), and [validateOptionalMonthString] returns a month exactly
    when the required validator does. *)
Theorem month_pattern_accepts_exactly_months (value : unknown) (fieldName : jsstring) :
  (forall s, MONTH_PATTERN_test s = true
             <-> exists y m, y <= 9999 /\ 1 <= m <= 12 /\ s = formatMonth y m)
  /\ (forall y m, y <= 9999 -> 1 <= m <= 12 ->
        monthOrdinal (formatMonth y m) = Z.of_N (12 * y + m))
  /\ (forall r, validateRequiredMonthString value fieldName = Ok r
                <-> value = Some (JString r)
                    /\ exists y m, y <= 9999 /\ 1 <= m <= 12 /\ r = formatMonth y m)
  /\ (forall r, validateOptionalMonthString value fieldName = Ok (Some r)
                <-> validateRequiredMonthString value fieldName = Ok r).
Proof.
  assert (Hpat : forall s, MONTH_PATTERN_test s = true
             <-> exists y m, y <= 9999 /\ 1 <= m <= 12 /\ s = formatMonth y m).
  { intros s. split.
    - intros Hs. destruct (matches_formatMonth s Hs) as [y [m [Hy [Hm [Heq _]]]]].
      exists y, m. repeat split; try assumption; apply Hm.
    - intros [y [m [_ [Hm ->]]]]. apply formatMonth_matches, Hm. }
  split; [exact Hpat |]. split; [| split].
  - intros y m Hy Hm.
    destruct (decimal_year y Hy) as [a [b [c [d [Ha [Hb [Hc [Hd Hsum]]]]]]]].
    destruct (digits_of_year a b c d Ha Hb Hc Hd) as [_ [H3 [H2 [H1 H0]]]].
    rewrite <- Hsum in H3, H2, H1, H0.
    unfold formatMonth, digitAt. rewrite H3, H2, H1, H0.
    cbn [monthOrdinal]. unfold digitVal.
    assert (Hcases : m = 1 \/ m = 2 \/ m = 3 \/ m = 4 \/ m = 5 \/ m = 6 \/ m = 7
                     \/ m = 8 \/ m = 9 \/ m = 10 \/ m = 11 \/ m = 12) by lia.
    repeat destruct Hcases as [-> | Hcases]; try subst m;
      match goal with
      | |- context [Z.of_N (48 + (?k / 10 ^ 1) mod 10)] =>
          let v := eval vm_compute in (48 + (k / 10 ^ 1) mod 10) in
          change (48 + (k / 10 ^ 1) mod 10) with v;
          let w := eval vm_compute in (48 + (k / 10 ^ 0) mod 10) in
          change (48 + (k / 10 ^ 0) mod 10) with w
      end; lia.
  - intros r. unfold validateRequiredMonthString.
    destruct value as [[| b | n | s | a | o] |];
      try (split; [discriminate | intros [Hv _]; discriminate Hv]).
    destruct (MONTH_PATTERN_test s) eqn:Hs.
    + split.
      * intros Heq. injection Heq as <-. split; [reflexivity |].
        apply Hpat, Hs.
      * intros [Hv _]. injection Hv as <-. reflexivity.
    + split; [discriminate |].
      intros [Hv Hex]. injection Hv as <-. apply Hpat in Hex. congruence.
  - intros r. unfold validateOptionalMonthString.
    destruct value as [j |].
    + destruct (validateRequiredMonthString (Some j) fieldName); cbn [bind];
        split; intros Heq; try discriminate Heq; injection Heq as <-; reflexivity.
    + cbn. split; discriminate.
Qed.

End Months.

Lemma month_pattern_accepts_exactly_months_witness :
  MONTH_PATTERN_test (str "2024-05") = true
  /\ monthOrdinal (str "2024-05") = 24293%Z.
Proof.
  pose proof (month_pattern_accepts_exactly_months None (str "startMonth"))
    as [Hpat [Hord _]].
  split.
  - apply Hpat. exists 2024%N, 5%N.
    split; [vm_compute; discriminate |].
    split; [split; vm_compute; discriminate | reflexivity].
  - apply (Hord 2024%N 5%N).
    + vm_compute; discriminate.
    + split; vm_compute; discriminate.
Defined.

(** ** Years and sort orders *)

(** On well-formed integral numbers [<=] is the order of the integers. *)
Lemma num_leb_int (x y : number) (zx zy : Z) :
  wellFormed x -> wellFormed y ->
  intValue x = Some zx -> intValue y = Some zy ->
  num_leb x y = (zx <=? zy).
Proof.
  intros Hx Hy Hzx Hzy.
  destruct (intValue_scaled x zx Hx Hzx) as [Fx Sx].
  destruct (intValue_scaled y zy Hy Hzy) as [Fy Sy].
  unfold num_leb, SFleb. rewrite (SFcompare_scaled x y Hx Hy Fx Fy), Sx, Sy.
  rewrite !(Z.mul_comm _ (2 ^ 1074)).
  rewrite <- Zmult_compare_compat_l by (apply Z.lt_gt, Z.pow_pos_nonneg; lia).
  unfold Z.leb. destruct (zx ?= zy); reflexivity.
Qed.

Section IntegerRanges.
Context `{Host}.

Lemma isValidYear_iff (x : number) :
  wellFormed x ->
  isValidYear x = true <-> exists z, intValue x = Some z /\ 1900 <= z <= 2100.
Proof.
  intros Hx. unfold isValidYear.
  rewrite !andb_true_iff, isInteger_intValue. split.
  - intros [[[z Hz] Hlo] Hhi]. exists z. split; [exact Hz |].
    rewrite (num_leb_int (ofZ 1900) x 1900 z) in Hlo;
      [| reflexivity | exact Hx | reflexivity | exact Hz].
    rewrite (num_leb_int x (ofZ 2100) z 2100) in Hhi;
      [| exact Hx | reflexivity | exact Hz | reflexivity].
    apply Z.leb_le in Hlo, Hhi. lia.
  - intros [z [Hz Hrange]]. split; [split; [exists z; exact Hz |] |].
    + rewrite (num_leb_int (ofZ 1900) x 1900 z);
        [| reflexivity | exact Hx | reflexivity | exact Hz].
      apply Z.leb_le. lia.
    + rewrite (num_leb_int x (ofZ 2100) z 2100);
        [| exact Hx | reflexivity | exact Hz | reflexivity].
      apply Z.leb_le. lia.
Qed.

(** The valid years are the doubles of the integers from 1900 to 2100. *)
Lemma isValidYear_canonical (x : number) :
  wellFormed x ->
  isValidYear x = true <-> exists z, 1900 <= z <= 2100 /\ x = ofZ z.
Proof.
  intros Hx. rewrite (isValidYear_iff _ Hx). split.
  - intros [z [Hz Hr]]. exists z. split; [exact Hr |].
    apply (int_canonical _ z Hx Hz). split; [lia |].
    eapply Z.le_lt_trans; [apply Hr | reflexivity].
  - intros [z [Hr Heq]]. exists z. split; [| exact Hr].
    rewrite Heq. apply intValue_ofZ. split; [lia |].
    eapply Z.le_lt_trans; [apply Hr | reflexivity].
Qed.

(** X6.  For a value whose conversion to a number is a well-formed binary64,
    [validateRequiredYear] returns exactly when [Number(value)] is an integer
    from 1900 to 2100, and returns that number; in every other case it throws
    BAD_REQUEST, in particular for an undefined value, for which
    [validateOptionalYear] returns undefined. *)
Theorem validateRequiredYear_range (value : unknown) (fieldName : jsstring) :
  wellFormed (Number_ value) ->
  (forall y, validateRequiredYear value fieldName = Ok y
             <-> exists z, 1900 <= z <= 2100 /\ Number_ value = ofZ z /\ y = ofZ z)
  /\ (throwsBadRequest (validateRequiredYear value fieldName)
      <-> ~ exists z, 1900 <= z <= 2100 /\ Number_ value = ofZ z)
  /\ (value = None -> throwsBadRequest (validateRequiredYear value fieldName)
                      /\ validateOptionalYear value fieldName = Ok None).
Proof.
  intros Hx.
  pose proof (isValidYear_canonical _ Hx) as Hcanon.
  unfold validateRequiredYear. cbv zeta.
  destruct (isValidYear (Number_ value)) eqn:Hvalid; cbn [negb].
  - apply proj1 in Hcanon. specialize (Hcanon eq_refl).
    destruct Hcanon as [z [Hr Heq]].
    split; [| split].
    + intros y. split.
      * intros Hy. injection Hy as <-. exists z. repeat split; try assumption; apply Hr.
      * intros [z' [_ [Hn ->]]]. rewrite Hn. reflexivity.
    + split; [intros [msg Hm]; discriminate Hm |].
      intros Hno. exfalso. apply Hno. exists z. split; assumption.
    + intros ->. discriminate Hvalid.
  - assert (Hno : ~ exists z, 1900 <= z <= 2100 /\ Number_ value = ofZ z).
    { intros Hex. apply Hcanon in Hex. discriminate Hex. }
    split; [| split].
    + intros y. split; [discriminate |].
      intros [z [Hr [Hn _]]]. exfalso. apply Hno. exists z. split; assumption.
    + split; [intros _; exact Hno | intros _; eexists; reflexivity].
    + intros ->. split; [eexists; reflexivity | reflexivity].
Qed.

Lemma sortOrder_check_iff (x : number) :
  wellFormed x ->
  negb (isInteger x) || num_ltb x (ofZ 0) || num_ltb (ofZ 10000) x = false
  <-> exists n, intValue x = Some n /\ 0 <= n <= 10000.
Proof.
  intros Hx. rewrite !orb_false_iff, negb_false_iff, isInteger_intValue.
  split.
  - intros [[[n Hn] Hlo] Hhi]. exists n. split; [exact Hn |].
    rewrite (num_ltb_int x (ofZ 0) n 0 Hx) in Hlo;
      [| reflexivity | exact Hn | reflexivity].
    rewrite (num_ltb_int (ofZ 10000) x 10000 n) in Hhi;
      [| reflexivity | exact Hx | reflexivity | exact Hn].
    apply Z.ltb_ge in Hlo, Hhi. lia.
  - intros [n [Hn Hr]]. split; [split; [exists n; exact Hn |] |].
    + rewrite (num_ltb_int x (ofZ 0) n 0 Hx);
        [| reflexivity | exact Hn | reflexivity].
      apply Z.ltb_ge. lia.
    + rewrite (num_ltb_int (ofZ 10000) x 10000 n);
        [| reflexivity | exact Hx | reflexivity | exact Hn].
      apply Z.ltb_ge. lia.
Qed.

(** X7.  For a value whose conversion to a number is a well-formed binary64,
    [validateSortOrder] returns exactly when [Number(value)] is an integer
    from 0 to 10000, and returns that number; in every other case it throws
    BAD_REQUEST, in particular for an undefined value, for which
    [validateOptionalSortOrder] returns undefined. *)
Theorem validateSortOrder_range (value : unknown) (fieldName : jsstring) :
  wellFormed (Number_ value) ->
  (forall r, validateSortOrder value fieldName = Ok r
             <-> r = Number_ value
                 /\ exists n, intValue r = Some n /\ 0 <= n <= 10000)
  /\ (throwsBadRequest (validateSortOrder value fieldName)
      <-> ~ exists n, intValue (Number_ value) = Some n /\ 0 <= n <= 10000)
  /\ (value = None -> throwsBadRequest (validateSortOrder value fieldName)
                      /\ validateOptionalSortOrder value fieldName = Ok None).
Proof.
  intros Hx. unfold validateSortOrder. cbv zeta.
  pose proof (sortOrder_check_iff _ Hx) as Hiff.
  destruct (negb (isInteger (Number_ value)) || num_ltb (Number_ value) (ofZ 0)
            || num_ltb (ofZ 10000) (Number_ value)) eqn:Hcheck.
  - assert (Hno : ~ exists n, intValue (Number_ value) = Some n /\ 0 <= n <= 10000).
    { intros Hex. apply Hiff in Hex. discriminate Hex. }
    split; [| split].
    + intros r. split; [discriminate |].
      intros [-> Hex]. contradiction.
    + split; [intros _; exact Hno | intros _; eexists; reflexivity].
    + intros ->. split; [eexists; reflexivity | reflexivity].
  - apply proj1 in Hiff. specialize (Hiff eq_refl).
    split; [| split].
    + intros r. split.
      * intros Hr. injection Hr as <-. split; [reflexivity | exact Hiff].
      * intros [-> _]. reflexivity.
    + split; [intros [msg Hm]; discriminate Hm |].
      intros Hno. contradiction.
    + intros ->. discriminate Hcheck.
Qed.

End IntegerRanges.

Lemma validateRequiredYear_range_witness :
  validateRequiredYear (H := refHost) (Some (JString (str "2024"))) (str "year")
  = Ok (ofZ 2024)
  /\ throwsBadRequest
       (validateRequiredYear (H := refHost) (Some (JNumber (ofZ 1899))) (str "year")).
Proof.
  split.
  - pose proof (validateRequiredYear_range (H := refHost)
                  (Some (JString (str "2024"))) (str "year") eq_refl) as [Hok _].
    apply Hok. exists 2024. split; [lia |]. split; reflexivity.
  - pose proof (validateRequiredYear_range (H := refHost)
                  (Some (JNumber (ofZ 1899))) (str "year") eq_refl) as [_ [Hthrow _]].
    apply Hthrow. intros [z [Hr Heq]].
    assert (Hz : intValue (ofZ z) = Some z).
    { apply intValue_ofZ. split; [lia |].
      eapply Z.le_lt_trans; [apply Hr | reflexivity]. }
    cbn [Number_ toNumber refHost refToNumber] in Heq.
    rewrite <- Heq in Hz. vm_compute in Hz. injection Hz as <-. lia.
Defined.

Lemma validateSortOrder_range_witness :
  validateSortOrder (H := refHost) (Some (JNumber (ofZ 7))) (str "sortOrder")
  = Ok (ofZ 7).
Proof.
  pose proof (validateSortOrder_range (H := refHost)
                (Some (JNumber (ofZ 7))) (str "sortOrder") eq_refl) as [Hok _].
  apply Hok. split; [reflexivity |]. exists 7. split; [reflexivity | lia].
Defined.

(** ** Stored file names *)

Section FileNames.
Context `{Host}.
Local Open Scope N_scope.

Lemma collapseDashes_cons (c : codeunit) (s : jsstring) :
  collapseDashes (c :: s)
  = if (c =? 45) && match s with d :: _ => d =? 45 | [] => false end
    then collapseDashes s
    else c :: collapseDashes s.
Proof.
  destruct (c =? 45) eqn:Hc.
  - apply N.eqb_eq in Hc. subst c. cbn [andb].
    destruct s as [| d s]; [reflexivity |].
    destruct (d =? 45) eqn:Hd.
    + apply N.eqb_eq in Hd. subst d. reflexivity.
    + destruct d as [| p]; [reflexivity |].
      do 6 (destruct p as [p | p |]; try reflexivity; try discriminate Hd).
  - cbn [andb].
    destruct c as [| p]; [reflexivity |].
    do 6 (destruct p as [p | p |]; try reflexivity; try discriminate Hc).
Qed.

Lemma collapseDashes_head (s : jsstring) : head (collapseDashes s) = head s.
Proof.
  induction s as [| c s IH]; [reflexivity |].
  rewrite collapseDashes_cons.
  destruct (c =? 45) eqn:Hc; [| reflexivity].
  destruct s as [| d s]; [reflexivity |].
  destruct (d =? 45) eqn:Hd; [| reflexivity].
  cbn [andb]. rewrite IH.
  apply N.eqb_eq in Hc, Hd. subst. reflexivity.
Qed.

Lemma collapseDashes_safe (s : jsstring) :
  safeName s -> safeName (collapseDashes s).
Proof.
  unfold safeName. induction 1 as [| c s Hc Hs IH]; [constructor |].
  rewrite collapseDashes_cons.
  destruct ((c =? 45) && _); [exact IH | constructor; assumption].
Qed.

Lemma collapseDashes_no_run (s : jsstring) :
  includes (collapseDashes s) (str "--") = false.
Proof.
  induction s as [| c s IH]; [reflexivity |].
  rewrite collapseDashes_cons.
  destruct ((c =? 45) && match s with d :: _ => d =? 45 | [] => false end)
    eqn:Hcond; [exact IH |].
  cbn [includes]. rewrite IH, orb_false_r.
  change (str "--") with [45; 45]. cbn [startsWith].
  destruct (45 =? c) eqn:Hc; [| reflexivity]. cbn [andb].
  apply N.eqb_eq in Hc. subst c.
  rewrite N.eqb_refl in Hcond. cbn [andb] in Hcond.
  pose proof (collapseDashes_head s) as Hhead.
  destruct (collapseDashes s) as [| d cs]; [reflexivity |].
  destruct s as [| d' s']; [discriminate Hhead |].
  cbn [head] in Hhead. injection Hhead as ->.
  cbn [startsWith]. rewrite N.eqb_sym, Hcond. reflexivity.
Qed.

Lemma replaced_safe (s : jsstring) :
  safeName (List.map (fun c => if isSafeChar c then c else 45) s).
Proof.
  unfold safeName. apply List.Forall_map, List.Forall_forall. intros c _.
  destruct (isSafeChar c) eqn:Hc; [exact Hc | reflexivity].
Qed.

Lemma sanitizeFileName_safeName (name : jsstring) :
  safeName (sanitizeFileName name).
Proof.
  unfold sanitizeFileName. cbv zeta.
  destruct (truthy_str _); [apply collapseDashes_safe, replaced_safe |].
  repeat constructor.
Qed.

(** X8.  For every file name, [sanitizeFileName] returns a non-empty name made
    only of lower case letters, digits, dot, underscore and dash, with no two
    dashes in a row; in particular it has no slash, no backslash and no white
    space. *)
Theorem sanitizeFileName_safe (name : jsstring) :
  sanitizeFileName name <> []
  /\ safeName (sanitizeFileName name)
  /\ includes (sanitizeFileName name) (str "--") = false
  /\ (forall c, c ∈ sanitizeFileName name ->
        c <> 47 /\ c <> 92 /\ isWhiteSpace c = false).
Proof.
  pose proof (sanitizeFileName_safeName name) as Hsafe.
  split; [| split; [exact Hsafe | split]].
  - unfold sanitizeFileName. cbv zeta.
    destruct (collapseDashes _) as [| c s]; cbn [truthy_str]; discriminate.
  - unfold sanitizeFileName. cbv zeta.
    destruct (truthy_str _) eqn:Ht; [apply collapseDashes_no_run | reflexivity].
  - intros c Hin. unfold safeName in Hsafe.
    rewrite Forall_forall in Hsafe. specialize (Hsafe c Hin).
    unfold isSafeChar in Hsafe. unfold isWhiteSpace.
    bool_to_prop; subst;
      (split; [lia || discriminate | split; [lia || discriminate |]]);
      repeat match goal with
      | |- context [?a =? ?b] =>
          let E := fresh in destruct (a =? b) eqn:E;
          [apply N.eqb_eq in E; lia |]
      | |- context [?a <=? ?b] =>
          let E := fresh in destruct (a <=? b) eqn:E;
          [apply N.leb_le in E | apply N.leb_gt in E]
      end; cbn; try reflexivity; try lia.
Qed.

End FileNames.

(** ** Object paths *)

Section ObjectPaths.
Context `{Host}.
Local Open Scope N_scope.

Lemma includes_dot_cons (c : codeunit) (s : jsstring) :
  includes (c :: s) (str ".") = (46 =? c) || includes s (str ".").
Proof.
  cbn [includes]. change (str ".") with [46]. cbn [startsWith].
  destruct s; rewrite andb_true_r; reflexivity.
Qed.

Lemma afterLastDot_suffix (s : jsstring) : exists p, s = p ++ afterLastDot s.
Proof.
  induction s as [| c s [p Hp]]; [exists []; reflexivity |].
  cbn [afterLastDot].
  destruct ((c =? 46) && negb (includes s (str "."))); [exists [c]; reflexivity |].
  destruct (includes (c :: s) (str "."));
    [exists (c :: p); cbn; f_equal; exact Hp | exists []; reflexivity].
Qed.

Lemma afterLastDot_no_dot (s : jsstring) :
  includes s (str ".") = true -> includes (afterLastDot s) (str ".") = false.
Proof.
  induction s as [| c s IH]; [discriminate |].
  intros Hdot. cbn [afterLastDot].
  destruct (c =? 46) eqn:Hc; cbn [andb].
  - destruct (includes s (str ".")) eqn:Hs; cbn [negb].
    + rewrite Hdot. apply IH. reflexivity.
    + exact Hs.
  - rewrite Hdot. apply IH.
    rewrite includes_dot_cons, N.eqb_sym, Hc in Hdot. exact Hdot.
Qed.

Lemma safeName_suffix (p s : jsstring) : safeName (p ++ s) -> safeName s.
Proof. unfold safeName. rewrite Forall_app. intros [_ Hs]. exact Hs. Qed.

Lemma afterLastDot_safe (s : jsstring) : safeName s -> safeName (afterLastDot s).
Proof.
  intros Hs. destruct (afterLastDot_suffix s) as [p Hp].
  rewrite Hp in Hs. eapply safeName_suffix, Hs.
Qed.

Lemma dropExtension_safe (s : jsstring) : safeName s -> safeName (dropExtension s).
Proof.
  unfold safeName. induction 1 as [| c s Hc Hs IH]; [constructor |].
  cbn [dropExtension].
  destruct ((c =? 46) && negb (includes s (str ".")) && truthy_str s);
    constructor; assumption.
Qed.

(** The extension of a MIME type the file filter accepts. *)
Lemma fileFilter_accepts (file : UploadedFile) :
  fileFilter file = None
  <-> mimetype file ∈ [str "image/jpeg"; str "image/png"; str "image/webp";
                       str "image/gif"].
Proof.
  unfold fileFilter, ALLOWED_MIME_TYPES. case_bool_decide as Hin.
  - split; [intros _; exact Hin | reflexivity].
  - split; [discriminate | contradiction].
Qed.

Lemma mimeExtension_accepted (file : UploadedFile) :
  fileFilter file = None ->
  mimeExtension (mimetype file) ∈ [str "jpg"; str "png"; str "webp"; str "gif"].
Proof.
  intros Hin. apply fileFilter_accepts in Hin.
  repeat (apply elem_of_cons in Hin; destruct Hin as [-> | Hin]);
    try solve [inversion Hin];
    unfold mimeExtension, MIME_EXTENSIONS; cbn [List.find fst];
    repeat (case_bool_decide as Heq; [| try (vm_compute in Heq; congruence)]);
    cbn; set_solver.
Qed.

Lemma mimeExtension_safe (file : UploadedFile) :
  fileFilter file = None ->
  safeName (mimeExtension (mimetype file))
  /\ mimeExtension (mimetype file) <> []
  /\ mimeExtension (mimetype file) <> str "bin"
  /\ includes (mimeExtension (mimetype file)) (str ".") = false.
Proof.
  intros Hok. pose proof (mimeExtension_accepted file Hok) as Hin.
  repeat (apply elem_of_cons in Hin; destruct Hin as [-> | Hin]);
    try (split; [repeat constructor
                | split; [discriminate | split; [discriminate | reflexivity]]]).
  inversion Hin.
Qed.

Lemma dropExtension_no_dot (s : jsstring) :
  includes s (str ".") = false -> dropExtension s = s.
Proof.
  induction s as [| c s IH]; [reflexivity |].
  rewrite includes_dot_cons. intros Hdot.
  apply orb_false_iff in Hdot. destruct Hdot as [Hc Hs].
  cbn [dropExtension]. rewrite N.eqb_sym, Hc. cbn [andb].
  rewrite (IH Hs). reflexivity.
Qed.

(** X9.  The object path [uploadImages] builds for a file that the file filter
    of the upload route accepted is folder/uuid-base.ext, where base and ext
    are made of the safe characters, and ext is not empty and has no dot.
    Whatever the original name of the file, what follows the folder has no
    slash and no backslash: the object stays in the folder. *)
Theorem objectPath_stays_in_folder (folder uuid : jsstring) (file : UploadedFile) :
  fileFilter file = None ->
  exists base ext,
    objectPathOf folder uuid file
    = folder ++ str "/" ++ uuid ++ str "-" ++ base ++ str "." ++ ext
    /\ safeName base /\ safeName ext
    /\ ext <> [] /\ includes ext (str ".") = false
    /\ (forall c, c ∈ base ++ str "." ++ ext -> c <> 47 /\ c <> 92).
Proof.
  intros Haccepted.
  pose proof (sanitizeFileName_safeName (originalname file)) as Hsafe.
  assert (Hext : exists ext,
    objectPathOf folder uuid file
    = folder ++ str "/" ++ uuid ++ str "-"
        ++ dropExtension (sanitizeFileName (originalname file)) ++ str "." ++ ext
    /\ safeName ext /\ ext <> [] /\ includes ext (str ".") = false).
  { unfold objectPathOf. cbv zeta.
    destruct (mimeExtension_safe file Haccepted) as [Hm1 [Hm2 [_ Hm3]]].
    destruct (includes (sanitizeFileName (originalname file)) (str ".")) eqn:Hdot.
    - destruct (truthy_str (afterLastDot _)) eqn:Ht.
      + eexists. split; [reflexivity |].
        split; [apply afterLastDot_safe, Hsafe |].
        split; [| apply afterLastDot_no_dot, Hdot].
        intros Hnil. rewrite Hnil in Ht. discriminate Ht.
      + eexists. split; [reflexivity |]. repeat split; assumption.
    - eexists. split; [reflexivity |]. repeat split; assumption. }
  destruct Hext as [ext [Hpath [He1 [He2 He3]]]].
  exists (dropExtension (sanitizeFileName (originalname file))), ext.
  pose proof (dropExtension_safe _ Hsafe) as Hbase.
  split; [exact Hpath |]. split; [exact Hbase |].
  split; [exact He1 |]. split; [exact He2 |]. split; [exact He3 |].
  intros c Hin.
  assert (Hc : isSafeChar c = true).
  { apply elem_of_app in Hin. destruct Hin as [Hin | Hin].
    - unfold safeName in Hbase. rewrite Forall_forall in Hbase. apply Hbase, Hin.
    - apply elem_of_app in Hin. destruct Hin as [Hin | Hin].
      + apply list_elem_of_singleton in Hin. subst c. reflexivity.
      + unfold safeName in He1. rewrite Forall_forall in He1. apply He1, Hin. }
  unfold isSafeChar in Hc. bool_to_prop; subst; split; lia || discriminate.
Qed.

(** X10.  The file filter of the upload route accepts a file exactly when its
    MIME type is image/jpeg, image/png, image/webp or image/gif.  For an
    accepted file the lookup in [MIME_EXTENSIONS] gives jpg, png, webp or
    gif, never the fallback bin, and when its sanitized name has no dot the
    object path is folder/uuid-name.ext with that name and that
    extension. *)
Theorem accepted_mime_type_has_extension (folder uuid : jsstring)
  (file : UploadedFile) :
  (fileFilter file = None
   <-> mimetype file ∈ [str "image/jpeg"; str "image/png"; str "image/webp";
                        str "image/gif"])
  /\ (fileFilter file = None ->
      mimeExtension (mimetype file) ∈ [str "jpg"; str "png"; str "webp"; str "gif"]
      /\ mimeExtension (mimetype file) <> str "bin")
  /\ (fileFilter file = None ->
      includes (sanitizeFileName (originalname file)) (str ".") = false ->
      objectPathOf folder uuid file
      = folder ++ str "/" ++ uuid ++ str "-"
          ++ sanitizeFileName (originalname file) ++ str "."
          ++ mimeExtension (mimetype file)).
Proof.
  split; [apply fileFilter_accepts |]. split.
  - intros Hok. split; [apply mimeExtension_accepted, Hok |].
    apply (mimeExtension_safe file Hok).
  - intros _ Hdot. unfold objectPathOf. cbv zeta.
    rewrite Hdot, (dropExtension_no_dot _ Hdot). reflexivity.
Qed.

End ObjectPaths.

Lemma objectPath_stays_in_folder_witness :
  let file := mkFile (str "../Holiday Photo.PNG") (str "image/png") 3%N (Some [97%N; 98%N; 99%N]) in
  objectPathOf (H := refHost) (str "projects") (str "uuid") file
  = str "projects/uuid-..-holiday-photo.png"
  /\ forall c, c ∈ str "..-holiday-photo.png" -> c <> 47%N /\ c <> 92%N.
Proof.
  intros file. split; [reflexivity |].
  destruct (objectPath_stays_in_folder (H := refHost) (str "projects") (str "uuid")
              file eq_refl) as [base [ext [Hpath [_ [_ [_ [_ Hchars]]]]]]].
  assert (Hparts : base ++ str "." ++ ext = str "..-holiday-photo.png").
  { change (objectPathOf (H := refHost) (str "projects") (str "uuid") file)
      with (str "projects" ++ str "/" ++ str "uuid" ++ str "-"
              ++ str "..-holiday-photo.png") in Hpath.
    repeat apply app_inv_head in Hpath. symmetry. exact Hpath. }
  rewrite <- Hparts. exact Hchars.
Defined.

Lemma accepted_mime_type_has_extension_witness :
  let file := mkFile (str "scan") (str "image/webp") 3%N (Some [97%N; 98%N; 99%N]) in
  objectPathOf (H := refHost) (str "blogs") (str "uuid") file
  = str "blogs/uuid-scan.webp"
  /\ mimeExtension (H := refHost) (str "constructor")
     = str "function Object() { [native code] }".
Proof.
  intros file. split; [| reflexivity].
  destruct (accepted_mime_type_has_extension (H := refHost) (str "blogs")
              (str "uuid") file) as [_ [_ Hpath]].
  rewrite (Hpath eq_refl eq_refl). reflexivity.
Defined.

(** ** The upload loop *)

Section UploadLoop.
Context `{Host}.
Local Open Scope N_scope.

Variables (storage : Storage) (bucket folder : jsstring).

(** One step of the loop on a file that passes its checks and uploads. *)
Lemma uploadLoop_success (files : list UploadedFile) :
  forall i links trace links' trace',
  uploadLoop storage bucket folder files i links trace = (inr links', trace') ->
  links' = links ++ List.map (storage_getPublicUrl storage bucket)
                      (objectPaths storage folder files i)
  /\ trace' = trace ++ flat_map (callsFor bucket) (objectPaths storage folder files i)
  /\ Forall uploadable files
  /\ Forall (fun p => storage_getPublicUrl storage bucket p <> [])
       (objectPaths storage folder files i).
Proof.
  induction files as [| file rest IH]; intros i links trace links' trace' Hrun.
  - cbn in Hrun. injection Hrun as <- <-. cbn. rewrite !app_nil_r.
    repeat split; constructor.
  - cbn [uploadLoop] in Hrun.
    destruct (buffer file) as [[| b bytes] |] eqn:Hbuf; try discriminate Hrun.
    destruct (MAX_FILE_SIZE_BYTES <? file_size file) eqn:Hsize;
      [discriminate Hrun |].
    cbv zeta in Hrun.
    destruct (storage_upload storage bucket _ (b :: bytes) (mimetype file));
      [discriminate Hrun |].
    destruct (isEmpty (storage_getPublicUrl storage bucket _)) eqn:Hurl;
      [discriminate Hrun |].
    apply IH in Hrun. destruct Hrun as [Hlinks [Htrace [Hfiles Hurls]]].
    cbn [objectPaths List.map flat_map callsFor].
    split; [rewrite Hlinks, <- app_assoc; reflexivity |].
    split; [rewrite Htrace, <- !app_assoc; reflexivity |].
    split.
    + constructor; [| exact Hfiles]. split; [eexists _, _; exact Hbuf |].
      apply N.ltb_ge, Hsize.
    + constructor; [| exact Hurls].
      intros Hnil. apply isEmpty_nil in Hnil. congruence.
Qed.

(** The loop over [good ++ more] is the loop over [more] started where
    the loop over [good] ended, when that one went through. *)
Lemma uploadLoop_app (good more : list UploadedFile) :
  forall i links trace links' trace',
  uploadLoop storage bucket folder good i links trace = (inr links', trace') ->
  uploadLoop storage bucket folder (good ++ more) i links trace
  = uploadLoop storage bucket folder more (i + List.length good)%nat links' trace'.
Proof.
  induction good as [| file rest IH]; intros i links trace links' trace' Hrun.
  - cbn in Hrun. injection Hrun as <- <-. cbn. rewrite Nat.add_0_r. reflexivity.
  - cbn [uploadLoop app] in Hrun |- *.
    destruct (buffer file) as [[| b bytes] |]; try discriminate Hrun.
    destruct (MAX_FILE_SIZE_BYTES <? file_size file); [discriminate Hrun |].
    cbv zeta in Hrun |- *.
    destruct (storage_upload storage bucket _ (b :: bytes) (mimetype file));
      [discriminate Hrun |].
    destruct (isEmpty (storage_getPublicUrl storage bucket _));
      [discriminate Hrun |].
    rewrite (IH _ _ _ _ _ Hrun). cbn [List.length].
    rewrite Nat.add_succ_r. reflexivity.
Qed.

Lemma uploadLoop_rejects (file : UploadedFile) (rest : list UploadedFile) :
  ~ uploadable file ->
  forall i links trace,
  exists msg,
    uploadLoop storage bucket folder (file :: rest) i links trace
    = (inl (ThrownAppError (newAppError 400 "BAD_REQUEST" msg)), trace).
Proof.
  intros Hbad i links trace. cbn [uploadLoop].
  destruct (buffer file) as [[| b bytes] |] eqn:Hbuf;
    try (eexists; reflexivity).
  destruct (MAX_FILE_SIZE_BYTES <? file_size file) eqn:Hsize;
    [eexists; reflexivity |].
  exfalso. apply Hbad. split; [eexists _, _; exact Hbuf |].
  apply N.ltb_ge, Hsize.
Qed.

End UploadLoop.

Section UploadHandler.
Context `{Host}.
Local Open Scope N_scope.

Lemma length_objectPaths (storage : Storage) (folder : jsstring)
  (files : list UploadedFile) (i : nat) :
  List.length (objectPaths storage folder files i) = List.length files.
Proof.
  revert i. induction files as [| f files IH]; intros i; [reflexivity |].
  cbn [objectPaths List.length]. f_equal. apply IH.
Qed.

Lemma length_callsFor (bucket : jsstring) (paths : list jsstring) :
  List.length (flat_map (callsFor bucket) paths) = (2 * List.length paths)%nat.
Proof.
  induction paths as [| p paths IH]; [reflexivity |].
  cbn [flat_map callsFor app List.length]. rewrite IH. lia.
Qed.

(** Past the request checks and the configuration the handler is the loop. *)
Lemma uploadImages_runs_loop (env : Env) (storage : Storage) (body : Json)
  (files : list UploadedFile) (folder : jsstring) (cfg : StorageConfig) :
  parseUploadFolder (prop body "folder") = Ok folder ->
  1 <= N.of_nat (List.length files) <= MAX_FILES_PER_REQUEST ->
  getStorageConfig env = inr cfg ->
  createClient storage (cfg_url cfg) (serviceRoleKey cfg) = None ->
  uploadImages env storage body (Some files)
  = match uploadLoop storage (bucket cfg) folder files 0 [] [] with
    | (inl err, trace) => (inl err, trace)
    | (inr links, trace) => (inr (mkResponse 200 links), trace)
    end.
Proof.
  intros Hfolder [Hlo Hhi] Hcfg Hclient. unfold uploadImages.
  rewrite Hfolder. change (default [] (Some files)) with files. cbv zeta.
  assert (Hn1 : (N.of_nat (List.length files) <? 1) = false) by (apply N.ltb_ge; lia).
  assert (Hn2 : (MAX_FILES_PER_REQUEST <? N.of_nat (List.length files)) = false)
    by (apply N.ltb_ge; lia).
  rewrite Hn1, Hn2. cbn [orb]. rewrite Hcfg, Hclient. reflexivity.
Qed.

(** X11.  When [uploadImages] answers, it answers 200 with one link per file, in
    the order of the files.  The request had 1 to 10 files, each with a
    non-empty buffer and a size of at most 5MB, and the folder and the
    storage configuration were accepted; the i-th link is the public URL of
    the object path of the i-th file, made with the i-th identifier, and is
    not empty; the storage calls are, file after file, one upload followed by
    one public-URL lookup. *)
Theorem uploadImages_one_link_per_file (env : Env) (storage : Storage)
  (body : Json) (files : option (list UploadedFile))
  (resp : Response (list jsstring)) (trace : list StorageCall) :
  uploadImages env storage body files = (inr resp, trace) ->
  exists folder cfg fs,
    files = Some fs
    /\ parseUploadFolder (prop body "folder") = Ok folder
    /\ getStorageConfig env = inr cfg
    /\ status resp = 200%Z
    /\ Express.body resp
       = List.map (storage_getPublicUrl storage (bucket cfg))
           (objectPaths storage folder fs 0)
    /\ List.length (Express.body resp) = List.length fs
    /\ trace = flat_map (callsFor (bucket cfg)) (objectPaths storage folder fs 0)
    /\ Forall uploadable fs
    /\ Forall (fun link => link <> []) (Express.body resp)
    /\ 1 <= N.of_nat (List.length fs) <= MAX_FILES_PER_REQUEST.
Proof.
  unfold uploadImages. intros Hrun.
  destruct (parseUploadFolder (prop body "folder")) as [folder | e] eqn:Hfolder;
    [| discriminate Hrun].
  cbv zeta in Hrun.
  destruct (N.of_nat (List.length (default [] files)) <? 1) eqn:Hlo;
    [discriminate Hrun |].
  destruct (MAX_FILES_PER_REQUEST <? N.of_nat (List.length (default [] files)))
    eqn:Hhi; [discriminate Hrun |].
  cbn [orb] in Hrun.
  destruct (getStorageConfig env) as [msg | cfg] eqn:Hcfg; [discriminate Hrun |].
  destruct (createClient storage (cfg_url cfg) (serviceRoleKey cfg));
    [discriminate Hrun |].
  destruct (uploadLoop storage (bucket cfg) folder (default [] files) 0 [] [])
    as [[err | links] trace'] eqn:Hloop; [discriminate Hrun |].
  injection Hrun as <- <-.
  apply N.ltb_ge in Hlo, Hhi.
  destruct files as [fs |]; [| cbn in Hlo; lia].
  change (default [] (Some fs)) with fs in *.
  apply uploadLoop_success in Hloop.
  destruct Hloop as [Hlinks [Htrace [Hfiles Hurls]]]. cbn [app] in Hlinks, Htrace.
  exists folder, cfg, fs. cbn [status Express.body].
  split; [reflexivity |]. split; [reflexivity |]. split; [reflexivity |].
  split; [reflexivity |]. split; [exact Hlinks |].
  split.
  { rewrite Hlinks, length_map. apply length_objectPaths. }
  split; [exact Htrace |]. split; [exact Hfiles |].
  split; [| split; assumption].
  rewrite Hlinks. apply List.Forall_map. exact Hurls.
Qed.

(** X12.  Uploading is not all-or-nothing.  When the files before one that is
    empty or larger than 5MB all upload, the request is answered 400
    BAD_REQUEST and the storage calls made are exactly those of the files
    before it, two per file: they have been uploaded and nothing removes
    them, and the files after the bad one are not touched. *)
Theorem upload_stops_at_first_bad_file (env : Env) (storage : Storage)
  (body : Json) (good rest : list UploadedFile) (bad : UploadedFile)
  (folder : jsstring) (cfg : StorageConfig)
  (links : list jsstring) (trace : list StorageCall) :
  parseUploadFolder (prop body "folder") = Ok folder ->
  N.of_nat (List.length (good ++ bad :: rest)) <= MAX_FILES_PER_REQUEST ->
  getStorageConfig env = inr cfg ->
  createClient storage (cfg_url cfg) (serviceRoleKey cfg) = None ->
  uploadLoop storage (bucket cfg) folder good 0 [] [] = (inr links, trace) ->
  ~ uploadable bad ->
  finish env (fst (uploadImages env storage body (Some (good ++ bad :: rest))))
  = (400%Z, Some (str "BAD_REQUEST"))
  /\ snd (uploadImages env storage body (Some (good ++ bad :: rest)))
     = flat_map (callsFor (bucket cfg)) (objectPaths storage folder good 0)
  /\ List.length (snd (uploadImages env storage body (Some (good ++ bad :: rest))))
     = (2 * List.length good)%nat.
Proof.
  intros Hfolder Hcount Hcfg Hclient Hgood Hbad.
  rewrite (uploadImages_runs_loop env storage body _ folder cfg Hfolder);
    try assumption.
  2:{ split; [| exact Hcount]. rewrite length_app. cbn [List.length]. lia. }
  rewrite (uploadLoop_app storage (bucket cfg) folder good (bad :: rest)
             0 [] [] links trace Hgood).
  destruct (uploadLoop_rejects storage (bucket cfg) folder bad rest Hbad
              (0 + List.length good)%nat links trace) as [msg ->].
  apply uploadLoop_success in Hgood. destruct Hgood as [_ [Htrace _]].
  cbn [app] in Htrace. cbn [fst snd].
  split; [reflexivity |]. split; [exact Htrace |].
  rewrite Htrace, length_callsFor, length_objectPaths. reflexivity.
Qed.

(** X13.  [uploadImages] checks the request before the storage configuration.  A
    request with no file is answered 400 BAD_REQUEST without a storage call,
    in any environment.  A request with a valid folder and 1 to 10 files, on
    a server whose storage is not configured, is answered 500 INTERNAL_ERROR
    without a storage call; the configuration message is the details of the
    envelope, except in production. *)
Theorem upload_checks_request_before_configuration (env : Env)
  (storage : Storage) (body : Json) :
  (forall files,
     files = None \/ files = Some [] ->
     finish env (fst (uploadImages env storage body files))
     = (400%Z, Some (str "BAD_REQUEST"))
     /\ snd (uploadImages env storage body files) = [])
  /\ (forall files folder msg,
        parseUploadFolder (prop body "folder") = Ok folder ->
        1 <= N.of_nat (List.length files) <= MAX_FILES_PER_REQUEST ->
        getStorageConfig env = inl msg ->
        finish env (fst (uploadImages env storage body (Some files)))
        = (500%Z, Some (str "INTERNAL_ERROR"))
        /\ snd (uploadImages env storage body (Some files)) = []
        /\ error_details
             (Express.body (errorHandler env (ThrownError None msg)))
           = (if decide (NODE_ENV env = Some (str "production"))
              then None else Some (JString msg))
        /\ fst (uploadImages env storage body (Some files))
           = inl (ThrownError None msg)).
Proof.
  split.
  - intros files Hfiles. unfold uploadImages.
    destruct (parseUploadFolder (prop body "folder")) as [folder | e] eqn:Hfolder.
    + destruct Hfiles as [-> | ->]; split; reflexivity.
    + apply parseUploadFolder_throws in Hfolder. destruct Hfolder as [Hs Hc].
      split; [| reflexivity]. cbn. rewrite Hs, Hc. reflexivity.
  - intros files folder msg Hfolder [Hlo Hhi] Hcfg. unfold uploadImages.
    rewrite Hfolder. change (default [] (Some files)) with files. cbv zeta.
    assert (Hn1 : (N.of_nat (List.length files) <? 1) = false)
      by (apply N.ltb_ge; lia).
    assert (Hn2 : (MAX_FILES_PER_REQUEST <? N.of_nat (List.length files)) = false)
      by (apply N.ltb_ge; lia).
    rewrite Hn1, Hn2. cbn [orb]. rewrite Hcfg.
    repeat split; reflexivity.
Qed.

End UploadHandler.

Lemma uploadImages_one_link_per_file_witness :
  let body := JObject [(str "folder", JString (str "projects"))] in
  exists resp trace,
    uploadImages (H := refHost) refEnv refStorage body (Some [refFile; refFile])
    = (inr resp, trace)
    /\ List.length (Express.body resp) = 2%nat
    /\ List.length trace = 4%nat.
Proof.
  intros body.
  destruct (uploadImages (H := refHost) refEnv refStorage body
              (Some [refFile; refFile])) as [[err | resp] trace] eqn:Hrun;
    [vm_compute in Hrun; discriminate Hrun |].
  exists resp, trace. split; [reflexivity |].
  destruct (uploadImages_one_link_per_file (H := refHost) _ _ _ _ _ _ Hrun)
    as [folder [cfg [fs [Hfs [_ [_ [_ [_ [Hlen [Htrace _]]]]]]]]]].
  injection Hfs as <-. split; [exact Hlen |].
  rewrite Htrace, length_callsFor, length_objectPaths. reflexivity.
Defined.

Lemma upload_stops_at_first_bad_file_witness :
  let body := JObject [(str "folder", JString (str "blogs"))] in
  let empty := mkFile (str "empty.png") (str "image/png") 0 None in
  finish refEnv
    (fst (uploadImages (H := refHost) refEnv refStorage body
            (Some ([refFile] ++ empty :: [refFile]))))
  = (400%Z, Some (str "BAD_REQUEST"))
  /\ List.length
       (snd (uploadImages (H := refHost) refEnv refStorage body
               (Some ([refFile] ++ empty :: [refFile]))))
     = 2%nat.
Proof.
  intros body empty.
  destruct (upload_stops_at_first_bad_file (H := refHost) refEnv refStorage body
              [refFile] [refFile] empty (str "blogs")
              (mkStorageConfig (str "https://abc.supabase.co")
                 (str "service-role-key") (str "images"))
              [str "https://abc.supabase.co/images/blogs/uuid-test.jpg"]
              (callsFor (str "images") (str "blogs/uuid-test.jpg")))
    as [Hfin [_ Hlen]].
  - reflexivity.
  - vm_compute. discriminate.
  - reflexivity.
  - reflexivity.
  - reflexivity.
  - intros [[b [bytes Hb]] _]. discriminate Hb.
  - split; [exact Hfin | exact Hlen].
Defined.

Lemma upload_checks_request_before_configuration_witness :
  let body := JObject [(str "folder", JString (str "projects"))] in
  let env := mkEnv (Some (str "production")) None None None None None in
  finish env (fst (uploadImages (H := refHost) env refStorage body (Some [])))
  = (400%Z, Some (str "BAD_REQUEST"))
  /\ finish env (fst (uploadImages (H := refHost) env refStorage body (Some [refFile])))
     = (500%Z, Some (str "INTERNAL_ERROR")).
Proof.
  intros body env.
  pose proof (upload_checks_request_before_configuration (H := refHost)
                env refStorage body) as [Hempty Hconfig].
  split.
  - apply (Hempty (Some [])). right. reflexivity.
  - apply (Hconfig [refFile] (str "projects") (str "SUPABASE_URL is not configured")).
    + reflexivity.
    + split; vm_compute; discriminate.
    + reflexivity.
Defined.

(** ** Experiences: months, partial updates, sanitized summaries *)

Section ExperienceRows.
Context `{Host}.
Local Open Scope N_scope.

Lemma validateRequiredMonthString_pattern (value : unknown) (fieldName m : jsstring) :
  validateRequiredMonthString value fieldName = Ok m ->
  value = Some (JString m) /\ MONTH_PATTERN_test m = true.
Proof.
  unfold validateRequiredMonthString.
  destruct value as [[| b | n | s | a | o] |]; try discriminate.
  destruct (MONTH_PATTERN_test s) eqn:Hs; [| discriminate].
  intros Heq. injection Heq as <-. split; [reflexivity | exact Hs].
Qed.

Lemma validateOptionalMonthString_pattern (value : unknown) (fieldName : jsstring)
  (r : option jsstring) :
  validateOptionalMonthString value fieldName = Ok r ->
  match r with
  | Some m => value = Some (JString m) /\ MONTH_PATTERN_test m = true
  | None => value = None
  end.
Proof.
  unfold validateOptionalMonthString.
  destruct value as [j |]; [| intros Heq; injection Heq as <-; reflexivity].
  destruct (validateRequiredMonthString (Some j) fieldName) as [m | e] eqn:Hm;
    cbn [bind]; [| discriminate].
  intros Heq. injection Heq as <-.
  apply validateRequiredMonthString_pattern in Hm. exact Hm.
Qed.

(** What the [endMonth] of a body is once it passed validation. *)
Lemma endMonth_validated (value : unknown) (fieldName : jsstring)
  (r : nullish jsstring) :
  nullOr value (fun v => validateOptionalMonthString v fieldName) = Ok r ->
  match r with
  | undefined => value = None
  | null => value = Some JNull
  | val m => value = Some (JString m) /\ MONTH_PATTERN_test m = true
  end.
Proof.
  unfold nullOr.
  destruct value as [[| b | n | s | a | o] |];
    try (intros Heq; injection Heq as <-; reflexivity);
    (destruct (validateOptionalMonthString _ fieldName) as [[m |] | e] eqn:Hm;
     cbn [bind]; [| | discriminate];
     apply validateOptionalMonthString_pattern in Hm;
     intros Heq; injection Heq as <-; try exact Hm; try discriminate Hm).
Qed.

Lemma chronology_ok (s : jsstring) (e : nullish jsstring) (c : bool) (u : unit) :
  validateExperienceChronology s e c = Ok u ->
  (c = true -> truthy_nullish e = false) /\ endsBefore e s = false.
Proof.
  unfold validateExperienceChronology.
  destruct (c && truthy_nullish e) eqn:Hc; [discriminate |].
  destruct (endsBefore e s) eqn:He; [discriminate |].
  intros _. split; [| reflexivity].
  intros ->. exact Hc.
Qed.



Lemma createExperienceData_summary (body : Json) (data : ExperienceCreateInput) :
  createExperienceData body = Ok data -> sanitized (c_summaryHtml data).
Proof.
  unfold createExperienceData. intros Hok.
  repeat step_bind. injection Hok as <-. cbn. eexists. reflexivity.
Qed.

(** What [createExperience] leaves in the store. *)
Lemma createExperience_store (newId : jsstring) (body : Json) (db : Db) :
  let r := createExperience newId body db in
  (store r = db /\ forall resp, result r <> inr resp)
  \/ exists data row,
       createExperienceData body = Ok data
       /\ experiences db !! newId = None
       /\ row = mkExperience newId (c_company data) (c_role data)
                  (toColumn (c_employmentType data)) (toColumn (c_location data))
                  (c_startMonth data) (c_endMonth data) (c_isCurrent data)
                  (c_summaryHtml data) (c_highlights data) (c_techTags data)
                  (c_links data) (c_sortOrder data)
       /\ result r = inr (mkResponse 201 row)
       /\ store r = mkDb (<[newId := row]> (experiences db)) (categories db) (blogs db).
Proof.
  unfold createExperience.
  destruct (createExperienceData body) as [data | e] eqn:Hdata;
    [| left; split; [reflexivity | discriminate]].
  unfold experience_create.
  destruct (experiences db !! newId) eqn:Hnew;
    [left; split; [reflexivity | discriminate] |].
  right. eexists data, _. repeat split; reflexivity.
Qed.

(** What [updateExperience] leaves in the store. *)
Lemma updateExperience_store (id : jsstring) (body : Json) (db : Db) :
  let r := updateExperience id body db in
  (store r = db /\ forall resp, result r <> inr resp)
  \/ exists existing data,
       experiences db !! id = Some existing
       /\ updateExperienceData body existing = Ok data
       /\ result r = inr (mkResponse 200 (applyUpdate existing data))
       /\ store r = mkDb (<[id := applyUpdate existing data]> (experiences db))
                      (categories db) (blogs db).
Proof.
  unfold updateExperience, experience_findUnique, experience_update.
  destruct (requireAtLeastOneField body experienceFields);
    [| left; split; [reflexivity | discriminate]].
  destruct (experiences db !! id) as [existing |] eqn:Hrow;
    [| left; split; [reflexivity | discriminate]].
  destruct (updateExperienceData body existing) as [data | e] eqn:Hdata;
    [| left; split; [reflexivity | discriminate]].
  right. exists existing, data.
  split; [reflexivity |]. split; [exact Hdata |]. split; reflexivity.
Qed.

(** What the validated members of an update are, for the months, the
    current flag and the summary. *)
Lemma updateExperienceData_months (body : Json) (existing : Experience)
  (data : ExperienceUpdateInput) :
  updateExperienceData body existing = Ok data ->
  let nextStart := default (startMonth existing) (u_startMonth data) in
  let nextCurrent := default (isCurrent existing) (u_isCurrent data) in
  exists endMonth : nullish jsstring,
    (forall s, u_startMonth data = Some s -> MONTH_PATTERN_test s = true)
    /\ match endMonth with
       | undefined => prop body "endMonth" = None
       | null => prop body "endMonth" = Some JNull
       | val m => prop body "endMonth" = Some (JString m)
                  /\ MONTH_PATTERN_test m = true
       end
    /\ u_endMonth data
       = (if isDefined (prop body "endMonth")
          then Some (nextEndMonthOf nextCurrent endMonth existing)
          else None)
    /\ endsBefore (ofColumn (nextEndMonthOf nextCurrent endMonth existing)) nextStart
       = false
    /\ (forall html, u_summaryHtml data = Some html -> sanitized html).
Proof.
  unfold updateExperienceData. intros Hok.
  repeat step_bind. injection Hok as <-. cbn.
  match goal with
  | Hs : validateOptionalMonthString _ (str "startMonth") = Ok ?s |- _ =>
      apply validateOptionalMonthString_pattern in Hs; rename Hs into Hstart
  end.
  match goal with
  | He : nullOr _ _ = Ok ?e, Hc : validateExperienceChronology _ _ _ = Ok _ |- _ =>
      apply endMonth_validated in He; apply chronology_ok in Hc;
      destruct Hc as [_ Hbefore]; exists e
  end.
  split.
  { intros s Hs. subst. destruct Hstart as [_ Hstart]. exact Hstart. }
  split; [assumption |]. split; [reflexivity |]. split; [exact Hbefore |].
  intros html Hhtml.
  match goal with
  | Hh : option_map _ ?o = Some html |- _ =>
      destruct o as [raw |]; [| discriminate Hh];
      injection Hh as <-; exists raw; reflexivity
  end.
Qed.

Lemma createExperienceData_current (body : Json) (data : ExperienceCreateInput) :
  createExperienceData body = Ok data ->
  c_isCurrent data = true ->
  prop body "endMonth" = None \/ prop body "endMonth" = Some JNull.
Proof.
  unfold createExperienceData. intros Hok.
  repeat step_bind. injection Hok as <-. cbn. intros Hcur.
  match goal with
  | He : nullOr _ _ = Ok ?e, Hc : validateExperienceChronology _ ?e _ = Ok _ |- _ =>
      apply endMonth_validated in He; apply chronology_ok in Hc;
      destruct Hc as [Hfalsy _]; specialize (Hfalsy Hcur);
      destruct e as [| | m]; [left; exact He | right; exact He |]
  end.
  match goal with
  | He : _ /\ MONTH_PATTERN_test m = true |- _ => destruct He as [_ Hm]
  end.
  cbn in Hfalsy. rewrite (month_truthy m Hm) in Hfalsy. discriminate Hfalsy.
Qed.

(** A member that is not in the body is not in the [data] of the update. *)
Lemma updateExperienceData_absent (body : Json) (existing : Experience)
  (data : ExperienceUpdateInput) :
  updateExperienceData body existing = Ok data ->
  (prop body "company" = None -> u_company data = None)
  /\ (prop body "role" = None -> u_role data = None)
  /\ (prop body "employmentType" = None -> u_employmentType data = None)
  /\ (prop body "location" = None -> u_location data = None)
  /\ (prop body "startMonth" = None -> u_startMonth data = None)
  /\ (prop body "isCurrent" = None -> u_isCurrent data = None)
  /\ (prop body "summaryHtml" = None -> u_summaryHtml data = None)
  /\ (prop body "highlights" = None -> u_highlights data = None)
  /\ (prop body "techTags" = None -> u_techTags data = None)
  /\ (prop body "links" = None -> u_links data = None)
  /\ (prop body "sortOrder" = None -> u_sortOrder data = None).
Proof.
  unfold updateExperienceData. intros Hok.
  repeat step_bind. injection Hok as <-. cbn.
  repeat split; intros Habsent;
    repeat match goal with
    | E : _ = Ok _ |- _ =>
        rewrite Habsent in E; cbn in E; try (injection E as <-)
    end;
    try rewrite Habsent; reflexivity.
Qed.


(** X15.  For a body with an [endMonth] member, an [updateExperience] that
    answers found the row, and the member is null or a month in YYYY-MM
    format.  It stores no end month when the resulting position is current (a
    month sent along is dropped; [createExperience] answers for a current
    position only if the member is null), the month of the body when the
    position is not current, and, for a null member on a position that is not
    current, the end month the row had: null does not clear it. *)
Theorem updateExperience_stored_end_month (id : jsstring) (body : Json) (db : Db)
  (resp : Response Experience) :
  result (updateExperience id body db) = inr resp ->
  prop body "endMonth" <> None ->
  exists existing,
    experiences db !! id = Some existing
    /\ (prop body "endMonth" = Some JNull
        \/ exists m, prop body "endMonth" = Some (JString m)
                     /\ MONTH_PATTERN_test m = true)
    /\ (isCurrent (Express.body resp) = true -> endMonth (Express.body resp) = None)
    /\ (isCurrent (Express.body resp) = false ->
        forall m, prop body "endMonth" = Some (JString m) ->
                  endMonth (Express.body resp) = Some m)
    /\ (isCurrent (Express.body resp) = false ->
        prop body "endMonth" = Some JNull ->
        endMonth (Express.body resp) = endMonth existing)
    /\ (forall newId created,
          result (createExperience newId body db) = inr created ->
          isCurrent (Express.body created) = true ->
          prop body "endMonth" = Some JNull).
Proof.
  intros Hres Hdefined.
  destruct (updateExperience_store id body db)
    as [[_ Hno] | [existing [data [Hrow [Hdata [Hresult _]]]]]].
  { exfalso. apply (Hno resp), Hres. }
  rewrite Hresult in Hres. injection Hres as <-. cbn [Express.body].
  exists existing. split; [exact Hrow |].
  destruct (updateExperienceData_months body existing data Hdata)
    as [endMonth [_ [He [Hu _]]]].
  destruct (prop body "endMonth") as [j |] eqn:Hbody; [| contradiction].
  cbn [isDefined] in Hu.
  unfold applyUpdate. cbn [isCurrent Store.endMonth]. rewrite Hu. cbn [default].
  unfold nextEndMonthOf.
  split.
  { destruct endMonth as [| | m]; [discriminate He | left; exact He |].
    right. exists m. exact He. }
  split; [intros ->; reflexivity |].
  split.
  { intros -> m Hm. destruct endMonth as [| | m'];
      [discriminate He | rewrite He in Hm; discriminate Hm |].
    destruct He as [He _]. rewrite He in Hm. injection Hm as ->. reflexivity. }
  split.
  { intros -> Hnull. destruct endMonth as [| | m'];
      [reflexivity | reflexivity |].
    destruct He as [He _]. rewrite He in Hnull. discriminate Hnull. }
  intros newId created Hcreated Hcur.
  destruct (createExperience_store newId body db)
    as [[_ Hno] | [cdata [row [Hcdata [_ [Hrow' [Hresult' _]]]]]]].
  { exfalso. apply (Hno created), Hcreated. }
  rewrite Hresult' in Hcreated. injection Hcreated as <-. subst row.
  cbn in Hcur.
  destruct (createExperienceData_current body cdata Hcdata Hcur) as [Hn | Hn];
    [rewrite Hbody in Hn; discriminate Hn | rewrite <- Hbody; exact Hn].
Qed.

(** X16.  A partial update changes only what it names.  An [updateExperience]
    that does not answer leaves the store as it was.  When it answers, the
    row of that id is replaced by the row answered, which keeps the id and,
    for each of company, role, employmentType, location, startMonth,
    isCurrent, summaryHtml, highlights, techTags, links and sortOrder, the
    old value when the body has no member of that name; every other
    experience, the categories and the blogs are as before. *)
Theorem updateExperience_touches_named_fields_only (id : jsstring) (body : Json)
  (db : Db) :
  let r := updateExperience id body db in
  ((forall resp, result r <> inr resp) -> store r = db)
  /\ (forall resp,
        result r = inr resp ->
        exists existing,
          experiences db !! id = Some existing
          /\ experiences (store r) !! id = Some (Express.body resp)
          /\ exp_id (Express.body resp) = exp_id existing
          /\ (prop body "company" = None ->
              company (Express.body resp) = company existing)
          /\ (prop body "role" = None -> role (Express.body resp) = role existing)
          /\ (prop body "employmentType" = None ->
              employmentType (Express.body resp) = employmentType existing)
          /\ (prop body "location" = None ->
              Store.location (Express.body resp) = Store.location existing)
          /\ (prop body "startMonth" = None ->
              startMonth (Express.body resp) = startMonth existing)
          /\ (prop body "isCurrent" = None ->
              isCurrent (Express.body resp) = isCurrent existing)
          /\ (prop body "summaryHtml" = None ->
              summaryHtml (Express.body resp) = summaryHtml existing)
          /\ (prop body "highlights" = None ->
              highlights (Express.body resp) = highlights existing)
          /\ (prop body "techTags" = None ->
              techTags (Express.body resp) = techTags existing)
          /\ (prop body "links" = None -> links (Express.body resp) = links existing)
          /\ (prop body "sortOrder" = None ->
              sortOrder (Express.body resp) = sortOrder existing)
          /\ (forall other, other <> id ->
                experiences (store r) !! other = experiences db !! other)
          /\ categories (store r) = categories db
          /\ blogs (store r) = blogs db).
Proof.
  intros r. subst r.
  destruct (updateExperience_store id body db)
    as [[Hstore Hno] | [existing [data [Hrow [Hdata [Hresult Hstore]]]]]].
  { split; [intros _; exact Hstore |].
    intros resp Hres. exfalso. apply (Hno resp), Hres. }
  split; [intros Hno; exfalso; apply (Hno _ Hresult) |].
  intros resp Hres. rewrite Hresult in Hres. injection Hres as <-.
  cbn [Express.body]. exists existing. rewrite Hstore. cbn.
  destruct (updateExperienceData_absent body existing data Hdata)
    as [H1 [H2 [H3 [H4 [H5 [H6 [H7 [H8 [H9 [H10 H11]]]]]]]]]].
  split; [exact Hrow |]. split; [apply lookup_insert_eq |].
  split; [reflexivity |].
  split; [intros Ha; rewrite (H1 Ha); reflexivity |].
  split; [intros Ha; rewrite (H2 Ha); reflexivity |].
  split; [intros Ha; rewrite (H3 Ha); reflexivity |].
  split; [intros Ha; rewrite (H4 Ha); reflexivity |].
  split; [intros Ha; rewrite (H5 Ha); reflexivity |].
  split; [intros Ha; rewrite (H6 Ha); reflexivity |].
  split; [intros Ha; rewrite (H7 Ha); reflexivity |].
  split; [intros Ha; rewrite (H8 Ha); reflexivity |].
  split; [intros Ha; rewrite (H9 Ha); reflexivity |].
  split; [intros Ha; rewrite (H10 Ha); reflexivity |].
  split; [intros Ha; rewrite (H11 Ha); reflexivity |].
  split; [| split; reflexivity].
  intros other Hne. apply lookup_insert_ne. congruence.
Qed.

End ExperienceRows.



Lemma updateExperience_stored_end_month_witness :
  let body :=
    JObject [(str "isCurrent", JBool true);
             (str "endMonth", JString (str "2024-01"))] in
  exists resp,
    result (updateExperience (H := refHost) (str "exp-1") body refDb) = inr resp
    /\ isCurrent (Express.body resp) = true
    /\ endMonth (Express.body resp) = None.
Proof.
  intros body. eexists. split; [vm_compute; reflexivity |].
  split; [reflexivity |].
  match goal with
  | |- endMonth (Express.body ?resp) = None =>
      destruct (updateExperience_stored_end_month (H := refHost) (str "exp-1")
                  body refDb resp)
        as [existing [_ [_ [Hcurrent _]]]]
  end.
  - vm_compute. reflexivity.
  - vm_compute. discriminate.
  - apply Hcurrent. reflexivity.
Defined.

Lemma updateExperience_touches_named_fields_only_witness :
  let body := JObject [(str "role", JString (str " Lead "))] in
  exists resp,
    result (updateExperience (H := refHost) (str "exp-1") body refDb) = inr resp
    /\ role (Express.body resp) = str "Lead"
    /\ company (Express.body resp) = str "Acme"
    /\ startMonth (Express.body resp) = str "2023-01".
Proof.
  intros body. eexists. split; [vm_compute; reflexivity |].
  split; [reflexivity |].
  match goal with
  | |- company (Express.body ?resp) = _ /\ _ =>
      destruct (updateExperience_touches_named_fields_only (H := refHost)
                  (str "exp-1") body refDb) as [_ Hframe];
      destruct (Hframe resp)
        as [existing [Hold [_ [_ [Hcompany [_ [_ [_ [Hstart _]]]]]]]]]
  end.
  - vm_compute. reflexivity.
  - unfold refDb in Hold. cbn [experiences] in Hold.
    apply lookup_singleton_Some in Hold as [_ <-].
    split; [apply Hcompany | apply Hstart]; reflexivity.
Defined.

(** ** Projects: what is stored *)

Section ProjectRows.
Context `{Host}.
Local Open Scope N_scope.

Lemma boundedText_required (value : unknown) (fieldName : jsstring) (n : N)
  (r : jsstring) :
  validateRequiredStringWithMaxLength value fieldName n = Ok r -> boundedText n r.
Proof.
  intros Hok. apply validateRequiredStringWithMaxLength_ok in Hok.
  destruct Hok as [s [_ [-> [Hne Hlen]]]].
  split; [exact Hne |]. split; [exact Hlen | apply trim_trimmed].
Qed.

Lemma boundedText_optional (value : unknown) (fieldName : jsstring) (n : N)
  (r : nullish jsstring) :
  nullOr value (fun v => validateOptionalStringWithMaxLength v fieldName n) = Ok r ->
  forall c, toColumn r = Some c -> boundedText n c.
Proof.
  unfold nullOr. intros Hok c Hc.
  assert (Hval : validateOptionalStringWithMaxLength value fieldName n = Ok (Some c)).
  { destruct value as [[| b | k | s | a | o] |];
      try (injection Hok as <-; discriminate Hc);
      (destruct (validateOptionalStringWithMaxLength _ fieldName n)
         as [[v |] | e]; cbn [bind] in Hok; try discriminate Hok;
       injection Hok as <-; cbn in Hc; try discriminate Hc;
       injection Hc as <-; reflexivity). }
  apply validateOptionalStringWithMaxLength_ok in Hval.
  destruct Hval as [s [_ [-> [Hne Hlen]]]].
  split; [exact Hne |]. split; [exact Hlen | apply trim_trimmed].
Qed.

Lemma validateTags_ok (value : unknown) (fieldName : jsstring)
  (tags : list jsstring) :
  validateTags value fieldName = Ok tags ->
  Forall (boundedText 40) tags /\ NoDup (List.map toLowerCase tags).
Proof.
  intros Hok.
  destruct value as [[| b | n | s | entries | o] |]; try discriminate Hok.
  unfold validateTags in Hok.
  destruct (dedupeEntries_spec 40 fieldName entries) as [Hiff Hgood].
  assert (Hno : ~ Exists (badEntry 40) entries).
  { intros Hex. apply Hiff in Hex. destruct Hex as [msg Hmsg].
    rewrite Hmsg in Hok. discriminate Hok. }
  rewrite (Hgood Hno) in Hok. injection Hok as <-.
  split; [| apply firstSeen_NoDup].
  apply Forall_Exists_neg in Hno.
  assert (Hall : Forall (boundedText 40) (List.map trimmedEntry entries)).
  { apply List.Forall_map. eapply List.Forall_impl; [| exact Hno].
    intros entry Hentry.
    destruct entry as [| b | n | s | a | o]; cbn [badEntry] in Hentry;
      try (exfalso; apply Hentry; exact I).
    cbn [trimmedEntry].
    split; [intros Hnil; apply Hentry; left; exact Hnil |].
    split; [apply N.le_ngt; intros Hlt; apply Hentry; right; exact Hlt |].
    apply trim_trimmed. }
  apply Forall_forall. intros t Ht.
  rewrite Forall_forall in Hall. apply Hall.
  eapply elem_of_sublist; [exact Ht | apply firstSeen_sublist].
Qed.

Lemma stringsOf_urls (entries : list Json) :
  Forall (fun e => isHttpUrl (Some e)) entries ->
  Forall (fun u => isHttpUrl (Some (JString u))) (stringsOf entries)
  /\ List.map JString (stringsOf entries) = entries.
Proof.
  unfold stringsOf.
  induction 1 as [| e entries He _ [IH1 IH2]]; [split; [constructor | reflexivity] |].
  destruct He as [s [u [Hs Hu]]]. injection Hs as ->.
  cbn. split; [constructor; [exists s, u; split; [reflexivity | exact Hu] | exact IH1] |].
  f_equal. exact IH2.
Qed.

Lemma validateImageLinks_ok_urls (value : unknown) (fieldName : jsstring)
  (images : list Json) :
  validateImageLinks value fieldName = Ok images ->
  Forall (fun u => isHttpUrl (Some (JString u))) (stringsOf images)
  /\ value = Some (JArray (List.map JString (stringsOf images))).
Proof.
  intros Hok.
  destruct value as [[| b | n | s | entries | o] |]; try discriminate Hok.
  assert (Heq : images = entries).
  { unfold validateImageLinks in Hok.
    destruct (List.find isInvalidImageLink entries); [discriminate Hok |].
    injection Hok as <-. reflexivity. }
  subst images.
  destruct (validateImageLinks_spec entries fieldName) as [[Hall _] _].
  destruct (stringsOf_urls entries (Hall Hok)) as [Hurls Hmap].
  split; [exact Hurls |]. rewrite Hmap. reflexivity.
Qed.

Lemma validateRequiredYear_ok (value : unknown) (fieldName : jsstring) (y : number) :
  wellFormed (Number_ value) ->
  validateRequiredYear value fieldName = Ok y ->
  exists z, (1900 <= z <= 2100)%Z /\ y = ofZ z.
Proof.
  intros Hwf. unfold validateRequiredYear. cbv zeta.
  destruct (isValidYear (Number_ value)) eqn:Hvalid; [| discriminate].
  intros Heq. injection Heq as <-.
  apply (isValidYear_canonical _ Hwf), Hvalid.
Qed.

Lemma optional_value {A} (value : unknown) (m : throws A) (r : option A) (a : A) :
  match value with
  | None => Ok None
  | Some _ => let* x := m in Ok (Some x)
  end = Ok r ->
  r = Some a -> m = Ok a.
Proof.
  destruct value; [| intros Heq; injection Heq as <-; discriminate].
  destruct m as [x | e]; cbn [bind]; [| discriminate].
  intros Heq. injection Heq as <-. intros Hx. injection Hx as ->. reflexivity.
Qed.

Lemma definedNullish_column {A} (v : nullish A) (c : A) :
  definedNullish v = Some (Some c) -> toColumn v = Some c.
Proof. destruct v; cbn; congruence. Qed.

Lemma createProjectData_valid (body : Json) (data : ProjectCreateInput) :
  wellFormed (Number_ (prop body "year")) ->
  createProjectData body = Ok data ->
  boundedText 160 (pc_title data)
  /\ (exists y, (1900 <= y <= 2100)%Z /\ pc_year data = ofZ y)
  /\ Forall (boundedText 40) (pc_tags data)
  /\ NoDup (List.map toLowerCase (pc_tags data))
  /\ (forall c, toColumn (pc_client data) = Some c -> boundedText 120 c)
  /\ (forall d, toColumn (pc_duration data) = Some d -> boundedText 120 d)
  /\ Forall (fun l => boundedText 40 (label l)) (pc_links data)
  /\ NoDup (List.map linkKey (pc_links data))
  /\ Forall (fun u => isHttpUrl (Some (JString u))) (pc_images data).
Proof.
  intros Hwf. unfold createProjectData. intros Hok.
  repeat step_bind. injection Hok as <-. cbn.
  match goal with
  | E : validateRequiredStringWithMaxLength _ _ _ = Ok _ |- _ =>
      pose proof (boundedText_required _ _ _ _ E) as Htitle
  end.
  match goal with
  | E : validateRequiredYear _ _ = Ok _ |- _ =>
      pose proof (validateRequiredYear_ok _ _ _ Hwf E) as Hyear
  end.
  match goal with
  | E : validateRequiredTags _ _ = Ok _ |- _ =>
      destruct (validateTags_ok _ _ _ E) as [Htags Hnodup]
  end.
  match goal with
  | E : nullOr _ (fun v => validateOptionalStringWithMaxLength v (str "client") _)
        = Ok _ |- _ => pose proof (boundedText_optional _ _ _ _ E) as Hclient
  end.
  match goal with
  | E : nullOr _ (fun v => validateOptionalStringWithMaxLength v (str "duration") _)
        = Ok _ |- _ => pose proof (boundedText_optional _ _ _ _ E) as Hduration
  end.
  match goal with
  | E : validateImageLinks _ _ = Ok _ |- _ =>
      destruct (validateImageLinks_ok_urls _ _ _ E) as [Himages _]
  end.
  split; [exact Htitle |]. split; [exact Hyear |]. split; [exact Htags |].
  split; [exact Hnodup |]. split; [exact Hclient |]. split; [exact Hduration |].
  match goal with
  | E : match prop body "links" with _ => _ end = Ok ?l |- _ =>
      destruct (prop body "links");
      [apply validateExternalLinks_ok in E;
       destruct E as [items [_ [_ [Hlk Hall]]]]
      | injection E as <-]
  end.
  - split; [| split; [exact Hlk | exact Himages]].
    eapply List.Forall_impl; [| exact Hall]. intros lk [Hlab _]. exact Hlab.
  - split; [constructor | split; [constructor | exact Himages]].
Qed.

Lemma createProjectData_sanitized (body : Json) (data : ProjectCreateInput) :
  createProjectData body = Ok data ->
  sanitized (pc_description data) /\ sanitized (pc_overviewHtml data)
  /\ sanitized (pc_challengeHtml data) /\ sanitized (pc_solutionHtml data).
Proof.
  unfold createProjectData. intros Hok.
  repeat step_bind. injection Hok as <-. cbn.
  repeat split; eexists; reflexivity.
Qed.

Lemma updateProjectData_valid (body : Json) (data : ProjectUpdateInput) :
  wellFormed (Number_ (prop body "year")) ->
  updateProjectData body = Ok data ->
  (forall t, pu_title data = Some t -> boundedText 160 t)
  /\ (forall y, pu_year data = Some y ->
        exists z, (1900 <= z <= 2100)%Z /\ y = ofZ z)
  /\ (forall tags, pu_tags data = Some tags ->
        Forall (boundedText 40) tags /\ NoDup (List.map toLowerCase tags))
  /\ (forall c, pu_client data = Some (Some c) -> boundedText 120 c)
  /\ (forall d, pu_duration data = Some (Some d) -> boundedText 120 d)
  /\ (forall links, pu_links data = Some links ->
        Forall (fun l => boundedText 40 (label l)) links
        /\ NoDup (List.map linkKey links))
  /\ (forall images, pu_images data = Some images ->
        Forall (fun u => isHttpUrl (Some (JString u))) images).
Proof.
  intros Hwf. unfold updateProjectData. intros Hok.
  repeat step_bind. injection Hok as <-. cbn.
  repeat match goal with |- _ /\ _ => split end.
  - intros t Ht. subst.
    match goal with
    | E : validateOptionalStringWithMaxLength _ (str "title") _ = Ok _ |- _ =>
        apply validateOptionalStringWithMaxLength_ok in E;
        destruct E as [s [_ [-> [Hne Hlen]]]]
    end.
    split; [exact Hne |]. split; [exact Hlen | apply trim_trimmed].
  - intros y Hy.
    match goal with
    | E : validateOptionalYear _ _ = Ok _ |- _ =>
        apply (optional_value _ _ _ y) in E; [| exact Hy];
        apply (validateRequiredYear_ok _ _ _ Hwf) in E; exact E
    end.
  - intros tags Ht.
    match goal with
    | E : validateOptionalTags _ _ = Ok _ |- _ =>
        apply (optional_value _ _ _ tags) in E; [| exact Ht];
        apply validateTags_ok in E; exact E
    end.
  - intros c Hc. apply definedNullish_column in Hc.
    match goal with
    | E : nullOr _ (fun v => validateOptionalStringWithMaxLength v (str "client") _)
          = Ok _ |- _ => apply (boundedText_optional _ _ _ _ E c Hc)
    end.
  - intros d Hd. apply definedNullish_column in Hd.
    match goal with
    | E : nullOr _ (fun v => validateOptionalStringWithMaxLength v (str "duration") _)
          = Ok _ |- _ => apply (boundedText_optional _ _ _ _ E d Hd)
    end.
  - intros links Hl.
    match goal with
    | E : validateOptionalExternalLinks _ _ = Ok _ |- _ =>
        apply (optional_value _ _ _ links) in E; [| exact Hl];
        apply validateExternalLinks_ok in E;
        destruct E as [items [_ [_ [Hnodup Hall]]]]
    end.
    split; [| exact Hnodup].
    eapply List.Forall_impl; [| exact Hall]. intros lk [Hlab _]. exact Hlab.
  - intros images Hi.
    match goal with
    | E : validateOptionalImageLinks _ _ = Ok ?o |- _ =>
        destruct o as [entries |]; [| discriminate Hi];
        apply (optional_value _ _ _ entries) in E; [| reflexivity];
        apply validateImageLinks_ok_urls in E; destruct E as [E _]
    end.
    cbn in Hi. injection Hi as <-. assumption.
Qed.

Lemma updateProjectData_sanitized (body : Json) (data : ProjectUpdateInput) :
  updateProjectData body = Ok data ->
  (forall h, pu_description data = Some h -> sanitized h)
  /\ (forall h, pu_overviewHtml data = Some h -> sanitized h)
  /\ (forall h, pu_challengeHtml data = Some h -> sanitized h)
  /\ (forall h, pu_solutionHtml data = Some h -> sanitized h).
Proof.
  unfold updateProjectData. intros Hok.
  repeat step_bind. injection Hok as <-. cbn.
  repeat split; intros h Hh;
    match goal with
    | Hh : option_map _ ?o = Some h |- _ =>
        destruct o as [raw |]; [| discriminate Hh];
        injection Hh as <-; exists raw; reflexivity
    end.
Qed.

(** What [createProject] and [updateProject] leave in the store. *)
Lemma createProject_store (newId : jsstring) (body : Json) (projects : Projects) :
  let r := createProject newId body projects in
  (final r = projects /\ forall resp, answer r <> inr resp)
  \/ exists data row,
       createProjectData body = Ok data
       /\ projects !! newId = None
       /\ row = mkProject newId (pc_title data) (pc_description data) (pc_year data)
                  (pc_tags data) (toColumn (pc_client data))
                  (toColumn (pc_duration data)) (pc_overviewHtml data)
                  (pc_challengeHtml data) (pc_solutionHtml data) (pc_links data)
                  (pc_images data)
       /\ answer r = inr (mkResponse 201 row)
       /\ final r = <[newId := row]> projects.
Proof.
  unfold createProject.
  destruct (createProjectData body) as [data | e] eqn:Hdata;
    [| left; split; [reflexivity | discriminate]].
  unfold project_create.
  destruct (projects !! newId) eqn:Hnew;
    [left; split; [reflexivity | discriminate] |].
  right. eexists data, _. repeat split; reflexivity.
Qed.

Lemma updateProject_store (id : jsstring) (body : Json) (projects : Projects) :
  let r := updateProject id body projects in
  (final r = projects /\ forall resp, answer r <> inr resp)
  \/ exists existing data,
       projects !! id = Some existing
       /\ updateProjectData body = Ok data
       /\ answer r = inr (mkResponse 200 (applyProjectUpdate existing data))
       /\ final r = <[id := applyProjectUpdate existing data]> projects.
Proof.
  unfold updateProject, project_update.
  destruct (updateProjectData body) as [data | e] eqn:Hdata;
    [| left; split; [reflexivity | discriminate]].
  destruct (projects !! id) as [existing |] eqn:Hrow;
    [| left; split; [reflexivity | discriminate]].
  right. exists existing, data.
  split; [reflexivity |]. split; [reflexivity |]. split; reflexivity.
Qed.

Lemma everyProject_insert (P : Project -> Prop) (projects : Projects)
  (id : jsstring) (row : Project) :
  everyProject P projects -> P row -> everyProject P (<[id := row]> projects).
Proof.
  intros Hall Hrow id' r. rewrite lookup_insert.
  case_decide; [| apply Hall].
  intros Heq. injection Heq as <-. exact Hrow.
Qed.

Lemma everyProject_delete (P : Project -> Prop) (projects : Projects)
  (id : jsstring) :
  everyProject P projects -> everyProject P (delete id projects).
Proof.
  intros Hall id' r. rewrite lookup_delete.
  case_decide; [discriminate | apply Hall].
Qed.

Lemma deleteProject_store (id : jsstring) (projects : Projects) :
  final (deleteProject id projects) = projects
  \/ final (deleteProject id projects) = delete id projects.
Proof.
  unfold deleteProject, project_delete.
  destruct (projects !! id); [right | left]; reflexivity.
Qed.

(** X17.  For a body whose year converts to a well-formed binary64, the project
    [createProject] answers with satisfies the constraints on its fields: a
    trimmed title of 1 to 160 code units, a year that is an integer from
    1900 to 2100, tags that are trimmed texts of 1 to 40 code units and
    pairwise distinct ignoring case, a client and a duration that, when
    present, are trimmed texts of 1 to 120 code units, links with trimmed
    labels of 1 to 40 code units and urls pairwise distinct ignoring case,
    and images that are http(s) URLs.  If every stored project satisfies
    them, so does every stored project after [createProject],
    [updateProject] and [deleteProject]. *)
Theorem stored_projects_satisfy_field_constraints (body : Json)
  (projects : Projects) :
  wellFormed (Number_ (prop body "year")) ->
  (forall newId resp,
     answer (createProject newId body projects) = inr resp ->
     projectValid (Express.body resp))
  /\ (everyProject projectValid projects ->
      (forall newId,
         everyProject projectValid (final (createProject newId body projects)))
      /\ (forall id,
            everyProject projectValid (final (updateProject id body projects)))
      /\ (forall id,
            everyProject projectValid (final (deleteProject id projects)))).
Proof.
  intros Hwf.
  assert (Hcreate : forall data newId,
            createProjectData body = Ok data ->
            projectValid
              (mkProject newId (pc_title data) (pc_description data) (pc_year data)
                 (pc_tags data) (toColumn (pc_client data))
                 (toColumn (pc_duration data)) (pc_overviewHtml data)
                 (pc_challengeHtml data) (pc_solutionHtml data) (pc_links data)
                 (pc_images data))).
  { intros data newId Hdata.
    exact (createProjectData_valid body data Hwf Hdata). }
  split.
  { intros newId resp Hres.
    destruct (createProject_store newId body projects)
      as [[_ Hno] | [data [row [Hdata [_ [Hrow [Hanswer _]]]]]]].
    - exfalso. apply (Hno resp), Hres.
    - rewrite Hanswer in Hres. injection Hres as <-. cbn. subst row.
      apply Hcreate, Hdata. }
  intros Hinv. split; [| split].
  - intros newId.
    destruct (createProject_store newId body projects)
      as [[-> _] | [data [row [Hdata [_ [Hrow [_ ->]]]]]]]; [exact Hinv |].
    apply everyProject_insert; [exact Hinv |]. subst row. apply Hcreate, Hdata.
  - intros id.
    destruct (updateProject_store id body projects)
      as [[-> _] | [existing [data [Hrow [Hdata [_ ->]]]]]]; [exact Hinv |].
    apply everyProject_insert; [exact Hinv |].
    destruct (Hinv id existing Hrow)
      as [Ht [Hy [Htags [Hnodup [Hc [Hd [Hl [Hlk Hi]]]]]]]].
    destruct (updateProjectData_valid body data Hwf Hdata)
      as [Ut [Uy [Utags [Uc [Ud [Ul Ui]]]]]].
    unfold projectValid, applyProjectUpdate. cbn.
    split; [destruct (pu_title data); [apply Ut; reflexivity | exact Ht] |].
    split; [destruct (pu_year data); [apply Uy; reflexivity | exact Hy] |].
    split; [destruct (pu_tags data) as [tags |];
            [apply (Utags tags eq_refl) | exact Htags] |].
    split; [destruct (pu_tags data) as [tags |];
            [apply (Utags tags eq_refl) | exact Hnodup] |].
    split.
    { destruct (pu_client data) as [[c |] |]; cbn; [| discriminate | exact Hc].
      intros c' Heq. injection Heq as <-. apply Uc. reflexivity. }
    split.
    { destruct (pu_duration data) as [[d |] |]; cbn; [| discriminate | exact Hd].
      intros d' Heq. injection Heq as <-. apply Ud. reflexivity. }
    split; [destruct (pu_links data) as [links |];
            [apply (Ul links eq_refl) | exact Hl] |].
    split; [destruct (pu_links data) as [links |];
            [apply (Ul links eq_refl) | exact Hlk] |].
    destruct (pu_images data) as [images |]; [apply (Ui images eq_refl) | exact Hi].
  - intros id. destruct (deleteProject_store id projects) as [-> | ->];
      [exact Hinv | apply everyProject_delete, Hinv].
Qed.

End ProjectRows.

Lemma stored_projects_satisfy_field_constraints_witness :
  exists resp,
    answer (createProject (H := refHost) (str "p1") refProjectBody ∅) = inr resp
    /\ projectValid (H := refHost) (Express.body resp)
    /\ proj_title (Express.body resp) = str "Portfolio"
    /\ proj_tags (Express.body resp) = [str "Swift"].
Proof.
  eexists. split; [vm_compute; reflexivity |].
  split; [| split; reflexivity].
  destruct (stored_projects_satisfy_field_constraints (H := refHost)
              refProjectBody ∅) as [Hcreated _].
  - vm_compute. reflexivity.
  - apply (Hcreated (str "p1")). vm_compute. reflexivity.
Defined.

(** ** Sanitized HTML *)

Section SanitizedHtml.
Context `{Host}.
Local Open Scope N_scope.

(** X18.  Rich text reaches the store only through the sanitizer.  If the
    summary of every stored experience is an output of [sanitizeRichHtml],
    it still is after [createExperience] and [updateExperience]; if the
    description, overview, challenge and solution of every stored project
    are, they still are after [createProject] and [updateProject]; for any
    body. *)
Theorem stored_html_is_sanitized (body : Json) :
  (forall db,
     everyExperience (fun row => sanitized (summaryHtml row)) db ->
     (forall newId,
        everyExperience (fun row => sanitized (summaryHtml row))
          (store (createExperience newId body db)))
     /\ (forall id,
           everyExperience (fun row => sanitized (summaryHtml row))
             (store (updateExperience id body db))))
  /\ (forall projects,
        everyProject sanitizedProject projects ->
        (forall newId,
           everyProject sanitizedProject (final (createProject newId body projects)))
        /\ (forall id,
              everyProject sanitizedProject (final (updateProject id body projects)))).
Proof.
  split.
  - intros db Hinv. split.
    + intros newId.
      destruct (createExperience_store newId body db)
        as [[-> _] | [data [row [Hdata [_ [Hrow [_ ->]]]]]]]; [exact Hinv |].
      intros id r. cbn. rewrite lookup_insert.
      case_decide; [| apply Hinv].
      intros Heq. injection Heq as <-. subst row. cbn.
      apply (createExperienceData_summary body data Hdata).
    + intros id.
      destruct (updateExperience_store id body db)
        as [[-> _] | [existing [data [Hrow [Hdata [_ ->]]]]]]; [exact Hinv |].
      intros id' r. cbn. rewrite lookup_insert.
      case_decide; [| apply Hinv].
      intros Heq. injection Heq as <-. cbn.
      destruct (updateExperienceData_months body existing data Hdata)
        as [_ [_ [_ [_ [_ Hsummary]]]]].
      destruct (u_summaryHtml data) as [html |];
        [apply Hsummary; reflexivity | apply (Hinv id existing Hrow)].
  - intros projects Hinv. split.
    + intros newId.
      destruct (createProject_store newId body projects)
        as [[-> _] | [data [row [Hdata [_ [Hrow [_ ->]]]]]]]; [exact Hinv |].
      apply everyProject_insert; [exact Hinv |]. subst row.
      exact (createProjectData_sanitized body data Hdata).
    + intros id.
      destruct (updateProject_store id body projects)
        as [[-> _] | [existing [data [Hrow [Hdata [_ ->]]]]]]; [exact Hinv |].
      apply everyProject_insert; [exact Hinv |].
      destruct (Hinv id existing Hrow) as [Hd [Ho [Hc Hs]]].
      destruct (updateProjectData_sanitized body data Hdata) as [Ud [Uo [Uc Us]]].
      unfold sanitizedProject, applyProjectUpdate. cbn.
      split; [destruct (pu_description data); [apply Ud; reflexivity | exact Hd] |].
      split; [destruct (pu_overviewHtml data); [apply Uo; reflexivity | exact Ho] |].
      split; [destruct (pu_challengeHtml data); [apply Uc; reflexivity | exact Hc] |].
      destruct (pu_solutionHtml data); [apply Us; reflexivity | exact Hs].
Qed.

End SanitizedHtml.

(** ** Create, read, delete *)

Section RoundTrips.
Context `{Host}.
Local Open Scope N_scope.

(** X19.  A project that [createProject] answers 201 with has the identifier the
    store chose, which was free.  [getProjectById] on that identifier then
    answers 200 with the same project, and answers as before on every other
    identifier; [deleteProject] on it answers 204 and gives back the store
    as it was before the creation, after which [getProjectById] answers 404
    NOT_FOUND. *)
Theorem project_create_get_delete (env : Env) (newId : jsstring) (body : Json)
  (projects : Projects) (resp : Response Project) :
  answer (createProject newId body projects) = inr resp ->
  let after := final (createProject newId body projects) in
  status resp = 201%Z
  /\ proj_id (Express.body resp) = newId
  /\ projects !! newId = None
  /\ answer (getProjectById newId after) = inr (mkResponse 200 (Express.body resp))
  /\ (forall other, other <> newId ->
        answer (getProjectById other after) = answer (getProjectById other projects))
  /\ finish env (answer (deleteProject newId after)) = (204%Z, None)
  /\ final (deleteProject newId after) = projects
  /\ finish env (answer (getProjectById newId (final (deleteProject newId after))))
     = (404%Z, Some (str "NOT_FOUND")).
Proof.
  intros Hres after. subst after.
  destruct (createProject_store newId body projects)
    as [[_ Hno] | [data [row [Hdata [Hfresh [Hrow [Hanswer Hfinal]]]]]]].
  { exfalso. apply (Hno resp), Hres. }
  rewrite Hanswer in Hres. injection Hres as <-. rewrite Hfinal.
  cbn [status Express.body].
  assert (Hdel : final (deleteProject newId (<[newId := row]> projects)) = projects).
  { unfold deleteProject, project_delete. rewrite lookup_insert_eq. cbn.
    rewrite delete_insert_eq. apply delete_id, Hfresh. }
  split; [reflexivity |]. split; [subst row; reflexivity |].
  split; [exact Hfresh |].
  split; [unfold getProjectById; rewrite lookup_insert_eq; reflexivity |].
  split.
  { intros other Hne. unfold getProjectById.
    rewrite lookup_insert_ne by congruence.
    destruct (projects !! other); reflexivity. }
  split.
  { unfold deleteProject, project_delete. rewrite lookup_insert_eq. reflexivity. }
  split; [exact Hdel |].
  rewrite Hdel. unfold getProjectById. rewrite Hfresh. reflexivity.
Qed.

End RoundTrips.

Lemma stored_html_is_sanitized_witness :
  everyProject (sanitizedProject (H := refHost))
    (final (createProject (H := refHost) (str "p1") refProjectBody ∅)).
Proof.
  destruct (stored_html_is_sanitized (H := refHost) refProjectBody)
    as [_ Hprojects].
  destruct (Hprojects ∅) as [Hcreate _].
  - intros id row Hrow. rewrite lookup_empty in Hrow. discriminate Hrow.
  - apply Hcreate.
Defined.

Lemma project_create_get_delete_witness :
  let after := final (createProject (H := refHost) (str "p1") refProjectBody ∅) in
  finish refEnv (answer (getProjectById (str "p1") after)) = (200%Z, None)
  /\ final (deleteProject (str "p1") after) = ∅
  /\ finish refEnv
       (answer (getProjectById (str "p1") (final (deleteProject (str "p1") after))))
     = (404%Z, Some (str "NOT_FOUND")).
Proof.
  intros after.
  assert (Hrun : exists resp,
            answer (createProject (H := refHost) (str "p1") refProjectBody ∅)
            = inr resp) by (eexists; vm_compute; reflexivity).
  destruct Hrun as [resp Hrun].
  pose proof (project_create_get_delete (H := refHost) refEnv (str "p1")
                refProjectBody ∅ resp Hrun) as Hround.
  cbv zeta in Hround.
  destruct Hround as [_ [_ [_ [Hget [_ [_ [Hdelete Hgone]]]]]]].
  subst after.
  split; [rewrite Hget; reflexivity |].
  split; [exact Hdelete | exact Hgone].
Defined.

(** ** Categories and blogs *)

Section Categories.
Local Open Scope N_scope.

Lemma nameTaken_iff (name : jsstring) (id : option jsstring) (db : Db) :
  nameTaken name id db = true
  <-> exists k c, categories db !! k = Some c /\ cat_name c = name /\ Some k <> id.
Proof.
  unfold nameTaken. rewrite bool_decide_eq_true. unfold map_Exists. reflexivity.
Qed.

(** What [createCategory] does once the body passed validation. *)
Lemma createCategory_validated (newId : jsstring) (body : Json) (db : Db)
  (name : jsstring) (description : option jsstring) :
  validateRequiredString (prop body "name") (str "name") = Ok name ->
  validateOptionalString (prop body "description") (str "description")
  = Ok description ->
  createCategory newId body db
  = match category_create newId name description db with
    | inl err => mkRan (inl err) db [(CategoryModel, Create)]
    | inr (category, db') =>
        mkRan (inr (mkResponse 201 category)) db' [(CategoryModel, Create)]
    end.
Proof.
  intros Hname Hdesc. unfold createCategory. rewrite Hname, Hdesc. reflexivity.
Qed.

Lemma createCategory_store (newId : jsstring) (body : Json) (db : Db) :
  let r := createCategory newId body db in
  (final r = db /\ forall resp, answer r <> inr resp)
  \/ exists name description,
       validateRequiredString (prop body "name") (str "name") = Ok name
       /\ validateOptionalString (prop body "description") (str "description")
          = Ok description
       /\ categories db !! newId = None
       /\ nameTaken name None db = false
       /\ answer r = inr (mkResponse 201 (mkCategory newId name description))
       /\ final r = mkDb (experiences db)
                      (<[newId := mkCategory newId name description]> (categories db))
                      (blogs db).
Proof.
  unfold createCategory.
  destruct (validateRequiredString (prop body "name") (str "name"))
    as [name | e]; cbn [bind]; [| left; split; [reflexivity | discriminate]].
  destruct (validateOptionalString (prop body "description") (str "description"))
    as [description | e]; cbn [bind]; [| left; split; [reflexivity | discriminate]].
  unfold category_create.
  destruct (categories db !! newId) eqn:Hnew;
    [left; split; [reflexivity | discriminate] |].
  destruct (nameTaken name None db) eqn:Htaken;
    [left; split; [reflexivity | discriminate] |].
  right. exists name, description.
  split; [reflexivity |]. split; [reflexivity |]. split; [reflexivity |].
  split; [exact Htaken |]. split; reflexivity.
Qed.

Lemma updateCategory_store (id : jsstring) (body : Json) (db : Db) :
  let r := updateCategory id body db in
  (final r = db /\ forall resp, answer r <> inr resp)
  \/ exists existing name description,
       updateCategoryData body = Ok (name, description)
       /\ categories db !! id = Some existing
       /\ (forall n, name = Some n -> nameTaken n (Some id) db = false)
       /\ answer r
          = inr (mkResponse 200
                   (mkCategory (cat_id existing) (default (cat_name existing) name)
                      (default (cat_description existing) description)))
       /\ final r
          = mkDb (experiences db)
              (<[id := mkCategory (cat_id existing) (default (cat_name existing) name)
                         (default (cat_description existing) description)]>
                 (categories db))
              (blogs db).
Proof.
  unfold updateCategory.
  destruct (updateCategoryData body) as [[name description] | e] eqn:Hdata;
    [| left; split; [reflexivity | discriminate]].
  unfold category_update.
  destruct (categories db !! id) as [existing |] eqn:Hrow;
    [| left; split; [reflexivity | discriminate]].
  cbv zeta.
  destruct name as [n |].
  - destruct (nameTaken n (Some id) db) eqn:Htaken;
      [left; split; [reflexivity | discriminate] |].
    right. exists existing, (Some n), description.
    split; [reflexivity |]. split; [reflexivity |].
    split; [intros n' Hn; injection Hn as <-; exact Htaken |].
    split; reflexivity.
  - right. exists existing, None, description.
    split; [reflexivity |]. split; [reflexivity |].
    split; [intros n' Hn; discriminate Hn |].
    split; reflexivity.
Qed.

(** X20.  [createCategory] with a valid body whose name, once trimmed, is the
    name of a stored category is answered 409 CONFLICT and leaves the store
    as it was.  If no two stored categories have the same name, none have
    after [createCategory] and [updateCategory], for any body. *)
Theorem category_names_stay_unique (env : Env) (body : Json) (db : Db) :
  (forall newId name description,
     validateRequiredString (prop body "name") (str "name") = Ok name ->
     validateOptionalString (prop body "description") (str "description")
     = Ok description ->
     (exists k c, categories db !! k = Some c /\ cat_name c = name) ->
     finish env (answer (createCategory newId body db))
     = (409%Z, Some (str "CONFLICT"))
     /\ final (createCategory newId body db) = db)
  /\ (uniqueNames db ->
      (forall newId, uniqueNames (final (createCategory newId body db)))
      /\ (forall id, uniqueNames (final (updateCategory id body db)))).
Proof.
  split.
  - intros newId name description Hname Hdesc [k [c [Hk Hc]]].
    rewrite (createCategory_validated newId body db name description Hname Hdesc).
    unfold category_create.
    destruct (categories db !! newId); [split; reflexivity |].
    assert (Htaken : nameTaken name None db = true).
    { apply nameTaken_iff. exists k, c. repeat split; try assumption. discriminate. }
    rewrite Htaken. split; reflexivity.
  - intros Huniq. split.
    + intros newId.
      destruct (createCategory_store newId body db)
        as [[-> _] | [name [description [_ [_ [Hfresh [Htaken [_ ->]]]]]]]];
        [exact Huniq |].
      intros k1 k2 c1 c2. cbn. rewrite !lookup_insert.
      assert (Hfree : forall k c, categories db !! k = Some c -> cat_name c <> name).
      { intros k c Hk Hc.
        assert (Ht : nameTaken name None db = true).
        { apply nameTaken_iff. exists k, c. repeat split; try assumption.
          discriminate. }
        congruence. }
      repeat case_decide; subst.
      * intros _ _ _. reflexivity.
      * intros Heq Hk2 Hn. injection Heq as <-. cbn in Hn.
        exfalso. apply (Hfree k2 c2 Hk2). symmetry. exact Hn.
      * intros Hk1 Heq Hn. injection Heq as <-. cbn in Hn.
        exfalso. apply (Hfree k1 c1 Hk1). exact Hn.
      * apply Huniq.
    + intros id.
      destruct (updateCategory_store id body db)
        as [[-> _] | [existing [name [description [_ [Hrow [Htaken [_ ->]]]]]]]];
        [exact Huniq |].
      intros k1 k2 c1 c2. cbn. rewrite !lookup_insert.
      assert (Hfree : forall k c, categories db !! k = Some c -> k <> id ->
                        cat_name c <> default (cat_name existing) name).
      { intros k c Hk Hne Hc. destruct name as [n |]; cbn [default] in Hc.
        - assert (Ht : nameTaken n (Some id) db = true).
          { apply nameTaken_iff. exists k, c. repeat split; try assumption.
            congruence. }
          rewrite (Htaken n eq_refl) in Ht. discriminate Ht.
        - apply Hne. exact (Huniq k id c existing Hk Hrow Hc). }
      repeat case_decide; subst.
      * intros _ _ _. reflexivity.
      * intros Heq Hk2 Hn. injection Heq as <-. cbn in Hn.
        exfalso. apply (Hfree k2 c2 Hk2); [congruence |]. symmetry. exact Hn.
      * intros Hk1 Heq Hn. injection Heq as <-. cbn in Hn.
        exfalso. apply (Hfree k1 c1 Hk1); [congruence |]. exact Hn.
      * apply Huniq.
Qed.

End Categories.

Section CategoryUpdates.
Local Open Scope N_scope.

Lemma updateCategoryData_ok (body : Json) (name : option jsstring)
  (description : option (option jsstring)) :
  updateCategoryData body = Ok (name, description) ->
  match prop body "name" with
  | None => name = None
  | Some (JString s) => name = Some (trim s) /\ trim s <> []
  | Some _ => False
  end
  /\ match prop body "description" with
     | None => description = None
     | Some JNull => description = Some None
     | Some (JString s) => description = Some (Some (trim s)) /\ trim s <> []
     | Some _ => False
     end.
Proof.
  unfold updateCategoryData. intros Hok.
  repeat step_bind. injection Hok as <- <-.
  rename E0 into Hname, E1 into Hdesc.
  split.
  - destruct (prop body "name") as [[| b | k | s | a | j] |];
      try discriminate Hname.
    + destruct o as [r |].
      * apply validateOptionalString_ok in Hname.
        destruct Hname as [s' [Hs [-> Hne]]]. injection Hs as <-.
        split; [reflexivity | exact Hne].
      * cbn in Hname. destruct (isEmpty (trim s)); discriminate Hname.
    + injection Hname as <-. reflexivity.
  - unfold nullOr in Hdesc.
    destruct (prop body "description") as [[| b | k | s | a | j] |];
      try discriminate Hdesc.
    + injection Hdesc as <-. reflexivity.
    + destruct (validateOptionalString (Some (JString s)) (str "description"))
        as [[r |] | e] eqn:Hv; cbn [bind] in Hdesc; try discriminate Hdesc;
        injection Hdesc as <-.
      * apply validateOptionalString_ok in Hv.
        destruct Hv as [s' [Hs [-> Hne]]]. injection Hs as <-.
        split; [reflexivity | exact Hne].
      * cbn in Hv. destruct (isEmpty (trim s)); discriminate Hv.
    + cbn in Hdesc. injection Hdesc as <-. reflexivity.
Qed.

(** X21.  An [updateCategory] that answers found the row and stores the row it
    answers with, which keeps the id.  The name is the old one when the body
    has no name, and the trimmed, non-empty name of the body when it has one.
    The description is the old one when the body has no description member,
    is cleared when the member is null, and is the trimmed, non-empty text
    when it is a string.  [createCategory], unlike it, does not answer for a
    null description. *)
Theorem updateCategory_description (id : jsstring) (body : Json) (db : Db)
  (resp : Response Category) :
  answer (updateCategory id body db) = inr resp ->
  exists existing,
    categories db !! id = Some existing
    /\ categories (final (updateCategory id body db)) !! id = Some (Express.body resp)
    /\ cat_id (Express.body resp) = cat_id existing
    /\ (prop body "name" = None ->
        cat_name (Express.body resp) = cat_name existing)
    /\ (forall s, prop body "name" = Some (JString s) ->
          cat_name (Express.body resp) = trim s /\ trim s <> [])
    /\ (prop body "description" = None ->
        cat_description (Express.body resp) = cat_description existing)
    /\ (prop body "description" = Some JNull ->
        cat_description (Express.body resp) = None)
    /\ (forall s, prop body "description" = Some (JString s) ->
          cat_description (Express.body resp) = Some (trim s) /\ trim s <> [])
    /\ (forall newId created,
          answer (createCategory newId body db) = inr created ->
          prop body "description" <> Some JNull).
Proof.
  intros Hres.
  destruct (updateCategory_store id body db)
    as [[_ Hno] | [existing [name [description [Hdata [Hrow [_ [Hanswer Hfinal]]]]]]]].
  { exfalso. apply (Hno resp), Hres. }
  rewrite Hanswer in Hres. injection Hres as <-. rewrite Hfinal.
  cbn [Express.body categories cat_id cat_name cat_description].
  exists existing.
  destruct (updateCategoryData_ok body name description Hdata) as [Hname Hdesc].
  split; [exact Hrow |]. split; [apply lookup_insert_eq |].
  split; [reflexivity |].
  split; [intros Hn; rewrite Hn in Hname; subst name; reflexivity |].
  split.
  { intros s Hs. rewrite Hs in Hname. destruct Hname as [-> Hne].
    split; [reflexivity | exact Hne]. }
  split; [intros Hn; rewrite Hn in Hdesc; subst description; reflexivity |].
  split; [intros Hn; rewrite Hn in Hdesc; subst description; reflexivity |].
  split.
  { intros s Hs. rewrite Hs in Hdesc. destruct Hdesc as [-> Hne].
    split; [reflexivity | exact Hne]. }
  intros newId created Hcreated Hnull.
  destruct (createCategory_store newId body db)
    as [[_ Hno] | [n [d [_ [Hd _]]]]].
  - apply (Hno created), Hcreated.
  - rewrite Hnull in Hd. discriminate Hd.
Qed.

End CategoryUpdates.

Section Blogs.
Context `{Host}.
Local Open Scope N_scope.

Lemma createBlog_store (newId : jsstring) (body : Json) (db : Db) :
  let r := createBlog newId body db in
  (final r = db /\ (forall resp, answer r <> inr resp)
   /\ (BlogModel, Create) ∉ queries r)
  \/ (final r = db /\ (forall resp, answer r <> inr resp)
      /\ answer r = inl (ThrownPrismaKnown (str "P2002") None))
  \/ exists title description images category,
       validateRequiredString (prop body "categoryId") (str "categoryId")
       = Ok category
       /\ is_Some (categories db !! category)
       /\ blogs db !! newId = None
       /\ answer r
          = inr (mkResponse 201
                   (viewOf db (mkBlog newId title description images category)))
       /\ final r
          = mkDb (experiences db) (categories db)
              (<[newId := mkBlog newId title description images category]> (blogs db)).
Proof.
  unfold createBlog.
  destruct (validateRequiredString (prop body "title") (str "title"))
    as [title | e]; cbn [bind];
    [| left; split; [reflexivity |]; split; [discriminate | apply not_elem_of_nil]].
  destruct (validateRequiredString (prop body "description") (str "description"))
    as [description | e]; cbn [bind];
    [| left; split; [reflexivity |]; split; [discriminate | apply not_elem_of_nil]].
  destruct (validateImageLinks (prop body "images") (str "images"))
    as [images | e]; cbn [bind];
    [| left; split; [reflexivity |]; split; [discriminate | apply not_elem_of_nil]].
  destruct (validateRequiredString (prop body "categoryId") (str "categoryId"))
    as [category | e] eqn:Hcat; cbn [bind];
    [| left; split; [reflexivity |]; split; [discriminate | apply not_elem_of_nil]].
  unfold ensureCategoryExists, blog_create.
  destruct (categories db !! category) as [c |] eqn:Hc.
  2:{ left. split; [reflexivity |]. split; [discriminate |].
      apply not_elem_of_cons. split; [discriminate | apply not_elem_of_nil]. }
  destruct (blogs db !! newId) eqn:Hnew.
  { right; left. split; [reflexivity |]. split; [discriminate | reflexivity]. }
  right; right. exists title, description, (stringsOf images), category.
  split; [reflexivity |]. split; [eexists; exact Hc |]. split; [reflexivity |].
  split; reflexivity.
Qed.

Lemma updateBlog_store (id : jsstring) (body : Json) (db : Db) :
  let r := updateBlog id body db in
  (final r = db /\ (forall resp, answer r <> inr resp)
   /\ (BlogModel, Update id) ∉ queries r)
  \/ exists existing title description images category,
       blogs db !! id = Some existing
       /\ validateOptionalString (prop body "categoryId") (str "categoryId")
          = Ok category
       /\ (forall c, category = Some c -> is_Some (categories db !! c))
       /\ let row :=
            mkBlog (blog_id existing) (default (blog_title existing) title)
              (default (blog_description existing) description)
              (default (blog_images existing) images)
              (default (categoryId existing) category) in
          answer r = inr (mkResponse 200 (viewOf db row))
          /\ final r
             = mkDb (experiences db) (categories db) (<[id := row]> (blogs db)).
Proof.
  unfold updateBlog, updateBlogData.
  destruct (requireAtLeastOneField body _) as [u | e]; cbn [bind];
    [| left; split; [reflexivity |]; split; [discriminate | apply not_elem_of_nil]].
  destruct (validateOptionalString (prop body "title") (str "title"))
    as [title | e]; cbn [bind];
    [| left; split; [reflexivity |]; split; [discriminate | apply not_elem_of_nil]].
  destruct (validateOptionalString (prop body "description") (str "description"))
    as [description | e]; cbn [bind];
    [| left; split; [reflexivity |]; split; [discriminate | apply not_elem_of_nil]].
  destruct (validateOptionalImageLinks (prop body "images") (str "images"))
    as [images | e]; cbn [bind];
    [| left; split; [reflexivity |]; split; [discriminate | apply not_elem_of_nil]].
  destruct (validateOptionalString (prop body "categoryId") (str "categoryId"))
    as [category | e] eqn:Hcat; cbn [bind];
    [| left; split; [reflexivity |]; split; [discriminate | apply not_elem_of_nil]].
  destruct (blogs db !! id) as [existing |] eqn:Hrow.
  2:{ left. split; [reflexivity |]. split; [discriminate |].
      apply not_elem_of_cons. split; [discriminate | apply not_elem_of_nil]. }
  unfold ensureCategoryExists, blog_update. rewrite Hrow. cbv zeta.
  cbn [categoryId].
  destruct category as [c |]; cbn [default from_option Datatypes.id].
  - destruct (categories db !! c) as [cat |] eqn:Hc.
    2:{ left. split; [reflexivity |]. split; [discriminate |].
        repeat (apply not_elem_of_cons; split; [discriminate |]).
        apply not_elem_of_nil. }
    right. exists existing, title, description, (option_map stringsOf images),
      (Some c).
    split; [reflexivity |]. split; [reflexivity |].
    split; [intros c' Hc'; injection Hc' as <-; eexists; exact Hc |].
    cbn [default from_option Datatypes.id].
    split; reflexivity.
  - right. exists existing, title, description, (option_map stringsOf images),
      None.
    split; [reflexivity |]. split; [reflexivity |].
    split; [intros c' Hc'; discriminate Hc' |].
    cbn [default from_option Datatypes.id].
    split; reflexivity.
Qed.

End Blogs.

Section BlogCategories.
Context `{Host}.
Local Open Scope N_scope.

Lemma finish_bad_request {A B} (env : Env) (m : throws A) (e : AppError) :
  onlyBadRequest m -> m = Throw e ->
  finish (A := B) env (inl (ThrownAppError e)) = (400%Z, Some (str "BAD_REQUEST")).
Proof.
  intros Hm He. destruct (Hm e He) as [msg ->]. reflexivity.
Qed.


Lemma refIntegrity_blogs (db : Db) (blogs' : gmap jsstring Blog) :
  refIntegrity db ->
  (forall k b, blogs' !! k = Some b ->
     blogs db !! k = Some b \/ is_Some (categories db !! categoryId b)) ->
  refIntegrity (mkDb (experiences db) (categories db) blogs').
Proof.
  intros Hint Hnew k b Hk. cbn in Hk |- *.
  destruct (Hnew k b Hk) as [Hold | Hsome]; [apply (Hint k b Hold) | exact Hsome].
Qed.

Lemma refIntegrity_categories (db : Db) (categories' : gmap jsstring Category) :
  refIntegrity db ->
  (forall k b, blogs db !! k = Some b ->
     is_Some (categories db !! categoryId b) ->
     is_Some (categories' !! categoryId b)) ->
  refIntegrity (mkDb (experiences db) categories' (blogs db)).
Proof.
  intros Hint Hkeep k b Hk. cbn in Hk |- *.
  apply (Hkeep k b Hk), (Hint k b Hk).
Qed.

(** X23.  If every stored blog belongs to a stored category, this still holds
    after [createBlog], [updateBlog], [deleteBlog], [createCategory],
    [updateCategory] and [deleteCategory], for any body and id: in
    particular [deleteCategory] never removes a category a blog refers
    to. *)
Theorem blogs_keep_their_category (body : Json) (db : Db) :
  refIntegrity db ->
  (forall newId, refIntegrity (final (createBlog newId body db)))
  /\ (forall id, refIntegrity (final (updateBlog id body db)))
  /\ (forall id, refIntegrity (final (deleteBlog id db)))
  /\ (forall newId, refIntegrity (final (createCategory newId body db)))
  /\ (forall id, refIntegrity (final (updateCategory id body db)))
  /\ (forall id, refIntegrity (store (deleteCategory id db))).
Proof.
  intros Hint.
  split; [| split; [| split; [| split; [| split]]]].
  - intros newId.
    destruct (createBlog_store newId body db)
      as [[-> _] | [[-> _] | [t [d [i [c [_ [Hsome [_ [_ ->]]]]]]]]]];
      try exact Hint.
    apply refIntegrity_blogs; [exact Hint |].
    intros k b. rewrite lookup_insert. case_decide; [| left; assumption].
    intros Heq. injection Heq as <-. right. exact Hsome.
  - intros id.
    destruct (updateBlog_store id body db)
      as [[-> _] | [ex [t [d [i [c [Hrow [_ [Hsome [_ ->]]]]]]]]]];
      try exact Hint.
    apply refIntegrity_blogs; [exact Hint |].
    intros k b. rewrite lookup_insert. case_decide; [| left; assumption].
    intros Heq. injection Heq as <-. right. cbn [categoryId].
    destruct c as [c |]; cbn [default from_option Datatypes.id];
      [apply (Hsome c eq_refl) | apply (Hint id ex Hrow)].
  - intros id. unfold deleteBlog, blog_delete.
    destruct (blogs db !! id) as [existing |]; [| exact Hint]. cbn.
    apply refIntegrity_blogs; [exact Hint |].
    intros k b. rewrite lookup_delete. case_decide; [discriminate | left; assumption].
  - intros newId.
    destruct (createCategory_store newId body db)
      as [[-> _] | [name [description [_ [_ [Hfresh [_ [_ ->]]]]]]]];
      [exact Hint |].
    apply refIntegrity_categories; [exact Hint |].
    intros k b _ [c Hc]. rewrite lookup_insert. case_decide; eauto.
  - intros id.
    destruct (updateCategory_store id body db)
      as [[-> _] | [existing [name [description [_ [Hrow [_ [_ ->]]]]]]]];
      [exact Hint |].
    apply refIntegrity_categories; [exact Hint |].
    intros k b _ [c Hc]. rewrite lookup_insert. case_decide; eauto.
  - intros id. unfold deleteCategory, category_findUnique, category_delete.
    destruct (categories db !! id) as [c |] eqn:Hc; [| exact Hint].
    destruct (0 <? countBlogs id db) eqn:Hcount; [exact Hint |]. cbn.
    apply refIntegrity_categories; [exact Hint |].
    intros k b Hk Hsome. rewrite lookup_delete.
    case_decide as Heq; [| exact Hsome].
    exfalso. apply N.ltb_ge in Hcount.
    assert (Hpos : 0 < countBlogs id db).
    { apply countBlogs_pos_iff. exists k, b. split; [exact Hk | congruence]. }
    lia.
Qed.

End BlogCategories.

Lemma uniqueNames_refCatalog : uniqueNames refCatalog.
Proof.
  intros k1 k2 c1 c2 H1 H2 _. unfold refCatalog in H1, H2.
  cbn [categories] in H1, H2.
  apply lookup_singleton_Some in H1 as [<- _].
  apply lookup_singleton_Some in H2 as [<- _]. reflexivity.
Qed.

Lemma refIntegrity_refCatalog : refIntegrity refCatalog.
Proof.
  intros k b Hb. unfold refCatalog in Hb. cbn [blogs] in Hb.
  apply lookup_singleton_Some in Hb as [_ <-].
  exists refCategory. reflexivity.
Qed.

Lemma category_names_stay_unique_witness :
  let body := JObject [(str "name", JString (str " Development "))] in
  finish refEnv (answer (createCategory (str "cat-2") body refCatalog))
  = (409%Z, Some (str "CONFLICT"))
  /\ uniqueNames (final (updateCategory (str "cat-1") body refCatalog)).
Proof.
  intros body.
  destruct (category_names_stay_unique refEnv body refCatalog) as [Hclash Hkeeps].
  split.
  - apply (Hclash (str "cat-2") (str "Development") None);
      [reflexivity | reflexivity |].
    exists (str "cat-1"), refCategory. split; reflexivity.
  - apply (Hkeeps uniqueNames_refCatalog).
Defined.

Lemma updateCategory_description_witness :
  let body := JObject [(str "description", JNull)] in
  exists resp,
    answer (updateCategory (str "cat-1") body refCatalog) = inr resp
    /\ cat_name (Express.body resp) = str "Development"
    /\ cat_description (Express.body resp) = None.
Proof.
  intros body. eexists. split; [vm_compute; reflexivity |].
  match goal with
  | |- cat_name (Express.body ?resp) = _ /\ _ =>
      destruct (updateCategory_description (str "cat-1") body refCatalog resp)
        as [existing [Hold [_ [_ [Hname [_ [_ [Hnull _]]]]]]]]
  end.
  - vm_compute. reflexivity.
  - unfold refCatalog in Hold. cbn [categories] in Hold.
    apply lookup_singleton_Some in Hold as [_ <-].
    split; [apply Hname | apply Hnull]; reflexivity.
Defined.


Lemma blogs_keep_their_category_witness :
  refIntegrity (store (deleteCategory (str "cat-1") refCatalog))
  /\ categories (store (deleteCategory (str "cat-1") refCatalog)) !! str "cat-1"
     = Some refCategory.
Proof.
  split; [| reflexivity].
  destruct (blogs_keep_their_category (H := refHost) JNull refCatalog
              refIntegrity_refCatalog) as [_ [_ [_ [_ [_ Hdelete]]]]].
  apply Hdelete.
Defined.

(** ** Logging in *)

Section LoggingIn.
Context `{Host} `{Credentials}.
Local Open Scope N_scope.

Lemma startsWith_app (p s : jsstring) : startsWith (p ++ s) p = true.
Proof.
  induction p as [| c p IH]; [destruct s; reflexivity |].
  cbn [app startsWith]. rewrite N.eqb_refl. exact IH.
Qed.

(** X24.  With a JWT library whose [verify] returns the subject and the email of
    a token that [sign] made with the same secret, a token that
    [signAccessToken] returns for a payload is verified by
    [verifyAccessToken] to that payload, and [requireAuth] lets a request
    through, with the payload attached, when its header is Bearer, a space
    and the token, provided the token is not empty and has no white space at
    its ends. *)
Theorem signed_token_verifies (env : Env) (payload : AccessTokenPayload)
  (token : jsstring) :
  (forall secret expires,
     jwt_sign (email_ payload) secret
       (mkSignOptions expires (userId payload) (str "HS256")) = inr token ->
     jwt_verify token secret
     = inr (mkJwtPayload (Some (JString (userId payload)))
              (Some (JString (email_ payload))))) ->
  signAccessToken env payload = inr token ->
  verifyAccessToken env token = inr payload
  /\ (trim token = token -> token <> [] ->
      requireAuth env (Some (str "Bearer " ++ token)) = NextWithAuth payload).
Proof.
  intros Hlaw Hsign.
  assert (Hverify : verifyAccessToken env token = inr payload).
  { unfold signAccessToken in Hsign. unfold verifyAccessToken.
    destruct (getJwtConfig env) as [msg | cfg]; [discriminate Hsign |].
    cbv zeta in Hsign. rewrite (Hlaw _ _ Hsign). cbn.
    destruct payload; reflexivity. }
  split; [exact Hverify |].
  intros Htrim Hne. unfold requireAuth.
  assert (Htruthy : truthy_str (str "Bearer " ++ token) = true) by reflexivity.
  rewrite Htruthy, startsWith_app. cbn [negb orb].
  change (slice (str "Bearer " ++ token) (List.length (str "Bearer ")))
    with token.
  rewrite Htrim.
  destruct token as [| c token']; [contradiction |].
  cbn [isEmpty truthy_str negb]. rewrite Hverify.
  destruct payload; reflexivity.
Qed.

(** What [login] does once the body passed validation. *)
Lemma login_validated (env : Env) (body : Json) (users : Users)
  (email password : jsstring) :
  validateRequiredString (prop body "email") (str "email") = Ok email ->
  validateRequiredString (prop body "password") (str "password") = Ok password ->
  login env body users
  = match users !! toLowerCase email with
    | None =>
        mkRan (inl INVALID_CREDENTIALS) users
          [(UserModel, FindUnique (toLowerCase email))]
    | Some user =>
        if negb (comparePassword password (passwordHash user))
        then mkRan (inl INVALID_CREDENTIALS) users
               [(UserModel, FindUnique (toLowerCase email))]
        else
          match signAccessToken env (mkAccess (user_id user) (user_email user)) with
          | inl msg =>
              mkRan (inl (ThrownError None msg)) users
                [(UserModel, FindUnique (toLowerCase email))]
          | inr token =>
              mkRan (inr (mkResponse 200
                            (mkLoginResponse token (user_id user) (user_email user))))
                users [(UserModel, FindUnique (toLowerCase email))]
          end
    end.
Proof.
  intros He Hp. unfold login. rewrite He. cbn [bind]. rewrite Hp. reflexivity.
Qed.

(** X25.  [login] with an email and a password that validate answers in the same
    way for an unknown email and for a wrong password: the same error is
    thrown, answered 401 UNAUTHORIZED with the message Invalid email or
    password, the users are unchanged, and the one query made is the lookup
    by the lower-cased email. *)
Theorem login_failures_are_indistinguishable (env : Env) (body : Json)
  (users : Users) (email password : jsstring) :
  validateRequiredString (prop body "email") (str "email") = Ok email ->
  validateRequiredString (prop body "password") (str "password") = Ok password ->
  users !! toLowerCase email = None
  \/ (exists user, users !! toLowerCase email = Some user
                   /\ comparePassword password (passwordHash user) = false) ->
  login env body users
  = mkRan (inl INVALID_CREDENTIALS) users
      [(UserModel, FindUnique (toLowerCase email))]
  /\ finish env (answer (login env body users))
     = (401%Z, Some (str "UNAUTHORIZED"))
  /\ errorHandler env INVALID_CREDENTIALS
     = mkResponse 401
         (mkEnvelope (str "UNAUTHORIZED") (str "Invalid email or password") None).
Proof.
  intros He Hp Hfail.
  assert (Hlogin : login env body users
                   = mkRan (inl INVALID_CREDENTIALS) users
                       [(UserModel, FindUnique (toLowerCase email))]).
  { rewrite (login_validated env body users email password He Hp).
    destruct Hfail as [-> | [user [-> Hcmp]]]; [reflexivity |].
    rewrite Hcmp. reflexivity. }
  split; [exact Hlogin |]. rewrite Hlogin. split; reflexivity.
Qed.

(** X26.  [login] reads the email and the password of a body only through the
    trimmed, lower-cased email and the trimmed password: two bodies with
    non-blank emails that normalise to the same email, and passwords that
    trim to the same text, run in the same way, and the user is looked up by
    the normalised email. *)
Theorem login_normalizes_credentials (env : Env) (body body' : Json)
  (users : Users) (e p e' p' : jsstring) :
  prop body "email" = Some (JString e) ->
  prop body "password" = Some (JString p) ->
  prop body' "email" = Some (JString e') ->
  prop body' "password" = Some (JString p') ->
  trim e <> [] -> trim e' <> [] ->
  normalizeEmail e = normalizeEmail e' ->
  trim p = trim p' ->
  login env body users = login env body' users
  /\ (trim p <> [] ->
      queries (login env body users) = [(UserModel, FindUnique (normalizeEmail e))]).
Proof.
  intros He Hp He' Hp' Hne Hne' Hemail Hpass.
  assert (Hv : validateRequiredString (prop body "email") (str "email")
               = Ok (trim e)).
  { apply validateRequiredString_ok. exists e. repeat split; assumption. }
  assert (Hv' : validateRequiredString (prop body' "email") (str "email")
                = Ok (trim e')).
  { apply validateRequiredString_ok. exists e'. repeat split; assumption. }
  destruct (decide (trim p = [])) as [Hblank | Hfull].
  - split; [| contradiction].
    unfold login. rewrite Hv, Hv'. cbn [bind]. rewrite Hp, Hp'.
    unfold validateRequiredString. rewrite <- Hpass, Hblank. reflexivity.
  - assert (Hw : validateRequiredString (prop body "password") (str "password")
                 = Ok (trim p)).
    { apply validateRequiredString_ok. exists p. repeat split; assumption. }
    assert (Hw' : validateRequiredString (prop body' "password") (str "password")
                  = Ok (trim p)).
    { apply validateRequiredString_ok. exists p'.
      split; [exact Hp' |]. split; [exact Hpass | exact Hfull]. }
    rewrite (login_validated env body users _ _ Hv Hw).
    rewrite (login_validated env body' users _ _ Hv' Hw').
    unfold normalizeEmail in Hemail. rewrite <- Hemail.
    split; [reflexivity |]. intros _.
    destruct (users !! toLowerCase (trim e)) as [user |]; [| reflexivity].
    destruct (negb _); [reflexivity |].
    destruct (signAccessToken _ _); reflexivity.
Qed.

(** X27.  With a password library that accepts a password against its own hash,
    and a [toLowerCase] that keeps the empty string empty: after
    [upsertSeedAdminUser] has run, the users table has a row for the
    normalised seed email with the hash of the trimmed seed password, and
    [login] with the seed email and password as they are configured
    (untrimmed, in any case) is not answered Invalid email or password; it
    answers 200 with the token and that user whenever [signAccessToken]
    returns a token for the user. *)
Theorem seeded_admin_can_log_in (senv : SeedEnv) (env : Env) (newId : jsstring)
  (users seeded : Users) (body : Json) :
  (forall password, comparePassword password (hashPassword password) = true) ->
  toLowerCase [] = [] ->
  upsertSeedAdminUser senv newId users = inr seeded ->
  prop body "email"
  = Some (JString (orDefault (SEED_ADMIN_EMAIL senv) DEFAULT_SEED_EMAIL)) ->
  prop body "password"
  = Some (JString (orDefault (SEED_ADMIN_PASSWORD senv) DEFAULT_SEED_PASSWORD)) ->
  exists user,
    seeded !! normalizeEmail (orDefault (SEED_ADMIN_EMAIL senv) DEFAULT_SEED_EMAIL)
    = Some user
    /\ passwordHash user
       = hashPassword (trim (orDefault (SEED_ADMIN_PASSWORD senv) DEFAULT_SEED_PASSWORD))
    /\ answer (login env body seeded) <> inl INVALID_CREDENTIALS
    /\ (forall token,
          signAccessToken env (mkAccess (user_id user) (user_email user))
          = inr token ->
          answer (login env body seeded)
          = inr (mkResponse 200
                   (mkLoginResponse token (user_id user) (user_email user)))).
Proof.
  intros Hcompare Hlower Hseed Hemail Hpassword.
  unfold upsertSeedAdminUser, resolveSeedCredentials in Hseed. cbv zeta in Hseed.
  set (rawEmail := orDefault (SEED_ADMIN_EMAIL senv) DEFAULT_SEED_EMAIL) in *.
  set (rawPassword := orDefault (SEED_ADMIN_PASSWORD senv) DEFAULT_SEED_PASSWORD) in *.
  destruct (isEmpty (normalizeEmail rawEmail)) eqn:He; [discriminate Hseed |].
  destruct (isEmpty (trim rawPassword)) eqn:Hp; [discriminate Hseed |].
  injection Hseed as <-.
  assert (Hne : trim rawEmail <> []).
  { intros Hnil. unfold normalizeEmail in He. rewrite Hnil, Hlower in He.
    discriminate He. }
  assert (Hpne : trim rawPassword <> []).
  { intros Hnil. rewrite Hnil in Hp. discriminate Hp. }
  assert (Hv : validateRequiredString (prop body "email") (str "email")
               = Ok (trim rawEmail)).
  { apply validateRequiredString_ok. exists rawEmail. repeat split; assumption. }
  assert (Hw : validateRequiredString (prop body "password") (str "password")
               = Ok (trim rawPassword)).
  { apply validateRequiredString_ok. exists rawPassword. repeat split; assumption. }
  rewrite (login_validated env body _ _ _ Hv Hw).
  change (toLowerCase (trim rawEmail)) with (normalizeEmail rawEmail).
  unfold user_upsert.
  destruct (users !! normalizeEmail rawEmail) as [old |] eqn:Hold;
    (eexists; rewrite lookup_insert_eq; split; [reflexivity |];
     cbn [user_id user_email passwordHash]; rewrite Hcompare; cbn [negb];
     split; [reflexivity |]; split;
     [destruct (signAccessToken _ _); discriminate
     | intros token ->; reflexivity]).
Qed.

End LoggingIn.

Lemma signed_token_verifies_witness :
  requireAuth (H := refHost) refEnv (Some (str "Bearer header.payload.signature"))
  = NextWithAuth (mkAccess (str "user-1") (str "dwikis17@gmail.com")).
Proof.
  destruct (signed_token_verifies (H := refHost) (H0 := refCredentials) refEnv
              (mkAccess (str "user-1") (str "dwikis17@gmail.com"))
              (str "header.payload.signature")) as [_ Hgate].
  - intros secret expires Hsigned. cbn in Hsigned. unfold refJwtSign in Hsigned.
    cbn [jwt_verify refHost]. unfold refJwtVerify.
    destruct (bool_decide (secret = str "test-jwt-secret"));
      [reflexivity |].
    rewrite andb_false_r in Hsigned. discriminate Hsigned.
  - reflexivity.
  - apply Hgate; [reflexivity | discriminate].
Defined.

Lemma login_failures_are_indistinguishable_witness :
  let unknown :=
    JObject [(str "email", JString (str "nobody@example.com"));
             (str "password", JString (str "Password1!"))] in
  let wrong :=
    JObject [(str "email", JString (str "dwikis17@gmail.com"));
             (str "password", JString (str "guess"))] in
  let users : Users :=
    {[ str "dwikis17@gmail.com" :=
         mkUser (str "user-1") (str "dwikis17@gmail.com") (str "hash:Password1!") ]} in
  answer (login (H := refHost) (H0 := refCredentials) refEnv unknown users)
  = answer (login (H := refHost) (H0 := refCredentials) refEnv wrong users).
Proof.
  intros unknown wrong users.
  destruct (login_failures_are_indistinguishable (H := refHost)
              (H0 := refCredentials) refEnv unknown users
              (str "nobody@example.com") (str "Password1!"))
    as [Hunknown _]; [reflexivity | reflexivity | left; reflexivity |].
  destruct (login_failures_are_indistinguishable (H := refHost)
              (H0 := refCredentials) refEnv wrong users
              (str "dwikis17@gmail.com") (str "guess"))
    as [Hwrong _]; [reflexivity | reflexivity | |].
  - right. eexists. split; reflexivity.
  - rewrite Hunknown, Hwrong. reflexivity.
Defined.

Lemma login_normalizes_credentials_witness :
  let padded :=
    JObject [(str "email", JString (str " Dwikis17@Gmail.com "));
             (str "password", JString (str " Password1! "))] in
  let plain :=
    JObject [(str "email", JString (str "dwikis17@gmail.com"));
             (str "password", JString (str "Password1!"))] in
  let users : Users :=
    {[ str "dwikis17@gmail.com" :=
         mkUser (str "user-1") (str "dwikis17@gmail.com") (str "hash:Password1!") ]} in
  login (H := refHost) (H0 := refCredentials) refEnv padded users
  = login (H := refHost) (H0 := refCredentials) refEnv plain users
  /\ finish refEnv
       (answer (login (H := refHost) (H0 := refCredentials) refEnv padded users))
     = (200%Z, None).
Proof.
  intros padded plain users. split; [| reflexivity].
  apply (login_normalizes_credentials (H := refHost) (H0 := refCredentials)
           refEnv padded plain users
           (str " Dwikis17@Gmail.com ") (str " Password1! ")
           (str "dwikis17@gmail.com") (str "Password1!"));
    try reflexivity; vm_compute; discriminate.
Defined.

Lemma seeded_admin_can_log_in_witness :
  let body :=
    JObject [(str "email", JString (str "  DWIKIS17@GMAIL.COM "));
             (str "password", JString (str "Password1!"))] in
  exists seeded,
    upsertSeedAdminUser (H := refHost) (H0 := refCredentials) refSeedEnv
      (str "user-1") ∅ = inr seeded
    /\ answer (login (H := refHost) (H0 := refCredentials) refEnv body seeded)
       = inr (mkResponse 200
                (mkLoginResponse (str "header.payload.signature") (str "user-1")
                   (str "dwikis17@gmail.com"))).
Proof.
  intros body. eexists. split; [vm_compute; reflexivity |].
  match goal with
  | |- answer (login _ _ ?seeded) = _ =>
      destruct (seeded_admin_can_log_in (H := refHost) (H0 := refCredentials)
                  refSeedEnv refEnv (str "user-1") ∅ seeded body)
        as [user [Hrow [_ [_ Hlogin]]]]
  end.
  - intros password. apply bool_decide_eq_true. reflexivity.
  - reflexivity.
  - vm_compute. reflexivity.
  - reflexivity.
  - reflexivity.
  - vm_compute in Hrow. injection Hrow as <-.
    apply Hlogin. reflexivity.
Defined.

(** ** Requests that fail *)

Section Failing.
Context `{Host}.
Local Open Scope N_scope.

Lemma requireAtLeastOneField_onlyBadRequest payload fields :
  onlyBadRequest (requireAtLeastOneField payload fields).
Proof. unfold requireAtLeastOneField. cbv zeta. only_bad_request. Qed.

Lemma nullOr_onlyBadRequest {A} (v : unknown)
  (validate : unknown -> throws (option A)) :
  onlyBadRequest (validate v) -> onlyBadRequest (nullOr v validate).
Proof.
  intros Hv. unfold nullOr.
  destruct v as [[| b | n | s | a | o] |]; try apply onlyBadRequest_Ok;
    (apply onlyBadRequest_bind; [exact Hv | intros r; apply onlyBadRequest_Ok]).
Qed.

Lemma updateProjectData_onlyBadRequest (body : Json) :
  onlyBadRequest (updateProjectData body).
Proof.
  unfold updateProjectData, validateOptionalHtmlField, validateOptionalYear,
    validateOptionalTags, validateOptionalExternalLinks, validateOptionalImageLinks.
  repeat first
    [ apply onlyBadRequest_Ok
    | apply requireAtLeastOneField_onlyBadRequest
    | apply validateOptionalStringWithMaxLength_onlyBadRequest
    | apply nullOr_onlyBadRequest; cbv beta
    | apply optional_onlyBadRequest
    | apply validateRequiredHtmlField_onlyBadRequest
    | apply validateRequiredYear_onlyBadRequest
    | apply validateTags_onlyBadRequest
    | apply validateExternalLinks_onlyBadRequest
    | apply validateImageLinks_onlyBadRequest
    | apply onlyBadRequest_bind; [| intros ?] ].
Qed.

Lemma updateCategoryData_onlyBadRequest (body : Json) :
  onlyBadRequest (updateCategoryData body).
Proof.
  unfold updateCategoryData.
  repeat first
    [ apply onlyBadRequest_Ok
    | apply requireAtLeastOneField_onlyBadRequest
    | apply nullOr_onlyBadRequest; cbv beta
    | apply validateOptionalString_onlyBadRequest
    | apply onlyBadRequest_bind; [| intros ?] ].
Qed.

Lemma updateBlogData_onlyBadRequest (body : Json) :
  onlyBadRequest (updateBlogData body).
Proof.
  unfold updateBlogData, validateOptionalImageLinks.
  repeat first
    [ apply onlyBadRequest_Ok
    | apply requireAtLeastOneField_onlyBadRequest
    | apply optional_onlyBadRequest
    | apply validateImageLinks_onlyBadRequest
    | apply validateOptionalString_onlyBadRequest
    | apply onlyBadRequest_bind; [| intros ?] ].
Qed.

(** X28.  What the update of a row that does not exist answers depends on the
    resource.  [updateExperience] looks the row up before it validates the
    fields, and answers 404 NOT_FOUND for any body that has one of the
    experience fields, valid or not.  [updateProject], [updateCategory] and
    [updateBlog] validate first: they answer 400 BAD_REQUEST for an invalid
    body and 404 NOT_FOUND for a valid one, the year of a project body, if
    it has one, being a value that [Number] converts. *)
Theorem update_of_unknown_row (env : Env) (id : jsstring) (body : Json)
  (db : Db) (projects : Projects) :
  (experiences db !! id = None ->
   requireAtLeastOneField body experienceFields = Ok tt ->
   finish env (result (updateExperience id body db))
   = (404%Z, Some (str "NOT_FOUND")))
  /\ (projects !! id = None ->
      converts (prop body "year") ->
      finish env (answer (updateProject id body projects))
      = match updateProjectData body with
        | Throw _ => (400%Z, Some (str "BAD_REQUEST"))
        | Ok _ => (404%Z, Some (str "NOT_FOUND"))
        end)
  /\ (categories db !! id = None ->
      finish env (answer (updateCategory id body db))
      = match updateCategoryData body with
        | Throw _ => (400%Z, Some (str "BAD_REQUEST"))
        | Ok _ => (404%Z, Some (str "NOT_FOUND"))
        end)
  /\ (blogs db !! id = None ->
      finish env (answer (updateBlog id body db))
      = match updateBlogData body with
        | Throw _ => (400%Z, Some (str "BAD_REQUEST"))
        | Ok _ => (404%Z, Some (str "NOT_FOUND"))
        end).
Proof.
  split; [| split; [| split]].
  - intros Hnone Hfield. unfold updateExperience, experience_findUnique.
    rewrite Hfield, Hnone. reflexivity.
  - intros Hnone _. unfold updateProject.
    destruct (updateProjectData body) as [data | e] eqn:Hdata.
    + rewrite Hnone. reflexivity.
    + cbn [answer].
      exact (finish_bad_request env _ e (updateProjectData_onlyBadRequest body) Hdata).
  - intros Hnone. unfold updateCategory.
    destruct (updateCategoryData body) as [[name description] | e] eqn:Hdata.
    + rewrite Hnone. reflexivity.
    + cbn [answer].
      exact (finish_bad_request env _ e (updateCategoryData_onlyBadRequest body) Hdata).
  - intros Hnone. unfold updateBlog.
    destruct (updateBlogData body) as [[[[title description] images] category] | e]
      eqn:Hdata.
    + rewrite Hnone. reflexivity.
    + cbn [answer].
      exact (finish_bad_request env _ e (updateBlogData_onlyBadRequest body) Hdata).
Qed.

(** X29.  A request that is not answered with a response changes nothing: for
    every body and id, when [createProject], [updateProject],
    [deleteProject], [createExperience], [updateExperience],
    [deleteExperience], [createCategory], [updateCategory],
    [deleteCategory], [createBlog], [updateBlog] or [deleteBlog] hands an
    error to the error handler, the store is as it was.  The four handlers
    that read one row by id never change the store. *)
Theorem failed_requests_change_nothing (body : Json) (db : Db)
  (projects : Projects) :
  (forall newId, keepsOnFailure (createProject newId body projects) projects)
  /\ (forall id, keepsOnFailure (updateProject id body projects) projects)
  /\ (forall id, keepsOnFailure (deleteProject id projects) projects)
  /\ (forall newId e,
        result (createExperience newId body db) = inl e ->
        store (createExperience newId body db) = db)
  /\ (forall id e,
        result (updateExperience id body db) = inl e ->
        store (updateExperience id body db) = db)
  /\ (forall id, keepsOnFailure (deleteExperience id db) db)
  /\ (forall newId, keepsOnFailure (createCategory newId body db) db)
  /\ (forall id, keepsOnFailure (updateCategory id body db) db)
  /\ (forall id e,
        result (deleteCategory id db) = inl e -> store (deleteCategory id db) = db)
  /\ (forall newId, keepsOnFailure (createBlog newId body db) db)
  /\ (forall id, keepsOnFailure (updateBlog id body db) db)
  /\ (forall id, keepsOnFailure (deleteBlog id db) db)
  /\ (forall id,
        final (getProjectById id projects) = projects
        /\ final (getExperienceById id db) = db
        /\ final (getCategoryById id db) = db
        /\ final (getBlogById id db) = db).
Proof.
  repeat match goal with |- _ /\ _ => split end.
  - intros newId e He.
    pose proof (createProject_store newId body projects) as Hs. cbv zeta in Hs.
    destruct Hs as [[Hs _] | (data & row & _ & _ & _ & Hans & _)];
      [exact Hs | rewrite Hans in He; discriminate He].
  - intros id e He.
    pose proof (updateProject_store id body projects) as Hs. cbv zeta in Hs.
    destruct Hs as [[Hs _] | (existing & data & _ & _ & Hans & _)];
      [exact Hs | rewrite Hans in He; discriminate He].
  - intros id e He. unfold deleteProject, project_delete in *.
    destruct (projects !! id); [discriminate He | reflexivity].
  - intros newId e He.
    pose proof (createExperience_store newId body db) as Hs. cbv zeta in Hs.
    destruct Hs as [[Hs _] | (data & row & _ & _ & _ & Hans & _)];
      [exact Hs | rewrite Hans in He; discriminate He].
  - intros id e He.
    pose proof (updateExperience_store id body db) as Hs. cbv zeta in Hs.
    destruct Hs as [[Hs _] | (existing & data & _ & _ & Hans & _)];
      [exact Hs | rewrite Hans in He; discriminate He].
  - intros id e He. unfold deleteExperience, experience_findUnique, experience_delete in *.
    destruct (experiences db !! id); [discriminate He | reflexivity].
  - intros newId e He.
    pose proof (createCategory_store newId body db) as Hs. cbv zeta in Hs.
    destruct Hs as [[Hs _] | (name & description & _ & _ & _ & _ & Hans & _)];
      [exact Hs | rewrite Hans in He; discriminate He].
  - intros id e He.
    pose proof (updateCategory_store id body db) as Hs. cbv zeta in Hs.
    destruct Hs as [[Hs _] | (existing & name & description & _ & _ & _ & Hans & _)];
      [exact Hs | rewrite Hans in He; discriminate He].
  - intros id e He. unfold deleteCategory, category_findUnique, category_delete in *.
    destruct (categories db !! id); [| reflexivity].
    destruct (0 <? countBlogs id db); [reflexivity | discriminate He].
  - intros newId e He.
    pose proof (createBlog_store newId body db) as Hs. cbv zeta in Hs.
    destruct Hs as [[Hs _] | [[Hs _] | (t & d & i & c & _ & _ & _ & Hans & _)]];
      [exact Hs | exact Hs | rewrite Hans in He; discriminate He].
  - intros id e He.
    pose proof (updateBlog_store id body db) as Hs. cbv zeta in Hs.
    destruct Hs as [[Hs _] | (ex & t & d & i & c & _ & _ & _ & Hans & _)];
      [exact Hs | rewrite Hans in He; discriminate He].
  - intros id e He. unfold deleteBlog, blog_delete in *.
    destruct (blogs db !! id); [discriminate He | reflexivity].
  - intros id. unfold getProjectById, getExperienceById, getCategoryById, getBlogById.
    destruct (projects !! id), (experience_findUnique id db),
      (category_findUnique id db), (blogs db !! id); repeat split.
Qed.

End Failing.

Lemma update_of_unknown_row_witness :
  let invalid := JObject [(str "year", JString (str "next year"))] in
  let valid := JObject [(str "title", JString (str "New title"))] in
  converts (prop invalid "year")
  /\ finish refEnv (answer (updateProject (H := refHost) (str "p9") invalid ∅))
     = (400%Z, Some (str "BAD_REQUEST"))
  /\ finish refEnv (answer (updateProject (H := refHost) (str "p9") valid ∅))
     = (404%Z, Some (str "NOT_FOUND"))
  /\ finish refEnv
       (result (updateExperience (H := refHost) (str "exp-9")
                  (JObject [(str "sortOrder", JString (str "first"))]) refDb))
     = (404%Z, Some (str "NOT_FOUND")).
Proof.
  intros invalid valid.
  destruct (update_of_unknown_row (H := refHost) refEnv (str "p9") invalid refDb ∅)
    as [_ [Hinvalid _]].
  destruct (update_of_unknown_row (H := refHost) refEnv (str "p9") valid refDb ∅)
    as [_ [Hvalid _]].
  destruct (update_of_unknown_row (H := refHost) refEnv (str "exp-9")
              (JObject [(str "sortOrder", JString (str "first"))]) refDb ∅)
    as [Hexperience _].
  split; [reflexivity |].
  split; [rewrite (Hinvalid eq_refl eq_refl); reflexivity |].
  split; [rewrite (Hvalid eq_refl I); reflexivity |].
  apply Hexperience; reflexivity.
Defined.

Lemma failed_requests_change_nothing_witness :
  let body := JObject [(str "name", JString (str "Development"))] in
  finish refEnv (answer (createCategory (str "cat-2") body refCatalog))
  = (409%Z, Some (str "CONFLICT"))
  /\ final (createCategory (str "cat-2") body refCatalog) = refCatalog.
Proof.
  intros body. split; [reflexivity |].
  destruct (failed_requests_change_nothing (H := refHost) body refCatalog ∅)
    as [_ [_ [_ [_ [_ [_ [Hcreate _]]]]]]].
  eapply Hcreate. vm_compute. reflexivity.
Defined.

